(** * BlockChess WebSocket server: queue, dispatcher and chain gateway

    A shallow embedding of the TypeScript services of the repository
    ([database.ts], [queue-service.ts], [transaction-processor.ts],
    [reward-service.ts], [sui-client.ts], [socket-server.ts] and the
    validation schemas), followed by the properties of the specification
    that are stated over it.

    Conventions of the embedding:
    - a table with a primary key is a finite map from the key to the other
      columns; tables read with [LIMIT 1] and no key are lists;
    - [async] code is a computation in the monad [M]: it reads the
      configuration, threads the world (database, chain, clock, fault plan,
      trace of observable effects) and may throw; what was written before a
      throw stays written;
    - every [pool.query] may fail: the world carries a fault plan that says
      which of the next queries throw;
    - the chain and the Sui SDK are outside the repository: their answers are
      read from the world ([Chain]) and from the environment ([Sdk]);
    - a string is the sequence of the bytes of its UTF-8 encoding: the white
      space of [trim] and of the class [\s] is that of ECMAScript, [length]
      counts UTF-16 code units, and [toLowerCase] changes the letters of
      ASCII only;
    - what runs between two [await]s is one atomic action: the tasks of the
      server (handlers, ticks, workers, clean-ups) are programs whose
      actions interleave ([Prog], [Tasks], [server_step]); the same code run
      without interruption is a computation in [M];
    - [logger] calls are not part of the model. *)

From Stdlib Require Import String Ascii ZArith Lia Bool List DecimalString.
From stdpp Require Import base option list gmap strings.

Local Open Scope string_scope.
Local Open Scope Z_scope.

(** ** JavaScript strings and values *)

Module JS.

(** [s.startsWith(p)] *)
Definition startsWith (p s : string) : bool := String.prefix p s.

(** [s.includes(sub)] *)
Fixpoint includes (sub s : string) : bool :=
  String.prefix sub s ||
  match s with
  | EmptyString => false
  | String _ s' => includes sub s'
  end.

(** [s.endsWith(suf)] *)
Fixpoint endsWith (suf s : string) : bool :=
  String.eqb s suf ||
  match s with
  | EmptyString => false
  | String _ s' => endsWith suf s'
  end.

Definition lower_ascii (c : ascii) : ascii :=
  let n := nat_of_ascii c in
  if (Nat.leb 65 n && Nat.leb n 90)%bool then ascii_of_nat (n + 32) else c.

(** [s.toLowerCase()] *)
Fixpoint toLowerCase (s : string) : string :=
  match s with
  | EmptyString => EmptyString
  | String c s' => String (lower_ascii c) (toLowerCase s')
  end.

(** The white space of ECMAScript ([WhiteSpace] and [LineTerminator],
    which is also the class [\s]): U+0009 to U+000D, U+0020, U+00A0,
    U+1680, U+2000 to U+200A, U+2028, U+2029, U+202F, U+205F, U+3000 and
    U+FEFF. [ws_bytes s] is the number of bytes of the white space
    character that [s] starts with, and [0] when it starts with none. *)
Definition ws_bytes (s : string) : nat :=
  match s with
  | EmptyString => 0
  | String c1 s1 =>
      let b1 := nat_of_ascii c1 in
      if (Nat.leb 9 b1 && Nat.leb b1 13)%bool || Nat.eqb b1 32 then 1
      else
        match s1 with
        | EmptyString => 0
        | String c2 s2 =>
            let b2 := nat_of_ascii c2 in
            if (Nat.eqb b1 194 && Nat.eqb b2 160)%bool then 2
            else
              match s2 with
              | EmptyString => 0
              | String c3 _ =>
                  let b3 := nat_of_ascii c3 in
                  if (Nat.eqb b1 225 && Nat.eqb b2 154 && Nat.eqb b3 128)%bool
                     || (Nat.eqb b1 226 && Nat.eqb b2 128
                         && ((Nat.leb 128 b3 && Nat.leb b3 138)
                             || Nat.eqb b3 168 || Nat.eqb b3 169
                             || Nat.eqb b3 175))%bool
                     || (Nat.eqb b1 226 && Nat.eqb b2 129 && Nat.eqb b3 159)%bool
                     || (Nat.eqb b1 227 && Nat.eqb b2 128 && Nat.eqb b3 128)%bool
                     || (Nat.eqb b1 239 && Nat.eqb b2 187 && Nat.eqb b3 191)%bool
                  then 3
                  else 0
              end
        end
  end.

(** [skip] is the number of bytes that are left of the white space
    character being passed over *)
Fixpoint trimStart_from (skip : nat) (s : string) : string :=
  match s with
  | EmptyString => EmptyString
  | String _ s' =>
      match skip with
      | S k => trimStart_from k s'
      | O =>
          match ws_bytes s with
          | O => s
          | S k => trimStart_from k s'
          end
      end
  end.

Definition trimStart (s : string) : string := trimStart_from 0 s.

(** a string of white space only *)
Definition is_blank (s : string) : bool := String.eqb (trimStart s) EmptyString.

Fixpoint trimEnd (s : string) : string :=
  match s with
  | EmptyString => EmptyString
  | String c s' => if is_blank s then EmptyString else String c (trimEnd s')
  end.

(** [s.trim()] *)
Definition trim (s : string) : string := trimEnd (trimStart s).

(** [s.split(/\s+/)]: [cur] is the token being read, [in_ws] tells that
    the previous character was white space, [skip] is the number of bytes
    that are left of the white space character being passed over. *)
Fixpoint split_ws_from (skip : nat) (s cur : string) (in_ws : bool) : list string :=
  match s with
  | EmptyString => [cur]
  | String c s' =>
      match skip with
      | S k => split_ws_from k s' cur in_ws
      | O =>
          match ws_bytes s with
          | O => split_ws_from 0 s' (cur ++ String c EmptyString) false
          | S k =>
              if in_ws then split_ws_from k s' cur true
              else cur :: split_ws_from k s' EmptyString true
          end
      end
  end.

Definition split_ws (s : string) : list string :=
  split_ws_from 0 s EmptyString false.

(** [s.length]: the number of UTF-16 code units, one for a character of
    one to three bytes and two for a character of four *)
Fixpoint length (s : string) : nat :=
  match s with
  | EmptyString => 0
  | String c s' =>
      let b := nat_of_ascii c in
      (if Nat.ltb b 128 then 1
       else if Nat.ltb b 192 then 0
       else if Nat.ltb b 240 then 1
       else 2) + length s'
  end.

Definition is_hex_digit (c : ascii) : bool :=
  let n := nat_of_ascii c in
  (Nat.leb 48 n && Nat.leb n 57)%bool
  || (Nat.leb 97 n && Nat.leb n 102)%bool
  || (Nat.leb 65 n && Nat.leb n 70)%bool.

Fixpoint all_hex (s : string) : bool :=
  match s with
  | EmptyString => true
  | String c s' => is_hex_digit c && all_hex s'
  end.

(** [/^[0-9a-fA-F]{64}$/.test(s)] *)
Definition is_hex64 (s : string) : bool :=
  Nat.eqb (String.length s) 64 && all_hex s.

(** [s.slice(n)] *)
Fixpoint slice (n : nat) (s : string) : string :=
  match n, s with
  | O, _ => s
  | S n', String _ s' => slice n' s'
  | S _, EmptyString => EmptyString
  end.

(** the decimal text of an integer *)
Definition Z_to_string (z : Z) : string :=
  NilZero.string_of_int (Z.to_int z).

(** The JSON values that the payloads of this program hold. *)
Inductive json : Type :=
| JNull
| JBool (b : bool)
| JNum (z : Z)
| JStr (s : string).

(** truthiness of a string, and of a value *)
Definition truthy_string (s : string) : bool :=
  negb (String.eqb s EmptyString).

Definition truthy (v : json) : bool :=
  match v with
  | JNull => false
  | JBool b => b
  | JNum z => negb (z =? 0)
  | JStr s => truthy_string s
  end.

(** truthiness of [string | null | undefined] *)
Definition truthy_opt (o : option string) : bool :=
  match o with
  | Some s => truthy_string s
  | None => false
  end.

(** [o || null] on [string | null | undefined] *)
Definition or_null (o : option string) : option string :=
  if truthy_opt o then o else None.

(** the text of a value, as [->>] gives it and as a query parameter is
    sent; SQL [NULL] for JSON [null] *)
Definition text (v : json) : option string :=
  match v with
  | JNull => None
  | JBool true => Some "true"
  | JBool false => Some "false"
  | JNum z => Some (Z_to_string z)
  | JStr s => Some s
  end.

(** SQL equality of two nullable texts used as a [WHERE] condition: it
    holds only when both are non-null and equal. *)
Definition sql_eq (a b : option string) : bool :=
  match a, b with
  | Some x, Some y => String.eqb x y
  | _, _ => false
  end.

End JS.

(** ** The types of [types/index.ts] *)

Inductive TransactionType : Type :=
| create_game
| make_move
| end_game
| mint_nft.

Inductive TransactionStatus : Type :=
| pending
| processing
| completed
| failed
| waiting_for_object_id.

#[global] Instance TransactionType_eq_dec : EqDecision TransactionType.
Proof. solve_decision. Defined.

#[global] Instance TransactionStatus_eq_dec : EqDecision TransactionStatus.
Proof. solve_decision. Defined.

#[global] Instance json_eq_dec : EqDecision JS.json.
Proof. solve_decision. Defined.

(** The columns of [transaction_queue] other than the primary key [id]. *)
Record QueueRow : Type := mkRow {
  transaction_type : TransactionType;
  player_sui_address : option string;
  game_id : option string;
  player_id : option string;
  status : TransactionStatus;
  transaction_data : gmap string JS.json;
  error_message : option string;
  created_at : Z;
  updated_at : Z;
  processed_at : option Z;
  retries : Z
}.

(** [TransactionQueueItem]: a row read back with its key. *)
Record TransactionQueueItem : Type := mkItem {
  id : string;
  columns : QueueRow
}.

Definition with_status (s : TransactionStatus) (r : QueueRow) : QueueRow :=
  mkRow (transaction_type r) (player_sui_address r) (game_id r) (player_id r)
        s (transaction_data r) (error_message r) (created_at r) (updated_at r)
        (processed_at r) (retries r).

Definition with_error_message (e : option string) (r : QueueRow) : QueueRow :=
  mkRow (transaction_type r) (player_sui_address r) (game_id r) (player_id r)
        (status r) (transaction_data r) e (created_at r) (updated_at r)
        (processed_at r) (retries r).

Definition with_updated_at (t : Z) (r : QueueRow) : QueueRow :=
  mkRow (transaction_type r) (player_sui_address r) (game_id r) (player_id r)
        (status r) (transaction_data r) (error_message r) (created_at r) t
        (processed_at r) (retries r).

Definition with_processed_at (t : option Z) (r : QueueRow) : QueueRow :=
  mkRow (transaction_type r) (player_sui_address r) (game_id r) (player_id r)
        (status r) (transaction_data r) (error_message r) (created_at r)
        (updated_at r) t (retries r).

Definition with_retries (n : Z) (r : QueueRow) : QueueRow :=
  mkRow (transaction_type r) (player_sui_address r) (game_id r) (player_id r)
        (status r) (transaction_data r) (error_message r) (created_at r)
        (updated_at r) (processed_at r) n.

Definition with_transaction_data (d : gmap string JS.json) (r : QueueRow) : QueueRow :=
  mkRow (transaction_type r) (player_sui_address r) (game_id r) (player_id r)
        (status r) d (error_message r) (created_at r)
        (updated_at r) (processed_at r) (retries r).

(** The other tables and the views the program reads. *)
Record PlayerRow : Type := mkPlayer {
  player_row_id : string;
  sui_address : string
}.

Record RewardRow : Type := mkReward {
  reward_type : option string;
  reward_player_id : string;
  reward_object_id : option string;
  reward_created_at : Z
}.

Record VictoryRow : Type := mkVictory {
  suid : string;
  total : option Z
}.

Record Database : Type := mkDb {
  transaction_queue : gmap string QueueRow;
  games : gmap string (option string);
  players : list PlayerRow;
  rewards : list RewardRow;
  vw_users_no_first_game : list string;
  vw_users_no_first_game_created : list string;
  vw_users_victories : list VictoryRow
}.

Definition with_queue (q : gmap string QueueRow) (d : Database) : Database :=
  mkDb q (games d) (players d) (rewards d) (vw_users_no_first_game d)
       (vw_users_no_first_game_created d) (vw_users_victories d).

Definition with_games (g : gmap string (option string)) (d : Database) : Database :=
  mkDb (transaction_queue d) g (players d) (rewards d) (vw_users_no_first_game d)
       (vw_users_no_first_game_created d) (vw_users_victories d).

Definition with_rewards (rs : list RewardRow) (d : Database) : Database :=
  mkDb (transaction_queue d) (games d) (players d) rs (vw_users_no_first_game d)
       (vw_users_no_first_game_created d) (vw_users_victories d).

(** ** Configuration and the Sui SDK *)

Record Config : Type := mkConfig {
  network : string;
  maxRetries : Z;
  retryDelayMs : Z;
  packageId : string;
  badgeRegistryId : string;
  sponsor_privateKey : string
}.

(** The defaults of [config/index.ts]. *)
Definition default_config : Config :=
  mkConfig "localnet" 3 5000 "" "" "".

Inductive outcome (A : Type) : Type :=
| Ok (a : A)
| Throw (message : string).

Arguments Ok {A} a.
Arguments Throw {A} message.

Record Ed25519Keypair : Type := mkKeypair {
  toSuiAddress : string
}.

(** An input of a transaction, by the call of the SDK that makes it:
    [tx.object(value)], [tx.pure.u8(value)] and the like by the name of the
    type, [tx.pure.vector(type, values)]. [None] is [undefined]. *)
Inductive TxInput : Type :=
| tx_object (value : option JS.json)
| tx_pure (type : string) (value : option JS.json)
| tx_pure_vector (type : string) (values : list JS.json).

(** The functions of [@mysten/sui] that decode a secret, and what they throw
    when a transaction is built: [tx_input_error i] is the message of the
    error that the call [i] throws on its value, [moveCall_error] that of
    [tx.moveCall], and [None] when the call returns. *)
Record Sdk : Type := mkSdk {
  deriveKeypair : string -> outcome Ed25519Keypair;
  decodeSuiPrivateKey : string -> outcome string;
  fromHEX : string -> string;
  fromSecretKey : string -> outcome Ed25519Keypair;
  tx_input_error : TxInput -> option string;
  moveCall_error : string -> list TxInput -> option string
}.

Record Env : Type := mkEnv {
  config : Config;
  sdk : Sdk
}.

(** ** The chain, as the gateway sees it *)

Inductive SubmitAnswer : Type :=
| SdkRejects (message : string)
| NoGasCoins
| CoinObjectMissing (coinObjectId : string)
| Executed (digest : string) (effects_status : option string) (effects_error : option string).

Record ObjectChange : Type := mkChange {
  change_type : string;
  change_objectType : option string;
  change_objectId : option string
}.

Record ChainEvent : Type := mkEvent {
  event_type : option string;
  parsedJson : option (gmap string string)
}.

Record TxResponse : Type := mkResponse {
  effects_status : option string;
  objectChanges : option (list ObjectChange);
  events : option (list ChainEvent)
}.

Inductive PollAnswer : Type :=
| PollRejects (message : string)
| PollResponds (r : TxResponse).

(** ** Observable effects *)

Inductive Target : Type :=
| ToRoom (room : string)
| ToSocket.

Inductive Effect : Type :=
| Emit (target : Target) (event : string) (payload : list (string * JS.json))
| Sleep (ms : Z)
| Poll (digest : string)
| SubmitTx (target : string).

(** ** The world *)

Record World : Type := mkWorld {
  db : Database;
  submits : list SubmitAnswer;
  polls : list PollAnswer;
  clock : Z;
  faults : list (option string);
  locked : gset string;
  sponsorKeypair : option Ed25519Keypair;
  processingPlayers : gset string;
  trace : list Effect
}.

Definition with_db (d : Database) (w : World) : World :=
  mkWorld d (submits w) (polls w) (clock w) (faults w) (locked w)
          (sponsorKeypair w) (processingPlayers w) (trace w).

Definition with_submits (s : list SubmitAnswer) (w : World) : World :=
  mkWorld (db w) s (polls w) (clock w) (faults w) (locked w)
          (sponsorKeypair w) (processingPlayers w) (trace w).

Definition with_polls (p : list PollAnswer) (w : World) : World :=
  mkWorld (db w) (submits w) p (clock w) (faults w) (locked w)
          (sponsorKeypair w) (processingPlayers w) (trace w).

Definition with_clock (t : Z) (w : World) : World :=
  mkWorld (db w) (submits w) (polls w) t (faults w) (locked w)
          (sponsorKeypair w) (processingPlayers w) (trace w).

Definition with_faults (f : list (option string)) (w : World) : World :=
  mkWorld (db w) (submits w) (polls w) (clock w) f (locked w)
          (sponsorKeypair w) (processingPlayers w) (trace w).

Definition with_sponsorKeypair (k : option Ed25519Keypair) (w : World) : World :=
  mkWorld (db w) (submits w) (polls w) (clock w) (faults w) (locked w)
          k (processingPlayers w) (trace w).

Definition with_processingPlayers (s : gset string) (w : World) : World :=
  mkWorld (db w) (submits w) (polls w) (clock w) (faults w) (locked w)
          (sponsorKeypair w) s (trace w).

Definition with_trace (t : list Effect) (w : World) : World :=
  mkWorld (db w) (submits w) (polls w) (clock w) (faults w) (locked w)
          (sponsorKeypair w) (processingPlayers w) t.

(** ** The monad of asynchronous code *)

Definition M (A : Type) : Type := Env -> World -> outcome A * World.

Definition ret {A} (a : A) : M A := fun _ w => (Ok a, w).

Definition bind {A B} (m : M A) (f : A -> M B) : M B := fun e w =>
  match m e w with
  | (Ok a, w') => f a e w'
  | (Throw msg, w') => (Throw msg, w')
  end.

(** [throw new Error(msg)] *)
Definition throw {A} (msg : string) : M A := fun _ w => (Throw msg, w).

(** [try { m } catch (error) { h error.message }] *)
Definition try_catch {A} (m : M A) (h : string -> M A) : M A := fun e w =>
  match m e w with
  | (Ok a, w') => (Ok a, w')
  | (Throw msg, w') => h msg e w'
  end.

Definition ask : M Env := fun e w => (Ok e, w).
Definition get : M World := fun _ w => (Ok w, w).
Definition modify (f : World -> World) : M unit := fun _ w => (Ok tt, f w).
Definition lift_outcome {A} (o : outcome A) : M A := fun _ w => (o, w).

Declare Scope async_scope.
Delimit Scope async_scope with async.
Notation "x <- c1 ;; c2" := (bind c1 (fun x => c2))
  (at level 100, c1 at next level, right associativity) : async_scope.
Notation "c1 ;;; c2" := (bind c1 (fun _ => c2))
  (at level 100, right associativity) : async_scope.
Local Open Scope async_scope.

(** one observable effect, appended to the trace *)
Definition effect (x : Effect) : M unit :=
  modify (fun w => with_trace (trace w ++ [x]) w).

(** [io.to(`player:${address}`).emit(event, payload)] *)
Definition room (address : string) : Target := ToRoom ("player:" ++ address).

Definition emit (t : Target) (event : string) (payload : list (string * JS.json)) : M unit :=
  effect (Emit t event payload).

(** [await new Promise((resolve) => setTimeout(resolve, ms))] *)
Definition sleep (ms : Z) : M unit :=
  effect (Sleep ms) ;;;
  modify (fun w => with_clock (clock w + Z.max 0 ms) w).

(** [pool.query]: the next entry of the fault plan decides whether the query
    is run; a query can itself raise (a violated constraint). *)
Definition next_fault (w : World) : option string :=
  match faults w with
  | Some msg :: _ => Some msg
  | _ => None
  end.

Definition pool_query {A} (q : World -> outcome A * Database) : M A := fun _ w =>
  let w1 := with_faults (tail (faults w)) w in
  match next_fault w with
  | Some msg => (Throw msg, w1)
  | None => (fst (q w), with_db (snd (q w)) w1)
  end.

(** [for (const x of xs) { body x }] *)
Fixpoint for_each {A} (xs : list A) (body : A -> M unit) : M unit :=
  match xs with
  | [] => ret tt
  | x :: xs' => body x ;;; for_each xs' body
  end.

(** ** [services/database.ts] *)

Module Database.

(** The rows of [transaction_queue] that satisfy a [WHERE] condition. *)
Definition select_queue (cond : string -> QueueRow -> bool)
    (q : gmap string QueueRow) : list TransactionQueueItem :=
  List.map (fun kr => mkItem (fst kr) (snd kr))
    (List.filter (fun kr => cond (fst kr) (snd kr)) (map_to_list q)).

(** [ORDER BY created_at ASC]: insertion into a list that is in order. *)
Fixpoint insert_by_created_at (x : TransactionQueueItem)
    (l : list TransactionQueueItem) : list TransactionQueueItem :=
  match l with
  | [] => [x]
  | y :: l' =>
      if created_at (columns x) <=? created_at (columns y)
      then x :: y :: l'
      else y :: insert_by_created_at x l'
  end.

Definition order_by_created_at (l : list TransactionQueueItem)
    : list TransactionQueueItem :=
  List.fold_right insert_by_created_at [] l.

(** [LIMIT 1] *)
Definition limit_1 {A} (l : list A) : list A := firstn 1 l.

Definition live_status (s : TransactionStatus) : bool :=
  match s with
  | pending | processing | completed => true
  | failed | waiting_for_object_id => false
  end.

Definition is_mint_nft (t : TransactionType) : bool :=
  match t with
  | mint_nft => true
  | _ => false
  end.

Definition status_eqb (a b : TransactionStatus) : bool := bool_decide (a = b).

(** the [WHERE] condition of the duplicate check of [addToQueue] *)
Definition duplicate_mint_cond (playerSuiAddress playerId badgeType : option string)
    (_ : string) (r : QueueRow) : bool :=
  is_mint_nft (transaction_type r)
  && JS.sql_eq (player_sui_address r) playerSuiAddress
  && JS.sql_eq (player_id r) playerId
  && JS.sql_eq (transaction_data r !! "badgeType" ≫= JS.text) badgeType
  && live_status (status r).

(** the [INSERT] of [addToQueue]; [id] is the primary key *)
Definition insert_queue (id : string) (r : QueueRow) (w : World)
    : outcome unit * Database :=
  match transaction_queue (db w) !! id with
  | Some _ =>
      (Throw "duplicate key value violates unique constraint", db w)
  | None => (Ok tt, with_queue (<[id := r]> (transaction_queue (db w))) (db w))
  end.

Definition addToQueue (id : string) (transactionType : TransactionType)
    (playerSuiAddress : option string) (transactionData : gmap string JS.json)
    (gameId playerId : option string) : M unit :=
  let insert :=
    pool_query (fun w =>
      insert_queue id
        (mkRow transactionType playerSuiAddress (JS.or_null gameId)
               (JS.or_null playerId) pending transactionData None
               (clock w) (clock w) None 0) w) in
  if is_mint_nft transactionType && JS.truthy_opt playerSuiAddress
     && JS.truthy_opt playerId
  then
    match transactionData !! "badgeType" with
    | Some badgeType =>
        if JS.truthy badgeType
        then
          existing <- pool_query (fun w =>
            (Ok (limit_1 (select_queue
                   (duplicate_mint_cond playerSuiAddress playerId (JS.text badgeType))
                   (transaction_queue (db w)))), db w)) ;;
          match existing with
          | _ :: _ => ret tt
          | [] => insert
          end
        else insert
    | None => insert
    end
  else insert.

(** the [WHERE] condition of [getNextPendingTransaction], with the rows
    that [SKIP LOCKED] passes over *)
Definition next_pending_cond (playerSuiAddress : option string)
    (lockedRows : gset string) (id : string) (r : QueueRow) : bool :=
  status_eqb (status r) pending
  && JS.sql_eq (player_sui_address r) playerSuiAddress
  && bool_decide (id ∉ lockedRows).

Definition getNextPendingTransaction (playerSuiAddress : option string)
    : M (option TransactionQueueItem) :=
  result <- pool_query (fun w =>
    (Ok (limit_1 (order_by_created_at (select_queue
           (next_pending_cond playerSuiAddress (locked w))
           (transaction_queue (db w))))), db w)) ;;
  match result with
  | [] => ret None
  | row :: _ => ret (Some row)
  end.

Definition update_status_row (status : TransactionStatus)
    (errorMessage : option string) (now : Z) (r : QueueRow) : QueueRow :=
  let r1 := with_updated_at now (with_status status r) in
  let r2 := if JS.truthy_opt errorMessage then with_error_message errorMessage r1 else r1 in
  if status_eqb status completed || status_eqb status failed
  then with_processed_at (Some now) r2
  else r2.

Definition updateTransactionStatus (id : string) (status : TransactionStatus)
    (errorMessage : option string) : M unit :=
  pool_query (fun w =>
    (Ok tt, with_queue
              (alter (update_status_row status errorMessage (clock w)) id
                     (transaction_queue (db w))) (db w))).

Definition incrementRetries (id : string) : M unit :=
  pool_query (fun w =>
    (Ok tt, with_queue
              (alter (fun r => with_updated_at (clock w) (with_retries (retries r + 1) r))
                     id (transaction_queue (db w))) (db w))).

Definition updateGameObjectId (gameId objectId : string) : M unit :=
  try_catch
    (pool_query (fun w =>
       (Ok tt, with_games (alter (fun _ => Some objectId) gameId (games (db w))) (db w))))
    (fun error => throw error).

Definition reward_matches (playerId : string) (rewardType : option string)
    (r : RewardRow) : bool :=
  String.eqb (reward_player_id r) playerId && JS.sql_eq (reward_type r) rewardType.

(** [UPDATE rewards ... WHERE id = existing.rows[0].id]: the first row
    that the [SELECT] found *)
Fixpoint update_first_reward (playerId : string) (rewardType : option string)
    (objectId : string) (now : Z) (rs : list RewardRow) : list RewardRow :=
  match rs with
  | [] => []
  | r :: rs' =>
      if reward_matches playerId rewardType r
      then mkReward (reward_type r) (reward_player_id r) (Some objectId) now :: rs'
      else r :: update_first_reward playerId rewardType objectId now rs'
  end.

Definition createOrUpdateReward (playerId : string) (rewardType : option string)
    (objectId : string) : M unit :=
  try_catch
    (existing <- pool_query (fun w =>
       (Ok (limit_1 (List.filter (reward_matches playerId rewardType) (rewards (db w)))),
        db w)) ;;
     match existing with
     | _ :: _ =>
         pool_query (fun w =>
           (Ok tt, with_rewards
                     (update_first_reward playerId rewardType objectId (clock w)
                        (rewards (db w))) (db w)))
     | [] =>
         pool_query (fun w =>
           (Ok tt, with_rewards
                     (rewards (db w) ++ [mkReward rewardType playerId (Some objectId) (clock w)])
                     (db w)))
     end)
    (fun error => throw error).

Definition deleteTransaction (id : string) : M unit :=
  try_catch
    (pool_query (fun w =>
       (Ok tt, with_queue (delete id (transaction_queue (db w))) (db w))))
    (fun error => throw error).

Definition hours_24 : Z := 24 * 60 * 60 * 1000.

(** the rows that [cleanupOldTransactions] deletes *)
Definition is_old (now : Z) (r : QueueRow) : bool :=
  (status_eqb (status r) completed || status_eqb (status r) failed)
  && match processed_at r with
     | Some t => t <? now - hours_24
     | None => false
     end.

Definition cleanupOldTransactions : M unit :=
  try_catch
    (pool_query (fun w =>
       (Ok tt, with_queue
                 (filter (fun kr => is_old (clock w) (snd kr) = false)
                         (transaction_queue (db w))) (db w))))
    (fun _ => ret tt).

Definition waiting_cond (gameId : string) (_ : string) (r : QueueRow) : bool :=
  JS.sql_eq (game_id r) (Some gameId) && status_eqb (status r) waiting_for_object_id.

Definition getWaitingTransactionsForGame (gameId : string)
    : M (list TransactionQueueItem) :=
  pool_query (fun w =>
    (Ok (order_by_created_at
           (select_queue (waiting_cond gameId) (transaction_queue (db w)))), db w)).

Definition updateWaitingTransactionWithObjectId (transactionId objectId : string)
    : M unit :=
  pool_query (fun w =>
    (Ok tt, with_queue
              (alter (fun r =>
                        with_updated_at (clock w)
                          (with_status pending
                             (with_transaction_data
                                (<["gameObjectId" := JS.JStr objectId]> (transaction_data r)) r)))
                     transactionId (transaction_queue (db w))) (db w))).

End Database.

(** ** [services/reward-service.ts] *)

Module RewardService.

Record RewardConfig : Type := mkRewardConfig {
  check : string;
  value : Z;
  badge_type : string;
  name : string;
  description : string;
  sourceUrl : string
}.

Definition badges_url : string :=
  "https://raw.githubusercontent.com/anthonytison/blockchess-design/refs/heads/main/badges/".

Definition rewardsList : list RewardConfig :=
  [ mkRewardConfig "first_game" 1 "first_game" "First game"
      "Congratulations on playing your first chess game"
      (badges_url ++ "reward_first_game.png");
    mkRewardConfig "first_game_created" 1 "first_game_created" "First game created"
      "Congratulations on creating your first chess game"
      (badges_url ++ "reward_first_game_created.png");
    mkRewardConfig "wins" 1 "first_game_won" "First game won"
      "Congratulations on winning your first chess game"
      (badges_url ++ "reward_first_game_won.png");
    mkRewardConfig "wins" 10 "10_games_won" "Already 10 games won"
      "Congratulations on your 10th victory"
      (badges_url ++ "reward_10_games_won.png");
    mkRewardConfig "wins" 50 "50_games_won" "Already 50 games won"
      "Congratulations on your 50th victory"
      (badges_url ++ "reward_50_games_won.png");
    mkRewardConfig "wins" 100 "100_games_won" "Already 100 games won"
      "Congratulations on your 100th victory"
      (badges_url ++ "reward_100_games_won.png") ].

(** [new Set(rows.map(r => r.reward_type)).has(b)] *)
Definition earned (earnedRewardTypes : list (option string)) (b : string) : bool :=
  existsb (fun t => bool_decide (t = Some b)) earnedRewardTypes.

(** the end of [shouldEarnReward], for [rewardType = 'wins'] *)
Definition next_wins_reward (totalWins : Z) (earnedRewardTypes : list (option string))
    : option string :=
  let winsRewards := List.filter (fun r => String.eqb (check r) "wins") rewardsList in
  match List.find (fun reward => negb (earned earnedRewardTypes (badge_type reward)))
                  winsRewards with
  | None => None
  | Some nextReward =>
      if value nextReward <=? totalWins then Some (badge_type nextReward) else None
  end.

(** [SELECT * FROM ${table} WHERE suid = $1 LIMIT 1] on one of the three
    views, by its name: the total of the row found, when the view has one. *)
Definition select_view (table playerSuiAddress : string) (d : Database)
    : list (option Z) :=
  let rows :=
    if String.eqb table "vw_users_no_first_game"
    then List.map (fun s => mkVictory s None) (vw_users_no_first_game d)
    else if String.eqb table "vw_users_no_first_game_created"
    then List.map (fun s => mkVictory s None) (vw_users_no_first_game_created d)
    else if String.eqb table "vw_users_victories"
    then vw_users_victories d
    else [] in
  Database.limit_1
    (List.map total
       (List.filter (fun v => String.eqb (suid v) playerSuiAddress) rows)).

Definition shouldEarnReward (playerSuiAddress rewardType : string)
    : M (option string) :=
  let known :=
    if String.eqb rewardType "first_game"
    then Some ("vw_users_no_first_game", "first_game")
    else if String.eqb rewardType "first_game_created"
    then Some ("vw_users_no_first_game_created", "first_game_created")
    else if String.eqb rewardType "wins"
    then Some ("vw_users_victories", "")
    else None in
  match known with
  | None => ret None
  | Some (table, badgeType) =>
      playerResult <- pool_query (fun w =>
        (Ok (Database.limit_1
               (List.filter (fun p => String.eqb (sui_address p) playerSuiAddress)
                            (players (db w)))), db w)) ;;
      match playerResult with
      | [] => ret None
      | player :: _ =>
          let playerId := player_row_id player in
          already <-
            (if JS.truthy_string badgeType
             then
               existingRewardResult <- pool_query (fun w =>
                 (Ok (Database.limit_1
                        (List.filter (Database.reward_matches playerId (Some badgeType))
                                     (rewards (db w)))), db w)) ;;
               ret (match existingRewardResult with [] => false | _ :: _ => true end)
             else ret false) ;;
          if already : bool then ret None
          else if negb (String.eqb rewardType "wins")
          then
            result <- pool_query (fun w =>
              (Ok (select_view table playerSuiAddress (db w)), db w)) ;;
            match result with
            | [] => ret None
            | _ :: _ => ret (Some badgeType)
            end
          else
            victoryResult <- pool_query (fun w =>
              (Ok (select_view table playerSuiAddress (db w)), db w)) ;;
            match victoryResult with
            | [] => ret None
            | victory_total :: _ =>
                let totalWins := default 0 victory_total in
                earnedRewardsResult <- pool_query (fun w =>
                  (Ok (List.map reward_type
                         (List.filter (fun r => String.eqb (reward_player_id r) playerId)
                                      (rewards (db w)))), db w)) ;;
                ret (next_wins_reward totalWins earnedRewardsResult)
            end
      end
  end.

(** [getRewardByBadgeType] *)
Definition getRewardByBadgeType (badgeType : string) : option RewardConfig :=
  List.find (fun r => String.eqb (badge_type r) badgeType) rewardsList.

Definition in_queue_cond (playerId playerSuiAddress badgeType : string)
    (_ : string) (r : QueueRow) : bool :=
  Database.is_mint_nft (transaction_type r)
  && JS.sql_eq (player_id r) (Some playerId)
  && JS.sql_eq (player_sui_address r) (Some playerSuiAddress)
  && JS.sql_eq (transaction_data r !! "badgeType" ≫= JS.text) (Some badgeType)
  && (Database.status_eqb (status r) pending
      || Database.status_eqb (status r) processing).

Definition isRewardInQueue (playerId playerSuiAddress badgeType : string) : M bool :=
  result <- pool_query (fun w =>
    (Ok (Database.limit_1
           (Database.select_queue (in_queue_cond playerId playerSuiAddress badgeType)
                                  (transaction_queue (db w)))), db w)) ;;
  ret (match result with [] => false | _ :: _ => true end).

End RewardService.

(** ** [services/sui-client.ts] *)

Module SuiClient.

Definition nl : string := String (ascii_of_nat 10) EmptyString.

Definition invalid_format_message (n : nat) : string :=
  "Invalid SUI_SPONSOR_PRIVATE_KEY format. Expected one of:" ++ nl ++
  "  - Mnemonic phrase (12 or 24 words)" ++ nl ++
  "  - 64-character hex string (with or without 0x prefix)" ++ nl ++
  "  - Bech32 format (suiprivkey...)" ++ nl ++
  "Got " ++ JS.Z_to_string (Z.of_nat n) ++ " characters.".

(** The encoding that [getSponsorKeypair] takes a trimmed secret for: its
    three tests, in their order. *)
Inductive KeyForm : Type :=
| Mnemonic
| Bech32
| Hex
| Malformed.

Definition strip_0x (privateKey : string) : string :=
  if JS.startsWith "0x" privateKey || JS.startsWith "0X" privateKey
  then JS.slice 2 privateKey
  else privateKey.

Definition key_form (privateKey : string) : KeyForm :=
  let words := JS.split_ws privateKey in
  if Nat.eqb (List.length words) 12 || Nat.eqb (List.length words) 24
  then Mnemonic
  else if JS.startsWith "suiprivkey" privateKey
  then Bech32
  else if JS.is_hex64 (strip_0x privateKey)
  then Hex
  else Malformed.

Definition remember (kp : Ed25519Keypair) : M Ed25519Keypair :=
  modify (with_sponsorKeypair (Some kp)) ;;; ret kp.

Definition getSponsorKeypair : M Ed25519Keypair :=
  w <- get ;;
  match sponsorKeypair w with
  | Some kp => ret kp
  | None =>
      env <- ask ;;
      let privateKey := sponsor_privateKey (config env) in
      if negb (JS.truthy_string privateKey)
      then throw "SUI_SPONSOR_PRIVATE_KEY environment variable is required"
      else
        let privateKey := JS.trim privateKey in
        try_catch
          (let words := JS.split_ws privateKey in
           if Nat.eqb (List.length words) 12 || Nat.eqb (List.length words) 24
           then
             kp <- lift_outcome (deriveKeypair (sdk env) privateKey) ;;
             remember kp
           else if JS.startsWith "suiprivkey" privateKey
           then
             secretKey <- lift_outcome (decodeSuiPrivateKey (sdk env) privateKey) ;;
             kp <- lift_outcome (fromSecretKey (sdk env) secretKey) ;;
             remember kp
           else
             let privateKeyHex :=
               if JS.startsWith "0x" privateKey || JS.startsWith "0X" privateKey
               then JS.slice 2 privateKey
               else privateKey in
             if negb (JS.is_hex64 privateKeyHex)
             then throw (invalid_format_message (JS.length privateKeyHex))
             else
               kp <- lift_outcome
                       (fromSecretKey (sdk env) (fromHEX (sdk env) privateKeyHex)) ;;
               remember kp)
          (fun error => throw ("Invalid SUI_SPONSOR_PRIVATE_KEY format: " ++ error))
  end.

(** [getPackageId] and [getBadgeRegistryId] of [config/index.ts] *)
Definition getPackageId : M string :=
  env <- ask ;;
  if JS.truthy_string (packageId (config env))
  then ret (packageId (config env))
  else throw ("Package ID not set for network: " ++ network (config env)).

Definition getBadgeRegistryId : M string :=
  env <- ask ;;
  if JS.truthy_string (badgeRegistryId (config env))
  then ret (badgeRegistryId (config env))
  else throw ("Badge Registry ID not set for network: " ++ network (config env)).

(** A built transaction: the Move function called and its inputs. *)
Record Transaction : Type := mkTransaction {
  target : string;
  arguments : list TxInput
}.

(** one input: the call of the SDK returns it or throws *)
Definition input (i : TxInput) : M TxInput :=
  env <- ask ;;
  match tx_input_error (sdk env) i with
  | Some error => throw error
  | None => ret i
  end.

(** [tx.moveCall({ target, arguments })] *)
Definition moveCall (target : string) (arguments : list TxInput) : M Transaction :=
  env <- ask ;;
  match moveCall_error (sdk env) target arguments with
  | Some error => throw error
  | None => ret (mkTransaction target arguments)
  end.

Definition clock_object : option JS.json := Some (JS.JStr "0x6").

Definition buildCreateGameTransaction (data : gmap string JS.json) : M Transaction :=
  packageId <- getPackageId ;;
  mode <- input (tx_pure "u8" (data !! "mode")) ;;
  difficulty <- input (tx_pure "u8" (data !! "difficulty")) ;;
  clock <- input (tx_object clock_object) ;;
  moveCall (packageId ++ "::game::create_game") [mode; difficulty; clock].

Definition buildMakeMoveTransaction (data : gmap string JS.json) : M Transaction :=
  packageId <- getPackageId ;;
  gameObject <- input (tx_object (data !! "gameObjectId")) ;;
  isComputer <- input (tx_pure "bool" (data !! "isComputer")) ;;
  moveSan <- input (tx_pure "string" (data !! "moveSan")) ;;
  fen <- input (tx_pure "string" (data !! "fen")) ;;
  moveHash <- input (tx_pure "string" (data !! "moveHash")) ;;
  clock <- input (tx_object clock_object) ;;
  moveCall (packageId ++ "::game::make_move")
    [gameObject; isComputer; moveSan; fen; moveHash; clock].

Definition buildEndGameTransaction (data : gmap string JS.json) : M Transaction :=
  packageId <- getPackageId ;;
  winnerArg <-
    input (tx_pure_vector "address"
             (match data !! "winner" with
              | Some winner => if JS.truthy winner then [winner] else []
              | None => []
              end)) ;;
  gameObject <- input (tx_object (data !! "gameObjectId")) ;;
  result <- input (tx_pure "string" (data !! "result")) ;;
  finalFen <- input (tx_pure "string" (data !! "finalFen")) ;;
  clock <- input (tx_object clock_object) ;;
  moveCall (packageId ++ "::game::end_game")
    [gameObject; winnerArg; result; finalFen; clock].

Definition buildMintNftTransaction (data : gmap string JS.json) : M Transaction :=
  packageId <- getPackageId ;;
  registryId <-
    match data !! "registryObjectId" with
    | Some v => if JS.truthy v then ret v
                else (r <- getBadgeRegistryId ;; ret (JS.JStr r))
    | None => r <- getBadgeRegistryId ;; ret (JS.JStr r)
    end ;;
  if negb (JS.truthy registryId)
  then throw "BadgeRegistry object ID is required"
  else
    registry <- input (tx_object (Some registryId)) ;;
    recipient <- input (tx_pure "address" (data !! "recipientAddress")) ;;
    badgeType <- input (tx_pure "string" (data !! "badgeType")) ;;
    name <- input (tx_pure "string" (data !! "name")) ;;
    description <- input (tx_pure "string" (data !! "description")) ;;
    sourceUrl <- input (tx_pure "string" (data !! "sourceUrl")) ;;
    moveCall (packageId ++ "::badge::mint_badge")
      [registry; recipient; badgeType; name; description; sourceUrl].

(** [buildSetAuthorizedMinterTransaction], of the script that sets the
    minter *)
Definition buildSetAuthorizedMinterTransaction (registryId newMinterAddress : string)
    : M Transaction :=
  packageId <- getPackageId ;;
  registry <- input (tx_object (Some (JS.JStr registryId))) ;;
  minter <- input (tx_pure "address" (Some (JS.JStr newMinterAddress))) ;;
  moveCall (packageId ++ "::badge::set_authorized_minter") [registry; minter].

(** The answers of the node to [getCoins], [getObject] and
    [signAndExecuteTransaction] are read from the world; a node that has
    no answer left rejects the call. *)
Definition executeTransactionWithKeypair (transaction : Transaction)
    (keypair : Ed25519Keypair) : M string :=
  let signerAddress := toSuiAddress keypair in
  try_catch
    (w <- get ;;
     match submits w with
     | [] => throw "fetch failed"
     | answer :: rest =>
         modify (with_submits rest) ;;;
         match answer with
         | SdkRejects message => throw message
         | NoGasCoins =>
             throw ("No SUI coins found for address " ++ signerAddress ++ ". " ++
                    "Please fund the account with SUI tokens to pay for gas fees.")
         | CoinObjectMissing coinObjectId =>
             throw ("Failed to fetch coin object " ++ coinObjectId)
         | Executed digest status error =>
             effect (SubmitTx (target transaction)) ;;;
             if bool_decide (status = Some "success")
             then ret digest
             else
               let errorMessage :=
                 if JS.truthy_opt error then default "" error else "Transaction failed" in
               throw ("Transaction execution failed: " ++ errorMessage)
         end
     end)
    (fun error => throw error).

Definition executeTransaction (transaction : Transaction) : M string :=
  keypair <- getSponsorKeypair ;;
  executeTransactionWithKeypair transaction keypair.

Definition maxRetries : nat := 15.
Definition delay : Z := 1000.

(** the predicate of [objectChanges.find] *)
Definition created_matches (objectType : string) (change : ObjectChange) : bool :=
  if negb (String.eqb (change_type change) "created")
     || negb (JS.truthy_opt (change_objectType change))
  then false
  else
    let objectTypeStr := JS.toLowerCase (default "" (change_objectType change)) in
    let searchType := JS.toLowerCase objectType in
    JS.includes searchType objectTypeStr
    || JS.endsWith searchType objectTypeStr
    || (JS.includes "badge" searchType && JS.includes "badge" objectTypeStr)
    || (JS.includes "game" searchType && JS.includes "game" objectTypeStr).

(** the predicate of [events.find] *)
Definition event_type_includes (name : string) (event : ChainEvent) : bool :=
  match event_type event with
  | Some t => JS.includes name t
  | None => false
  end.

(** the field of the parsed body of the first event of that name *)
Definition event_field (name field : string) (events : option (list ChainEvent))
    : option string :=
  match events with
  | None => None
  | Some evs =>
      match List.find (event_type_includes name) evs with
      | None => None
      | Some event =>
          match parsedJson event with
          | None => None
          | Some body => body !! field
          end
      end
  end.

(** What one iteration of the loop finds in an answer of the node: the
    three success criteria, in order. *)
Definition extract (objectType : string) (txResponse : TxResponse) : option string :=
  let createdChange :=
    match objectChanges txResponse with
    | None => None
    | Some changes => List.find (created_matches objectType) changes
    end in
  match createdChange ≫= change_objectId with
  | Some objectId => Some objectId
  | None =>
      match (if JS.includes "Game" objectType
             then event_field "GameCreated" "game_id" (events txResponse)
             else None) with
      | Some game_id => Some game_id
      | None =>
          if JS.includes "badge" objectType || JS.includes "Badge" objectType
          then event_field "BadgeMinted" "badge_id" (events txResponse)
          else None
      end
  end.

(** [client.getTransactionBlock]; a node with no answer left rejects. *)
Definition getTransactionBlock (digest : string) : M TxResponse :=
  effect (Poll digest) ;;;
  w <- get ;;
  match polls w with
  | [] => throw "fetch failed"
  | answer :: rest =>
      modify (with_polls rest) ;;;
      match answer with
      | PollRejects message => throw message
      | PollResponds r => ret r
      end
  end.

(** The body of the [for] loop, for the index [i]: [Some v] when the loop
    returns [v], [None] when it goes on. *)
Definition poll_once (digest objectType : string) (i : nat) : M (option string) :=
  try_catch
    (txResponse <- getTransactionBlock digest ;;
     match effects_status txResponse with
     | Some s =>
         if negb (String.eqb s "success")
         then throw ("Transaction failed: " ++ s)
         else ret (extract objectType txResponse)
     | None => ret (extract objectType txResponse)
     end)
    (fun error =>
       if Nat.eqb i (maxRetries - 1)
       then throw error
       else sleep delay ;;; ret None).

(** [for (let i = 0; i < maxRetries; i++)], with [todo = maxRetries - i] *)
Fixpoint poll_from (todo i : nat) (digest objectType : string) : M (option string) :=
  match todo with
  | O => ret None
  | S todo' =>
      found <- poll_once digest objectType i ;;
      match found with
      | Some objectId => ret (Some objectId)
      | None => poll_from todo' (S i) digest objectType
      end
  end.

Definition waitForTransactionAndExtractObjectId (digest objectType : string)
    : M (option string) :=
  poll_from maxRetries 0 digest objectType.

(** the answer to the [i]-th call of [getTransactionBlock] from now *)
Definition nth_poll (w : World) (i : nat) : PollAnswer :=
  nth i (polls w) (PollRejects "fetch failed").

(** the error that an iteration of the loop catches on an answer *)
Definition poll_error (a : PollAnswer) : option string :=
  match a with
  | PollRejects message => Some message
  | PollResponds r =>
      match effects_status r with
      | Some s => if String.eqb s "success" then None
                  else Some ("Transaction failed: " ++ s)
      | None => None
      end
  end.

Definition throws (a : PollAnswer) : bool :=
  match poll_error a with
  | Some _ => true
  | None => false
  end.

End SuiClient.

(** ** [services/transaction-processor.ts] *)

Module TransactionProcessor.

Definition processWaitingMovesForGame (gameId objectId : string) : M unit :=
  try_catch
    (waitingTransactions <- Database.getWaitingTransactionsForGame gameId ;;
     match waitingTransactions with
     | [] => ret tt
     | _ :: _ =>
         for_each waitingTransactions (fun transaction =>
           try_catch
             (Database.updateWaitingTransactionWithObjectId (id transaction) objectId)
             (fun _ => ret tt))
     end)
    (fun _ => ret tt).

(** The local variable [objectId]: [None] while it is [undefined], then
    what [waitForTransactionAndExtractObjectId] returned. *)
Definition objectId_field (objectId : option (option string))
    : list (string * JS.json) :=
  match objectId with
  | None => []
  | Some None => [("objectId", JS.JNull)]
  | Some (Some o) => [("objectId", JS.JStr o)]
  end.

Definition data_field (name : string) (v : option JS.json) : list (string * JS.json) :=
  match v with
  | None => []
  | Some x => [(name, x)]
  end.

(** The [switch] of [processTransaction]: the transaction of an intent,
    by its type. It is built without an [await]. *)
Definition build (transaction : TransactionQueueItem) : M SuiClient.Transaction :=
  let row := columns transaction in
  let data := transaction_data row in
  match transaction_type row with
  | create_game => SuiClient.buildCreateGameTransaction data
  | make_move => SuiClient.buildMakeMoveTransaction data
  | end_game => SuiClient.buildEndGameTransaction data
  | mint_nft =>
      try_catch
        (sponsorKeypair <- SuiClient.getSponsorKeypair ;;
         SuiClient.buildMintNftTransaction data)
        (fun error => throw error)
  end.

(** [executeTransaction] in its [try]: the error is wrapped *)
Definition execute (tx : SuiClient.Transaction) : M string :=
  try_catch (SuiClient.executeTransaction tx)
    (fun errorMessage => throw ("Transaction execution failed: " ++ errorMessage)).

(** The first half of [processTransaction]: the transaction is built and
    executed; the digest is what the second half works with. *)
Definition build_and_execute (transaction : TransactionQueueItem) : M string :=
  tx <- build transaction ;;
  execute tx.

(** The second half: extraction, reconciliation with the store and the
    event for the player. The two [try] blocks assign [objectId] and may
    throw afterwards; their [catch] only logs, so each is written as the
    assignment followed by a guarded remainder. *)
Definition reconcile_and_notify (transaction : TransactionQueueItem)
    (digest : string) : M unit :=
  let row := columns transaction in
  let data := transaction_data row in
  objectId <-
    match transaction_type row with
    | create_game =>
        try_catch
          (objectId <-
             SuiClient.waitForTransactionAndExtractObjectId digest "::game::Game" ;;
           try_catch
             ((match objectId, game_id row with
               | Some o, Some g =>
                   if JS.truthy_string o && JS.truthy_string g
                   then
                     Database.updateGameObjectId g o ;;;
                     processWaitingMovesForGame g o
                   else ret tt
               | _, _ => ret tt
               end) ;;;
              ret (Some objectId))
             (fun _ => ret (Some objectId)))
          (fun _ => ret None)
    | mint_nft =>
        try_catch
          (objectId <-
             SuiClient.waitForTransactionAndExtractObjectId digest "badge::Badge" ;;
           try_catch
             ((if negb (JS.truthy_opt objectId) then ret tt
               else if negb (JS.truthy_opt (player_id row)) then ret tt
               else
                 try_catch
                   (Database.createOrUpdateReward (default "" (player_id row))
                      (data !! "badgeType" ≫= JS.text) (default "" objectId))
                   (fun dbError => throw dbError)) ;;;
              ret (Some objectId))
             (fun _ => ret (Some objectId)))
          (fun _ => ret None)
    | make_move | end_game => ret None
    end ;;
  match player_sui_address row with
  | Some playerAddress =>
      if JS.truthy_string playerAddress
      then
        emit (room playerAddress) "transaction:result"
          ([("transactionId", JS.JStr (id transaction));
            ("status", JS.JStr "success");
            ("digest", JS.JStr digest)]
           ++ objectId_field objectId
           ++ (if Database.is_mint_nft (transaction_type row)
               then data_field "rewardName" (data !! "name")
                    ++ data_field "badgeType" (data !! "badgeType")
               else []))
      else ret tt
  | None => ret tt
  end.

Definition processTransaction (transaction : TransactionQueueItem) : M unit :=
  digest <- build_and_execute transaction ;;
  reconcile_and_notify transaction digest.

End TransactionProcessor.

(** ** [services/queue-service.ts] *)

Module QueueService.

Definition address_of (i : TransactionQueueItem) : string :=
  default "" (JS.or_null (player_sui_address (columns i))).

Definition scan_cond (_ : string) (r : QueueRow) : bool :=
  Database.status_eqb (status r) pending
  && match player_sui_address r with Some _ => true | None => false end.

(** [GROUP BY ... ORDER BY MIN(created_at)]: the first occurrence of each
    address in the rows taken oldest first *)
Fixpoint distinct (l : list string) : list string :=
  match l with
  | [] => []
  | x :: l' => x :: List.filter (fun y => negb (String.eqb x y)) (distinct l')
  end.

Definition getAllPlayersWithPendingTransactions : M (list string) :=
  pool_query (fun w =>
    (Ok (firstn 100 (distinct (List.map address_of
           (Database.order_by_created_at
              (Database.select_queue scan_cond (transaction_queue (db w))))))),
     db w)).

(** the two classifications of [processPlayerQueue], as the source writes
    them in the branch of the last retry and in the branch of a retry *)
Definition isNftAlreadyExists (t : TransactionType) (errorMessage : string) : bool :=
  Database.is_mint_nft t
  && (JS.includes "already exists" (JS.toLowerCase errorMessage)
      || JS.includes "already minted" (JS.toLowerCase errorMessage)
      || JS.includes "duplicate" (JS.toLowerCase errorMessage)
      || JS.includes "already locked" (JS.toLowerCase errorMessage)).

Definition isVersionMismatch_failed (errorMessage : string) : bool :=
  JS.includes "is not available for consumption" errorMessage
  || JS.includes "current version" errorMessage
  || JS.includes "non-retriable" errorMessage.

Definition isVersionMismatch_retry (errorMessage : string) : bool :=
  JS.includes "is not available for consumption" errorMessage
  || JS.includes "current version" errorMessage.

(** the [catch] block of the loop of [processPlayerQueue] *)
Definition processPlayerQueue_catch (playerAddress : string)
    (transaction : TransactionQueueItem) (errorMessage : string) : M unit :=
  let t := transaction_type (columns transaction) in
  Database.incrementRetries (id transaction) ;;;
  let retries := retries (columns transaction) + 1 in
  env <- ask ;;
  if maxRetries (config env) <=? retries
  then
    Database.updateTransactionStatus (id transaction) failed (Some errorMessage) ;;;
    (if negb (isNftAlreadyExists t errorMessage)
        && negb (isVersionMismatch_failed errorMessage)
     then
       emit (room playerAddress) "transaction:result"
         [("transactionId", JS.JStr (id transaction));
          ("status", JS.JStr "error");
          ("error", JS.JStr errorMessage)]
     else ret tt) ;;;
    (if negb (Database.is_mint_nft t)
     then Database.deleteTransaction (id transaction)
     else ret tt)
  else
    Database.updateTransactionStatus (id transaction) pending (Some errorMessage) ;;;
    let baseDelay :=
      if isVersionMismatch_retry errorMessage && Database.is_mint_nft t
      then 2000
      else retryDelayMs (config env) in
    let retryDelay := baseDelay * retries in
    sleep retryDelay.

(** the [try] block of the loop *)
Definition processPlayerQueue_try (playerAddress : string)
    (transaction : TransactionQueueItem) : M unit :=
  Database.updateTransactionStatus (id transaction) processing None ;;;
  emit (room playerAddress) "transaction:processing"
    [("transactionId", JS.JStr (id transaction)); ("status", JS.JStr "processing")] ;;;
  TransactionProcessor.processTransaction transaction ;;;
  Database.updateTransactionStatus (id transaction) completed None ;;;
  Database.deleteTransaction (id transaction).

Inductive Completion : Type :=
| Drained
| OutOfFuel.

(** [while (true)]: [fuel] bounds the number of iterations that are run. *)
Fixpoint processPlayerQueue (fuel : nat) (playerAddress : string) : M Completion :=
  match fuel with
  | O => ret OutOfFuel
  | S fuel' =>
      transaction <-
        Database.getNextPendingTransaction (JS.or_null (Some playerAddress)) ;;
      match transaction with
      | None => ret Drained
      | Some transaction =>
          try_catch (processPlayerQueue_try playerAddress transaction)
                    (processPlayerQueue_catch playerAddress transaction) ;;;
          processPlayerQueue fuel' playerAddress
      end
  end.

(** [processingPlayers.has] and [processingPlayers.add]: the player is
    marked unless it is; the result tells whether its worker is started *)
Definition mark (playerAddress : string) : M bool :=
  w <- get ;;
  if bool_decide (playerAddress ∈ processingPlayers w)
  then ret false
  else
    modify (fun w => with_processingPlayers ({[playerAddress]} ∪ processingPlayers w) w) ;;;
    ret true.

(** [processingPlayers.delete], in [finally] *)
Definition unmark (playerAddress : string) : M unit :=
  modify (fun w => with_processingPlayers (processingPlayers w ∖ {[playerAddress]}) w).

(** the [for] loop of [processQueue], in which nothing is awaited: the
    players whose worker it starts *)
Fixpoint mark_all (allPlayers : list string) : M (list string) :=
  match allPlayers with
  | [] => ret []
  | playerAddress :: rest =>
      started <- mark playerAddress ;;
      others <- mark_all rest ;;
      ret (if started : bool then playerAddress :: others else others)
  end.

(** [processQueue] itself: the workers are started and not awaited, so it
    returns while they run; the result is the list of the players whose
    worker it has started. The workers are tasks of their own
    ([Tasks.worker]). *)
Definition processQueue : M (list string) :=
  allPlayers <- getAllPlayersWithPendingTransactions ;;
  mark_all allPlayers.

End QueueService.

(** ** [utils/validation.ts] *)

Module Validation.

(** What a client sends, with the types of the schemas; a field that a
    schema marks optional is an [option]. *)
Record CreateGameRequest : Type := mkCreateGame {
  cg_transactionId : string;
  cg_gameId : string;
  cg_playerAddress : string;
  cg_mode : Z;
  cg_difficulty : Z
}.

Record MakeMoveRequest : Type := mkMakeMove {
  mm_transactionId : string;
  mm_playerAddress : string;
  mm_status : option string;
  mm_gameObjectId : string;
  mm_isComputer : bool;
  mm_moveSan : string;
  mm_fen : string;
  mm_moveHash : string;
  mm_gameId : option string
}.

Record EndGameRequest : Type := mkEndGame {
  eg_transactionId : string;
  eg_playerAddress : string;
  eg_gameObjectId : string;
  eg_winner : option string;
  eg_result : string;
  eg_finalFen : string
}.

Record MintNftRequest : Type := mkMintNft {
  mn_transactionId : string;
  mn_playerAddress : string;
  mn_playerId : string;
  mn_recipientAddress : string;
  mn_badgeType : string;
  mn_name : string;
  mn_description : string;
  mn_sourceUrl : string;
  mn_registryObjectId : option string
}.

(** [z.string().min(1)] *)
Definition min_1 (s : string) : bool := JS.truthy_string s.

(** [z.string().url()], as far as the model goes: a scheme and a rest *)
Definition is_url (s : string) : bool :=
  JS.includes "://" s && negb (JS.startsWith "://" s).

Definition parse {A} (ok : bool) (a : A) : outcome A :=
  if ok then Ok a else Throw "validation failed".

Definition validateCreateGame (data : CreateGameRequest) : outcome CreateGameRequest :=
  parse (min_1 (cg_transactionId data) && min_1 (cg_gameId data)
         && min_1 (cg_playerAddress data)
         && (0 <=? cg_mode data) && (cg_mode data <=? 1)
         && (0 <=? cg_difficulty data) && (cg_difficulty data <=? 2)) data.

Definition validateMakeMove (data : MakeMoveRequest) : outcome MakeMoveRequest :=
  parse (min_1 (mm_transactionId data) && min_1 (mm_playerAddress data)
         && match mm_status data with
            | None => true
            | Some s => String.eqb s "pending" || String.eqb s "waiting_for_object_id"
            end
         && min_1 (mm_moveSan data) && min_1 (mm_fen data)
         && min_1 (mm_moveHash data)) data.

Definition validateEndGame (data : EndGameRequest) : outcome EndGameRequest :=
  parse (min_1 (eg_transactionId data) && min_1 (eg_playerAddress data)
         && min_1 (eg_gameObjectId data)
         && (String.eqb (eg_result data) "1-0" || String.eqb (eg_result data) "0-1"
             || String.eqb (eg_result data) "1/2-1/2")
         && min_1 (eg_finalFen data)) data.

Definition validateMintNft (data : MintNftRequest) : outcome MintNftRequest :=
  parse (min_1 (mn_transactionId data) && min_1 (mn_playerAddress data)
         && min_1 (mn_playerId data) && min_1 (mn_recipientAddress data)
         && min_1 (mn_badgeType data) && min_1 (mn_name data)
         && min_1 (mn_description data) && is_url (mn_sourceUrl data)) data.

Definition opt_entry (name : string) (v : option string)
    (m : gmap string JS.json) : gmap string JS.json :=
  match v with
  | Some s => <[name := JS.JStr s]> m
  | None => m
  end.

(** [validated.data], as the object that is stored *)
Definition create_game_data (r : CreateGameRequest) : gmap string JS.json :=
  <["mode" := JS.JNum (cg_mode r)]> (<["difficulty" := JS.JNum (cg_difficulty r)]> ∅).

Definition make_move_data (r : MakeMoveRequest) : gmap string JS.json :=
  opt_entry "gameId" (mm_gameId r)
    (<["gameObjectId" := JS.JStr (mm_gameObjectId r)]>
       (<["isComputer" := JS.JBool (mm_isComputer r)]>
          (<["moveSan" := JS.JStr (mm_moveSan r)]>
             (<["fen" := JS.JStr (mm_fen r)]>
                (<["moveHash" := JS.JStr (mm_moveHash r)]> ∅))))).

Definition end_game_data (r : EndGameRequest) : gmap string JS.json :=
  <["gameObjectId" := JS.JStr (eg_gameObjectId r)]>
    (<["winner" := match eg_winner r with Some s => JS.JStr s | None => JS.JNull end]>
       (<["result" := JS.JStr (eg_result r)]>
          (<["finalFen" := JS.JStr (eg_finalFen r)]> ∅))).

Definition mint_nft_data (r : MintNftRequest) : gmap string JS.json :=
  opt_entry "registryObjectId" (mn_registryObjectId r)
    (<["recipientAddress" := JS.JStr (mn_recipientAddress r)]>
       (<["badgeType" := JS.JStr (mn_badgeType r)]>
          (<["name" := JS.JStr (mn_name r)]>
             (<["description" := JS.JStr (mn_description r)]>
                (<["sourceUrl" := JS.JStr (mn_sourceUrl r)]> ∅))))).

End Validation.

(** ** [services/socket-server.ts] *)

Module SocketServer.
Import Validation.

Definition queued (transactionId status : string) : M unit :=
  emit ToSocket "transaction:queued"
    [("transactionId", JS.JStr transactionId); ("status", JS.JStr status)].

Definition report (transactionId : string) (errorMessage : string) : M unit :=
  emit ToSocket "error"
    [("error", JS.JStr errorMessage); ("transactionId", JS.JStr transactionId)].

Definition on_create_game (data : CreateGameRequest) : M unit :=
  try_catch
    (validated <- lift_outcome (validateCreateGame data) ;;
     Database.addToQueue (cg_transactionId validated) create_game
       (Some (cg_playerAddress validated)) (create_game_data validated)
       (Some (cg_gameId validated)) None ;;;
     queued (cg_transactionId validated) "queued")
    (report (cg_transactionId data)).

Definition on_make_move (data : MakeMoveRequest) : M unit :=
  try_catch
    (validated <- lift_outcome (validateMakeMove data) ;;
     let status :=
       if bool_decide (mm_status data = Some "waiting_for_object_id")
       then waiting_for_object_id else pending in
     Database.addToQueue (mm_transactionId validated) make_move
       (Some (mm_playerAddress validated)) (make_move_data validated)
       (JS.or_null (mm_gameId validated)) None ;;;
     (if Database.status_eqb status waiting_for_object_id
      then Database.updateTransactionStatus (mm_transactionId validated)
             waiting_for_object_id None
      else ret tt) ;;;
     queued (mm_transactionId validated)
       (if Database.status_eqb status waiting_for_object_id
        then "waiting_for_object_id" else "queued"))
    (report (mm_transactionId data)).

Definition on_end_game (data : EndGameRequest) : M unit :=
  try_catch
    (validated <- lift_outcome (validateEndGame data) ;;
     Database.addToQueue (eg_transactionId validated) end_game
       (Some (eg_playerAddress validated)) (end_game_data validated) None None ;;;
     queued (eg_transactionId validated) "queued")
    (report (eg_transactionId data)).

Definition on_mint_nft (data : MintNftRequest) : M unit :=
  try_catch
    (validated <- lift_outcome (validateMintNft data) ;;
     Database.addToQueue (mn_transactionId validated) mint_nft
       (Some (mn_playerAddress validated)) (mint_nft_data validated)
       None (Some (mn_playerId validated)) ;;;
     queued (mn_transactionId validated) "queued")
    (report (mn_transactionId data)).

Record NftMintRequest : Type := mkNftMint {
  nm_playerId : string;
  nm_playerSuiAddress : string;
  nm_rewardType : string
}.

Definition error_only (errorMessage : string) : M unit :=
  emit ToSocket "error" [("error", JS.JStr errorMessage)].

(** the queued payload of a catalogue entry *)
Definition reward_data (playerSuiAddress : string) (reward : RewardService.RewardConfig)
    : gmap string JS.json :=
  <["recipientAddress" := JS.JStr playerSuiAddress]>
    (<["badgeType" := JS.JStr (RewardService.badge_type reward)]>
       (<["name" := JS.JStr (RewardService.name reward)]>
          (<["description" := JS.JStr (RewardService.description reward)]>
             (<["sourceUrl" := JS.JStr (RewardService.sourceUrl reward)]> ∅)))).

(** Steps 3 to 6 of the [nftMint] handler; [suffix] stands for
    [Date.now()] and the random part of the task id. *)
Definition enqueue_reward (playerId playerSuiAddress suffix : string)
    (reward : RewardService.RewardConfig) : M unit :=
  let badge := RewardService.badge_type reward in
  existingRewardResult <- pool_query (fun w =>
    (Ok (Database.limit_1
           (List.filter (Database.reward_matches playerId (Some badge))
                        (rewards (db w)))), db w)) ;;
  match existingRewardResult with
  | _ :: _ => ret tt
  | [] =>
      inQueue <- RewardService.isRewardInQueue playerId playerSuiAddress badge ;;
      if inQueue : bool
      then error_only ("Reward already in queue: playerId=" ++ playerId
                       ++ ", badgeType=" ++ badge)
      else
        let taskId := "mint_nft-" ++ playerId ++ "-" ++ badge ++ "-" ++ suffix in
        Database.addToQueue taskId mint_nft (Some playerSuiAddress)
          (reward_data playerSuiAddress reward) None (Some playerId) ;;;
        emit (room playerSuiAddress) "mint-task-queued"
          [("taskId", JS.JStr taskId); ("rewardType", JS.JStr badge);
           ("playerId", JS.JStr playerId);
           ("playerSuiAddress", JS.JStr playerSuiAddress)]
  end.

Definition on_nftMint (mintData : NftMintRequest) (suffix : string) : M unit :=
  try_catch
    (let playerId := nm_playerId mintData in
     let playerSuiAddress := nm_playerSuiAddress mintData in
     let rewardType := nm_rewardType mintData in
     if negb (JS.truthy_string playerId) || negb (JS.truthy_string playerSuiAddress)
        || negb (JS.truthy_string rewardType)
     then error_only
            "Invalid nftMint data: missing required fields (playerId, playerSuiAddress, rewardType)"
     else
       playerResult <- pool_query (fun w =>
         (Ok (Database.limit_1
                (List.filter (fun p => String.eqb (player_row_id p) playerId
                                       && String.eqb (sui_address p) playerSuiAddress)
                             (players (db w)))), db w)) ;;
       match playerResult with
       | [] => error_only ("Player not found: id=" ++ playerId
                           ++ ", address=" ++ playerSuiAddress)
       | _ :: _ =>
           match RewardService.getRewardByBadgeType rewardType with
           | None =>
               eligibleBadgeType <-
                 RewardService.shouldEarnReward playerSuiAddress rewardType ;;
               match eligibleBadgeType with
               | None => ret tt
               | Some eligible =>
                   if negb (JS.truthy_string eligible) then ret tt
                   else
                     match RewardService.getRewardByBadgeType eligible with
                     | None =>
                         error_only ("Reward configuration not found for badge_type: "
                                     ++ eligible)
                     | Some reward =>
                         enqueue_reward playerId playerSuiAddress suffix reward
                     end
               end
           | Some reward =>
               eligibleBadgeType <-
                 RewardService.shouldEarnReward playerSuiAddress rewardType ;;
               match eligibleBadgeType with
               | None => ret tt
               | Some eligible =>
                   if negb (JS.truthy_string eligible)
                      || negb (String.eqb eligible rewardType)
                   then ret tt
                   else enqueue_reward playerId playerSuiAddress suffix reward
               end
           end
       end)
    error_only.

(** The events the server handles. *)
Inductive Request : Type :=
| CreateGame (data : CreateGameRequest)
| MakeMove (data : MakeMoveRequest)
| EndGame (data : EndGameRequest)
| MintNft (data : MintNftRequest)
| NftMint (data : NftMintRequest) (suffix : string).

Definition handle (r : Request) : M unit :=
  match r with
  | CreateGame data => on_create_game data
  | MakeMove data => on_make_move data
  | EndGame data => on_end_game data
  | MintNft data => on_mint_nft data
  | NftMint data suffix => on_nftMint data suffix
  end.

End SocketServer.

(** ** Tasks: the code with its [await]s

    A task is a program whose atomic actions are the computations that run
    between two [await]s: a query, a call of the node, a sleep, or code that
    awaits nothing. [run] is the program run without interruption: it is the
    computation in [M] of the same name. [step] runs one action and returns
    what is left of the program with the tasks that it has started. *)

Inductive Prog (A : Type) : Type :=
| Ret (a : A)
| Raise (message : string)
| Atomic (op : M A)
| Bind {X : Type} (m : Prog X) (f : X -> Prog A)
| TryCatch (m : Prog A) (h : string -> Prog A)
| Fork (child : Prog unit) (k : Prog A).

Arguments Ret {A} a.
Arguments Raise {A} message.
Arguments Atomic {A} op.
Arguments Bind {A X} m f.
Arguments TryCatch {A} m h.
Arguments Fork {A} child k.

Declare Scope task_scope.
Delimit Scope task_scope with task.
Bind Scope task_scope with Prog.
Notation "x <- c1 ;; c2" := (Bind c1 (fun x => c2))
  (at level 100, c1 at next level, right associativity) : task_scope.
Notation "c1 ;;; c2" := (Bind c1 (fun _ => c2))
  (at level 100, right associativity) : task_scope.

Fixpoint run {A} (p : Prog A) : M A :=
  match p with
  | Ret a => ret a
  | Raise message => throw message
  | Atomic op => op
  | Bind m f => bind (run m) (fun x => run (f x))
  | TryCatch m h => try_catch (run m) (fun error => run (h error))
  | Fork _ k => run k
  end.

(** what is left of [m ;; f] and of [try m catch h] when [m] has run one
    action *)
Definition continue_with {A X} (m : Prog X) (f : X -> Prog A) : Prog A :=
  match m with
  | Ret x => f x
  | Raise error => Raise error
  | _ => Bind m f
  end.

Definition continue_in_try {A} (m : Prog A) (h : string -> Prog A) : Prog A :=
  match m with
  | Ret a => Ret a
  | Raise error => h error
  | _ => TryCatch m h
  end.

Fixpoint step {A} (p : Prog A) (env : Env) (w : World)
    : Prog A * list (Prog unit) * World :=
  match p with
  | Ret a => (Ret a, [], w)
  | Raise error => (Raise error, [], w)
  | Atomic op =>
      match op env w with
      | (Ok a, w') => (Ret a, [], w')
      | (Throw error, w') => (Raise error, [], w')
      end
  | Bind m f =>
      match step m env w with
      | (m', started, w') => (continue_with m' f, started, w')
      end
  | TryCatch m h =>
      match step m env w with
      | (m', started, w') => (continue_in_try m' h, started, w')
      end
  | Fork child k => (k, [child], w)
  end.

Module Tasks.
Import Validation.
Local Open Scope task_scope.

Fixpoint for_each {A} (xs : list A) (body : A -> Prog unit) : Prog unit :=
  match xs with
  | [] => Ret tt
  | x :: xs' => body x ;;; for_each xs' body
  end.

(** *** [services/database.ts] *)

(** [addToQueue]: the duplicate check and the [INSERT] are two queries *)
Definition addToQueue (id : string) (transactionType : TransactionType)
    (playerSuiAddress : option string) (transactionData : gmap string JS.json)
    (gameId playerId : option string) : Prog unit :=
  let insert :=
    Atomic (pool_query (fun w =>
      Database.insert_queue id
        (mkRow transactionType playerSuiAddress (JS.or_null gameId)
               (JS.or_null playerId) pending transactionData None
               (clock w) (clock w) None 0) w)) in
  if Database.is_mint_nft transactionType && JS.truthy_opt playerSuiAddress
     && JS.truthy_opt playerId
  then
    match transactionData !! "badgeType" with
    | Some badgeType =>
        if JS.truthy badgeType
        then
          existing <- Atomic (pool_query (fun w =>
            (Ok (Database.limit_1 (Database.select_queue
                   (Database.duplicate_mint_cond playerSuiAddress playerId
                      (JS.text badgeType))
                   (transaction_queue (db w)))), db w))) ;;
          match existing with
          | _ :: _ => Ret tt
          | [] => insert
          end
        else insert
    | None => insert
    end
  else insert.

(** [createOrUpdateReward]: the [SELECT], then the [UPDATE] or the
    [INSERT] *)
Definition createOrUpdateReward (playerId : string) (rewardType : option string)
    (objectId : string) : Prog unit :=
  TryCatch
    (existing <- Atomic (pool_query (fun w =>
       (Ok (Database.limit_1
              (List.filter (Database.reward_matches playerId rewardType)
                           (rewards (db w)))),
        db w))) ;;
     match existing with
     | _ :: _ =>
         Atomic (pool_query (fun w =>
           (Ok tt, with_rewards
                     (Database.update_first_reward playerId rewardType objectId
                        (clock w) (rewards (db w))) (db w))))
     | [] =>
         Atomic (pool_query (fun w =>
           (Ok tt, with_rewards
                     (rewards (db w)
                      ++ [mkReward rewardType playerId (Some objectId) (clock w)])
                     (db w))))
     end)
    (fun error => Raise error).

(** *** [services/reward-service.ts] *)

Definition shouldEarnReward (playerSuiAddress rewardType : string)
    : Prog (option string) :=
  let known :=
    if String.eqb rewardType "first_game"
    then Some ("vw_users_no_first_game", "first_game")
    else if String.eqb rewardType "first_game_created"
    then Some ("vw_users_no_first_game_created", "first_game_created")
    else if String.eqb rewardType "wins"
    then Some ("vw_users_victories", "")
    else None in
  match known with
  | None => Ret None
  | Some (table, badgeType) =>
      playerResult <- Atomic (pool_query (fun w =>
        (Ok (Database.limit_1
               (List.filter (fun p => String.eqb (sui_address p) playerSuiAddress)
                            (players (db w)))), db w))) ;;
      match playerResult with
      | [] => Ret None
      | player :: _ =>
          let playerId := player_row_id player in
          already <-
            (if JS.truthy_string badgeType
             then
               existingRewardResult <- Atomic (pool_query (fun w =>
                 (Ok (Database.limit_1
                        (List.filter (Database.reward_matches playerId (Some badgeType))
                                     (rewards (db w)))), db w))) ;;
               Ret (match existingRewardResult with [] => false | _ :: _ => true end)
             else Ret false) ;;
          if already : bool then Ret None
          else if negb (String.eqb rewardType "wins")
          then
            result <- Atomic (pool_query (fun w =>
              (Ok (RewardService.select_view table playerSuiAddress (db w)), db w))) ;;
            match result with
            | [] => Ret None
            | _ :: _ => Ret (Some badgeType)
            end
          else
            victoryResult <- Atomic (pool_query (fun w =>
              (Ok (RewardService.select_view table playerSuiAddress (db w)), db w))) ;;
            match victoryResult with
            | [] => Ret None
            | victory_total :: _ =>
                let totalWins := default 0 victory_total in
                earnedRewardsResult <- Atomic (pool_query (fun w =>
                  (Ok (List.map reward_type
                         (List.filter
                            (fun r => String.eqb (reward_player_id r) playerId)
                            (rewards (db w)))), db w))) ;;
                Ret (RewardService.next_wins_reward totalWins earnedRewardsResult)
            end
      end
  end.

(** *** [services/sui-client.ts] *)

Definition poll_once (digest objectType : string) (i : nat) : Prog (option string) :=
  TryCatch
    (txResponse <- Atomic (SuiClient.getTransactionBlock digest) ;;
     match effects_status txResponse with
     | Some s =>
         if negb (String.eqb s "success")
         then Raise ("Transaction failed: " ++ s)
         else Ret (SuiClient.extract objectType txResponse)
     | None => Ret (SuiClient.extract objectType txResponse)
     end)
    (fun error =>
       if Nat.eqb i (SuiClient.maxRetries - 1)
       then Raise error
       else Atomic (sleep SuiClient.delay) ;;; Ret None).

Fixpoint poll_from (todo i : nat) (digest objectType : string) : Prog (option string) :=
  match todo with
  | O => Ret None
  | S todo' =>
      found <- poll_once digest objectType i ;;
      match found with
      | Some objectId => Ret (Some objectId)
      | None => poll_from todo' (S i) digest objectType
      end
  end.

Definition waitForTransactionAndExtractObjectId (digest objectType : string)
    : Prog (option string) :=
  poll_from SuiClient.maxRetries 0 digest objectType.

(** *** [services/transaction-processor.ts] *)

Definition processWaitingMovesForGame (gameId objectId : string) : Prog unit :=
  TryCatch
    (waitingTransactions <- Atomic (Database.getWaitingTransactionsForGame gameId) ;;
     match waitingTransactions with
     | [] => Ret tt
     | _ :: _ =>
         for_each waitingTransactions (fun transaction =>
           TryCatch
             (Atomic (Database.updateWaitingTransactionWithObjectId
                        (id transaction) objectId))
             (fun _ => Ret tt))
     end)
    (fun _ => Ret tt).

Definition reconcile_and_notify (transaction : TransactionQueueItem)
    (digest : string) : Prog unit :=
  let row := columns transaction in
  let data := transaction_data row in
  objectId <-
    match transaction_type row with
    | create_game =>
        TryCatch
          (objectId <- waitForTransactionAndExtractObjectId digest "::game::Game" ;;
           TryCatch
             ((match objectId, game_id row with
               | Some o, Some g =>
                   if JS.truthy_string o && JS.truthy_string g
                   then
                     Atomic (Database.updateGameObjectId g o) ;;;
                     processWaitingMovesForGame g o
                   else Ret tt
               | _, _ => Ret tt
               end) ;;;
              Ret (Some objectId))
             (fun _ => Ret (Some objectId)))
          (fun _ => Ret None)
    | mint_nft =>
        TryCatch
          (objectId <- waitForTransactionAndExtractObjectId digest "badge::Badge" ;;
           TryCatch
             ((if negb (JS.truthy_opt objectId) then Ret tt
               else if negb (JS.truthy_opt (player_id row)) then Ret tt
               else
                 TryCatch
                   (createOrUpdateReward (default "" (player_id row))
                      (data !! "badgeType" ≫= JS.text) (default "" objectId))
                   (fun dbError => Raise dbError)) ;;;
              Ret (Some objectId))
             (fun _ => Ret (Some objectId)))
          (fun _ => Ret None)
    | make_move | end_game => Ret None
    end ;;
  match player_sui_address row with
  | Some playerAddress =>
      if JS.truthy_string playerAddress
      then
        Atomic (emit (room playerAddress) "transaction:result"
          ([("transactionId", JS.JStr (id transaction));
            ("status", JS.JStr "success");
            ("digest", JS.JStr digest)]
           ++ TransactionProcessor.objectId_field objectId
           ++ (if Database.is_mint_nft (transaction_type row)
               then TransactionProcessor.data_field "rewardName" (data !! "name")
                    ++ TransactionProcessor.data_field "badgeType" (data !! "badgeType")
               else [])))
      else Ret tt
  | None => Ret tt
  end.

(** the transaction is built without an [await]; the calls of the node in
    [executeTransaction] are one answer of the node, and one action *)
Definition processTransaction (transaction : TransactionQueueItem) : Prog unit :=
  digest <-
    (tx <- Atomic (TransactionProcessor.build transaction) ;;
     Atomic (TransactionProcessor.execute tx)) ;;
  reconcile_and_notify transaction digest.

(** *** [services/queue-service.ts] *)

Definition processPlayerQueue_catch (playerAddress : string)
    (transaction : TransactionQueueItem) (errorMessage : string) : Prog unit :=
  let t := transaction_type (columns transaction) in
  Atomic (Database.incrementRetries (id transaction)) ;;;
  let retries := retries (columns transaction) + 1 in
  env <- Atomic ask ;;
  if maxRetries (config env) <=? retries
  then
    Atomic (Database.updateTransactionStatus (id transaction) failed
              (Some errorMessage)) ;;;
    (if negb (QueueService.isNftAlreadyExists t errorMessage)
        && negb (QueueService.isVersionMismatch_failed errorMessage)
     then
       Atomic (emit (room playerAddress) "transaction:result"
         [("transactionId", JS.JStr (id transaction));
          ("status", JS.JStr "error");
          ("error", JS.JStr errorMessage)])
     else Ret tt) ;;;
    (if negb (Database.is_mint_nft t)
     then Atomic (Database.deleteTransaction (id transaction))
     else Ret tt)
  else
    Atomic (Database.updateTransactionStatus (id transaction) pending
              (Some errorMessage)) ;;;
    let baseDelay :=
      if QueueService.isVersionMismatch_retry errorMessage && Database.is_mint_nft t
      then 2000
      else retryDelayMs (config env) in
    let retryDelay := baseDelay * retries in
    Atomic (sleep retryDelay).

Definition processPlayerQueue_try (playerAddress : string)
    (transaction : TransactionQueueItem) : Prog unit :=
  Atomic (Database.updateTransactionStatus (id transaction) processing None) ;;;
  Atomic (emit (room playerAddress) "transaction:processing"
    [("transactionId", JS.JStr (id transaction)); ("status", JS.JStr "processing")]) ;;;
  processTransaction transaction ;;;
  Atomic (Database.updateTransactionStatus (id transaction) completed None) ;;;
  Atomic (Database.deleteTransaction (id transaction)).

Fixpoint processPlayerQueue (fuel : nat) (playerAddress : string)
    : Prog QueueService.Completion :=
  match fuel with
  | O => Ret QueueService.OutOfFuel
  | S fuel' =>
      transaction <-
        Atomic (Database.getNextPendingTransaction
                  (JS.or_null (Some playerAddress))) ;;
      match transaction with
      | None => Ret QueueService.Drained
      | Some transaction =>
          TryCatch (processPlayerQueue_try playerAddress transaction)
                   (processPlayerQueue_catch playerAddress transaction) ;;;
          processPlayerQueue fuel' playerAddress
      end
  end.

(** [processPlayerQueue(playerAddress, io).finally(...)]: the player is
    unmarked when the worker returns and when it throws, and what it
    throws is caught by nobody. A worker that is out of fuel is a worker
    that still runs: its player stays marked. *)
Definition worker (fuel : nat) (playerAddress : string) : Prog unit :=
  TryCatch
    (completion <- processPlayerQueue fuel playerAddress ;;
     match completion with
     | QueueService.Drained => Atomic (QueueService.unmark playerAddress)
     | QueueService.OutOfFuel => Ret tt
     end)
    (fun error => Atomic (QueueService.unmark playerAddress) ;;; Raise error).

Fixpoint start_all (players : list string) (task : string -> Prog unit) : Prog unit :=
  match players with
  | [] => Ret tt
  | playerAddress :: rest => Fork (task playerAddress) (start_all rest task)
  end.

(** [processQueue]: the scan, the loop that marks, and the workers
    started *)
Definition processQueue (fuel : nat) : Prog unit :=
  allPlayers <- Atomic QueueService.getAllPlayersWithPendingTransactions ;;
  started <- Atomic (QueueService.mark_all allPlayers) ;;
  start_all started (worker fuel).

(** *** [services/socket-server.ts] *)

Definition on_create_game (data : CreateGameRequest) : Prog unit :=
  TryCatch
    (validated <- Atomic (lift_outcome (validateCreateGame data)) ;;
     addToQueue (cg_transactionId validated) create_game
       (Some (cg_playerAddress validated)) (create_game_data validated)
       (Some (cg_gameId validated)) None ;;;
     Atomic (SocketServer.queued (cg_transactionId validated) "queued"))
    (fun error => Atomic (SocketServer.report (cg_transactionId data) error)).

Definition on_make_move (data : MakeMoveRequest) : Prog unit :=
  TryCatch
    (validated <- Atomic (lift_outcome (validateMakeMove data)) ;;
     let status :=
       if bool_decide (mm_status data = Some "waiting_for_object_id")
       then waiting_for_object_id else pending in
     addToQueue (mm_transactionId validated) make_move
       (Some (mm_playerAddress validated)) (make_move_data validated)
       (JS.or_null (mm_gameId validated)) None ;;;
     (if Database.status_eqb status waiting_for_object_id
      then Atomic (Database.updateTransactionStatus (mm_transactionId validated)
                     waiting_for_object_id None)
      else Ret tt) ;;;
     Atomic (SocketServer.queued (mm_transactionId validated)
       (if Database.status_eqb status waiting_for_object_id
        then "waiting_for_object_id" else "queued")))
    (fun error => Atomic (SocketServer.report (mm_transactionId data) error)).

Definition on_end_game (data : EndGameRequest) : Prog unit :=
  TryCatch
    (validated <- Atomic (lift_outcome (validateEndGame data)) ;;
     addToQueue (eg_transactionId validated) end_game
       (Some (eg_playerAddress validated)) (end_game_data validated) None None ;;;
     Atomic (SocketServer.queued (eg_transactionId validated) "queued"))
    (fun error => Atomic (SocketServer.report (eg_transactionId data) error)).

Definition on_mint_nft (data : MintNftRequest) : Prog unit :=
  TryCatch
    (validated <- Atomic (lift_outcome (validateMintNft data)) ;;
     addToQueue (mn_transactionId validated) mint_nft
       (Some (mn_playerAddress validated)) (mint_nft_data validated)
       None (Some (mn_playerId validated)) ;;;
     Atomic (SocketServer.queued (mn_transactionId validated) "queued"))
    (fun error => Atomic (SocketServer.report (mn_transactionId data) error)).

Definition enqueue_reward (playerId playerSuiAddress suffix : string)
    (reward : RewardService.RewardConfig) : Prog unit :=
  let badge := RewardService.badge_type reward in
  existingRewardResult <- Atomic (pool_query (fun w =>
    (Ok (Database.limit_1
           (List.filter (Database.reward_matches playerId (Some badge))
                        (rewards (db w)))), db w))) ;;
  match existingRewardResult with
  | _ :: _ => Ret tt
  | [] =>
      inQueue <- Atomic (RewardService.isRewardInQueue playerId playerSuiAddress badge) ;;
      if inQueue : bool
      then Atomic (SocketServer.error_only
                     ("Reward already in queue: playerId=" ++ playerId
                      ++ ", badgeType=" ++ badge))
      else
        let taskId := "mint_nft-" ++ playerId ++ "-" ++ badge ++ "-" ++ suffix in
        addToQueue taskId mint_nft (Some playerSuiAddress)
          (SocketServer.reward_data playerSuiAddress reward) None (Some playerId) ;;;
        Atomic (emit (room playerSuiAddress) "mint-task-queued"
          [("taskId", JS.JStr taskId); ("rewardType", JS.JStr badge);
           ("playerId", JS.JStr playerId);
           ("playerSuiAddress", JS.JStr playerSuiAddress)])
  end.

Definition on_nftMint (mintData : SocketServer.NftMintRequest) (suffix : string)
    : Prog unit :=
  TryCatch
    (let playerId := SocketServer.nm_playerId mintData in
     let playerSuiAddress := SocketServer.nm_playerSuiAddress mintData in
     let rewardType := SocketServer.nm_rewardType mintData in
     if negb (JS.truthy_string playerId) || negb (JS.truthy_string playerSuiAddress)
        || negb (JS.truthy_string rewardType)
     then Atomic (SocketServer.error_only
            "Invalid nftMint data: missing required fields (playerId, playerSuiAddress, rewardType)")
     else
       playerResult <- Atomic (pool_query (fun w =>
         (Ok (Database.limit_1
                (List.filter (fun p => String.eqb (player_row_id p) playerId
                                       && String.eqb (sui_address p) playerSuiAddress)
                             (players (db w)))), db w))) ;;
       match playerResult with
       | [] => Atomic (SocketServer.error_only
                         ("Player not found: id=" ++ playerId
                          ++ ", address=" ++ playerSuiAddress))
       | _ :: _ =>
           match RewardService.getRewardByBadgeType rewardType with
           | None =>
               eligibleBadgeType <- shouldEarnReward playerSuiAddress rewardType ;;
               match eligibleBadgeType with
               | None => Ret tt
               | Some eligible =>
                   if negb (JS.truthy_string eligible) then Ret tt
                   else
                     match RewardService.getRewardByBadgeType eligible with
                     | None =>
                         Atomic (SocketServer.error_only
                                   ("Reward configuration not found for badge_type: "
                                    ++ eligible))
                     | Some reward =>
                         enqueue_reward playerId playerSuiAddress suffix reward
                     end
               end
           | Some reward =>
               eligibleBadgeType <- shouldEarnReward playerSuiAddress rewardType ;;
               match eligibleBadgeType with
               | None => Ret tt
               | Some eligible =>
                   if negb (JS.truthy_string eligible)
                      || negb (String.eqb eligible rewardType)
                   then Ret tt
                   else enqueue_reward playerId playerSuiAddress suffix reward
               end
           end
       end)
    (fun error => Atomic (SocketServer.error_only error)).

Definition handle (r : SocketServer.Request) : Prog unit :=
  match r with
  | SocketServer.CreateGame data => on_create_game data
  | SocketServer.MakeMove data => on_make_move data
  | SocketServer.EndGame data => on_end_game data
  | SocketServer.MintNft data => on_mint_nft data
  | SocketServer.NftMint data suffix => on_nftMint data suffix
  end.

(** the hourly clean-up: one query *)
Definition cleanup : Prog unit := Atomic Database.cleanupOldTransactions.

(** the callbacks of the two timers of [startQueueProcessor]: what
    [processQueue] and [cleanupOldTransactions] throw is caught and
    logged *)
Definition tick (fuel : nat) : Prog unit :=
  TryCatch (processQueue fuel) (fun _ => Ret tt).

Definition hourly : Prog unit :=
  TryCatch cleanup (fun _ => Ret tt).

End Tasks.

(** ** The server as a transition system

    The state of the server is the world and the tasks that have been
    started. One step is the start of a task (a request arrives and its
    handler starts, one of the two timers fires), one action of one task, or
    a change of what the program does not own: the answers of the chain, the
    fault plan, the row locks of other sessions and the time, and the tables
    that other programs write. *)

Record Server : Type := mkServer {
  world : World;
  tasks : list (Prog unit)
}.

(** the task of index [n] runs one action *)
Definition run_task (env : Env) (n : nat) (s : Server) : Server :=
  match tasks s !! n with
  | None => s
  | Some task =>
      match step task env (world s) with
      | (task', started, w') => mkServer w' (<[n := task']> (tasks s) ++ started)
      end
  end.

Inductive server_step (env : Env) : Server -> Server -> Prop :=
| step_request (r : SocketServer.Request) (s : Server) :
    server_step env s (mkServer (world s) (tasks s ++ [Tasks.handle r]))
| step_tick (fuel : nat) (s : Server) :
    server_step env s (mkServer (world s) (tasks s ++ [Tasks.tick fuel]))
| step_cleanup (s : Server) :
    server_step env s (mkServer (world s) (tasks s ++ [Tasks.hourly]))
| step_task (n : nat) (s : Server) :
    server_step env s (run_task env n s)
| step_outside (s : Server) (d : Database) (a : list SubmitAnswer)
    (p : list PollAnswer) (t : Z) (f : list (option string)) (l : gset string) :
    transaction_queue d = transaction_queue (db (world s)) ->
    clock (world s) <= t ->
    server_step env s
      (mkServer
         (mkWorld d a p t f l (sponsorKeypair (world s)) (processingPlayers (world s))
                  (trace (world s)))
         (tasks s)).

(** the states the server reaches from [s] *)
Inductive reachable (env : Env) (s : Server) : Server -> Prop :=
| reach_here : reachable env s s
| reach_step (s1 s2 : Server) :
    reachable env s s1 -> server_step env s1 s2 -> reachable env s s2.

(** a server on which no task runs *)
Definition idle (w : World) : Server := mkServer w [].

(** the tasks run one action each, in the order of the schedule *)
Definition run_schedule (env : Env) (schedule : list nat) (s : Server) : Server :=
  List.fold_left (fun s n => run_task env n s) schedule s.

(** ** The words of the specification

    Definitions that follow the specification rather than the source; the
    theorems compare them with the definitions above. *)

Module Spec.

(** "message contains "is not available for consumption" or "current
    version" or "non-retriable"" *)
Definition version_mismatch (message : string) : bool :=
  JS.includes "is not available for consumption" message
  || JS.includes "current version" message
  || JS.includes "non-retriable" message.

(** "delay = base * attempt", with "base = 2000 ms" for a version mismatch
    of a MintBadge and the configured retry delay otherwise *)
Definition backoff (cfg : Config) (kind : TransactionType) (message : string)
    (attempt : Z) : Z :=
  (if version_mismatch message && bool_decide (kind = mint_nft)
   then 2000 else retryDelayMs cfg) * attempt.





(** the catalogue rows of the tiered kind "wins" *)
Definition wins_rows : list RewardService.RewardConfig :=
  List.filter (fun r => String.eqb (RewardService.check r) "wins")
              RewardService.rewardsList.

(** the row of lowest threshold of a list, the earlier one on a tie *)
Fixpoint lowest_threshold (l : list RewardService.RewardConfig)
    : option RewardService.RewardConfig :=
  match l with
  | [] => None
  | r :: l' =>
      match lowest_threshold l' with
      | Some r' =>
          if RewardService.value r' <? RewardService.value r then Some r' else Some r
      | None => Some r
      end
  end.

(** "the lowest-threshold badge in catalog order not yet in the actor's
    reward set, whose threshold <= current win count; none otherwise" *)
Definition decide_wins (wins : Z) (reward_set : list (option string)) : option string :=
  RewardService.badge_type <$>
    lowest_threshold
      (List.filter (fun r => negb (RewardService.earned reward_set (RewardService.badge_type r))
                             && (RewardService.value r <=? wins))
                   wins_rows).

(** the player of an address, the wins of an address and the reward set of
    a player, as the store has them *)
Definition player_of (d : Database) (address : string) : option string :=
  player_row_id <$>
    List.find (fun p => String.eqb (sui_address p) address) (players d).

Definition victories_row (d : Database) (address : string) : option VictoryRow :=
  List.find (fun v => String.eqb (suid v) address) (vw_users_victories d).

Definition reward_set (d : Database) (player : string) : list (option string) :=
  List.map reward_type
    (List.filter (fun r => String.eqb (reward_player_id r) player) (rewards d)).

(** [decide(actor, "wins")], steps 1 and 3 *)
Definition decide_wins_for (d : Database) (address : string) : option string :=
  match player_of d address with
  | None => None
  | Some player =>
      match victories_row d address with
      | None => None
      | Some v => decide_wins (default 0 (total v)) (reward_set d player)
      end
  end.

(** the first catalogue row of the kind "wins" whose badge the player has
    not earned *)
Definition first_unearned (reward_set : list (option string))
    : option RewardService.RewardConfig :=
  List.find (fun r => negb (RewardService.earned reward_set (RewardService.badge_type r)))
            wins_rows.

(** (I4) "A row in WaitingForParentId has a non-null game_ref and a
    payload.game_object_id that is empty/unset." *)
Definition I4 (r : QueueRow) : Prop :=
  status r = waiting_for_object_id ->
  game_id r <> None
  /\ (transaction_data r !! "gameObjectId" = None
      \/ transaction_data r !! "gameObjectId" = Some (JS.JStr "")).

(** the key of (I3): actor, player and badge type of a MintBadge row that
    is Pending, Processing or Completed *)
Definition I3_key (r : QueueRow)
    : option (option string * option string * option JS.json) :=
  if Database.is_mint_nft (transaction_type r) && Database.live_status (status r)
  then Some (player_sui_address r, player_id r, transaction_data r !! "badgeType")
  else None.

(** (I3) "A MintBadge row is unique per (actor, player_ref,
    payload.badge_type) across statuses {Pending, Processing, Completed}" *)
Definition I3 (q : gmap string QueueRow) : Prop :=
  forall i j r1 r2 k,
    q !! i = Some r1 -> q !! j = Some r2 ->
    I3_key r1 = Some k -> I3_key r2 = Some k -> i = j.

(** an answer of the node in which no success criterion holds *)
Definition no_criterion (objectType : string) (a : PollAnswer) : Prop :=
  match a with
  | PollRejects _ => True
  | PollResponds r =>
      match effects_status r with
      | Some s => s <> "success" \/ SuiClient.extract objectType r = None
      | None => SuiClient.extract objectType r = None
      end
  end.

(** "a message enumerating all three accepted forms" *)
Definition enumerates_forms (message : string) : bool :=
  JS.includes "nemonic" message
  && JS.includes "hex" message
  && (JS.includes "ech32" message || JS.includes "suiprivkey" message).

End Spec.

(** ** Reasoning about [M] *)

(** [hoare env P m Q]: run from a world where [P] holds, [m] ends in a world
    and with a result that [Q] relates. *)
Definition hoare {A} (env : Env) (P : World -> Prop) (m : M A)
    (Q : outcome A -> World -> Prop) : Prop :=
  forall w, P w -> Q (fst (m env w)) (snd (m env w)).

(** [m] keeps [I], whatever its result. *)
Definition keeps {A} (env : Env) (I : World -> Prop) (m : M A) : Prop :=
  hoare env I m (fun _ w => I w).

(** [task_keeps env I p Q]: every action of the task [p] keeps [I], in
    whatever world it runs, and [Q] holds of what [p] returns; the tasks
    that [p] starts keep [I] too. *)
Fixpoint task_keeps {A} (env : Env) (I : World -> Prop) (p : Prog A) (Q : A -> Prop)
    : Prop :=
  match p with
  | Ret a => Q a
  | Raise _ => True
  | Atomic op =>
      forall w, I w -> I (snd (op env w)) /\ forall a, fst (op env w) = Ok a -> Q a
  | Bind m f =>
      exists Q', task_keeps env I m Q' /\ forall x, Q' x -> task_keeps env I (f x) Q
  | TryCatch m h => task_keeps env I m Q /\ forall error, task_keeps env I (h error) Q
  | Fork child k => task_keeps env I child (fun _ => True) /\ task_keeps env I k Q
  end.

(** the tasks of a server keep [I] *)
Definition tasks_keep (env : Env) (I : World -> Prop) (s : Server) : Prop :=
  Forall (fun task => task_keeps env I task (fun _ => True)) (tasks s).

(** the next [n] queries do not fail *)
Definition no_faults (n : nat) (w : World) : Prop :=
  Forall (fun f => f = None) (firstn n (faults w)).

Definition is_poll (x : Effect) : bool :=
  match x with
  | Poll _ => true
  | _ => false
  end.

Definition is_sleep (x : Effect) : bool :=
  match x with
  | Sleep _ => true
  | _ => false
  end.




(** an invariant that only reads the trace *)
Definition on_trace (J : list Effect -> Prop) (w : World) : Prop := J (trace w).


(** what the [catch] of [getSponsorKeypair] makes of the result of a decoder *)
Definition wrap_key_error (o : outcome Ed25519Keypair) : outcome Ed25519Keypair :=
  match o with
  | Ok kp => Ok kp
  | Throw m => Throw ("Invalid SUI_SPONSOR_PRIVATE_KEY format: " ++ m)
  end.

(** a secret decoded by the SDK, by its form *)
Definition decode_key (s : Sdk) (form : SuiClient.KeyForm) (privateKey : string)
    : outcome Ed25519Keypair :=
  match form with
  | SuiClient.Mnemonic => deriveKeypair s privateKey
  | SuiClient.Bech32 =>
      match decodeSuiPrivateKey s privateKey with
      | Ok secretKey => fromSecretKey s secretKey
      | Throw m => Throw m
      end
  | SuiClient.Hex => fromSecretKey s (fromHEX s (SuiClient.strip_0x privateKey))
  | SuiClient.Malformed =>
      Throw (SuiClient.invalid_format_message
               (JS.length (SuiClient.strip_0x privateKey)))
  end.

(** the number of effects of a kind *)
Definition count_of (f : Effect -> bool) (l : list Effect) : nat :=
  List.length (List.filter f l).

(** the head of a list of rows is not younger than the other rows *)
Definition head_is_oldest (l : list TransactionQueueItem) : Prop :=
  match l with
  | [] => True
  | x :: _ => forall y, In y l -> created_at (columns x) <= created_at (columns y)
  end.

(** a row that [getNextPendingTransaction] may return for an actor *)
Definition claimable (w : World) (actor : option string) (i : string) (r : QueueRow)
    : Prop :=
  transaction_queue (db w) !! i = Some r
  /\ status r = pending
  /\ (exists a, actor = Some a /\ player_sui_address r = Some a)
  /\ i ∉ locked w.

(** The key that the duplicate check of [addToQueue] compares, for the
    intents on which the check is made: actor, player and badge type are
    given and not empty. *)
Definition checked_key (address player : option string) (badge : option JS.json)
    : option (string * string * string) :=
  match address, player, badge with
  | Some a, Some p, Some v =>
      if JS.truthy_string a && JS.truthy_string p && JS.truthy v
      then (fun t => (a, p, t)) <$> JS.text v
      else None
  | _, _, _ => None
  end.

Definition row_checked_key (r : QueueRow) : option (string * string * string) :=
  if Database.is_mint_nft (transaction_type r) && Database.live_status (status r)
  then checked_key (player_sui_address r) (player_id r)
                   (transaction_data r !! "badgeType")
  else None.

(** (I3) for the rows on which the check is made *)
Definition I3_checked (q : gmap string QueueRow) : Prop :=
  forall i j r1 r2 k,
    q !! i = Some r1 -> q !! j = Some r2 ->
    row_checked_key r1 = Some k -> row_checked_key r2 = Some k -> i = j.

(** no MintBadge waits for a game: only moves do *)
Definition no_waiting_mint (q : gmap string QueueRow) : Prop :=
  forall i r,
    q !! i = Some r -> status r = waiting_for_object_id ->
    Database.is_mint_nft (transaction_type r) = false.

(** the queue as far as MintBadge rows go *)
Definition mint_queue_ok (q : gmap string QueueRow) : Prop :=
  I3_checked q /\ no_waiting_mint q.

(** the row under a key is not a MintBadge *)
Definition not_mint_at (i : string) (q : gmap string QueueRow) : Prop :=
  forall r, q !! i = Some r -> Database.is_mint_nft (transaction_type r) = false.

(** the row under a key, when it is a MintBadge, is pending, processing or
    completed: the state of the row that a worker has claimed *)
Definition live_if_mint (i : string) (q : gmap string QueueRow) : Prop :=
  forall r,
    q !! i = Some r -> Database.is_mint_nft (transaction_type r) = true ->
    Database.live_status (status r) = true.

(** the row that [addToQueue] inserts *)
Definition new_row (w : World) (transactionType : TransactionType)
    (playerSuiAddress : option string) (transactionData : gmap string JS.json)
    (gameId playerId : option string) : QueueRow :=
  mkRow transactionType playerSuiAddress (JS.or_null gameId) (JS.or_null playerId)
        pending transactionData None (clock w) (clock w) None 0.

(** the status of a row of the queue *)
Definition status_of (w : World) (i : string) : option TransactionStatus :=
  status <$> transaction_queue (db w) !! i.

(** the two effects of the polling loop *)
Definition poll_or_sleep (digest : string) (x : Effect) : Prop :=
  x = Poll digest \/ x = Sleep SuiClient.delay.

(** the answers to the next [n] polls *)
Definition next_polls (w : World) (n : nat) : list PollAnswer :=
  List.map (SuiClient.nth_poll w) (seq 0 n).

(** The polls and sleeps of a loop that finds nothing in the answers it is
    given: a sleep follows each poll that throws, the last poll apart. *)
Fixpoint polling_of (digest : string) (answers : list PollAnswer) : list Effect :=
  match answers with
  | [] => []
  | [_] => [Poll digest]
  | a :: rest =>
      Poll digest
      :: (if SuiClient.throws a then [Sleep SuiClient.delay] else [])
      ++ polling_of digest rest
  end.

(** since the trace was [t0], nothing but polls of [digest] and sleeps *)
Definition quiet_since (t0 : list Effect) (digest : string) (t : list Effect) : Prop :=
  exists l, t = (t0 ++ l)%list /\ Forall (poll_or_sleep digest) l.

(** the event that tells a player that an intent succeeded *)
Definition success_event (playerAddress : string) (transaction : TransactionQueueItem)
    (digest : string) (objectId : option (option string)) : Effect :=
  Emit (room playerAddress) "transaction:result"
    ([("transactionId", JS.JStr (id transaction));
      ("status", JS.JStr "success");
      ("digest", JS.JStr digest)]
     ++ TransactionProcessor.objectId_field objectId
     ++ (if Database.is_mint_nft (transaction_type (columns transaction))
         then TransactionProcessor.data_field "rewardName"
                (transaction_data (columns transaction) !! "name")
              ++ TransactionProcessor.data_field "badgeType"
                   (transaction_data (columns transaction) !! "badgeType")
         else [])).

(** what the player of an intent is told when it succeeds *)
Definition notification (transaction : TransactionQueueItem) (digest : string)
    (objectId : option (option string)) : list Effect :=
  match player_sui_address (columns transaction) with
  | Some playerAddress =>
      if JS.truthy_string playerAddress
      then [success_event playerAddress transaction digest objectId]
      else []
  | None => []
  end.

(** an invariant that only reads the queue *)
Definition on_queue (J : gmap string QueueRow -> Prop) (w : World) : Prop :=
  J (transaction_queue (db w)).

(** ** Sample data *)

Module Sample.

(** an SDK that rejects every secret, and that builds a transaction of
    every input but [undefined] and an address without its prefix *)
Definition rejecting_sdk : Sdk :=
  mkSdk (fun _ => Throw "Invalid mnemonic")
        (fun _ => Throw "Invalid checksum")
        (fun s => s)
        (fun _ => Throw "Wrong secretKey size")
        (fun i =>
           match i with
           | tx_object None | tx_pure _ None =>
               Some "Cannot read properties of undefined"
           | tx_pure "address" (Some (JS.JStr a)) =>
               if JS.startsWith "0x" a then None
               else Some ("Invalid Sui address " ++ a)
           | _ => None
           end)
        (fun _ _ => None).

Definition env : Env := mkEnv default_config rejecting_sdk.

Definition env_with_key (key : string) : Env :=
  mkEnv (mkConfig "localnet" 3 5000 "0xpkg" "0xreg" key) rejecting_sdk.

Definition row (t : TransactionType) (address : option string)
    (s : TransactionStatus) (at_ : Z) : QueueRow :=
  mkRow t address None None s ∅ None at_ at_ None 0.

(** a MintBadge intent for the badge [first_game] *)
Definition mint_row (address player : option string) (s : TransactionStatus) : QueueRow :=
  mkRow mint_nft address None player s
        (<["badgeType" := JS.JStr "first_game"]> ∅) None 0 0 None 0.

Definition empty_db : Database := mkDb ∅ ∅ [] [] [] [] [].

Definition db_of_queue (q : gmap string QueueRow) : Database :=
  mkDb q ∅ [] [] [] [] [].

(** a player with 12 victories and the badge of the first one *)
Definition winner_db : Database :=
  mkDb ∅ ∅ [mkPlayer "p1" "0xA"]
       [mkReward (Some "first_game_won") "p1" (Some "0xbadge") 0]
       [] [] [mkVictory "0xA" (Some 12)].

(** a queue with one pending intent of the actor [0xA] *)
Definition one_pending_db : Database :=
  db_of_queue (<["t1" := row create_game (Some "0xA") pending 0]> ∅).

(** a queue with one pending MintBadge of a player, and of no player *)
Definition one_mint_db (address player : option string) : Database :=
  db_of_queue (<["t1" := mint_row address player pending]> ∅).

Definition first_game_data : gmap string JS.json :=
  <["badgeType" := JS.JStr "first_game"]> ∅.

(** a queue with a pending intent of no actor and one of the actor [0xA] *)
Definition system_row : QueueRow := row create_game None pending 0.

Definition mixed_db : Database :=
  db_of_queue (<["sys" := system_row]>
                 (<["t1" := row create_game (Some "0xA") pending 1]> ∅)).

Definition world_of (d : Database) : World :=
  mkWorld d [] [] 0 [] ∅ None ∅ [].

Definition empty_world : World := world_of empty_db.

(** an answer of the node with nothing created and no event *)
Definition empty_response : PollAnswer :=
  PollResponds (mkResponse (Some "success") (Some []) (Some [])).

Definition world_with_polls (p : list PollAnswer) : World :=
  mkWorld empty_db [] p 0 [] ∅ None ∅ [].

(** a move sent before its game is on chain *)
Definition waiting_move (gameId : option string) (gameObjectId : string)
    : Validation.MakeMoveRequest :=
  Validation.mkMakeMove "t2" "0xA" (Some "waiting_for_object_id") gameObjectId
    false "e4" "rnbqkbnr/pppppppp/8/8/4P3/8/PPPP1PPP/RNBQKBNR b KQkq - 0 1" "h1"
    gameId.


Definition executed_game (address : option string) : TransactionQueueItem :=
  mkItem "t1" (mkRow create_game address (Some "g1") None processing ∅ None 0 0 None 0).

(** intents at their last and at their first failure *)
Definition failing_mint (n : Z) : TransactionQueueItem :=
  mkItem "t1" (with_retries n (mint_row (Some "0xA") (Some "p1") processing)).



Definition non_retriable : string :=
  "Transaction execution failed: Transaction is non-retriable".

End Sample.

(** ** [scripts/update-authorized-minter.ts] *)

Module UpdateAuthorizedMinter.

(** [getDeployerKeypair]; [privateKey] is what
    [process.env.SUI_DEPLOYER_PRIVATE_KEY] holds, [None] when the variable
    is not set. The function has no cache. *)
Definition getDeployerKeypair (s : Sdk) (privateKey : option string)
    : outcome Ed25519Keypair :=
  if negb (JS.truthy_opt privateKey)
  then Throw ("SUI_DEPLOYER_PRIVATE_KEY environment variable is required. " ++
              "This should be the private key of the current authorized_minter (deployer).")
  else
    let privateKey := JS.trim (default "" privateKey) in
    match
      (let words := JS.split_ws privateKey in
       if Nat.eqb (List.length words) 12 || Nat.eqb (List.length words) 24
       then deriveKeypair s privateKey
       else if JS.startsWith "suiprivkey" privateKey
       then
         match decodeSuiPrivateKey s privateKey with
         | Ok secretKey => fromSecretKey s secretKey
         | Throw error => Throw error
         end
       else
         let privateKeyHex :=
           if JS.startsWith "0x" privateKey || JS.startsWith "0X" privateKey
           then JS.slice 2 privateKey
           else privateKey in
         if negb (JS.is_hex64 privateKeyHex)
         then Throw "Invalid SUI_DEPLOYER_PRIVATE_KEY format"
         else fromSecretKey s (fromHEX s privateKeyHex))
    with
    | Ok kp => Ok kp
    | Throw error => Throw ("Invalid SUI_DEPLOYER_PRIVATE_KEY format: " ++ error)
    end.

End UpdateAuthorizedMinter.

(** ** Further notions of the statements *)

(** no query of the store fails from now on *)
Definition calm (w : World) : Prop := Forall (fun f => f = None) (faults w).

(** the tables and views other than the queue *)
Definition other_tables (d : Database)
    : gmap string (option string) * list PlayerRow * list RewardRow
      * list string * list string * list VictoryRow :=
  (games d, players d, rewards d, vw_users_no_first_game d,
   vw_users_no_first_game_created d, vw_users_victories d).

(** the row that [updateWaitingTransactionWithObjectId] makes of a row *)
Definition released (now : Z) (objectId : string) (r : QueueRow) : QueueRow :=
  with_updated_at now
    (with_status pending
       (with_transaction_data
          (<["gameObjectId" := JS.JStr objectId]> (transaction_data r)) r)).

(** the Move function that the transaction of an intent calls, after the id
    of the package *)
Definition move_function (t : TransactionType) : string :=
  match t with
  | create_game => "::game::create_game"
  | make_move => "::game::make_move"
  | end_game => "::game::end_game"
  | mint_nft => "::badge::mint_badge"
  end.

(** the message of a failure of [executeTransactionWithKeypair], by the
    answer of the node *)
Definition execution_error (signerAddress : string) (answer : SubmitAnswer)
    : option string :=
  match answer with
  | SdkRejects message => Some message
  | NoGasCoins =>
      Some ("No SUI coins found for address " ++ signerAddress ++ ". " ++
            "Please fund the account with SUI tokens to pay for gas fees.")
  | CoinObjectMissing coinObjectId =>
      Some ("Failed to fetch coin object " ++ coinObjectId)
  | Executed _ status error =>
      if bool_decide (status = Some "success") then None
      else Some ("Transaction execution failed: "
                 ++ (if JS.truthy_opt error then default "" error
                     else "Transaction failed"))
  end.

(** the transaction was sent to the chain *)
Definition was_executed (answer : SubmitAnswer) : bool :=
  match answer with
  | Executed _ _ _ => true
  | _ => false
  end.

(** [data.transactionId] of a request that is validated *)
Definition transaction_id_of (r : SocketServer.Request) : option string :=
  match r with
  | SocketServer.CreateGame data => Some (Validation.cg_transactionId data)
  | SocketServer.MakeMove data => Some (Validation.mm_transactionId data)
  | SocketServer.EndGame data => Some (Validation.eg_transactionId data)
  | SocketServer.MintNft data => Some (Validation.mn_transactionId data)
  | SocketServer.NftMint _ _ => None
  end.

(** the two answers of a handler to the socket of the request *)
Definition queued_event (transactionId status : string) : Effect :=
  Emit ToSocket "transaction:queued"
    [("transactionId", JS.JStr transactionId); ("status", JS.JStr status)].

Definition error_event (transactionId errorMessage : string) : Effect :=
  Emit ToSocket "error"
    [("error", JS.JStr errorMessage); ("transactionId", JS.JStr transactionId)].

(** the id of the task that the [nftMint] handler queues, and the event that
    announces it *)
Definition mint_task_id (playerId badge suffix : string) : string :=
  "mint_nft-" ++ playerId ++ "-" ++ badge ++ "-" ++ suffix.

Definition mint_task_queued (playerId playerSuiAddress badge taskId : string) : Effect :=
  Emit (room playerSuiAddress) "mint-task-queued"
    [("taskId", JS.JStr taskId); ("rewardType", JS.JStr badge);
     ("playerId", JS.JStr playerId); ("playerSuiAddress", JS.JStr playerSuiAddress)].

(** a player who has played and created no game yet *)
Definition newcomer_db : Database :=
  mkDb ∅ ∅ [mkPlayer "p1" "0xA"] [] ["0xA"] ["0xA"] [].

(** a player whose first victory was minted on chain and is not recorded *)
Definition unrecorded_badge_db : Database :=
  mkDb (<["t1" := mkRow mint_nft (Some "0xA") None (Some "p1") completed
                        (<["badgeType" := JS.JStr "first_game_won"]> ∅)
                        None 0 0 None 0]> ∅)
       ∅ [mkPlayer "p1" "0xA"] [] [] [] [mkVictory "0xA" (Some 3)].

(** a [transaction:mint_nft] request for the badge of the first game of the
    player [p1], which the schema accepts *)
Definition first_game_request (transactionId : string) : SocketServer.Request :=
  SocketServer.MintNft
    (Validation.mkMintNft transactionId "0xA" "p1" "0xA" "first_game" "First game"
       "The first game" "https://example.org/badge.png" None).

(** two such requests have arrived on an empty queue and their handlers have
    started *)
Definition two_mint_requests : Server :=
  mkServer Sample.empty_world
    [Tasks.handle (first_game_request "t1"); Tasks.handle (first_game_request "t2")].

(** two computations that do the same in every world *)
Definition same_runs {A} (m m' : M A) : Prop :=
  forall env w, m env w = m' env w.

(** a move of the actor [0xA] that a worker has taken, with the payload of a
    request that the schema accepts *)
Definition move_item (gameObjectId : string) : TransactionQueueItem :=
  mkItem "t2"
    (mkRow make_move (Some "0xA") None None processing
           (Validation.make_move_data (Sample.waiting_move None gameObjectId))
           None 0 0 None 0).

(** a world in which the key of the sponsor is decoded and the node has the
    answers [answers] *)
Definition world_with_answers (answers : list SubmitAnswer) : World :=
  mkWorld Sample.empty_db answers [] 0 [] ∅ (Some (mkKeypair "0xsponsor")) ∅ [].

(** * Properties *)

(** ** Strings *)

Module JSFacts.

Lemma lower_ascii_idem (c : ascii) : JS.lower_ascii (JS.lower_ascii c) = JS.lower_ascii c.
Proof.
  destruct c as [[] [] [] [] [] [] [] []]; reflexivity.
Qed.



Lemma includes_prefix (p s : string) : String.prefix p s = true -> JS.includes p s = true.
Proof.
  intros H. destruct s; simpl in *; rewrite H; reflexivity.
Qed.

End JSFacts.

(** ** The monad *)

Module MFacts.

Lemma no_faults_next (n : nat) (w : World) :
  no_faults (S n) w -> next_fault w = None.
Proof.
  unfold no_faults, next_fault. destruct (faults w) as [|[m|] fs]; try reflexivity.
  simpl. intros H. inversion H; subst. discriminate.
Qed.

Lemma no_faults_tail (n : nat) (w : World) (d : Database) :
  no_faults (S n) w -> no_faults n (with_db d (with_faults (tail (faults w)) w)).
Proof.
  unfold no_faults. simpl. destruct (faults w) as [|f fs]; simpl.
  - intros _. destruct n; constructor.
  - intros H. inversion H; subst. assumption.
Qed.

Lemma no_faults_le (n m : nat) (w : World) :
  (m <= n)%nat -> no_faults n w -> no_faults m w.
Proof.
  unfold no_faults. intros Hle H.
  replace (take m (faults w)) with (take m (take n (faults w))).
  - apply Forall_take, H.
  - rewrite take_take. f_equal. lia.
Qed.

(** a query that is not made to fail *)
Lemma pool_query_run {A} (q : World -> outcome A * Database) (env : Env) (w : World) :
  next_fault w = None ->
  pool_query q env w
  = (fst (q w), with_db (snd (q w)) (with_faults (tail (faults w)) w)).
Proof.
  intros H. unfold pool_query. rewrite H. reflexivity.
Qed.

(** a query does not touch the trace *)
Lemma pool_query_trace {A} (q : World -> outcome A * Database) (env : Env) (w : World) :
  trace (snd (pool_query q env w)) = trace w.
Proof.
  unfold pool_query. destruct (next_fault w); reflexivity.
Qed.

Section Rules.
Context (env : Env).

Lemma hoare_ret {A} (a : A) (Q : outcome A -> World -> Prop) :
  hoare env (Q (Ok a)) (ret a) Q.
Proof. intros w H. exact H. Qed.

Lemma hoare_throw {A} (msg : string) (Q : outcome A -> World -> Prop) :
  hoare env (Q (Throw msg)) (throw msg) Q.
Proof. intros w H. exact H. Qed.

Lemma hoare_conseq {A} (P P' : World -> Prop) (m : M A)
    (Q Q' : outcome A -> World -> Prop) :
  hoare env P' m Q' ->
  (forall w, P w -> P' w) ->
  (forall r w, Q' r w -> Q r w) ->
  hoare env P m Q.
Proof. intros H HP HQ w Hw. apply HQ, H, HP, Hw. Qed.

Lemma hoare_bind {A B} (P : World -> Prop) (m : M A) (f : A -> M B)
    (Q : outcome A -> World -> Prop) (R : outcome B -> World -> Prop) :
  hoare env P m Q ->
  (forall a, hoare env (Q (Ok a)) (f a) R) ->
  (forall msg w, Q (Throw msg) w -> R (Throw msg) w) ->
  hoare env P (bind m f) R.
Proof.
  intros Hm Hf Ht w Hw. specialize (Hm w Hw). unfold bind.
  destruct (m env w) as [[a|msg] w']; simpl in *.
  - apply Hf, Hm.
  - apply Ht, Hm.
Qed.

Lemma hoare_try_catch {A} (P : World -> Prop) (m : M A) (h : string -> M A)
    (Q R : outcome A -> World -> Prop) :
  hoare env P m Q ->
  (forall msg, hoare env (Q (Throw msg)) (h msg) R) ->
  (forall a w, Q (Ok a) w -> R (Ok a) w) ->
  hoare env P (try_catch m h) R.
Proof.
  intros Hm Hh Hok w Hw. specialize (Hm w Hw). unfold try_catch.
  destruct (m env w) as [[a|msg] w']; simpl in *.
  - apply Hok, Hm.
  - apply Hh, Hm.
Qed.

Lemma keeps_ret {A} (I : World -> Prop) (a : A) : keeps env I (ret a).
Proof. intros w H. exact H. Qed.

Lemma keeps_throw {A} (I : World -> Prop) (msg : string) :
  keeps env I (throw (A := A) msg).
Proof. intros w H. exact H. Qed.

Lemma keeps_lift {A} (I : World -> Prop) (o : outcome A) :
  keeps env I (lift_outcome o).
Proof. intros w H. exact H. Qed.

Lemma keeps_ask (I : World -> Prop) : keeps env I ask.
Proof. intros w H. exact H. Qed.

Lemma keeps_get (I : World -> Prop) : keeps env I get.
Proof. intros w H. exact H. Qed.

Lemma keeps_modify (I : World -> Prop) (f : World -> World) :
  (forall w, I w -> I (f w)) -> keeps env I (modify f).
Proof. intros Hf w H. apply Hf, H. Qed.

Lemma keeps_bind {A B} (I : World -> Prop) (m : M A) (f : A -> M B) :
  keeps env I m -> (forall a, keeps env I (f a)) -> keeps env I (bind m f).
Proof.
  intros Hm Hf. eapply hoare_bind; [exact Hm | exact Hf | auto].
Qed.

Lemma keeps_try_catch {A} (I : World -> Prop) (m : M A) (h : string -> M A) :
  keeps env I m -> (forall msg, keeps env I (h msg)) -> keeps env I (try_catch m h).
Proof.
  intros Hm Hh. eapply hoare_try_catch; [exact Hm | exact Hh | auto].
Qed.

Lemma keeps_for_each {A} (I : World -> Prop) (xs : list A) (body : A -> M unit) :
  (forall x, In x xs -> keeps env I (body x)) -> keeps env I (for_each xs body).
Proof.
  induction xs as [|x xs IH]; intros H; simpl.
  - apply keeps_ret.
  - apply keeps_bind.
    + apply H. left. reflexivity.
    + intros _. apply IH. intros y Hy. apply H. right. exact Hy.
Qed.

(** an invariant of the queue, under a query *)
Lemma keeps_query {A} (I : World -> Prop) (q : World -> outcome A * Database) :
  (forall w, I w -> I (with_faults (tail (faults w)) w)) ->
  (forall w, I w -> I (with_db (snd (q w)) (with_faults (tail (faults w)) w))) ->
  keeps env I (pool_query q).
Proof.
  intros Hf Hq w H. unfold pool_query.
  destruct (next_fault w); simpl; auto.
Qed.

(** a computation whose handler returns does not throw *)
Lemma try_catch_returns {A} (m : M A) (h : string -> A) (w : World) :
  exists a, fst (try_catch m (fun msg => ret (h msg)) env w) = Ok a.
Proof.
  unfold try_catch. destruct (m env w) as [[a|msg] w']; simpl; eauto.
Qed.

End Rules.

End MFacts.


(** ** Invariants of the trace *)

Module TraceFacts.
Import MFacts.

Section TraceRules.
Context (env : Env) (J : list Effect -> Prop).

Lemma keeps_query_on_trace {A} (q : World -> outcome A * Database) :
  keeps env (on_trace J) (pool_query q).
Proof.
  intros w H. unfold on_trace in *. rewrite pool_query_trace. exact H.
Qed.



End TraceRules.



End TraceFacts.

(** ** The [catch] block of the worker *)

Module WorkerFacts.
Import MFacts TraceFacts.



(** a retry: the row goes back to pending and the worker sleeps *)
Lemma catch_retry (env : Env) (w : World) (playerAddress : string)
    (transaction : TransactionQueueItem) (msg : string) :
  retries (columns transaction) + 1 < maxRetries (config env) ->
  no_faults 2 w ->
  trace (snd (QueueService.processPlayerQueue_catch playerAddress transaction msg env w))
  = (trace w ++
     [Sleep ((if QueueService.isVersionMismatch_retry msg
                 && Database.is_mint_nft (transaction_type (columns transaction))
              then 2000 else retryDelayMs (config env))
             * (retries (columns transaction) + 1))])%list.
Proof.
  intros Hmax Hf.
  unfold QueueService.processPlayerQueue_catch.
  unfold bind at 1. unfold Database.incrementRetries.
  rewrite pool_query_run by (eapply no_faults_next; exact Hf).
  cbn [fst snd].
  unfold bind at 1. unfold ask at 1. cbn [fst snd].
  apply Z.leb_gt in Hmax. rewrite Hmax.
  unfold bind at 1. unfold Database.updateTransactionStatus.
  rewrite pool_query_run.
  2:{ eapply no_faults_next. apply no_faults_tail. exact Hf. }
  cbn [fst snd]. reflexivity.
Qed.




(** C2, at the input where the source and the specification part: a
    MintBadge whose first attempt fails with a message that holds
    "non-retriable" and neither of the two other patterns. The worker
    sleeps the configured 5000 ms; the delay of the specification is
    2000 ms. *)
Theorem C2_non_retriable_mint_backoff :
  trace (snd (QueueService.processPlayerQueue_catch "0xA" (Sample.failing_mint 0)
                Sample.non_retriable Sample.env Sample.empty_world))
  = [Sleep 5000]
  /\ Spec.backoff default_config mint_nft Sample.non_retriable 1 = 2000
  /\ Spec.version_mismatch Sample.non_retriable = true
  /\ QueueService.isVersionMismatch_retry Sample.non_retriable = false.
Proof.
  split; [|repeat split; reflexivity].
  rewrite catch_retry.
  - reflexivity.
  - simpl. lia.
  - constructor.
Qed.

End WorkerFacts.


(** ** The sponsor key *)

Module SponsorKeyFacts.

Lemma enumerates_invalid_format (n : nat) :
  Spec.enumerates_forms
    ("Invalid SUI_SPONSOR_PRIVATE_KEY format: " ++ SuiClient.invalid_format_message n)
  = true.
Proof. reflexivity. Qed.

(** [trim] removes the white space of ECMAScript, the characters of more
    than one byte included: a key of 64 hexadecimal characters that a
    no-break space (U+00A0) follows, or that a byte order mark (U+FEFF)
    precedes, is a key in hexadecimal. *)
Lemma key_form_trims_no_break_space :
  JS.trim ("0123456789abcdef0123456789abcdef0123456789abcdef0123456789abcdef"
           ++ String (ascii_of_nat 194) (String (ascii_of_nat 160) EmptyString))
  = "0123456789abcdef0123456789abcdef0123456789abcdef0123456789abcdef"
  /\ JS.trim (String (ascii_of_nat 239) (String (ascii_of_nat 187)
                (String (ascii_of_nat 191)
                   "0123456789abcdef0123456789abcdef0123456789abcdef0123456789abcdef")))
     = "0123456789abcdef0123456789abcdef0123456789abcdef0123456789abcdef"
  /\ SuiClient.key_form
       (JS.trim ("0123456789abcdef0123456789abcdef0123456789abcdef0123456789abcdef"
                 ++ String (ascii_of_nat 194) (String (ascii_of_nat 160) EmptyString)))
     = SuiClient.Hex.
Proof. repeat split; vm_compute; reflexivity. Qed.

(** the words of a mnemonic are separated by any white space: twelve words
    between which are a no-break space, a line separator (U+2028) and a
    tabulation are a mnemonic *)
Lemma key_form_splits_at_unicode_space :
  List.length
    (JS.split_ws
       ("a b c d e f g h i" ++ String (ascii_of_nat 194) (String (ascii_of_nat 160) "j")
        ++ String (ascii_of_nat 226) (String (ascii_of_nat 128)
             (String (ascii_of_nat 168) "k"))
        ++ String (ascii_of_nat 9) "l"))
  = 12%nat.
Proof. vm_compute. reflexivity. Qed.

(** the keypair is decoded once *)
Lemma getSponsorKeypair_cached (env : Env) (w : World) (kp : Ed25519Keypair) :
  sponsorKeypair w = Some kp ->
  SuiClient.getSponsorKeypair env w = (Ok kp, w).
Proof.
  intros H. unfold SuiClient.getSponsorKeypair, bind, get. simpl. rewrite H. reflexivity.
Qed.

(** the result of the first call, by the form of the secret *)
Lemma getSponsorKeypair_first (env : Env) (w : World) :
  sponsorKeypair w = None ->
  sponsor_privateKey (config env) <> "" ->
  fst (SuiClient.getSponsorKeypair env w)
  = wrap_key_error
      (decode_key (sdk env)
         (SuiClient.key_form (JS.trim (sponsor_privateKey (config env))))
         (JS.trim (sponsor_privateKey (config env)))).
Proof.
  intros Hnone Hkey.
  unfold SuiClient.getSponsorKeypair, bind, get, ask. simpl. rewrite Hnone.
  assert (JS.truthy_string (sponsor_privateKey (config env)) = true) as ->.
  { unfold JS.truthy_string. apply negb_true_iff. apply String.eqb_neq. exact Hkey. }
  simpl negb. cbv iota.
  set (k := JS.trim (sponsor_privateKey (config env))).
  unfold SuiClient.key_form, try_catch, SuiClient.strip_0x.
  destruct (_ || _) eqn:Hwords.
  - simpl. unfold lift_outcome, bind.
    destruct (deriveKeypair (sdk env) k); reflexivity.
  - destruct (JS.startsWith "suiprivkey" k).
    + simpl. unfold lift_outcome, bind.
      destruct (decodeSuiPrivateKey (sdk env) k); simpl; [|reflexivity].
      destruct (fromSecretKey (sdk env) _); reflexivity.
    + destruct (JS.is_hex64 _).
      * simpl. unfold lift_outcome, bind.
        destruct (fromSecretKey (sdk env) _); reflexivity.
      * reflexivity.
Qed.

(** C9, as the source has it. [getSponsorKeypair] tries three encodings in
    this order: 12 or 24 words (a mnemonic), a text that starts with
    "suiprivkey" (bech32), 64 hexadecimal characters after an optional
    "0x" or "0X". A secret of none of these forms fails with a message that
    enumerates the three forms. A secret of one of the forms that the SDK
    rejects fails with "Invalid SUI_SPONSOR_PRIVATE_KEY format: " followed
    by the message of the SDK, and an empty secret fails with the message
    that the variable is required. *)
Theorem C9_sponsor_key_forms (env : Env) (w : World) :
  sponsorKeypair w = None ->
  (sponsor_privateKey (config env) = "" ->
   fst (SuiClient.getSponsorKeypair env w)
   = Throw "SUI_SPONSOR_PRIVATE_KEY environment variable is required")
  /\ (sponsor_privateKey (config env) <> "" ->
      fst (SuiClient.getSponsorKeypair env w)
      = wrap_key_error
          (decode_key (sdk env)
             (SuiClient.key_form (JS.trim (sponsor_privateKey (config env))))
             (JS.trim (sponsor_privateKey (config env)))))
  /\ (sponsor_privateKey (config env) <> "" ->
      SuiClient.key_form (JS.trim (sponsor_privateKey (config env)))
      = SuiClient.Malformed ->
      exists m, fst (SuiClient.getSponsorKeypair env w) = Throw m
                /\ Spec.enumerates_forms m = true).
Proof.
  intros Hnone. split; [|split].
  - intros Hkey. unfold SuiClient.getSponsorKeypair, bind, get, ask. simpl.
    rewrite Hnone, Hkey. reflexivity.
  - apply getSponsorKeypair_first, Hnone.
  - intros Hkey Hform. rewrite (getSponsorKeypair_first env w Hnone Hkey), Hform.
    eexists. split; [reflexivity|]. apply enumerates_invalid_format.
Qed.

(** C9 on a secret of 63 hexadecimal characters. *)
Lemma C9_witness :
  exists m,
    fst (SuiClient.getSponsorKeypair
           (Sample.env_with_key
              "0x0123456789abcdef0123456789abcdef0123456789abcdef0123456789abcde")
           Sample.empty_world) = Throw m
    /\ Spec.enumerates_forms m = true.
Proof.
  apply (C9_sponsor_key_forms
           (Sample.env_with_key
              "0x0123456789abcdef0123456789abcdef0123456789abcdef0123456789abcde")
           Sample.empty_world).
  - reflexivity.
  - discriminate.
  - reflexivity.
Defined.

(** C9 does not hold as it is stated: a corrupt bech32 secret fails with
    the message of the decoder, and an empty secret with another message;
    neither enumerates the three forms. *)
Lemma C9_counterexample :
  fst (SuiClient.getSponsorKeypair (Sample.env_with_key "suiprivkey1corrupt")
         Sample.empty_world)
  = Throw "Invalid SUI_SPONSOR_PRIVATE_KEY format: Invalid checksum"
  /\ Spec.enumerates_forms "Invalid SUI_SPONSOR_PRIVATE_KEY format: Invalid checksum"
     = false
  /\ fst (SuiClient.getSponsorKeypair (Sample.env_with_key "") Sample.empty_world)
     = Throw "SUI_SPONSOR_PRIVATE_KEY environment variable is required"
  /\ Spec.enumerates_forms "SUI_SPONSOR_PRIVATE_KEY environment variable is required"
     = false.
Proof. repeat split; reflexivity. Qed.

End SponsorKeyFacts.


(** ** The polling loop *)

Module PollingFacts.

Lemma nth_poll_tail (w w' : World) (j : nat) :
  polls w' = tail (polls w) ->
  SuiClient.nth_poll w' j = SuiClient.nth_poll w (S j).
Proof.
  unfold SuiClient.nth_poll. intros ->.
  destruct (polls w); simpl; [destruct j|]; reflexivity.
Qed.

(** one iteration, by the answer of the node *)
Lemma poll_once_cases (env : Env) (w : World) (digest objectType : string) (i : nat) :
  polls (snd (SuiClient.poll_once digest objectType i env w)) = tail (polls w)
  /\ match SuiClient.poll_error (SuiClient.nth_poll w 0) with
     | Some m =>
         if Nat.eqb i 14
         then fst (SuiClient.poll_once digest objectType i env w) = Throw m
              /\ trace (snd (SuiClient.poll_once digest objectType i env w))
                 = (trace w ++ [Poll digest])%list
         else fst (SuiClient.poll_once digest objectType i env w) = Ok None
              /\ trace (snd (SuiClient.poll_once digest objectType i env w))
                 = (trace w ++ [Poll digest; Sleep 1000])%list
     | None =>
         fst (SuiClient.poll_once digest objectType i env w)
         = Ok (match SuiClient.nth_poll w 0 with
               | PollResponds r => SuiClient.extract objectType r
               | PollRejects _ => None
               end)
         /\ trace (snd (SuiClient.poll_once digest objectType i env w))
            = (trace w ++ [Poll digest])%list
     end.
Proof.
  unfold SuiClient.poll_once, SuiClient.getTransactionBlock, SuiClient.nth_poll,
    SuiClient.poll_error, try_catch, bind, effect, modify, get, throw, ret, sleep.
  change (SuiClient.maxRetries - 1)%nat with 14%nat.
  destruct (polls w) as [|[m|r] rest] eqn:Hp; simpl; rewrite ?Hp; simpl.
  - destruct (Nat.eqb i 14); simpl; rewrite <- ?app_assoc; auto.
  - destruct (Nat.eqb i 14); simpl; rewrite <- ?app_assoc; auto.
  - destruct (effects_status r) as [s|]; simpl; [|auto].
    destruct (String.eqb s "success"); simpl; [auto|].
    destruct (Nat.eqb i 14); simpl; rewrite <- ?app_assoc; auto.
Qed.

Lemma count_of_app (f : Effect -> bool) (l1 l2 : list Effect) :
  count_of f (l1 ++ l2) = (count_of f l1 + count_of f l2)%nat.
Proof.
  unfold count_of. rewrite List.filter_app, length_app. reflexivity.
Qed.

(** what one iteration adds to the trace *)
Lemma poll_once_trace (env : Env) (w : World) (digest objectType : string) (i : nat) :
  exists l,
    trace (snd (SuiClient.poll_once digest objectType i env w)) = (trace w ++ l)%list
    /\ count_of is_poll l = 1%nat
    /\ count_of is_sleep l
       = (if SuiClient.throws (SuiClient.nth_poll w 0) && negb (Nat.eqb i 14)
          then 1%nat else 0%nat)
    /\ Forall (poll_or_sleep digest) l.
Proof.
  destruct (poll_once_cases env w digest objectType i) as [_ H].
  unfold SuiClient.throws.
  destruct (SuiClient.poll_error (SuiClient.nth_poll w 0)) as [m|].
  - destruct (Nat.eqb i 14); destruct H as [_ H]; rewrite H; eexists;
      (split; [reflexivity|]); (split; [reflexivity|]); (split; [reflexivity|]).
    + constructor; [left; reflexivity|constructor].
    + constructor; [left; reflexivity|].
      constructor; [right; reflexivity|constructor].
  - destruct H as [_ H]; rewrite H; eexists;
      (split; [reflexivity|]); (split; [reflexivity|]); (split; [reflexivity|]).
    constructor; [left; reflexivity|constructor].
Qed.

(** never more polls than iterations left *)
Lemma poll_from_bound (env : Env) (digest objectType : string) (todo : nat) :
  forall (i : nat) (w : World),
  exists l,
    trace (snd (SuiClient.poll_from todo i digest objectType env w))
    = (trace w ++ l)%list
    /\ (count_of is_poll l <= todo)%nat
    /\ Forall (poll_or_sleep digest) l.
Proof.
  induction todo as [|todo IH]; intros i w.
  - exists []. simpl. rewrite app_nil_r. repeat split; auto.
  - simpl SuiClient.poll_from. unfold bind.
    destruct (poll_once_trace env w digest objectType i) as (l1 & Ht & Hc & _ & Hall).
    destruct (SuiClient.poll_once digest objectType i env w) as [[[o|]|m] w1];
      simpl in *.
    + exists l1. rewrite Hc. repeat split; auto. lia.
    + destruct (IH (S i) w1) as (l2 & Ht2 & Hc2 & Hall2).
      exists (l1 ++ l2)%list. rewrite Ht2, Ht, count_of_app, Hc, <- app_assoc.
      repeat split; [lia|]. apply Forall_app; auto.
    + exists l1. rewrite Hc. repeat split; auto. lia.
Qed.

Lemma next_polls_S (w w1 : World) (n : nat) :
  polls w1 = tail (polls w) ->
  next_polls w (S n) = SuiClient.nth_poll w 0 :: next_polls w1 n.
Proof.
  intros Hp. unfold next_polls. simpl. f_equal.
  rewrite <- seq_shift, List.map_map.
  apply List.map_ext. intros j. symmetry. apply nth_poll_tail, Hp.
Qed.

Lemma polling_of_cons (digest : string) (a b : PollAnswer) (rest : list PollAnswer) :
  polling_of digest (a :: b :: rest)
  = (Poll digest :: (if SuiClient.throws a then [Sleep SuiClient.delay] else [])
     ++ polling_of digest (b :: rest))%list.
Proof. reflexivity. Qed.

Lemma next_polls_cons (w : World) (n : nat) :
  exists b rest, next_polls w (S n) = b :: rest.
Proof. unfold next_polls. simpl. eauto. Qed.

(** the loop when no answer satisfies a criterion *)
Lemma poll_from_unmatched (env : Env) (digest objectType : string) (todo : nat) :
  forall (i : nat) (w : World),
  (i + S todo = 15)%nat ->
  Forall (Spec.no_criterion objectType) (next_polls w (S todo)) ->
  trace (snd (SuiClient.poll_from (S todo) i digest objectType env w))
  = (trace w ++ polling_of digest (next_polls w (S todo)))%list
  /\ fst (SuiClient.poll_from (S todo) i digest objectType env w)
     = match SuiClient.poll_error (SuiClient.nth_poll w todo) with
       | Some m => Throw m
       | None => Ok None
       end.
Proof.
  induction todo as [|todo IH]; intros i w Hi Hno.
  - assert (i = 14%nat) as -> by lia.
    simpl SuiClient.poll_from. unfold bind.
    destruct (poll_once_cases env w digest objectType 14) as [_ H].
    inversion Hno as [|a l Ha _ Heq]; subst. simpl in Ha.
    unfold Spec.no_criterion in Ha.
    change (polling_of digest (next_polls w 1)) with [Poll digest].
    destruct (SuiClient.poll_error (SuiClient.nth_poll w 0)) as [m|] eqn:Herr.
    + simpl in H. destruct H as [Hr Ht].
      destruct (SuiClient.poll_once digest objectType 14 env w) as [r w1].
      simpl in *. subst r. simpl. auto.
    + destruct H as [Hr Ht].
      destruct (SuiClient.poll_once digest objectType 14 env w) as [r w1].
      simpl in *. subst r.
      assert (match SuiClient.nth_poll w 0 with
              | PollRejects _ => None
              | PollResponds r => SuiClient.extract objectType r
              end = None) as ->.
      { unfold SuiClient.poll_error in Herr.
        destruct (SuiClient.nth_poll w 0) as [m|r]; [reflexivity|].
        destruct (effects_status r) as [s|]; [|exact Ha].
        destruct (String.eqb s "success") eqn:Hs; [|discriminate].
        apply String.eqb_eq in Hs. destruct Ha as [Ha|Ha]; [contradiction|exact Ha]. }
      simpl. auto.
  - assert (Nat.eqb i 14 = false) as Hi14 by (apply Nat.eqb_neq; lia).
    remember (S todo) as n eqn:Hn.
    simpl SuiClient.poll_from. unfold bind.
    destruct (poll_once_cases env w digest objectType i) as [Hp H].
    rewrite Hi14 in H.
    rewrite (next_polls_S w _ n Hp) in Hno |- *.
    inversion Hno as [|a l Ha Hrest Heq]; subst a l.
    assert (fst (SuiClient.poll_once digest objectType i env w) = Ok None
            /\ trace (snd (SuiClient.poll_once digest objectType i env w))
               = (trace w ++ Poll digest
                  :: (if SuiClient.throws (SuiClient.nth_poll w 0)
                      then [Sleep SuiClient.delay] else []))%list)
      as [Hnone Ht1].
    { unfold Spec.no_criterion in Ha. unfold SuiClient.throws.
      destruct (SuiClient.poll_error (SuiClient.nth_poll w 0)) as [m|] eqn:Herr.
      - exact H.
      - destruct H as [-> ->]. split; [|reflexivity]. f_equal.
        unfold SuiClient.poll_error in Herr.
        destruct (SuiClient.nth_poll w 0) as [m|r]; [reflexivity|].
        destruct (effects_status r) as [s|]; [|exact Ha].
        destruct (String.eqb s "success") eqn:Hs; [|discriminate].
        apply String.eqb_eq in Hs. destruct Ha as [Ha|Ha]; [contradiction|exact Ha]. }
    destruct (SuiClient.poll_once digest objectType i env w) as [r w1].
    simpl in Hnone, Hp, Ht1. subst r.
    subst n.
    destruct (IH (S i) w1 ltac:(lia) Hrest) as (Ht2 & Hr2).
    rewrite Ht2, Hr2, Ht1.
    destruct (next_polls_cons w1 todo) as (b & rest & Hb).
    cbn [snd]. rewrite Hb, polling_of_cons, <- Hb.
    rewrite (nth_poll_tail w w1 todo Hp).
    split; [|reflexivity].
    rewrite <- app_assoc. reflexivity.
Qed.

Lemma count_polls_polling_of (digest : string) (answers : list PollAnswer) :
  count_of is_poll (polling_of digest answers) = List.length answers.
Proof.
  induction answers as [|a [|b rest] IH]; [reflexivity|reflexivity|].
  rewrite polling_of_cons.
  change (count_of is_poll (Poll digest :: ?l)) with (S (count_of is_poll l)).
  rewrite count_of_app, IH.
  destruct (SuiClient.throws a); reflexivity.
Qed.

(** C8, as the source has it. [waitForTransactionAndExtractObjectId]
    makes at most 15 polls, whatever the node answers, and adds nothing to
    the trace but polls and sleeps of one second. When no answer satisfies
    a success criterion it makes exactly 15 polls, sleeps once after each of
    the first 14 polls that throws and after no other, and ends with the
    error of the 15th poll when that poll throws and with [null] when it
    does not. *)
Theorem C8_polling_is_bounded (env : Env) (w : World) (digest objectType : string) :
  (exists l,
     trace (snd (SuiClient.waitForTransactionAndExtractObjectId digest objectType env w))
     = (trace w ++ l)%list
     /\ (count_of is_poll l <= 15)%nat
     /\ Forall (poll_or_sleep digest) l)
  /\ (Forall (Spec.no_criterion objectType) (next_polls w 15) ->
      trace (snd (SuiClient.waitForTransactionAndExtractObjectId
                    digest objectType env w))
      = (trace w ++ polling_of digest (next_polls w 15))%list
      /\ count_of is_poll (polling_of digest (next_polls w 15)) = 15%nat
      /\ fst (SuiClient.waitForTransactionAndExtractObjectId
                digest objectType env w)
         = match SuiClient.poll_error (SuiClient.nth_poll w 14) with
           | Some m => Throw m
           | None => Ok None
           end).
Proof.
  split.
  - apply poll_from_bound.
  - intros H.
    destruct (poll_from_unmatched env digest objectType 14 0 w eq_refl H) as [Ht Hr].
    split; [exact Ht|]. split; [|exact Hr].
    rewrite count_polls_polling_of. unfold next_polls.
    rewrite length_map, length_seq. reflexivity.
Qed.

(** C8 on a node whose first answer is a rejection and whose 14 next
    answers hold nothing: one sleep, after the first poll, and [null]. *)
Lemma C8_witness :
  trace (snd (SuiClient.waitForTransactionAndExtractObjectId "d1" "::game::Game"
                Sample.env
                (Sample.world_with_polls
                   (PollRejects "not found" :: repeat Sample.empty_response 14))))
  = (Poll "d1" :: Sleep 1000 :: repeat (Poll "d1") 14)%list
  /\ fst (SuiClient.waitForTransactionAndExtractObjectId "d1" "::game::Game"
            Sample.env
            (Sample.world_with_polls
               (PollRejects "not found" :: repeat Sample.empty_response 14)))
     = Ok None.
Proof.
  destruct (C8_polling_is_bounded Sample.env
              (Sample.world_with_polls
                 (PollRejects "not found" :: repeat Sample.empty_response 14))
              "d1" "::game::Game") as [_ H].
  destruct H as (Ht & _ & Hr).
  - unfold next_polls. simpl.
    constructor; [exact I|].
    repeat (constructor; [right; reflexivity|]). constructor.
  - split; [rewrite Ht; reflexivity|rewrite Hr; reflexivity].
Defined.

(** C8 does not hold as it is stated: 15 answers that match nothing are
    polled with no sleep in between, and a node that rejects every poll
    makes the function throw after the 15th instead of returning [null]. *)
Lemma C8_counterexample :
  trace (snd (SuiClient.waitForTransactionAndExtractObjectId "d1" "::game::Game"
                Sample.env
                (Sample.world_with_polls (repeat Sample.empty_response 15))))
  = repeat (Poll "d1") 15
  /\ fst (SuiClient.waitForTransactionAndExtractObjectId "d1" "::game::Game"
            Sample.env (Sample.world_with_polls []))
     = Throw "fetch failed"
  /\ count_of is_poll
       (trace (snd (SuiClient.waitForTransactionAndExtractObjectId "d1" "::game::Game"
                      Sample.env (Sample.world_with_polls []))))
     = 15%nat.
Proof. repeat split; reflexivity. Qed.

End PollingFacts.


(** ** Eligibility *)

Module RewardFacts.
Import MFacts.

Lemma limit_1_filter {A} (p : A -> bool) (l : list A) :
  Database.limit_1 (List.filter p l)
  = match List.find p l with Some x => [x] | None => [] end.
Proof.
  induction l as [|x l IH]; [reflexivity|].
  simpl. destruct (p x); [reflexivity|exact IH].
Qed.

Lemma limit_1_map {A B} (f : A -> B) (l : list A) :
  Database.limit_1 (List.map f l) = List.map f (Database.limit_1 l).
Proof. destruct l; reflexivity. Qed.

(** the thresholds of the catalogue rise, so the first row that is not
    earned is the one of lowest threshold *)
Lemma next_wins_reward_lowest (wins : Z) (reward_set : list (option string)) :
  RewardService.next_wins_reward wins reward_set = Spec.decide_wins wins reward_set.
Proof.
  unfold RewardService.next_wins_reward, Spec.decide_wins, Spec.wins_rows.
  cbn [RewardService.rewardsList List.filter RewardService.check String.eqb
       Ascii.eqb Bool.eqb List.find RewardService.badge_type RewardService.value
       negb andb].
  destruct (RewardService.earned reward_set "first_game_won");
  destruct (RewardService.earned reward_set "10_games_won");
  destruct (RewardService.earned reward_set "50_games_won");
  destruct (RewardService.earned reward_set "100_games_won");
  cbn [negb andb List.find List.filter RewardService.badge_type RewardService.value];
  destruct (1 <=? wins) eqn:H1; destruct (10 <=? wins) eqn:H10;
  destruct (50 <=? wins) eqn:H50; destruct (100 <=? wins) eqn:H100;
  try reflexivity;
  exfalso;
  rewrite ?Z.leb_le, ?Z.leb_gt in *; lia.
Qed.

(** [shouldEarnReward] for the kind "wins", when its queries succeed: the
    store is read, not written *)
Lemma shouldEarnReward_wins_run (env : Env) (w : World) (address : string) :
  no_faults 3 w ->
  exists w',
    RewardService.shouldEarnReward address "wins" env w
    = (Ok (match Spec.player_of (db w) address with
           | None => None
           | Some player =>
               match Spec.victories_row (db w) address with
               | None => None
               | Some v =>
                   RewardService.next_wins_reward (default 0 (total v))
                     (Spec.reward_set (db w) player)
               end
           end), w')
    /\ db w' = db w.
Proof.
  intros Hf.
  unfold RewardService.shouldEarnReward.
  cbn [String.eqb Ascii.eqb Bool.eqb JS.truthy_string negb].
  unfold bind at 1.
  rewrite pool_query_run by (eapply no_faults_next; exact Hf).
  cbn [fst snd].
  rewrite limit_1_filter. unfold Spec.player_of.
  destruct (List.find _ (players (db w))) as [p|]; cbn [fmap option_fmap option_map].
  2:{ eexists. split; reflexivity. }
  unfold bind at 1. unfold ret at 1. cbn [fst snd].
  unfold bind at 1.
  rewrite pool_query_run.
  2:{ eapply no_faults_next. apply no_faults_tail with (n := 2%nat). exact Hf. }
  cbn [fst snd].
  unfold RewardService.select_view.
  cbn [String.eqb Ascii.eqb Bool.eqb].
  rewrite limit_1_map, limit_1_filter. cbn [db with_db].
  unfold Spec.victories_row.
  destruct (List.find _ (vw_users_victories (db w))) as [v|]; cbn [List.map].
  2:{ eexists. split; reflexivity. }
  unfold bind at 1.
  rewrite pool_query_run.
  2:{ eapply no_faults_next. apply no_faults_tail with (n := 1%nat).
      apply no_faults_tail with (n := 2%nat). exact Hf. }
  cbn [fst snd]. eexists. split; reflexivity.
Qed.

(** C3. For every player and every state of the store in which the
    queries succeed, [shouldEarnReward] for the kind "wins" returns the
    badge of the first catalogue row of that kind, in catalogue order, that
    the player has not earned, provided the victories of the player reach
    its threshold; it returns [null] when they do not, when the player does
    not exist, when the player has no row of victories and when all the
    badges are earned. This is the unearned badge of lowest threshold among
    those whose threshold the victories reach. *)
Theorem C3_wins_eligibility (env : Env) (w : World) (address : string) :
  no_faults 3 w ->
  fst (RewardService.shouldEarnReward address "wins" env w)
  = Ok (Spec.decide_wins_for (db w) address)
  /\ db (snd (RewardService.shouldEarnReward address "wins" env w)) = db w
  /\ (Spec.player_of (db w) address = None ->
      fst (RewardService.shouldEarnReward address "wins" env w) = Ok None)
  /\ (forall player,
        Spec.player_of (db w) address = Some player ->
        Spec.victories_row (db w) address = None ->
        fst (RewardService.shouldEarnReward address "wins" env w) = Ok None)
  /\ (forall player v,
        Spec.player_of (db w) address = Some player ->
        Spec.victories_row (db w) address = Some v ->
        fst (RewardService.shouldEarnReward address "wins" env w)
        = Ok (match Spec.first_unearned (Spec.reward_set (db w) player) with
              | None => None
              | Some r =>
                  if RewardService.value r <=? default 0 (total v)
                  then Some (RewardService.badge_type r)
                  else None
              end)).
Proof.
  intros Hf.
  destruct (shouldEarnReward_wins_run env w address Hf) as (w' & Hr & Hd).
  rewrite Hr. cbn [fst snd]. repeat split.
  - unfold Spec.decide_wins_for.
    destruct (Spec.player_of (db w) address); [|reflexivity].
    destruct (Spec.victories_row (db w) address); [|reflexivity].
    rewrite next_wins_reward_lowest. reflexivity.
  - exact Hd.
  - intros ->. reflexivity.
  - intros player -> ->. reflexivity.
  - intros player v -> ->. reflexivity.
Qed.

(** C3 for a player with 12 victories who holds the badge of the first
    one: the badge of ten victories comes next. *)
Lemma C3_witness :
  fst (RewardService.shouldEarnReward "0xA" "wins" Sample.env
         (Sample.world_of Sample.winner_db))
  = Ok (Some "10_games_won").
Proof.
  destruct (C3_wins_eligibility Sample.env (Sample.world_of Sample.winner_db) "0xA")
    as [H _].
  - constructor.
  - rewrite H. reflexivity.
Defined.

End RewardFacts.


(** ** The queue table *)

Module DatabaseFacts.
Import MFacts.

(** the rows a [SELECT] returns are the rows of the table that satisfy its
    condition *)
Lemma in_select_queue (cond : string -> QueueRow -> bool)
    (q : gmap string QueueRow) (x : TransactionQueueItem) :
  In x (Database.select_queue cond q)
  <-> q !! id x = Some (columns x) /\ cond (id x) (columns x) = true.
Proof.
  unfold Database.select_queue. rewrite in_map_iff. split.
  - intros ([k r] & <- & Hin). apply filter_In in Hin as [Hin Hc].
    apply list_elem_of_In, elem_of_map_to_list in Hin. simpl in *. auto.
  - intros [Hq Hc]. exists (id x, columns x). split.
    + destruct x; reflexivity.
    + apply filter_In. split; [|exact Hc].
      apply list_elem_of_In, elem_of_map_to_list. exact Hq.
Qed.

Lemma in_insert_by_created_at (x y : TransactionQueueItem)
    (l : list TransactionQueueItem) :
  In y (Database.insert_by_created_at x l) <-> y = x \/ In y l.
Proof.
  induction l as [|z l IH]; simpl.
  - intuition congruence.
  - destruct (_ <=? _); simpl; [intuition congruence|].
    rewrite IH. intuition congruence.
Qed.

(** [ORDER BY] returns the rows it is given *)
Lemma in_order_by_created_at (y : TransactionQueueItem)
    (l : list TransactionQueueItem) :
  In y (Database.order_by_created_at l) <-> In y l.
Proof.
  unfold Database.order_by_created_at.
  induction l as [|x l IH]; simpl; [tauto|].
  rewrite in_insert_by_created_at, IH. intuition congruence.
Qed.

Lemma head_is_oldest_insert (x : TransactionQueueItem)
    (l : list TransactionQueueItem) :
  head_is_oldest l -> head_is_oldest (Database.insert_by_created_at x l).
Proof.
  destruct l as [|z l]; simpl.
  - intros _ y [<-|[]]. lia.
  - intros Hz. destruct (_ <=? _) eqn:Hle.
    + apply Z.leb_le in Hle. intros y [<-|Hy]; [lia|].
      specialize (Hz y Hy). lia.
    + apply Z.leb_gt in Hle. intros y [<-|Hy]; [lia|].
      apply in_insert_by_created_at in Hy as [->|Hy]; [lia|].
      apply Hz. right. exact Hy.
Qed.

(** [ORDER BY created_at ASC] puts an oldest row first *)
Lemma head_is_oldest_order_by (l : list TransactionQueueItem) :
  head_is_oldest (Database.order_by_created_at l).
Proof.
  unfold Database.order_by_created_at.
  induction l as [|x l IH]; simpl; [exact I|].
  apply head_is_oldest_insert, IH.
Qed.

Lemma sql_eq_true (a b : option string) :
  JS.sql_eq a b = true <-> exists s, b = Some s /\ a = Some s.
Proof.
  unfold JS.sql_eq. destruct a as [x|], b as [y|]; split;
    try discriminate; try (intros (s & ? & ?); discriminate).
  - intros H. apply String.eqb_eq in H. subst. eauto.
  - intros (s & [= ->] & [= ->]). apply String.eqb_refl.
Qed.

Lemma status_eqb_true (a b : TransactionStatus) :
  Database.status_eqb a b = true <-> a = b.
Proof. unfold Database.status_eqb. apply bool_decide_eq_true. Qed.

Lemma next_pending_cond_true (w : World) (actor : option string) (i : string)
    (r : QueueRow) :
  transaction_queue (db w) !! i = Some r ->
  (Database.next_pending_cond actor (locked w) i r = true <-> claimable w actor i r).
Proof.
  intros Hq. unfold Database.next_pending_cond, claimable.
  rewrite !andb_true_iff, status_eqb_true, sql_eq_true, bool_decide_eq_true.
  tauto.
Qed.

Lemma in_firstn {A} (x : A) (n : nat) (l : list A) : In x (firstn n l) -> In x l.
Proof.
  revert l. induction n as [|n IH]; intros [|y l]; simpl; try tauto.
  intros [->|H]; [left; reflexivity|right; apply IH, H].
Qed.

Lemma in_limit_1 {A} (x : A) (l : list A) : In x (Database.limit_1 l) -> In x l.
Proof. apply in_firstn. Qed.



(** [getNextPendingTransaction] when its query succeeds: a [SELECT] *)
Lemma getNextPendingTransaction_run (env : Env) (w : World) (actor : option string) :
  no_faults 1 w ->
  Database.getNextPendingTransaction actor env w
  = (Ok (head (Database.order_by_created_at
                 (Database.select_queue
                    (Database.next_pending_cond actor (locked w))
                    (transaction_queue (db w))))),
     with_db (db w) (with_faults (tail (faults w)) w)).
Proof.
  intros Hf. unfold Database.getNextPendingTransaction, bind.
  rewrite pool_query_run by (eapply no_faults_next; exact Hf).
  cbn [fst snd].
  destruct (Database.order_by_created_at _); reflexivity.
Qed.

Lemma status_of_update (env : Env) (w : World) (i : string) (s : TransactionStatus)
    (e : option string) (r : QueueRow) :
  no_faults 1 w ->
  transaction_queue (db w) !! i = Some r ->
  status_of (snd (Database.updateTransactionStatus i s e env w)) i = Some s.
Proof.
  intros Hf Hq. unfold Database.updateTransactionStatus.
  rewrite pool_query_run by (eapply no_faults_next; exact Hf).
  unfold status_of. cbn [fst snd db with_db transaction_queue with_queue].
  rewrite lookup_alter_eq, Hq. cbn.
  unfold Database.update_status_row.
  destruct (JS.truthy_opt e); destruct (_ || _); reflexivity.
Qed.

(** C1, as the source has it. For every actor,
    [getNextPendingTransaction] selects an oldest pending row of that actor
    among the rows that no other session has locked, and returns [null]
    when there is none. It only reads: the row is still pending when it
    returns. The worker sets the row to processing afterwards: the action
    of [processPlayerQueue] that selects the row leaves the [try] block of
    the loop to run, and the first action of that block, in whatever world
    the other tasks have left, is the [UPDATE] that sets the status of the
    row to processing. *)
Theorem C1_claim_next_selects (env : Env) (w : World) (actor : option string) :
  no_faults 1 w ->
  exists res w',
    Database.getNextPendingTransaction actor env w = (Ok res, w')
    /\ db w' = db w
    /\ locked w' = locked w
    /\ match res with
       | Some item =>
           claimable w actor (id item) (columns item)
           /\ (forall j r, claimable w actor j r ->
                           created_at (columns item) <= created_at r)
           /\ status_of w' (id item) = Some pending
           /\ (forall playerAddress fuel,
                 actor = JS.or_null (Some playerAddress) ->
                 step (Tasks.processPlayerQueue (S fuel) playerAddress) env w
                 = (Bind (TryCatch
                            (Tasks.processPlayerQueue_try playerAddress item)
                            (Tasks.processPlayerQueue_catch playerAddress item))
                         (fun _ => Tasks.processPlayerQueue fuel playerAddress),
                    [], w')
                 /\ QueueService.processPlayerQueue (S fuel) playerAddress env w
                    = (try_catch
                         (QueueService.processPlayerQueue_try playerAddress item)
                         (QueueService.processPlayerQueue_catch playerAddress item) ;;;
                       QueueService.processPlayerQueue fuel playerAddress) env w'
                 /\ forall w2 r2,
                      no_faults 1 w2 ->
                      transaction_queue (db w2) !! id item = Some r2 ->
                      snd (step (Tasks.processPlayerQueue_try playerAddress item)
                             env w2)
                      = snd (Database.updateTransactionStatus
                               (id item) processing None env w2)
                      /\ status_of
                           (snd (step (Tasks.processPlayerQueue_try playerAddress item)
                                   env w2)) (id item)
                         = Some processing)
       | None => forall j r, ~ claimable w actor j r
       end.
Proof.
  intros Hf. rewrite (getNextPendingTransaction_run env w actor Hf).
  eexists _, _. split; [reflexivity|]. split; [reflexivity|]. split; [reflexivity|].
  pose proof (head_is_oldest_order_by
                (Database.select_queue (Database.next_pending_cond actor (locked w))
                   (transaction_queue (db w)))) as Hold.
  pose proof (fun y => in_order_by_created_at y
                (Database.select_queue (Database.next_pending_cond actor (locked w))
                   (transaction_queue (db w)))) as Hin.
  destruct (Database.order_by_created_at _) as [|item rest] eqn:Hord; cbn [head].
  - intros j r Hc.
    assert (In (mkItem j r) []) as [].
    apply Hin, in_select_queue. cbn [id columns].
    split; [apply Hc|]. apply next_pending_cond_true; [apply Hc|exact Hc].
  - assert (claimable w actor (id item) (columns item)) as Hitem.
    { assert (In item (item :: rest)) as H by (left; reflexivity).
      apply Hin, in_select_queue in H as [Hq Hc].
      apply next_pending_cond_true in Hc; assumption. }
    split; [exact Hitem|]. split; [|split].
    + intros j r Hc. simpl in Hold.
      apply (Hold (mkItem j r)). apply Hin, in_select_queue. cbn [id columns].
      split; [apply Hc|]. apply next_pending_cond_true; [apply Hc|exact Hc].
    + destruct Hitem as (Hq & Hs & _). unfold status_of.
      cbn [db with_db]. rewrite Hq. cbn. rewrite Hs. reflexivity.
    + intros playerAddress fuel ->. split; [|split].
      * cbn [Tasks.processPlayerQueue step].
        rewrite (getNextPendingTransaction_run env w _ Hf), Hord. reflexivity.
      * cbn [QueueService.processPlayerQueue]. unfold bind at 1.
        rewrite (getNextPendingTransaction_run env w _ Hf), Hord. reflexivity.
      * intros w2 r2 Hf2 Hq2.
        assert (snd (step (Tasks.processPlayerQueue_try playerAddress item) env w2)
                = snd (Database.updateTransactionStatus
                         (id item) processing None env w2)) as Hstep.
        { unfold Tasks.processPlayerQueue_try. cbn [step].
          destruct (Database.updateTransactionStatus _ _ _ env w2) as [[[]|e] w3];
            reflexivity. }
        split; [exact Hstep|]. rewrite Hstep.
        eapply status_of_update; [exact Hf2|exact Hq2].
Qed.

(** C1 on a queue with one pending intent of the actor [0xA]: the intent
    is selected and left pending, and the first action of the [try] block
    of the worker sets it to processing. *)
Lemma C1_witness :
  exists item w',
    Database.getNextPendingTransaction (Some "0xA") Sample.env
      (Sample.world_of Sample.one_pending_db) = (Ok (Some item), w')
    /\ db w' = Sample.one_pending_db
    /\ id item = "t1"
    /\ status_of w' "t1" = Some pending
    /\ status_of
         (snd (step (Tasks.processPlayerQueue_try "0xA" item) Sample.env
                 (Sample.world_of Sample.one_pending_db))) "t1"
       = Some processing.
Proof.
  destruct (C1_claim_next_selects Sample.env (Sample.world_of Sample.one_pending_db)
              (Some "0xA")) as (res & w' & Hrun & Hdb & _ & Hres).
  - constructor.
  - assert (fst (Database.getNextPendingTransaction (Some "0xA") Sample.env
                   (Sample.world_of Sample.one_pending_db)) = Ok res) as H
      by (rewrite Hrun; reflexivity).
    vm_compute in H. injection H as <-.
    destruct Hres as (_ & _ & Hpending & Hworker).
    eexists _, w'. split; [exact Hrun|]. split; [exact Hdb|].
    split; [reflexivity|]. split; [exact Hpending|].
    destruct (Hworker "0xA" 0%nat eq_refl) as (_ & _ & Hstep).
    apply (Hstep (Sample.world_of Sample.one_pending_db)
             (Sample.row create_game (Some "0xA") pending 0)).
    + constructor.
    + reflexivity.
Defined.

(** C1 does not hold as it is stated: after [getNextPendingTransaction]
    has returned the row, the row is pending, not processing. *)
Lemma C1_counterexample :
  fst (Database.getNextPendingTransaction (Some "0xA") Sample.env
         (Sample.world_of Sample.one_pending_db))
  = Ok (Some (mkItem "t1" (Sample.row create_game (Some "0xA") pending 0)))
  /\ status_of (snd (Database.getNextPendingTransaction (Some "0xA") Sample.env
                       (Sample.world_of Sample.one_pending_db))) "t1"
     = Some pending.
Proof. split; vm_compute; reflexivity. Qed.

End DatabaseFacts.


(** ** Intake *)

Module IntakeFacts.
Import MFacts DatabaseFacts.

(** a [SELECT ... LIMIT 1] finds a row when one satisfies the condition *)
Lemma select_queue_nonempty (cond : string -> QueueRow -> bool)
    (q : gmap string QueueRow) (i : string) (r : QueueRow) :
  q !! i = Some r -> cond i r = true ->
  Database.limit_1 (Database.select_queue cond q) <> [].
Proof.
  intros Hq Hc.
  assert (In (mkItem i r) (Database.select_queue cond q)) as Hin
    by (apply in_select_queue; auto).
  destruct (Database.select_queue cond q); [destruct Hin|discriminate].
Qed.

Lemma select_queue_empty (cond : string -> QueueRow -> bool)
    (q : gmap string QueueRow) (i : string) (r : QueueRow) :
  Database.limit_1 (Database.select_queue cond q) = [] ->
  q !! i = Some r -> cond i r = false.
Proof.
  intros He Hq. destruct (cond i r) eqn:Hc; [|reflexivity].
  exfalso. eapply select_queue_nonempty; eauto.
Qed.

(** a row that has the checked key of an intent satisfies the condition of
    the duplicate check *)
Lemma duplicate_mint_cond_key (address player : option string) (badge : JS.json)
    (i : string) (r : QueueRow) (k : string * string * string) :
  checked_key address player (Some badge) = Some k ->
  row_checked_key r = Some k ->
  Database.duplicate_mint_cond address player (JS.text badge) i r = true.
Proof.
  unfold row_checked_key, checked_key, Database.duplicate_mint_cond.
  destruct address as [a|]; [|discriminate].
  destruct player as [p|]; [|discriminate].
  destruct (_ && _ && JS.truthy badge); [|discriminate].
  destruct (JS.text badge) as [t|]; [|discriminate].
  intros [= <-].
  destruct (Database.is_mint_nft _); [|discriminate].
  destruct (Database.live_status _); [|discriminate].
  destruct (player_sui_address r) as [a'|]; [|discriminate].
  destruct (player_id r) as [p'|]; [|discriminate].
  destruct (transaction_data r !! "badgeType") as [v|]; [|discriminate].
  destruct (_ && _ && JS.truthy v); [|discriminate].
  destruct (JS.text v) as [t'|] eqn:Hv; [|discriminate].
  intros [= -> -> ->]. cbn. rewrite Hv. cbn.
  rewrite !String.eqb_refl. reflexivity.
Qed.

(** the [INSERT]: nothing is written, or the row is inserted under a key
    that was free *)
Lemma insert_run (env : Env) (w : World) (i : string) (row : World -> QueueRow) :
  exists res w',
    pool_query (fun w0 => Database.insert_queue i (row w0) w0) env w = (res, w')
    /\ (db w' = db w
        \/ (transaction_queue (db w) !! i = None
            /\ res = Ok tt
            /\ db w' = with_queue (<[i := row w]> (transaction_queue (db w))) (db w))).
Proof.
  unfold pool_query. destruct (next_fault w).
  { eexists _, _. split; [reflexivity|]. left. reflexivity. }
  unfold Database.insert_queue.
  destruct (transaction_queue (db w) !! i) eqn:Hq; cbn [fst snd].
  - eexists _, _. split; [reflexivity|]. left. reflexivity.
  - eexists _, _. split; [reflexivity|]. right. repeat split; reflexivity.
Qed.

Lemma or_null_truthy (o : option string) : JS.truthy_opt o = true -> JS.or_null o = o.
Proof. unfold JS.or_null. intros ->. reflexivity. Qed.

Lemma checked_key_falsy_player (address player : option string)
    (badge : option JS.json) :
  JS.truthy_opt address && JS.truthy_opt player = false ->
  checked_key address (JS.or_null player) badge = None.
Proof.
  unfold checked_key, JS.or_null, JS.truthy_opt.
  destruct address as [a|]; [|reflexivity].
  destruct player as [p|]; [|reflexivity].
  destruct (JS.truthy_string a); simpl.
  - intros ->. reflexivity.
  - intros _. destruct (JS.truthy_string p) eqn:Hp; [|reflexivity].
    destruct badge; reflexivity.
Qed.

(** What [addToQueue] does to the queue: nothing, or the insertion of a
    row under a new key; a row with a checked key is inserted only when no
    row has that key. The other tables are not written. *)
Lemma addToQueue_cases (env : Env) (w : World) (i : string) (t : TransactionType)
    (address : option string) (data : gmap string JS.json)
    (gameId playerId : option string) :
  exists res w',
    Database.addToQueue i t address data gameId playerId env w = (res, w')
    /\ (db w' = db w
        \/ (transaction_queue (db w) !! i = None
            /\ res = Ok tt
            /\ db w' = with_queue (<[i := new_row w t address data gameId playerId]>
                                     (transaction_queue (db w))) (db w)
            /\ (forall k j r,
                  row_checked_key (new_row w t address data gameId playerId) = Some k ->
                  transaction_queue (db w) !! j = Some r ->
                  row_checked_key r <> Some k))).
Proof.
  unfold Database.addToQueue. cbv zeta.
  pose proof (insert_run env w i
    (fun w0 => mkRow t address (JS.or_null gameId) (JS.or_null playerId) pending
                 data None (clock w0) (clock w0) None 0)) as Hins.
  assert (forall k, row_checked_key (new_row w t address data gameId playerId) = Some k ->
          Database.is_mint_nft t = true
          /\ checked_key address (JS.or_null playerId) (data !! "badgeType") = Some k)
    as Hkey.
  { intros k. unfold row_checked_key, new_row. cbn.
    destruct (Database.is_mint_nft t); [auto|discriminate]. }
  destruct (Database.is_mint_nft t && JS.truthy_opt address && JS.truthy_opt playerId)
    eqn:Hguard.
  2:{ destruct Hins as (res & w' & -> & [Hins|(Hfree & Hok & Hdb)]);
        exists res, w'; (split; [reflexivity|]); [left; exact Hins|right].
      split; [exact Hfree|]. split; [exact Hok|]. split; [exact Hdb|].
      intros k j r Hk _. exfalso. apply Hkey in Hk as [Hm Hk].
      rewrite Hm in Hguard. cbn in Hguard.
      rewrite checked_key_falsy_player in Hk by exact Hguard. discriminate. }
  apply andb_true_iff in Hguard as [Hguard Hp].
  apply andb_true_iff in Hguard as [Hm Ha].
  destruct (data !! "badgeType") as [v|] eqn:Hv.
  2:{ destruct Hins as (res & w' & -> & [Hins|(Hfree & Hok & Hdb)]);
        exists res, w'; (split; [reflexivity|]); [left; exact Hins|right].
      split; [exact Hfree|]. split; [exact Hok|]. split; [exact Hdb|].
      intros k j r Hk _. exfalso. apply Hkey in Hk as [_ Hk].
      unfold checked_key in Hk.
      destruct address, (JS.or_null playerId); discriminate. }
  destruct (JS.truthy v) eqn:Htv.
  2:{ destruct Hins as (res & w' & -> & [Hins|(Hfree & Hok & Hdb)]);
        exists res, w'; (split; [reflexivity|]); [left; exact Hins|right].
      split; [exact Hfree|]. split; [exact Hok|]. split; [exact Hdb|].
      intros k j r Hk _. exfalso. apply Hkey in Hk as [_ Hk].
      unfold checked_key in Hk.
      destruct address, (JS.or_null playerId); try discriminate.
      rewrite Htv, andb_false_r in Hk. discriminate. }
  clear Hins.
  unfold bind at 1. unfold pool_query at 1.
  destruct (next_fault w) eqn:Hnf.
  { eexists _, _. split; [reflexivity|]. left. reflexivity. }
  cbn [fst snd].
  destruct (Database.limit_1 _) as [|x l] eqn:Hsel.
  2:{ eexists _, _. split; [reflexivity|]. left. reflexivity. }
  destruct (insert_run env (with_db (db w) (with_faults (tail (faults w)) w)) i
    (fun w0 => mkRow t address (JS.or_null gameId) (JS.or_null playerId) pending
                 data None (clock w0) (clock w0) None 0))
    as (res & w' & -> & [Hins|(Hfree & Hok & Hdb)]);
    exists res, w'; (split; [reflexivity|]); [left; exact Hins|right].
  split; [exact Hfree|]. split; [exact Hok|]. split; [exact Hdb|].
  intros k j r Hk Hq Hr. apply Hkey in Hk as [_ Hk].
  rewrite (or_null_truthy playerId Hp) in Hk.
  pose proof (select_queue_empty _ _ j r Hsel Hq) as Hno.
  rewrite (duplicate_mint_cond_key address playerId v j r k Hk Hr) in Hno.
  discriminate.
Qed.

Lemma I3_checked_insert (q : gmap string QueueRow) (i : string) (new : QueueRow) :
  I3_checked q ->
  q !! i = None ->
  (forall k j r, row_checked_key new = Some k -> q !! j = Some r ->
                 row_checked_key r <> Some k) ->
  I3_checked (<[i := new]> q).
Proof.
  intros HI Hfree Hnew a b r1 r2 k Ha Hb Hk1 Hk2.
  destruct (decide (a = i)) as [->|Hai]; destruct (decide (b = i)) as [->|Hbi];
    [reflexivity| | |].
  - rewrite lookup_insert_eq in Ha. injection Ha as <-.
    rewrite lookup_insert_ne in Hb by congruence.
    exfalso. exact (Hnew k b r2 Hk1 Hb Hk2).
  - rewrite lookup_insert_eq in Hb. injection Hb as <-.
    rewrite lookup_insert_ne in Ha by congruence.
    exfalso. exact (Hnew k a r1 Hk2 Ha Hk1).
  - rewrite lookup_insert_ne in Ha by congruence.
    rewrite lookup_insert_ne in Hb by congruence.
    exact (HI a b r1 r2 k Ha Hb Hk1 Hk2).
Qed.

(** [addToQueue] keeps (I3) for the rows on which the check is made *)
Lemma addToQueue_keeps_I3 (env : Env) (w : World) (i : string) (t : TransactionType)
    (address : option string) (data : gmap string JS.json)
    (gameId playerId : option string) :
  I3_checked (transaction_queue (db w)) ->
  I3_checked (transaction_queue
                (db (snd (Database.addToQueue i t address data gameId playerId env w)))).
Proof.
  intros HI.
  destruct (addToQueue_cases env w i t address data gameId playerId)
    as (res & w' & Hrun & Hcases).
  rewrite Hrun. cbn [snd].
  destruct Hcases as [->|(Hfree & _ & -> & Hnew)]; [exact HI|].
  cbn [transaction_queue with_queue].
  apply I3_checked_insert; assumption.
Qed.

(** a second MintBadge with the key of a row that is pending, processing
    or completed is dropped *)
Lemma addToQueue_drops_duplicate (env : Env) (w : World) (i : string)
    (address : option string) (data : gmap string JS.json)
    (gameId playerId : option string) (k : string * string * string)
    (j : string) (r : QueueRow) :
  no_faults 1 w ->
  checked_key address playerId (data !! "badgeType") = Some k ->
  transaction_queue (db w) !! j = Some r ->
  row_checked_key r = Some k ->
  exists w',
    Database.addToQueue i mint_nft address data gameId playerId env w = (Ok tt, w')
    /\ db w' = db w.
Proof.
  intros Hf Hk Hq Hr. unfold Database.addToQueue. cbv zeta.
  assert (JS.truthy_opt address = true /\ JS.truthy_opt playerId = true
          /\ exists v, data !! "badgeType" = Some v /\ JS.truthy v = true)
    as (Ha & Hp & v & Hv & Htv).
  { unfold checked_key in Hk.
    destruct address as [a|]; [|discriminate].
    destruct playerId as [p|]; [|discriminate].
    destruct (data !! "badgeType") as [v|]; [|discriminate].
    destruct (JS.truthy_string a) eqn:Ha; [|discriminate].
    destruct (JS.truthy_string p) eqn:Hp; [|discriminate].
    destruct (JS.truthy v) eqn:Hv; [|discriminate].
    cbn. eauto. }
  rewrite Ha, Hp, Hv, Htv. cbn [Database.is_mint_nft andb].
  unfold bind.
  rewrite pool_query_run by (eapply no_faults_next; exact Hf).
  cbn [fst snd].
  rewrite Hv in Hk.
  pose proof (select_queue_nonempty _ _ j r Hq
                (duplicate_mint_cond_key address playerId v j r k Hk Hr)) as Hne.
  destruct (Database.limit_1 _); [contradiction|].
  eexists. split; reflexivity.
Qed.

End IntakeFacts.


(** ** Moves that wait for their game *)

Module WaitingFacts.
Import MFacts DatabaseFacts IntakeFacts.

Lemma or_null_idem (o : option string) : JS.or_null (JS.or_null o) = JS.or_null o.
Proof.
  unfold JS.or_null. destruct (JS.truthy_opt o) eqn:H; [rewrite H|]; reflexivity.
Qed.

Lemma or_null_not_none (o : option string) :
  JS.or_null o <> None <-> JS.truthy_opt o = true.
Proof.
  unfold JS.or_null. destruct (JS.truthy_opt o) eqn:H.
  - destruct o; [|discriminate]. split; [reflexivity|discriminate].
  - split; [congruence|discriminate].
Qed.

Lemma make_move_data_gameObjectId (data : Validation.MakeMoveRequest) :
  Validation.make_move_data data !! "gameObjectId"
  = Some (JS.JStr (Validation.mm_gameObjectId data)).
Proof.
  unfold Validation.make_move_data, Validation.opt_entry.
  destruct (Validation.mm_gameId data).
  - rewrite lookup_insert_ne by discriminate. apply lookup_insert_eq.
  - apply lookup_insert_eq.
Qed.

(** the row that the handler of [transaction:make_move] leaves for a move
    that waits *)
Lemma on_make_move_waiting (env : Env) (w : World) (data : Validation.MakeMoveRequest) :
  Validation.validateMakeMove data = Ok data ->
  Validation.mm_status data = Some "waiting_for_object_id" ->
  transaction_queue (db w) !! Validation.mm_transactionId data = None ->
  no_faults 2 w ->
  transaction_queue (db (snd (SocketServer.on_make_move data env w)))
    !! Validation.mm_transactionId data
  = Some (Database.update_status_row waiting_for_object_id None (clock w)
            (new_row w make_move (Some (Validation.mm_playerAddress data))
               (Validation.make_move_data data)
               (JS.or_null (Validation.mm_gameId data)) None)).
Proof.
  intros Hvalid Hstatus Hfree Hf.
  unfold SocketServer.on_make_move, try_catch, bind at 1, lift_outcome.
  rewrite Hvalid, Hstatus.
  rewrite bool_decide_eq_true_2 by reflexivity.
  change (Database.status_eqb waiting_for_object_id waiting_for_object_id) with true.
  cbv iota.
  unfold bind at 1.
  unfold Database.addToQueue. cbn [Database.is_mint_nft andb].
  rewrite pool_query_run by (eapply no_faults_next; exact Hf).
  unfold Database.insert_queue at 1 2. rewrite Hfree. cbn [fst snd].
  unfold bind at 1. unfold Database.updateTransactionStatus.
  rewrite pool_query_run.
  2:{ eapply no_faults_next. apply no_faults_tail. exact Hf. }
  cbn [fst snd].
  unfold SocketServer.queued, emit, effect, modify. cbn.
  rewrite lookup_alter_eq, lookup_insert_eq. reflexivity.
Qed.

(** C7, as the source has it. The row that the handler of
    [transaction:make_move] sets to waiting_for_object_id has the game id of
    the request when the request gives one that is not empty, and no game
    id otherwise; its payload keeps the game object id that the client
    sent. So (I4) holds for the row exactly when the request gives a game id
    and an empty game object id. *)
Theorem C7_waiting_row_of_intake (env : Env) (w : World)
    (data : Validation.MakeMoveRequest) :
  Validation.validateMakeMove data = Ok data ->
  Validation.mm_status data = Some "waiting_for_object_id" ->
  transaction_queue (db w) !! Validation.mm_transactionId data = None ->
  no_faults 2 w ->
  exists r,
    transaction_queue (db (snd (SocketServer.on_make_move data env w)))
      !! Validation.mm_transactionId data = Some r
    /\ status r = waiting_for_object_id
    /\ transaction_type r = make_move
    /\ game_id r = JS.or_null (Validation.mm_gameId data)
    /\ transaction_data r !! "gameObjectId"
       = Some (JS.JStr (Validation.mm_gameObjectId data))
    /\ (Spec.I4 r <->
        JS.truthy_opt (Validation.mm_gameId data) = true
        /\ Validation.mm_gameObjectId data = "").
Proof.
  intros Hvalid Hstatus Hfree Hf.
  eexists. split; [apply on_make_move_waiting; assumption|].
  change (Database.update_status_row waiting_for_object_id None (clock w))
    with (fun r => with_updated_at (clock w) (with_status waiting_for_object_id r)).
  unfold Spec.I4, new_row.
  cbn -[JS.or_null Validation.make_move_data lookup].
  rewrite or_null_idem, make_move_data_gameObjectId.
  split; [reflexivity|]. split; [reflexivity|]. split; [reflexivity|].
  split; [reflexivity|]. split.
  - intros H. destruct (H eq_refl) as (Hg & [Ho|Ho]); [discriminate|].
    apply or_null_not_none in Hg. injection Ho as Ho. auto.
  - intros [Hg Ho] _. split; [apply or_null_not_none, Hg|].
    right. rewrite Ho. reflexivity.
Qed.

(** C7 on a move that names its game and has no game object yet. *)
Lemma C7_witness :
  exists r,
    transaction_queue
      (db (snd (SocketServer.on_make_move (Sample.waiting_move (Some "g1") "")
                  Sample.env Sample.empty_world))) !! "t2" = Some r
    /\ status r = waiting_for_object_id
    /\ game_id r = Some "g1"
    /\ Spec.I4 r.
Proof.
  destruct (C7_waiting_row_of_intake Sample.env Sample.empty_world
              (Sample.waiting_move (Some "g1") ""))
    as (r & Hq & Hs & _ & Hg & _ & HI4).
  - reflexivity.
  - reflexivity.
  - reflexivity.
  - constructor.
  - exists r. split; [exact Hq|]. split; [exact Hs|]. split; [exact Hg|].
    apply HI4. split; reflexivity.
Defined.

(** C7 does not hold as it is stated: a move that waits and names no game
    is stored with no game id, and with the game object id that the client
    sent. *)
Lemma C7_counterexample :
  exists r,
    transaction_queue
      (db (snd (SocketServer.on_make_move (Sample.waiting_move None "0x1")
                  Sample.env Sample.empty_world))) !! "t2" = Some r
    /\ status r = waiting_for_object_id
    /\ game_id r = None
    /\ transaction_data r !! "gameObjectId" = Some (JS.JStr "0x1")
    /\ ~ Spec.I4 r.
Proof.
  eexists. split; [vm_compute; reflexivity|].
  split; [reflexivity|]. split; [reflexivity|]. split; [vm_compute; reflexivity|].
  intros H. destruct (H eq_refl) as [Hg _]. apply Hg. reflexivity.
Qed.

End WaitingFacts.


(** ** The second half of [processTransaction] *)

Module ReconcileFacts.
Import MFacts TraceFacts PollingFacts.

Lemma quiet_since_app (t0 t l : list Effect) (digest : string) :
  quiet_since t0 digest t -> Forall (poll_or_sleep digest) l ->
  quiet_since t0 digest (t ++ l).
Proof.
  intros (l0 & -> & H0) Hl. exists (l0 ++ l)%list. split.
  - rewrite app_assoc. reflexivity.
  - apply Forall_app. auto.
Qed.

Section Quiet.
Context (env : Env) (t0 : list Effect) (digest : string).

Let I := on_trace (quiet_since t0 digest).

Lemma wait_quiet (objectType : string) :
  keeps env I (SuiClient.waitForTransactionAndExtractObjectId digest objectType).
Proof.
  intros w H.
  destruct (poll_from_bound env digest objectType SuiClient.maxRetries 0%nat w)
    as (l & Ht & _ & Hl).
  unfold I, on_trace, SuiClient.waitForTransactionAndExtractObjectId in *.
  rewrite Ht. apply quiet_since_app; assumption.
Qed.

Lemma updateGameObjectId_quiet (g o : string) :
  keeps env I (Database.updateGameObjectId g o).
Proof.
  apply keeps_try_catch; [apply keeps_query_on_trace|intros; apply keeps_throw].
Qed.

Lemma createOrUpdateReward_quiet (p : string) (t : option string) (o : string) :
  keeps env I (Database.createOrUpdateReward p t o).
Proof.
  apply keeps_try_catch; [|intros; apply keeps_throw].
  apply keeps_bind; [apply keeps_query_on_trace|].
  intros [|x l]; apply keeps_query_on_trace.
Qed.

Lemma processWaitingMovesForGame_quiet (g o : string) :
  keeps env I (TransactionProcessor.processWaitingMovesForGame g o).
Proof.
  apply keeps_try_catch; [|intros; apply keeps_ret].
  apply keeps_bind; [apply keeps_query_on_trace|].
  intros [|x l]; [apply keeps_ret|].
  apply keeps_for_each. intros y _.
  apply keeps_try_catch; [apply keeps_query_on_trace|intros; apply keeps_ret].
Qed.

End Quiet.

(** a [try] whose [catch] returns does not throw *)
Lemma hoare_try_catch_ret {A} (env : Env) (I : World -> Prop) (m : M A) (h : string -> A) :
  keeps env I m ->
  hoare env I (try_catch m (fun msg => ret (h msg)))
    (fun res w => (exists a, res = Ok a) /\ I w).
Proof.
  intros Hm w Hw. specialize (Hm w Hw). unfold try_catch.
  destruct (m env w) as [[a|msg] w']; simpl in *; eauto.
Qed.

(** The second half of [processTransaction] returns, whatever the node and
    the store do; before the event for the player it adds polls and sleeps
    only. *)
Lemma reconcile_and_notify_run (env : Env) (w : World)
    (transaction : TransactionQueueItem) (digest : string) :
  exists objectId w' l,
    TransactionProcessor.reconcile_and_notify transaction digest env w = (Ok tt, w')
    /\ trace w' = (trace w ++ l ++ notification transaction digest objectId)%list
    /\ Forall (poll_or_sleep digest) l.
Proof.
  unfold TransactionProcessor.reconcile_and_notify. cbv zeta.
  set (phase := match transaction_type (columns transaction) with
                | create_game => _ | make_move => _ | end_game => _ | mint_nft => _
                end).
  assert (hoare env (on_trace (quiet_since (trace w) digest)) phase
            (fun res w1 => (exists o, res = Ok o)
                           /\ on_trace (quiet_since (trace w) digest) w1)) as Hphase.
  { subst phase. destruct (transaction_type (columns transaction)).
    - apply hoare_try_catch_ret.
      apply keeps_bind; [apply wait_quiet|intros o].
      apply keeps_try_catch; [|intros; apply keeps_ret].
      apply keeps_bind; [|intros; apply keeps_ret].
      destruct o as [o|]; [|apply keeps_ret].
      destruct (game_id (columns transaction)) as [g|]; [|apply keeps_ret].
      destruct (_ && _); [|apply keeps_ret].
      apply keeps_bind; [apply updateGameObjectId_quiet|intros _].
      apply processWaitingMovesForGame_quiet.
    - intros w0 H. split; [eexists; reflexivity|exact H].
    - intros w0 H. split; [eexists; reflexivity|exact H].
    - apply hoare_try_catch_ret.
      apply keeps_bind; [apply wait_quiet|intros o].
      apply keeps_try_catch; [|intros; apply keeps_ret].
      apply keeps_bind; [|intros; apply keeps_ret].
      destruct (negb (JS.truthy_opt o)); [apply keeps_ret|].
      destruct (negb (JS.truthy_opt _)); [apply keeps_ret|].
      apply keeps_try_catch; [apply createOrUpdateReward_quiet|intros; apply keeps_throw]. }
  specialize (Hphase w).
  destruct Hphase as [[o Ho] (l & Ht & Hl)].
  { exists []. split; [rewrite app_nil_r; reflexivity|constructor]. }
  unfold bind. destruct (phase env w) as [res w1]. cbn [fst snd] in Ho, Ht. subst res.
  exists o. unfold notification.
  destruct (player_sui_address (columns transaction)) as [a|].
  - destruct (JS.truthy_string a).
    + eexists _, l. split; [reflexivity|]. split; [|exact Hl].
      cbn. rewrite Ht, <- app_assoc. reflexivity.
    + eexists _, l. split; [reflexivity|]. split; [|exact Hl].
      cbn. rewrite Ht, app_nil_r. reflexivity.
  - eexists _, l. split; [reflexivity|]. split; [|exact Hl].
    cbn. rewrite Ht, app_nil_r. reflexivity.
Qed.



End ReconcileFacts.


(** ** Tasks and their actions *)

Module TaskFacts.
Import MFacts.

Lemma task_keeps_weaken {A} (env : Env) (I : World -> Prop) (p : Prog A)
    (Q Q' : A -> Prop) :
  task_keeps env I p Q -> (forall a, Q a -> Q' a) -> task_keeps env I p Q'.
Proof.
  revert Q Q'.
  induction p as [A a|A e|A op|A X m IHm f IHf|A m IHm h IHh|A c IHc k IHk];
    intros Q Q' Hp HQ; simpl in *.
  - auto.
  - exact Logic.I.
  - intros w Hw. destruct (Hp w Hw) as [H1 H2]. split; [exact H1|]. auto.
  - destruct Hp as (Q0 & Hm & Hf). exists Q0. split; [exact Hm|].
    intros x Hx. eapply IHf; eauto.
  - destruct Hp as [Hm Hh]. split; [eapply IHm; eauto|].
    intros e. eapply IHh; eauto.
  - destruct Hp as [Hc Hk]. split; [exact Hc|eapply IHk; eauto].
Qed.

(** an action that keeps [I] *)
Lemma task_keeps_atomic {A} (env : Env) (I : World -> Prop) (op : M A) :
  keeps env I op -> task_keeps env I (Atomic op) (fun _ => True).
Proof. intros H w Hw. split; [apply H, Hw|auto]. Qed.

(** an action that keeps [I] and whose result is known *)
Lemma task_keeps_atomic_post {A} (env : Env) (I : World -> Prop) (op : M A)
    (Q : A -> Prop) :
  hoare env I op (fun res w => I w /\ forall a, res = Ok a -> Q a) ->
  task_keeps env I (Atomic op) Q.
Proof. intros H w Hw. exact (H w Hw). Qed.

Lemma task_keeps_bind {A X} (env : Env) (I : World -> Prop) (m : Prog X)
    (f : X -> Prog A) (Q' : X -> Prop) (Q : A -> Prop) :
  task_keeps env I m Q' -> (forall x, Q' x -> task_keeps env I (f x) Q) ->
  task_keeps env I (Bind m f) Q.
Proof. intros Hm Hf. exists Q'. split; assumption. Qed.

Lemma task_keeps_then {A X} (env : Env) (I : World -> Prop) (m : Prog X)
    (f : X -> Prog A) (Q : A -> Prop) :
  task_keeps env I m (fun _ => True) -> (forall x, task_keeps env I (f x) Q) ->
  task_keeps env I (Bind m f) Q.
Proof. intros Hm Hf. exists (fun _ => True). split; [exact Hm|auto]. Qed.

Lemma task_keeps_try {A} (env : Env) (I : World -> Prop) (m : Prog A)
    (h : string -> Prog A) (Q : A -> Prop) :
  task_keeps env I m Q -> (forall error, task_keeps env I (h error) Q) ->
  task_keeps env I (TryCatch m h) Q.
Proof. intros Hm Hh. split; assumption. Qed.

Lemma task_keeps_for_each {A} (env : Env) (I : World -> Prop) (xs : list A)
    (body : A -> Prog unit) :
  (forall x, In x xs -> task_keeps env I (body x) (fun _ => True)) ->
  task_keeps env I (Tasks.for_each xs body) (fun _ => True).
Proof.
  induction xs as [|x xs IH]; intros H; simpl; [exact Logic.I|].
  exists (fun _ => True). split; [apply H; left; reflexivity|].
  intros _ _. apply IH. intros y Hy. apply H. right. exact Hy.
Qed.

Lemma task_keeps_start_all (env : Env) (I : World -> Prop) (players : list string)
    (task : string -> Prog unit) :
  (forall p, task_keeps env I (task p) (fun _ => True)) ->
  task_keeps env I (Tasks.start_all players task) (fun _ => True).
Proof.
  intros H. induction players as [|p l IH]; simpl; [exact Logic.I|].
  split; [apply H|exact IH].
Qed.

Lemma task_keeps_continue_with {A X} (env : Env) (I : World -> Prop) (m : Prog X)
    (f : X -> Prog A) (Q' : X -> Prop) (Q : A -> Prop) :
  task_keeps env I m Q' -> (forall x, Q' x -> task_keeps env I (f x) Q) ->
  task_keeps env I (continue_with m f) Q.
Proof. intros Hm Hf. destruct m; simpl in *; eauto. Qed.

Lemma task_keeps_continue_in_try {A} (env : Env) (I : World -> Prop) (m : Prog A)
    (h : string -> Prog A) (Q : A -> Prop) :
  task_keeps env I m Q -> (forall error, task_keeps env I (h error) Q) ->
  task_keeps env I (continue_in_try m h) Q.
Proof. intros Hm Hh. destruct m; simpl in *; eauto. Qed.

(** One action of a task that keeps [I] keeps [I]; what is left of the
    task and the tasks it has started keep [I]. *)
Lemma task_keeps_step {A} (env : Env) (I : World -> Prop) (p : Prog A)
    (Q : A -> Prop) (w : World) :
  task_keeps env I p Q -> I w ->
  I (snd (step p env w))
  /\ task_keeps env I (fst (fst (step p env w))) Q
  /\ Forall (fun c => task_keeps env I c (fun _ => True)) (snd (fst (step p env w))).
Proof.
  revert Q w.
  induction p as [A a|A e|A op|A X m IHm f IHf|A m IHm h IHh|A c IHc k IHk];
    intros Q w Hp Hw; simpl in *.
  - auto.
  - auto.
  - destruct (Hp w Hw) as [HI HQ].
    destruct (op env w) as [[a|e] w']; simpl in *; auto.
  - destruct Hp as (Q' & Hm & Hf).
    destruct (IHm Q' w Hm Hw) as (HI & Hm' & Hstarted).
    destruct (step m env w) as [[m' started] w']; simpl in *.
    split; [exact HI|]. split; [|exact Hstarted].
    eapply task_keeps_continue_with; eauto.
  - destruct Hp as (Hm & Hh).
    destruct (IHm Q w Hm Hw) as (HI & Hm' & Hstarted).
    destruct (step m env w) as [[m' started] w']; simpl in *.
    split; [exact HI|]. split; [|exact Hstarted].
    apply task_keeps_continue_in_try; auto.
  - destruct Hp as [Hc Hk]. auto.
Qed.

Lemma run_task_keeps (env : Env) (I : World -> Prop) (n : nat) (s : Server) :
  I (world s) -> tasks_keep env I s ->
  I (world (run_task env n s)) /\ tasks_keep env I (run_task env n s).
Proof.
  intros Hw Htasks. unfold run_task.
  destruct (tasks s !! n) as [task|] eqn:Hn; [|auto].
  assert (task_keeps env I task (fun _ => True)) as Htask
    by (exact (proj1 (Forall_lookup _ _) Htasks n task Hn)).
  destruct (task_keeps_step env I task _ (world s) Htask Hw) as (HI & Hleft & Hstarted).
  destruct (step task env (world s)) as [[task' started] w']; simpl in *.
  split; [exact HI|].
  unfold tasks_keep. cbn. apply Forall_app. split; [|exact Hstarted].
  apply Forall_insert; assumption.
Qed.

(** What the tasks of the server keep at every action, and what the
    changes from outside keep, holds in every state that the server
    reaches, however the actions of the tasks interleave. *)
Lemma reachable_keeps (env : Env) (I : World -> Prop) (s s' : Server) :
  (forall request, task_keeps env I (Tasks.handle request) (fun _ => True)) ->
  (forall fuel, task_keeps env I (Tasks.tick fuel) (fun _ => True)) ->
  task_keeps env I Tasks.hourly (fun _ => True) ->
  (forall w d a p t f l,
     transaction_queue d = transaction_queue (db w) -> I w ->
     I (mkWorld d a p t f l (sponsorKeypair w) (processingPlayers w) (trace w))) ->
  reachable env s s' ->
  I (world s) -> tasks_keep env I s ->
  I (world s') /\ tasks_keep env I s'.
Proof.
  intros Hhandle Htick Hclean Houtside Hreach Hw Htasks.
  induction Hreach as [|s1 s2 _ IH Hstep]; [auto|].
  destruct IH as [IHw IHt].
  destruct Hstep as [request s1|fuel s1|s1|n s1|s1 d a p t f l Hq _].
  - split; [exact IHw|]. apply Forall_app. split; [exact IHt|].
    constructor; [apply Hhandle|constructor].
  - split; [exact IHw|]. apply Forall_app. split; [exact IHt|].
    constructor; [apply Htick|constructor].
  - split; [exact IHw|]. apply Forall_app. split; [exact IHt|].
    constructor; [exact Hclean|constructor].
  - apply run_task_keeps; assumption.
  - split; [|exact IHt]. cbn. apply Houtside; assumption.
Qed.

Lemma reachable_trans (env : Env) (s1 s2 s3 : Server) :
  reachable env s1 s2 -> reachable env s2 s3 -> reachable env s1 s3.
Proof.
  intros H12 H23. induction H23 as [|s s' _ IH Hstep]; [exact H12|].
  eapply reach_step; eauto.
Qed.

(** a schedule is a sequence of steps *)
Lemma reachable_schedule (env : Env) (schedule : list nat) (s : Server) :
  reachable env s (run_schedule env schedule s).
Proof.
  unfold run_schedule. revert s.
  induction schedule as [|n l IH]; intros s; simpl; [apply reach_here|].
  eapply reachable_trans; [|apply IH].
  eapply reach_step; [apply reach_here|apply step_task].
Qed.

End TaskFacts.

(** ** Invariants of the queue *)

Module QueueInvariantFacts.
Import MFacts DatabaseFacts IntakeFacts TaskFacts.

(** steps of a proof that a computation keeps an invariant of the queue *)
Ltac keeps_step :=
  match goal with
  | |- keeps _ _ (ret _) => apply keeps_ret
  | |- keeps _ _ (throw _) => apply keeps_throw
  | |- keeps _ _ (lift_outcome _) => apply keeps_lift
  | |- keeps _ _ ask => apply keeps_ask
  | |- keeps _ _ get => apply keeps_get
  | |- keeps _ _ (bind _ _) => apply keeps_bind; [|intros ?]
  | |- keeps _ _ (try_catch _ _) => apply keeps_try_catch; [|intros ?]
  | |- keeps _ _ (modify _) => apply keeps_modify; intros ? ?; assumption
  | |- keeps _ _ (effect _) => apply keeps_modify; intros ? ?; assumption
  | |- keeps _ _ (emit _ _ _) => apply keeps_modify; intros ? ?; assumption
  | |- keeps _ _ (if ?b then _ else _) => destruct b
  | |- keeps _ _ (match ?x with _ => _ end) => destruct x
  end.

(** steps of a proof that a task keeps an invariant at every action *)
Ltac task_step :=
  match goal with
  | |- task_keeps _ _ (Ret _) _ => exact Logic.I
  | |- task_keeps _ _ (Raise _) _ => exact Logic.I
  | |- task_keeps _ _ (Bind _ _) _ => apply task_keeps_then; [|intros ?]
  | |- task_keeps _ _ (TryCatch _ _) _ => apply task_keeps_try; [|intros ?]
  | |- task_keeps _ _ (Atomic _) _ => apply task_keeps_atomic
  | |- task_keeps _ _ (if ?b then _ else _) _ => destruct b
  | |- task_keeps _ _ (match ?x with _ => _ end) _ => destruct x
  end.

Lemma in_distinct (x : string) (l : list string) :
  In x (QueueService.distinct l) -> In x l.
Proof.
  induction l as [|y l IH]; simpl; [tauto|].
  intros [->|H]; [left; reflexivity|].
  apply filter_In in H as [H _]. right. apply IH, H.
Qed.

(** a player that the scan lists has a row that the scan selects *)
Lemma scanned_player_has_row (playerAddress : string) (q : gmap string QueueRow) :
  In playerAddress
     (firstn 100 (QueueService.distinct
        (List.map QueueService.address_of
           (Database.order_by_created_at
              (Database.select_queue QueueService.scan_cond q))))) ->
  exists x, In x (Database.select_queue QueueService.scan_cond q)
            /\ QueueService.address_of x = playerAddress.
Proof.
  intros Hin. apply in_firstn, in_distinct, in_map_iff in Hin as (x & Hx & Hin).
  exists x. split; [|exact Hx].
  apply (proj1 (in_order_by_created_at _ _)), Hin.
Qed.

(** What holds of the queue, whatever it is, is kept by the code that does
    not write the queue. *)
Section AnyInvariant.
Context (env : Env) (J : gmap string QueueRow -> Prop).

Let I : World -> Prop := on_queue J.

(** a query that only reads *)
Lemma read_keeps {A} (q : World -> outcome A * Database) :
  (forall w, snd (q w) = db w) -> keeps env I (pool_query q).
Proof.
  intros Hq. apply keeps_query.
  - intros w H. exact H.
  - intros w H. unfold I, on_queue in *. cbn. rewrite Hq. exact H.
Qed.

(** a query that writes the queue *)
Lemma write_keeps {A} (q : World -> outcome A * Database) :
  (forall w, J (transaction_queue (db w)) -> J (transaction_queue (snd (q w)))) ->
  keeps env I (pool_query q).
Proof.
  intros Hq. apply keeps_query.
  - intros w H. exact H.
  - intros w H. unfold I, on_queue in *. cbn. apply Hq, H.
Qed.

Lemma sleep_keeps (ms : Z) : keeps env I (sleep ms).
Proof. unfold sleep. repeat keeps_step. Qed.

Lemma updateGameObjectId_keeps (g o : string) :
  keeps env I (Database.updateGameObjectId g o).
Proof.
  unfold Database.updateGameObjectId. keeps_step; [|keeps_step].
  apply keeps_query; intros w H; exact H.
Qed.

Lemma createOrUpdateReward_keeps (p : string) (t : option string) (o : string) :
  keeps env I (Database.createOrUpdateReward p t o).
Proof.
  unfold Database.createOrUpdateReward. keeps_step; [|keeps_step].
  keeps_step; [apply read_keeps; reflexivity|].
  keeps_step; apply keeps_query; intros w H; exact H.
Qed.

Lemma getSponsorKeypair_keeps : keeps env I SuiClient.getSponsorKeypair.
Proof.
  unfold SuiClient.getSponsorKeypair, SuiClient.remember.
  repeat keeps_step.
Qed.

Lemma getPackageId_keeps : keeps env I SuiClient.getPackageId.
Proof. unfold SuiClient.getPackageId. repeat keeps_step. Qed.

Lemma getBadgeRegistryId_keeps : keeps env I SuiClient.getBadgeRegistryId.
Proof. unfold SuiClient.getBadgeRegistryId. repeat keeps_step. Qed.

Lemma executeTransaction_keeps (tx : SuiClient.Transaction) :
  keeps env I (SuiClient.executeTransaction tx).
Proof.
  unfold SuiClient.executeTransaction, SuiClient.executeTransactionWithKeypair.
  keeps_step; [apply getSponsorKeypair_keeps|].
  repeat keeps_step.
Qed.

Lemma poll_from_keeps (digest objectType : string) (todo : nat) :
  forall i, keeps env I (SuiClient.poll_from todo i digest objectType).
Proof.
  induction todo as [|todo IH]; intros i; simpl; [keeps_step|].
  keeps_step.
  - unfold SuiClient.poll_once, SuiClient.getTransactionBlock.
    repeat first [apply sleep_keeps | keeps_step].
  - keeps_step; [keeps_step|apply IH].
Qed.

Lemma input_keeps (i : TxInput) : keeps env I (SuiClient.input i).
Proof. unfold SuiClient.input. repeat keeps_step. Qed.

Lemma moveCall_keeps (target : string) (arguments : list TxInput) :
  keeps env I (SuiClient.moveCall target arguments).
Proof. unfold SuiClient.moveCall. repeat keeps_step. Qed.

Lemma build_keeps (transaction : TransactionQueueItem) :
  keeps env I (TransactionProcessor.build transaction).
Proof.
  unfold TransactionProcessor.build,
    SuiClient.buildCreateGameTransaction, SuiClient.buildMakeMoveTransaction,
    SuiClient.buildEndGameTransaction, SuiClient.buildMintNftTransaction.
  cbv zeta.
  repeat first [ apply getPackageId_keeps | apply getBadgeRegistryId_keeps
               | apply getSponsorKeypair_keeps | apply input_keeps
               | apply moveCall_keeps | keeps_step ].
Qed.

Lemma execute_keeps (tx : SuiClient.Transaction) :
  keeps env I (TransactionProcessor.execute tx).
Proof.
  unfold TransactionProcessor.execute.
  repeat first [ apply executeTransaction_keeps | keeps_step ].
Qed.

Lemma build_and_execute_keeps (transaction : TransactionQueueItem) :
  keeps env I (TransactionProcessor.build_and_execute transaction).
Proof.
  unfold TransactionProcessor.build_and_execute.
  keeps_step; [apply build_keeps|apply execute_keeps].
Qed.

(** [processTransaction] writes the queue when it lets the moves of a
    game go, and nowhere else *)
Lemma processTransaction_keeps (transaction : TransactionQueueItem) :
  (forall g o, keeps env I (TransactionProcessor.processWaitingMovesForGame g o)) ->
  keeps env I (TransactionProcessor.processTransaction transaction).
Proof.
  intros Hwaiting. unfold TransactionProcessor.processTransaction.
  keeps_step; [apply build_and_execute_keeps|].
  unfold TransactionProcessor.reconcile_and_notify,
    SuiClient.waitForTransactionAndExtractObjectId.
  cbv zeta.
  repeat first [ apply poll_from_keeps | apply updateGameObjectId_keeps
               | apply Hwaiting
               | apply createOrUpdateReward_keeps
               | keeps_step ].
Qed.

Lemma shouldEarnReward_keeps (address rewardType : string) :
  keeps env I (RewardService.shouldEarnReward address rewardType).
Proof.
  unfold RewardService.shouldEarnReward. cbv zeta.
  repeat first [ apply read_keeps; reflexivity | keeps_step ].
Qed.

(** the handlers other than the one of the moves write the queue with
    [addToQueue] only *)
Section Handlers.
Hypothesis addToQueue_keeps :
  forall i t address data gameId playerId,
    keeps env I (Database.addToQueue i t address data gameId playerId).

Lemma enqueue_reward_keeps (playerId address suffix : string)
    (reward : RewardService.RewardConfig) :
  keeps env I (SocketServer.enqueue_reward playerId address suffix reward).
Proof.
  unfold SocketServer.enqueue_reward, RewardService.isRewardInQueue,
    SocketServer.error_only.
  cbv zeta.
  repeat first [ apply read_keeps; reflexivity | apply addToQueue_keeps | keeps_step ].
Qed.

Lemma handle_keeps (request : SocketServer.Request) :
  (forall data, keeps env I (SocketServer.on_make_move data)) ->
  keeps env I (SocketServer.handle request).
Proof.
  intros Hmove.
  destruct request as [data|data|data|data|data suffix]; simpl.
  - unfold SocketServer.on_create_game, SocketServer.queued, SocketServer.report.
    repeat first [ apply addToQueue_keeps | keeps_step ].
  - apply Hmove.
  - unfold SocketServer.on_end_game, SocketServer.queued, SocketServer.report.
    repeat first [ apply addToQueue_keeps | keeps_step ].
  - unfold SocketServer.on_mint_nft, SocketServer.queued, SocketServer.report.
    repeat first [ apply addToQueue_keeps | keeps_step ].
  - unfold SocketServer.on_nftMint, SocketServer.error_only.
    cbv zeta.
    repeat first [ apply read_keeps; reflexivity
                 | apply shouldEarnReward_keeps
                 | apply enqueue_reward_keeps
                 | keeps_step ].
Qed.

End Handlers.

Lemma getTransactionBlock_keeps (digest : string) :
  keeps env I (SuiClient.getTransactionBlock digest).
Proof. unfold SuiClient.getTransactionBlock. repeat keeps_step. Qed.

Lemma queued_keeps (i status : string) : keeps env I (SocketServer.queued i status).
Proof. unfold SocketServer.queued. keeps_step. Qed.

Lemma report_keeps (i error : string) : keeps env I (SocketServer.report i error).
Proof. unfold SocketServer.report. keeps_step. Qed.

Lemma error_only_keeps (error : string) : keeps env I (SocketServer.error_only error).
Proof. unfold SocketServer.error_only. keeps_step. Qed.

Lemma isRewardInQueue_keeps (playerId address badge : string) :
  keeps env I (RewardService.isRewardInQueue playerId address badge).
Proof.
  unfold RewardService.isRewardInQueue.
  repeat first [ apply read_keeps; reflexivity | keeps_step ].
Qed.

(** the tasks that do not write the queue *)
Lemma task_poll_from (digest objectType : string) (todo : nat) :
  forall i,
    task_keeps env I (Tasks.poll_from todo i digest objectType) (fun _ => True).
Proof.
  induction todo as [|todo IH]; intros i; cbn [Tasks.poll_from]; [exact Logic.I|].
  apply task_keeps_then.
  - unfold Tasks.poll_once.
    repeat first [ apply getTransactionBlock_keeps | apply sleep_keeps | task_step ].
  - intros [o|]; [exact Logic.I|apply IH].
Qed.

Lemma task_createOrUpdateReward (p : string) (t : option string) (o : string) :
  task_keeps env I (Tasks.createOrUpdateReward p t o) (fun _ => True).
Proof.
  unfold Tasks.createOrUpdateReward.
  repeat first [ apply read_keeps; reflexivity
               | apply keeps_query; intros w H; exact H
               | task_step ].
Qed.

Lemma task_shouldEarnReward (address rewardType : string) :
  task_keeps env I (Tasks.shouldEarnReward address rewardType) (fun _ => True).
Proof.
  unfold Tasks.shouldEarnReward. cbv zeta.
  repeat first [ apply read_keeps; reflexivity | task_step ].
Qed.

Lemma mark_keeps (playerAddress : string) :
  keeps env I (QueueService.mark playerAddress).
Proof. unfold QueueService.mark. repeat keeps_step. Qed.

Lemma unmark_keeps (playerAddress : string) :
  keeps env I (QueueService.unmark playerAddress).
Proof. unfold QueueService.unmark. repeat keeps_step. Qed.

Lemma mark_all_keeps (allPlayers : list string) :
  keeps env I (QueueService.mark_all allPlayers).
Proof.
  induction allPlayers as [|p l IH]; simpl; [keeps_step|].
  keeps_step; [apply mark_keeps|].
  keeps_step; [exact IH|keeps_step].
Qed.

Lemma scan_keeps : keeps env I QueueService.getAllPlayersWithPendingTransactions.
Proof. apply read_keeps. reflexivity. Qed.

(** [processQueue] itself does not write the queue *)
Lemma processQueue_keeps : keeps env I QueueService.processQueue.
Proof.
  unfold QueueService.processQueue.
  keeps_step; [apply scan_keeps|apply mark_all_keeps].
Qed.

End AnyInvariant.

End QueueInvariantFacts.

(** ** Rows that no worker claims *)

Module KeptRowFacts.
Import MFacts DatabaseFacts IntakeFacts TaskFacts QueueInvariantFacts.

Section Kept.
Context (env : Env) (k : string) (r : QueueRow).
Hypothesis no_actor : player_sui_address r = None.
Hypothesis is_pending : status r = pending.

Let J (q : gmap string QueueRow) : Prop := q !! k = Some r.
Let I : World -> Prop := on_queue J.

Lemma update_keeps (x : string) (s : TransactionStatus) (e : option string) :
  x <> k -> keeps env I (Database.updateTransactionStatus x s e).
Proof.
  intros Hx. apply write_keeps. intros w H. unfold J in *. cbn.
  rewrite lookup_alter_ne by exact Hx. exact H.
Qed.

Lemma incrementRetries_keeps (x : string) :
  x <> k -> keeps env I (Database.incrementRetries x).
Proof.
  intros Hx. apply write_keeps. intros w H. unfold J in *. cbn.
  rewrite lookup_alter_ne by exact Hx. exact H.
Qed.

Lemma deleteTransaction_keeps (x : string) :
  x <> k -> keeps env I (Database.deleteTransaction x).
Proof.
  intros Hx. unfold Database.deleteTransaction. keeps_step; [|keeps_step].
  apply write_keeps. intros w H. unfold J in *. cbn.
  rewrite lookup_delete_ne by exact Hx. exact H.
Qed.

Lemma unblock_keeps (x o : string) :
  x <> k -> keeps env I (Database.updateWaitingTransactionWithObjectId x o).
Proof.
  intros Hx. apply write_keeps. intros w H. unfold J in *. cbn.
  rewrite lookup_alter_ne by exact Hx. exact H.
Qed.

Lemma cleanup_keeps : keeps env I Database.cleanupOldTransactions.
Proof.
  unfold Database.cleanupOldTransactions. keeps_step; [|keeps_step].
  apply write_keeps. intros w H. unfold J in *. cbn.
  apply map_lookup_filter_Some. split; [exact H|].
  cbn. unfold Database.is_old. rewrite is_pending. reflexivity.
Qed.

Lemma addToQueue_keeps (i : string) (t : TransactionType) (address : option string)
    (data : gmap string JS.json) (gameId playerId : option string) :
  keeps env I (Database.addToQueue i t address data gameId playerId).
Proof.
  intros w H.
  destruct (addToQueue_cases env w i t address data gameId playerId)
    as (res & w' & Hrun & Hcases).
  rewrite Hrun. cbn [fst snd]. unfold I, J, on_queue in *.
  destruct Hcases as [->|(Hfree & _ & -> & _)]; [exact H|].
  cbn. rewrite lookup_insert_ne; [exact H|]. congruence.
Qed.

(** the row is not among the rows of a [SELECT] whose condition it fails *)
Lemma selected_is_not_kept (cond : string -> QueueRow -> bool) (w : World)
    (x : TransactionQueueItem) :
  I w ->
  cond k r = false ->
  In x (Database.select_queue cond (transaction_queue (db w))) ->
  id x <> k.
Proof.
  intros Hw Hk Hin Heq. apply in_select_queue in Hin as [Hq Hc].
  unfold I, J, on_queue in Hw. rewrite Heq, Hw in Hq. injection Hq as Hq.
  rewrite Heq, <- Hq, Hk in Hc. discriminate.
Qed.

(** [getNextPendingTransaction] does not return the row *)
Lemma getNext_not_kept (actor : option string) :
  hoare env I (Database.getNextPendingTransaction actor)
    (fun res w => I w /\ forall item, res = Ok (Some item) -> id item <> k).
Proof.
  intros w Hw. unfold Database.getNextPendingTransaction, bind, pool_query.
  destruct (next_fault w); cbn [fst snd]; [split; [exact Hw|discriminate]|].
  destruct (Database.limit_1 _) as [|item rest] eqn:Hsel; cbn [fst snd ret].
  - split; [exact Hw|discriminate].
  - split; [exact Hw|]. intros item' [= <-].
    assert (In item (Database.limit_1
                       (Database.order_by_created_at
                          (Database.select_queue
                             (Database.next_pending_cond actor (locked w))
                             (transaction_queue (db w)))))) as Hin
      by (rewrite Hsel; left; reflexivity).
    apply in_limit_1 in Hin.
    apply (proj1 (in_order_by_created_at _ _)) in Hin.
    apply (selected_is_not_kept _ w item Hw) in Hin; [exact Hin|].
    unfold Database.next_pending_cond. rewrite no_actor.
    unfold JS.sql_eq. rewrite andb_false_r. reflexivity.
Qed.

(** nor does the list of the moves that wait for a game hold it *)
Lemma getWaiting_not_kept (g : string) :
  hoare env I (Database.getWaitingTransactionsForGame g)
    (fun res w => I w /\ forall l x, res = Ok l -> In x l -> id x <> k).
Proof.
  intros w Hw. unfold Database.getWaitingTransactionsForGame, pool_query.
  destruct (next_fault w); cbn [fst snd]; [split; [exact Hw|discriminate]|].
  split; [exact Hw|]. intros l x [= <-] Hin.
  apply (proj1 (in_order_by_created_at _ _)) in Hin.
  apply (selected_is_not_kept _ w x Hw) in Hin; [exact Hin|].
  unfold Database.waiting_cond. rewrite is_pending.
  apply andb_false_r.
Qed.

Lemma processWaitingMovesForGame_keeps (g o : string) :
  keeps env I (TransactionProcessor.processWaitingMovesForGame g o).
Proof.
  unfold TransactionProcessor.processWaitingMovesForGame.
  keeps_step; [|keeps_step].
  eapply hoare_bind; [apply getWaiting_not_kept| |intros msg w [H _]; exact H].
  intros l w [Hw Hl]. revert w Hw.
  change (keeps env I
            match l with
            | [] => ret tt
            | _ :: _ =>
                for_each l (fun transaction =>
                  try_catch
                    (Database.updateWaitingTransactionWithObjectId (id transaction) o)
                    (fun _ => ret tt))
            end).
  destruct l as [|x l']; [keeps_step|].
  apply keeps_for_each. intros y Hy.
  keeps_step; [|keeps_step].
  apply unblock_keeps. apply (Hl _ y eq_refl Hy).
Qed.

Lemma catch_keeps (playerAddress : string) (transaction : TransactionQueueItem)
    (msg : string) :
  id transaction <> k ->
  keeps env I (QueueService.processPlayerQueue_catch playerAddress transaction msg).
Proof.
  intros Hx. unfold QueueService.processPlayerQueue_catch. cbv zeta.
  repeat first [ apply incrementRetries_keeps; exact Hx
               | apply update_keeps; exact Hx
               | apply deleteTransaction_keeps; exact Hx
               | apply sleep_keeps
               | keeps_step ].
Qed.

Lemma try_keeps (playerAddress : string) (transaction : TransactionQueueItem) :
  id transaction <> k ->
  keeps env I (QueueService.processPlayerQueue_try playerAddress transaction).
Proof.
  intros Hx. unfold QueueService.processPlayerQueue_try.
  repeat first [ apply update_keeps; exact Hx
               | apply deleteTransaction_keeps; exact Hx
               | apply processTransaction_keeps;
                 exact processWaitingMovesForGame_keeps
               | keeps_step ].
Qed.

(** the loop of a worker, for any player and any number of iterations *)
Lemma processPlayerQueue_keeps (playerAddress : string) (fuel : nat) :
  keeps env I (QueueService.processPlayerQueue fuel playerAddress).
Proof.
  induction fuel as [|fuel IH]; simpl; [keeps_step|].
  eapply hoare_bind; [apply getNext_not_kept| |intros msg w [H _]; exact H].
  intros [item|] w [Hw Hitem]; [|exact Hw].
  revert w Hw.
  change (keeps env I
            (try_catch (QueueService.processPlayerQueue_try playerAddress item)
                       (QueueService.processPlayerQueue_catch playerAddress item) ;;;
             QueueService.processPlayerQueue fuel playerAddress)).
  pose proof (Hitem item eq_refl) as Hx.
  keeps_step; [|exact IH].
  keeps_step; [apply try_keeps, Hx|apply catch_keeps, Hx].
Qed.

(** a non-MintBadge that [addToQueue] accepts has a new key *)
Lemma addToQueue_accepts_new (i : string) (t : TransactionType)
    (address : option string) (data : gmap string JS.json)
    (gameId playerId : option string) :
  Database.is_mint_nft t = false ->
  hoare env I (Database.addToQueue i t address data gameId playerId)
    (fun res w => I w /\ (res = Ok tt -> i <> k)).
Proof.
  intros Ht w Hw. split; [apply (addToQueue_keeps i t address data gameId playerId w Hw)|].
  unfold Database.addToQueue. cbv zeta. rewrite Ht. cbn [andb].
  unfold pool_query. destruct (next_fault w); cbn [fst snd]; [discriminate|].
  unfold Database.insert_queue.
  destruct (transaction_queue (db w) !! i) eqn:Hq; cbn [fst]; [discriminate|].
  intros _ ->. unfold I, J, on_queue in Hw. congruence.
Qed.

Lemma on_make_move_keeps (data : Validation.MakeMoveRequest) :
  keeps env I (SocketServer.on_make_move data).
Proof.
  unfold SocketServer.on_make_move, SocketServer.queued, SocketServer.report.
  cbv zeta.
  keeps_step; [|keeps_step].
  keeps_step; [keeps_step|].
  eapply hoare_bind;
    [apply addToQueue_accepts_new; reflexivity| |intros msg w [H _]; exact H].
  intros [] w [Hw Hnew]. revert w Hw.
  match goal with
  | |- forall w : World, I w -> I (snd (?m env w)) => change (keeps env I m)
  end.
  pose proof (Hnew eq_refl) as Hx.
  repeat first [ apply update_keeps; exact Hx | keeps_step ].
Qed.

(** *** The tasks of the server, action by action *)

(** the [INSERT] of [addToQueue] is made under a key that is free *)
Lemma insert_new (i : string) (row : World -> QueueRow) :
  task_keeps env I
    (Atomic (pool_query (fun w => Database.insert_queue i (row w) w)))
    (fun _ => i <> k).
Proof.
  apply task_keeps_atomic_post. intros w Hw.
  unfold pool_query. destruct (next_fault w); cbn [fst snd].
  { split; [exact Hw|discriminate]. }
  unfold Database.insert_queue, I, J, on_queue in *.
  destruct (transaction_queue (db w) !! i) eqn:Hq; cbn [fst snd].
  - split; [exact Hw|discriminate].
  - assert (i <> k) as Hne by congruence.
    split; [|auto]. cbn. rewrite lookup_insert_ne by exact Hne. exact Hw.
Qed.

Lemma task_addToQueue (i : string) (t : TransactionType) (address : option string)
    (data : gmap string JS.json) (gameId playerId : option string) :
  task_keeps env I (Tasks.addToQueue i t address data gameId playerId)
    (fun _ => True).
Proof.
  assert (forall row,
            task_keeps env I
              (Atomic (pool_query (fun w => Database.insert_queue i (row w) w)))
              (fun _ => True)) as Hinsert.
  { intros row. eapply task_keeps_weaken; [apply insert_new|auto]. }
  unfold Tasks.addToQueue. cbv zeta.
  repeat first [ apply Hinsert | apply read_keeps; reflexivity | task_step ].
Qed.

Lemma task_addToQueue_new (i : string) (t : TransactionType)
    (address : option string) (data : gmap string JS.json)
    (gameId playerId : option string) :
  Database.is_mint_nft t = false ->
  task_keeps env I (Tasks.addToQueue i t address data gameId playerId)
    (fun _ => i <> k).
Proof.
  intros Ht. unfold Tasks.addToQueue. cbv zeta. rewrite Ht. cbn [andb].
  apply insert_new.
Qed.

Lemma task_processWaitingMovesForGame (g o : string) :
  task_keeps env I (Tasks.processWaitingMovesForGame g o) (fun _ => True).
Proof.
  unfold Tasks.processWaitingMovesForGame.
  apply task_keeps_try; [|intros; exact Logic.I].
  apply (task_keeps_bind env I _ _ (fun l => forall x, In x l -> id x <> k)).
  - apply task_keeps_atomic_post. intros w Hw.
    destruct (getWaiting_not_kept g w Hw) as [H1 H2].
    split; [exact H1|]. intros l Hl x. exact (H2 l x Hl).
  - intros l Hl. destruct l as [|x l']; [exact Logic.I|].
    apply task_keeps_for_each. intros y Hy.
    apply task_keeps_try; [|intros; exact Logic.I].
    apply task_keeps_atomic, unblock_keeps, Hl, Hy.
Qed.

Lemma task_reconcile_and_notify (transaction : TransactionQueueItem)
    (digest : string) :
  task_keeps env I (Tasks.reconcile_and_notify transaction digest) (fun _ => True).
Proof.
  unfold Tasks.reconcile_and_notify, Tasks.waitForTransactionAndExtractObjectId.
  cbv zeta.
  repeat first [ exact Logic.I
               | apply task_poll_from | apply updateGameObjectId_keeps
               | apply task_processWaitingMovesForGame
               | apply task_createOrUpdateReward
               | apply keeps_modify; intros ? ?; assumption
               | task_step ].
Qed.

Lemma task_processTransaction (transaction : TransactionQueueItem) :
  task_keeps env I (Tasks.processTransaction transaction) (fun _ => True).
Proof.
  unfold Tasks.processTransaction.
  repeat first [ exact Logic.I | apply build_keeps | apply execute_keeps
               | apply task_reconcile_and_notify | task_step ].
Qed.

Lemma task_catch (playerAddress : string) (transaction : TransactionQueueItem)
    (msg : string) :
  id transaction <> k ->
  task_keeps env I (Tasks.processPlayerQueue_catch playerAddress transaction msg)
    (fun _ => True).
Proof.
  intros Hx. unfold Tasks.processPlayerQueue_catch. cbv zeta.
  repeat first [ apply incrementRetries_keeps; exact Hx
               | apply update_keeps; exact Hx
               | apply deleteTransaction_keeps; exact Hx
               | apply sleep_keeps
               | apply keeps_ask
               | apply keeps_modify; intros ? ?; assumption
               | task_step ].
Qed.

Lemma task_try (playerAddress : string) (transaction : TransactionQueueItem) :
  id transaction <> k ->
  task_keeps env I (Tasks.processPlayerQueue_try playerAddress transaction)
    (fun _ => True).
Proof.
  intros Hx. unfold Tasks.processPlayerQueue_try.
  repeat first [ exact Logic.I
               | apply update_keeps; exact Hx
               | apply deleteTransaction_keeps; exact Hx
               | apply task_processTransaction
               | apply keeps_modify; intros ? ?; assumption
               | task_step ].
Qed.

Lemma task_processPlayerQueue (playerAddress : string) (fuel : nat) :
  task_keeps env I (Tasks.processPlayerQueue fuel playerAddress) (fun _ => True).
Proof.
  induction fuel as [|fuel IH]; cbn [Tasks.processPlayerQueue]; [exact Logic.I|].
  apply (task_keeps_bind env I _ _
           (fun res => forall item, res = Some item -> id item <> k)).
  - intros w Hw.
    destruct (getNext_not_kept (JS.or_null (Some playerAddress)) w Hw) as [H1 H2].
    split; [exact H1|]. intros res Hres item ->. exact (H2 item Hres).
  - intros [item|] Hitem; [|exact Logic.I].
    pose proof (Hitem item eq_refl) as Hx.
    apply task_keeps_then; [|intros _; exact IH].
    apply task_keeps_try; [apply task_try, Hx|intros msg; apply task_catch, Hx].
Qed.

Lemma task_worker (fuel : nat) (playerAddress : string) :
  task_keeps env I (Tasks.worker fuel playerAddress) (fun _ => True).
Proof.
  unfold Tasks.worker.
  repeat first [ exact Logic.I | apply task_processPlayerQueue
               | apply unmark_keeps | task_step ].
Qed.

Lemma task_processQueue (fuel : nat) :
  task_keeps env I (Tasks.processQueue fuel) (fun _ => True).
Proof.
  unfold Tasks.processQueue.
  apply task_keeps_then; [apply task_keeps_atomic, scan_keeps|intros allPlayers].
  apply task_keeps_then; [apply task_keeps_atomic, mark_all_keeps|intros started].
  apply task_keeps_start_all. intros p. apply task_worker.
Qed.

Lemma task_cleanup : task_keeps env I Tasks.cleanup (fun _ => True).
Proof. apply task_keeps_atomic, cleanup_keeps. Qed.

Lemma task_tick (fuel : nat) : task_keeps env I (Tasks.tick fuel) (fun _ => True).
Proof.
  apply task_keeps_try; [apply task_processQueue|intros _; exact Logic.I].
Qed.

Lemma task_hourly : task_keeps env I Tasks.hourly (fun _ => True).
Proof. apply task_keeps_try; [apply task_cleanup|intros _; exact Logic.I]. Qed.

Lemma task_enqueue_reward (playerId address suffix : string)
    (reward : RewardService.RewardConfig) :
  task_keeps env I (Tasks.enqueue_reward playerId address suffix reward)
    (fun _ => True).
Proof.
  unfold Tasks.enqueue_reward. cbv zeta.
  repeat first [ exact Logic.I
               | apply read_keeps; reflexivity | apply isRewardInQueue_keeps
               | apply error_only_keeps | apply task_addToQueue
               | apply keeps_modify; intros ? ?; assumption
               | task_step ].
Qed.

Lemma task_on_make_move (data : Validation.MakeMoveRequest) :
  task_keeps env I (Tasks.on_make_move data) (fun _ => True).
Proof.
  unfold Tasks.on_make_move. cbv zeta.
  apply task_keeps_try; [|intros; apply task_keeps_atomic, report_keeps].
  apply task_keeps_then; [apply task_keeps_atomic, keeps_lift|intros validated].
  eapply task_keeps_bind; [apply task_addToQueue_new; reflexivity|].
  intros [] Hx. cbv beta in Hx.
  repeat first [ exact Logic.I | apply update_keeps; exact Hx
               | apply queued_keeps | task_step ].
Qed.

Lemma task_handle (request : SocketServer.Request) :
  task_keeps env I (Tasks.handle request) (fun _ => True).
Proof.
  destruct request as [data|data|data|data|data suffix]; cbn [Tasks.handle].
  - unfold Tasks.on_create_game.
    repeat first [ exact Logic.I
                 | apply task_addToQueue | apply queued_keeps | apply report_keeps
                 | apply keeps_lift | task_step ].
  - apply task_on_make_move.
  - unfold Tasks.on_end_game.
    repeat first [ exact Logic.I
                 | apply task_addToQueue | apply queued_keeps | apply report_keeps
                 | apply keeps_lift | task_step ].
  - unfold Tasks.on_mint_nft.
    repeat first [ exact Logic.I
                 | apply task_addToQueue | apply queued_keeps | apply report_keeps
                 | apply keeps_lift | task_step ].
  - unfold Tasks.on_nftMint. cbv zeta.
    repeat first [ exact Logic.I
                 | apply read_keeps; reflexivity | apply error_only_keeps
                 | apply task_shouldEarnReward | apply task_enqueue_reward
                 | task_step ].
Qed.

(** the row is kept in every state that the server reaches, however the
    actions of its tasks interleave *)
Lemma kept_when_reachable (s s' : Server) :
  reachable env s s' -> I (world s) -> tasks_keep env I s -> I (world s').
Proof.
  intros Hreach Hw Htasks.
  apply (reachable_keeps env I s s' task_handle task_tick task_hourly);
    try assumption.
  intros w d a p t f l Hq H. unfold I, J, on_queue in *. cbn. rewrite Hq. exact H.
Qed.

End Kept.

(** C10. A row of the queue whose player address is null and that is
    pending stays as it is in every state that the server reaches, however
    the actions of its handlers, ticks, workers and clean-ups interleave:
    no action changes or deletes it. The scan for active players does not
    list it, and [getNextPendingTransaction] returns it for no parameter,
    the null one included. *)
Theorem C10_null_actor_row_is_never_processed (env : Env) (w : World)
    (s' : Server) (k : string) (r : QueueRow) :
  transaction_queue (db w) !! k = Some r ->
  player_sui_address r = None ->
  status r = pending ->
  reachable env (idle w) s' ->
  transaction_queue (db (world s')) !! k = Some r
  /\ (forall actor item,
        fst (Database.getNextPendingTransaction actor env (world s')) = Ok (Some item) ->
        id item <> k)
  /\ (forall item,
        fst (Database.getNextPendingTransaction None env (world s')) <> Ok (Some item))
  /\ (forall playerAddress,
        In playerAddress
           (match fst (QueueService.getAllPlayersWithPendingTransactions env
                         (world s')) with
            | Ok players => players
            | Throw _ => []
            end) ->
        exists i row,
          transaction_queue (db (world s')) !! i = Some row
          /\ i <> k
          /\ status row = pending
          /\ exists a, player_sui_address row = Some a).
Proof.
  intros Hq Hactor Hstatus Hreach.
  assert (transaction_queue (db (world s')) !! k = Some r) as Hq'.
  { apply (kept_when_reachable env k r Hactor Hstatus (idle w) s' Hreach Hq).
    constructor. }
  set (w' := world s') in *.
  split; [exact Hq'|]. split; [|split].
  - intros actor item Hres.
    exact (proj2 (getNext_not_kept env k r Hactor actor w' Hq') item Hres).
  - intros item Hres.
    unfold Database.getNextPendingTransaction, bind, pool_query in Hres.
    destruct (next_fault w'); cbn [fst snd] in Hres; [discriminate|].
    destruct (Database.limit_1 _) as [|x rest] eqn:Hsel; [discriminate|].
    assert (In x (Database.limit_1
                    (Database.order_by_created_at
                       (Database.select_queue
                          (Database.next_pending_cond None (locked w'))
                          (transaction_queue (db w')))))) as Hin
      by (rewrite Hsel; left; reflexivity).
    apply in_limit_1 in Hin.
    apply (proj1 (in_order_by_created_at _ _)) in Hin.
    apply in_select_queue in Hin as [_ Hc].
    unfold Database.next_pending_cond, JS.sql_eq in Hc.
    destruct (player_sui_address (columns x)); rewrite andb_false_r in Hc; discriminate.
  - intros playerAddress Hin.
    unfold QueueService.getAllPlayersWithPendingTransactions, pool_query in Hin.
    destruct (next_fault w'); cbn [fst snd] in Hin; [destruct Hin|].
    apply scanned_player_has_row in Hin as (x & Hx & _).
    apply in_select_queue in Hx as [Hxq Hc].
    unfold QueueService.scan_cond in Hc. apply andb_true_iff in Hc as [Hs Ha].
    apply status_eqb_true in Hs.
    exists (id x), (columns x). split; [exact Hxq|]. split; [|split; [exact Hs|]].
    + intros Heq. rewrite Heq, Hq' in Hxq. injection Hxq as Hr.
      rewrite <- Hr, Hactor in Ha. discriminate.
    + destruct (player_sui_address (columns x)) as [a|]; [eauto|discriminate].
Qed.

(** C10 on a queue with an intent of no actor, after a tick of the queue
    processor has started the worker of the actor [0xA] and the worker
    has made an attempt on the intent of that actor. *)
Lemma C10_witness :
  transaction_queue
    (db (world (run_schedule Sample.env [0; 0; 0; 1; 1; 1; 1; 1; 1; 1; 1]%nat
                  (mkServer (Sample.world_of Sample.mixed_db)
                            [Tasks.tick 5])))) !! "sys"
  = Some Sample.system_row.
Proof.
  apply (C10_null_actor_row_is_never_processed Sample.env
           (Sample.world_of Sample.mixed_db)
           (run_schedule Sample.env [0; 0; 0; 1; 1; 1; 1; 1; 1; 1; 1]%nat
              (mkServer (Sample.world_of Sample.mixed_db) [Tasks.tick 5]))
           "sys" Sample.system_row).
  - vm_compute. reflexivity.
  - reflexivity.
  - reflexivity.
  - eapply TaskFacts.reachable_trans; [|apply TaskFacts.reachable_schedule].
    eapply reach_step; [apply reach_here|].
    exact (step_tick Sample.env 5 (idle (Sample.world_of Sample.mixed_db))).
Defined.

End KeptRowFacts.


(** ** MintBadge rows and the duplicate check of [addToQueue] *)

Module MintQueueFacts.
Import MFacts DatabaseFacts IntakeFacts QueueInvariantFacts.

(** a row changed in place: no new key, no MintBadge made to wait *)
Lemma mint_queue_ok_alter (q : gmap string QueueRow) (x : string)
    (f : QueueRow -> QueueRow) :
  mint_queue_ok q ->
  (forall r k, q !! x = Some r -> row_checked_key (f r) = Some k ->
               row_checked_key r = Some k) ->
  (forall r, q !! x = Some r -> status (f r) = waiting_for_object_id ->
             Database.is_mint_nft (transaction_type (f r)) = false) ->
  mint_queue_ok (alter f x q).
Proof.
  intros [HI Hw] Hkey Hwait. split.
  - intros i j r1 r2 k Hi Hj Hk1 Hk2.
    assert (forall a ra, alter f x q !! a = Some ra -> row_checked_key ra = Some k ->
                         exists ra', q !! a = Some ra' /\ row_checked_key ra' = Some k)
      as Hold.
    { intros a ra Ha Hk. destruct (decide (a = x)) as [->|Hne].
      - rewrite lookup_alter_eq in Ha.
        destruct (q !! x) as [r0|] eqn:Hq; [|discriminate].
        injection Ha as <-. eauto.
      - rewrite lookup_alter_ne in Ha by congruence. eauto. }
    destruct (Hold i r1 Hi Hk1) as (r1' & Hi' & Hk1').
    destruct (Hold j r2 Hj Hk2) as (r2' & Hj' & Hk2').
    exact (HI i j r1' r2' k Hi' Hj' Hk1' Hk2').
  - intros i r Hi Hs. destruct (decide (i = x)) as [->|Hne].
    + rewrite lookup_alter_eq in Hi.
      destruct (q !! x) as [r0|] eqn:Hq; [|discriminate].
      injection Hi as <-. eauto.
    + rewrite lookup_alter_ne in Hi by congruence. eauto.
Qed.

(** rows taken away *)
Lemma mint_queue_ok_subset (q q' : gmap string QueueRow) :
  mint_queue_ok q ->
  (forall i r, q' !! i = Some r -> q !! i = Some r) ->
  mint_queue_ok q'.
Proof.
  intros [HI Hw] Hsub. split.
  - intros i j r1 r2 k Hi Hj. apply HI; auto.
  - intros i r Hi. apply (Hw i r). auto.
Qed.

Lemma key_of_not_mint (r : QueueRow) :
  Database.is_mint_nft (transaction_type r) = false -> row_checked_key r = None.
Proof. unfold row_checked_key. intros ->. reflexivity. Qed.

Lemma key_of_not_live (r : QueueRow) :
  Database.live_status (status r) = false -> row_checked_key r = None.
Proof. unfold row_checked_key. intros ->. rewrite andb_false_r. reflexivity. Qed.

(** the key of a row reads its kind, its status, its actor, its player and
    its payload *)
Lemma key_same (r r' : QueueRow) :
  transaction_type r' = transaction_type r ->
  Database.live_status (status r') = Database.live_status (status r) ->
  player_sui_address r' = player_sui_address r ->
  player_id r' = player_id r ->
  transaction_data r' = transaction_data r ->
  row_checked_key r' = row_checked_key r.
Proof.
  unfold row_checked_key. intros -> -> -> -> ->. reflexivity.
Qed.

Lemma update_status_row_fields (s : TransactionStatus) (e : option string) (now : Z)
    (r : QueueRow) :
  transaction_type (Database.update_status_row s e now r) = transaction_type r
  /\ status (Database.update_status_row s e now r) = s
  /\ player_sui_address (Database.update_status_row s e now r) = player_sui_address r
  /\ player_id (Database.update_status_row s e now r) = player_id r
  /\ transaction_data (Database.update_status_row s e now r) = transaction_data r.
Proof.
  unfold Database.update_status_row.
  destruct (JS.truthy_opt e); destruct (_ || _); repeat split; reflexivity.
Qed.

Section Uninterrupted.
Context (env : Env).

Let Inv : World -> Prop := on_queue mint_queue_ok.

(** the invariant while a worker holds the row [x] *)
Let held (x : string) (q : gmap string QueueRow) : Prop :=
  mint_queue_ok q /\ live_if_mint x q.

(** a query that writes the queue, from one invariant to another *)
Lemma write_changes {A} (J J' : gmap string QueueRow -> Prop)
    (q : World -> outcome A * Database) :
  (forall q0, J q0 -> J' q0) ->
  (forall w, J (transaction_queue (db w)) -> J' (transaction_queue (snd (q w)))) ->
  hoare env (on_queue J) (pool_query q) (fun _ => on_queue J').
Proof.
  intros Himp Hq w H. unfold pool_query, on_queue in *.
  destruct (next_fault w); cbn; auto.
Qed.

Lemma held_update_live (x : string) (s : TransactionStatus) (e : option string) :
  Database.live_status s = true ->
  keeps env (on_queue (held x)) (Database.updateTransactionStatus x s e).
Proof.
  intros Hs. apply write_keeps. intros w [Hok Hlive]. cbn.
  set (f := Database.update_status_row s e (clock w)).
  assert (forall r, transaction_type (f r) = transaction_type r
                    /\ status (f r) = s
                    /\ player_sui_address (f r) = player_sui_address r
                    /\ player_id (f r) = player_id r
                    /\ transaction_data (f r) = transaction_data r) as Hf
    by (intros r; apply update_status_row_fields).
  split.
  - apply mint_queue_ok_alter; [exact Hok| |].
    + intros r k Hq Hk. rewrite <- Hk. symmetry.
      destruct (Hf r) as (Ht & Hst & Ha & Hp & Hd).
      apply key_same; try assumption.
      rewrite Hst, Hs. symmetry. apply (Hlive r Hq).
      destruct (Database.is_mint_nft (transaction_type r)) eqn:Hm; [reflexivity|].
      rewrite key_of_not_mint in Hk; [discriminate|]. rewrite Ht. exact Hm.
    + intros r _ Hw. destruct (Hf r) as (_ & Hst & _).
      rewrite Hst in Hw. subst s. discriminate.
  - intros r' Hq' _. rewrite lookup_alter_eq in Hq'.
    destruct (transaction_queue (db w) !! x) as [r|]; [|discriminate].
    injection Hq' as <-. destruct (Hf r) as (_ & -> & _). exact Hs.
Qed.

Lemma held_update_failed (x : string) (e : option string) :
  hoare env (on_queue (held x)) (Database.updateTransactionStatus x failed e)
    (fun _ => Inv).
Proof.
  apply write_changes; [intros q0 [H _]; exact H|].
  intros w [Hok _]. cbn.
  apply mint_queue_ok_alter; [exact Hok| |].
  - intros r k _ Hk. rewrite key_of_not_live in Hk; [discriminate|].
    destruct (update_status_row_fields failed e (clock w) r) as (_ & -> & _).
    reflexivity.
  - intros r _ Hw.
    destruct (update_status_row_fields failed e (clock w) r) as (_ & Hst & _).
    rewrite Hst in Hw. discriminate.
Qed.

Lemma held_incrementRetries (x : string) :
  keeps env (on_queue (held x)) (Database.incrementRetries x).
Proof.
  apply write_keeps. intros w [Hok Hlive]. cbn. split.
  - apply mint_queue_ok_alter; [exact Hok| |].
    + intros r k _ Hk. exact Hk.
    + intros r Hq Hw. apply (proj2 Hok x r Hq Hw).
  - intros r' Hq' Hm. rewrite lookup_alter_eq in Hq'.
    destruct (transaction_queue (db w) !! x) as [r|] eqn:Hq; [|discriminate].
    injection Hq' as <-. apply (Hlive r Hq Hm).
Qed.

Lemma subset_delete (q : gmap string QueueRow) (x i : string) (r : QueueRow) :
  delete x q !! i = Some r -> q !! i = Some r.
Proof. intros H. apply lookup_delete_Some in H as [_ H]. exact H. Qed.

Lemma held_delete (x y : string) :
  keeps env (on_queue (held x)) (Database.deleteTransaction y).
Proof.
  unfold Database.deleteTransaction. keeps_step; [|keeps_step].
  apply write_keeps. intros w [Hok Hlive]. cbn. split.
  - apply (mint_queue_ok_subset _ _ Hok). apply subset_delete.
  - intros r Hq. apply Hlive. apply (subset_delete _ _ _ _ Hq).
Qed.

Lemma Inv_delete (y : string) : keeps env Inv (Database.deleteTransaction y).
Proof.
  unfold Database.deleteTransaction. keeps_step; [|keeps_step].
  apply write_keeps. intros w Hok. cbn.
  apply (mint_queue_ok_subset _ _ Hok). apply subset_delete.
Qed.

Lemma Inv_cleanup : keeps env Inv Database.cleanupOldTransactions.
Proof.
  unfold Database.cleanupOldTransactions. keeps_step; [|keeps_step].
  apply write_keeps. intros w Hok. cbn.
  apply (mint_queue_ok_subset _ _ Hok).
  intros i r H. apply map_lookup_filter_Some in H as [H _]. exact H.
Qed.

(** the invariant while the moves of a game are let go: none of the rows
    of the list is a MintBadge *)
Let letting_go (x : string) (l : list TransactionQueueItem)
    (q : gmap string QueueRow) : Prop :=
  held x q /\ forall y, In y l -> not_mint_at (id y) q.

Lemma letting_go_unblock (x : string) (l : list TransactionQueueItem)
    (y : TransactionQueueItem) (o : string) :
  In y l ->
  keeps env (on_queue (letting_go x l))
    (Database.updateWaitingTransactionWithObjectId (id y) o).
Proof.
  intros Hy. apply write_keeps. intros w [[Hok Hlive] Hl]. cbn.
  set (f := fun r : QueueRow =>
              with_updated_at (clock w)
                (with_status pending
                   (with_transaction_data
                      (<["gameObjectId" := JS.JStr o]> (transaction_data r)) r))).
  assert (forall i r', alter f (id y) (transaction_queue (db w)) !! i = Some r' ->
            exists r, transaction_queue (db w) !! i = Some r
                      /\ transaction_type r' = transaction_type r
                      /\ (i <> id y -> r' = r)) as Hold.
  { intros i r' Hq'. destruct (decide (i = id y)) as [->|Hne].
    - rewrite lookup_alter_eq in Hq'.
      destruct (transaction_queue (db w) !! id y) as [r|]; [|discriminate].
      injection Hq' as <-. exists r. repeat split. congruence.
    - rewrite lookup_alter_ne in Hq' by congruence. eauto. }
  split; [split|].
  - apply mint_queue_ok_alter; [exact Hok| |].
    + intros r k Hq Hk. rewrite key_of_not_mint in Hk; [discriminate|].
      apply (Hl y Hy r Hq).
    + intros r Hq _. apply (Hl y Hy r Hq).
  - intros r' Hq' Hm. destruct (Hold x r' Hq') as (r & Hq & Ht & Heq).
    destruct (decide (x = id y)) as [Hxy|Hxy].
    + rewrite Ht in Hm. rewrite Hxy in Hq. rewrite (Hl y Hy r Hq) in Hm. discriminate.
    + rewrite (Heq Hxy). apply (Hlive r Hq). rewrite <- (Heq Hxy). exact Hm.
  - intros z Hz r' Hq'. destruct (Hold (id z) r' Hq') as (r & Hq & -> & _).
    apply (Hl z Hz r Hq).
Qed.

Lemma held_getWaiting (x g : string) :
  hoare env (on_queue (held x)) (Database.getWaitingTransactionsForGame g)
    (fun res w => on_queue (held x) w
                  /\ forall l, res = Ok l -> on_queue (letting_go x l) w).
Proof.
  intros w Hw. unfold Database.getWaitingTransactionsForGame, pool_query.
  destruct (next_fault w); cbn [fst snd]; [split; [exact Hw|discriminate]|].
  split; [exact Hw|].
  intros l [= <-]. split; [exact Hw|].
  intros y Hy r Hq. cbn in Hq.
  apply (proj1 (in_order_by_created_at _ _)) in Hy.
  apply in_select_queue in Hy as [Hyq Hc]. rewrite Hq in Hyq. injection Hyq as Hr.
  unfold Database.waiting_cond in Hc. apply andb_true_iff in Hc as [_ Hs].
  apply status_eqb_true in Hs. rewrite <- Hr in Hs.
  destruct Hw as [[_ Hnw] _]. apply (Hnw (id y) r Hq Hs).
Qed.

Lemma held_processWaitingMovesForGame (x g o : string) :
  keeps env (on_queue (held x)) (TransactionProcessor.processWaitingMovesForGame g o).
Proof.
  unfold TransactionProcessor.processWaitingMovesForGame.
  keeps_step; [|keeps_step].
  eapply hoare_bind; [apply held_getWaiting| |intros msg w [H _]; exact H].
  intros l w [_ Hl]. specialize (Hl l eq_refl).
  assert (keeps env (on_queue (letting_go x l))
            match l with
            | [] => ret tt
            | _ :: _ =>
                for_each l (fun transaction =>
                  try_catch
                    (Database.updateWaitingTransactionWithObjectId (id transaction) o)
                    (fun _ => ret tt))
            end) as Hloop.
  { destruct l as [|y l']; [keeps_step|].
    apply keeps_for_each. intros z Hz.
    keeps_step; [|keeps_step].
    apply letting_go_unblock, Hz. }
  apply (Hloop w Hl).
Qed.

Lemma held_try (x : string) (playerAddress : string)
    (transaction : TransactionQueueItem) :
  id transaction = x ->
  keeps env (on_queue (held x))
    (QueueService.processPlayerQueue_try playerAddress transaction).
Proof.
  intros <-. unfold QueueService.processPlayerQueue_try.
  repeat first [ apply held_update_live; reflexivity
               | apply held_delete
               | apply processTransaction_keeps;
                 apply held_processWaitingMovesForGame
               | keeps_step ].
Qed.

Lemma held_catch (x : string) (playerAddress : string)
    (transaction : TransactionQueueItem) (msg : string) :
  id transaction = x ->
  hoare env (on_queue (held x))
    (QueueService.processPlayerQueue_catch playerAddress transaction msg)
    (fun _ => Inv).
Proof.
  intros <-. unfold QueueService.processPlayerQueue_catch. cbv zeta.
  eapply hoare_bind;
    [apply held_incrementRetries| |intros msg' w [H _]; exact H].
  intros [].
  eapply hoare_bind; [apply keeps_ask| |intros msg' w [H _]; exact H].
  intros e. destruct (_ <=? _).
  - eapply hoare_bind; [apply held_update_failed| |intros msg' w H; exact H].
    intros [].
    change (keeps env Inv
              ((if negb (QueueService.isNftAlreadyExists
                           (transaction_type (columns transaction)) msg)
                   && negb (QueueService.isVersionMismatch_failed msg)
                then emit (room playerAddress) "transaction:result"
                       [("transactionId", JS.JStr (id transaction));
                        ("status", JS.JStr "error");
                        ("error", JS.JStr msg)]
                else ret tt) ;;;
               (if negb (Database.is_mint_nft (transaction_type (columns transaction)))
                then Database.deleteTransaction (id transaction)
                else ret tt))).
    repeat first [ apply Inv_delete | keeps_step ].
  - eapply hoare_conseq with (Q' := fun _ => on_queue (held (id transaction)));
      [|intros w H; exact H|intros res w [H _]; exact H].
    change (keeps env (on_queue (held (id transaction)))
              (Database.updateTransactionStatus (id transaction) pending (Some msg) ;;;
               sleep ((if QueueService.isVersionMismatch_retry msg
                          && Database.is_mint_nft (transaction_type (columns transaction))
                       then 2000 else retryDelayMs (config e))
                      * (retries (columns transaction) + 1)))).
    repeat first [ apply held_update_live; reflexivity | apply sleep_keeps | keeps_step ].
Qed.

(** the row that [getNextPendingTransaction] returns is pending *)
Lemma Inv_getNext (actor : option string) :
  hoare env Inv (Database.getNextPendingTransaction actor)
    (fun res w => Inv w
                  /\ forall item, res = Ok (Some item) ->
                                  on_queue (held (id item)) w).
Proof.
  intros w Hw. unfold Database.getNextPendingTransaction, bind, pool_query.
  destruct (next_fault w); cbn [fst snd]; [split; [exact Hw|discriminate]|].
  destruct (Database.limit_1 _) as [|item rest] eqn:Hsel; cbn [fst snd ret].
  - split; [exact Hw|discriminate].
  - split; [exact Hw|]. intros item' [= <-]. split; [exact Hw|].
    assert (In item (Database.limit_1
                       (Database.order_by_created_at
                          (Database.select_queue
                             (Database.next_pending_cond actor (locked w))
                             (transaction_queue (db w)))))) as Hin
      by (rewrite Hsel; left; reflexivity).
    apply in_limit_1 in Hin.
    apply (proj1 (in_order_by_created_at _ _)) in Hin.
    apply in_select_queue in Hin as [Hq Hc].
    unfold Database.next_pending_cond in Hc.
    apply andb_true_iff in Hc as [Hc _]. apply andb_true_iff in Hc as [Hs _].
    apply status_eqb_true in Hs.
    intros r Hr _. cbn in Hr. rewrite Hq in Hr. injection Hr as <-.
    rewrite Hs. reflexivity.
Qed.

Lemma Inv_processPlayerQueue (playerAddress : string) (fuel : nat) :
  keeps env Inv (QueueService.processPlayerQueue fuel playerAddress).
Proof.
  induction fuel as [|fuel IH]; simpl; [keeps_step|].
  eapply hoare_bind; [apply Inv_getNext| |intros msg w [H _]; exact H].
  intros [item|] w [Hw Hitem]; [|exact Hw].
  specialize (Hitem item eq_refl). revert w Hitem Hw.
  intros w Hheld _. revert w Hheld.
  change (hoare env (on_queue (held (id item)))
            (try_catch (QueueService.processPlayerQueue_try playerAddress item)
                       (QueueService.processPlayerQueue_catch playerAddress item) ;;;
             QueueService.processPlayerQueue fuel playerAddress)
            (fun _ => Inv)).
  eapply hoare_bind with (Q := fun _ => Inv); [|intros _; exact IH|intros msg w H; exact H].
  eapply hoare_try_catch with (Q := fun _ => on_queue (held (id item))).
  - apply held_try. reflexivity.
  - intros msg. apply held_catch. reflexivity.
  - intros a w [H _]. exact H.
Qed.

Lemma Inv_addToQueue (i : string) (t : TransactionType) (address : option string)
    (data : gmap string JS.json) (gameId playerId : option string) :
  keeps env Inv (Database.addToQueue i t address data gameId playerId).
Proof.
  intros w [HI Hnw].
  destruct (addToQueue_cases env w i t address data gameId playerId)
    as (res & w' & Hrun & Hcases).
  rewrite Hrun. cbn [fst snd]. unfold Inv, on_queue.
  destruct Hcases as [->|(Hfree & _ & -> & Hnew)]; [split; assumption|].
  cbn. split; [apply I3_checked_insert; assumption|].
  intros j r Hq Hs. destruct (decide (j = i)) as [->|Hne].
  - rewrite lookup_insert_eq in Hq. injection Hq as <-. discriminate.
  - rewrite lookup_insert_ne in Hq by congruence. apply (Hnw j r Hq Hs).
Qed.

(** an intent that is not a MintBadge and that [addToQueue] accepts is in
    the queue *)
Lemma Inv_addToQueue_move (i : string) (t : TransactionType)
    (address : option string) (data : gmap string JS.json)
    (gameId playerId : option string) :
  Database.is_mint_nft t = false ->
  hoare env Inv (Database.addToQueue i t address data gameId playerId)
    (fun res w => Inv w /\ (res = Ok tt -> not_mint_at i (transaction_queue (db w)))).
Proof.
  intros Ht w Hw.
  split; [apply (Inv_addToQueue i t address data gameId playerId w Hw)|].
  unfold Database.addToQueue. cbv zeta. rewrite Ht. cbn [andb].
  unfold pool_query. destruct (next_fault w); cbn [fst snd]; [discriminate|].
  unfold Database.insert_queue.
  destruct (transaction_queue (db w) !! i) eqn:Hq; cbn [fst snd]; [discriminate|].
  intros _ r Hr. cbn in Hr. rewrite lookup_insert_eq in Hr. injection Hr as <-.
  exact Ht.
Qed.

Lemma Inv_update_not_mint (i : string) (s : TransactionStatus) (e : option string) :
  hoare env (fun w => Inv w /\ not_mint_at i (transaction_queue (db w)))
    (Database.updateTransactionStatus i s e) (fun _ => Inv).
Proof.
  intros w [Hok Hnm]. unfold Database.updateTransactionStatus, pool_query.
  destruct (next_fault w); cbn; [exact Hok|].
  apply mint_queue_ok_alter; [exact Hok| |].
  - intros r k Hq Hk. rewrite key_of_not_mint in Hk; [discriminate|].
    destruct (update_status_row_fields s e (clock w) r) as (-> & _).
    apply (Hnm r Hq).
  - intros r Hq _.
    destruct (update_status_row_fields s e (clock w) r) as (-> & _).
    apply (Hnm r Hq).
Qed.

Lemma Inv_on_make_move (data : Validation.MakeMoveRequest) :
  keeps env Inv (SocketServer.on_make_move data).
Proof.
  unfold SocketServer.on_make_move, SocketServer.queued, SocketServer.report.
  cbv zeta.
  keeps_step; [|keeps_step].
  keeps_step; [keeps_step|].
  eapply hoare_bind;
    [apply Inv_addToQueue_move; reflexivity| |intros msg w [H _]; exact H].
  intros [].
  match goal with
  | |- hoare env _ (bind (if _ then Database.updateTransactionStatus ?i _ _ else _) _) _ =>
      eapply hoare_conseq
        with (P' := fun w => Inv w /\ not_mint_at i (transaction_queue (db w)))
             (Q' := fun _ => Inv);
      [|intros w [H1 H2]; split; [exact H1|apply H2; reflexivity]
       |intros r w H; exact H]
  end.
  eapply hoare_bind with (Q := fun _ => Inv); [| |intros msg w H; exact H].
  - destruct (Database.status_eqb _ _).
    + apply Inv_update_not_mint.
    + intros w [H _]. exact H.
  - intros _ w H. exact H.
Qed.

(** a handler that runs with no action of another task between its
    queries keeps the queue well formed *)
Lemma Inv_handle (request : SocketServer.Request) :
  keeps env Inv (SocketServer.handle request).
Proof.
  apply handle_keeps.
  - exact Inv_addToQueue.
  - exact Inv_on_make_move.
Qed.

End Uninterrupted.

(** *** Two enqueues whose queries interleave *)

Lemma select_queue_no_row (cond : string -> QueueRow -> bool)
    (q : gmap string QueueRow) :
  (forall j r, q !! j = Some r -> cond j r = false) ->
  Database.select_queue cond q = [].
Proof.
  intros Hno. destruct (Database.select_queue cond q) as [|x l] eqn:Hsel;
    [reflexivity|].
  assert (In x (Database.select_queue cond q)) as Hin
    by (rewrite Hsel; left; reflexivity).
  apply in_select_queue in Hin as [Hq Hc].
  rewrite (Hno _ _ Hq) in Hc. discriminate.
Qed.

(** the parts of a checked key are given and not empty *)
Lemma checked_key_given (address playerId : option string) (badge : JS.json)
    (k : string * string * string) :
  checked_key address playerId (Some badge) = Some k ->
  JS.truthy_opt address = true /\ JS.truthy_opt playerId = true
  /\ JS.truthy badge = true.
Proof.
  unfold checked_key.
  destruct address as [a|]; [|discriminate].
  destruct playerId as [p|]; [|discriminate].
  destruct (JS.truthy_string a) eqn:Ha; [|discriminate].
  destruct (JS.truthy_string p) eqn:Hp; [|discriminate].
  destruct (JS.truthy badge) eqn:Hv; [|discriminate].
  cbn. auto.
Qed.

(** the first action of [addToQueue] for a MintBadge whose key is checked
    is the duplicate check; when it finds no row the [INSERT] is left to
    run *)
Lemma addToQueue_check_step (env : Env) (w : World) (i : string)
    (address : option string) (data : gmap string JS.json)
    (gameId playerId : option string) (badge : JS.json)
    (k : string * string * string) :
  next_fault w = None ->
  data !! "badgeType" = Some badge ->
  checked_key address playerId (Some badge) = Some k ->
  (forall j r, transaction_queue (db w) !! j = Some r ->
               Database.duplicate_mint_cond address playerId (JS.text badge) j r
               = false) ->
  step (Tasks.addToQueue i mint_nft address data gameId playerId) env w
  = (Atomic (pool_query (fun w0 =>
       Database.insert_queue i (new_row w0 mint_nft address data gameId playerId) w0)),
     [], with_db (db w) (with_faults (tail (faults w)) w)).
Proof.
  intros Hf Hv Hk Hno.
  destruct (checked_key_given _ _ _ _ Hk) as (Ha & Hp & Htv).
  unfold Tasks.addToQueue. cbv zeta.
  rewrite Ha, Hp, Hv, Htv. cbn [Database.is_mint_nft andb step].
  rewrite pool_query_run by exact Hf. cbn [fst snd].
  rewrite (select_queue_no_row _ _ Hno). reflexivity.
Qed.

(** the [INSERT] under an identifier that is free *)
Lemma insert_step (env : Env) (w : World) (i : string) (row : World -> QueueRow) :
  next_fault w = None ->
  transaction_queue (db w) !! i = None ->
  step (Atomic (pool_query (fun w0 => Database.insert_queue i (row w0) w0))) env w
  = (Ret tt, [],
     with_db (with_queue (<[i := row w]> (transaction_queue (db w))) (db w))
             (with_faults (tail (faults w)) w)).
Proof.
  intros Hf Hfree. cbn [step].
  rewrite pool_query_run by exact Hf.
  unfold Database.insert_queue. rewrite Hfree. reflexivity.
Qed.

Lemma key_of_new_row (w : World) (address : option string)
    (data : gmap string JS.json) (gameId playerId : option string)
    (badge : JS.json) (k : string * string * string) :
  data !! "badgeType" = Some badge ->
  checked_key address playerId (Some badge) = Some k ->
  row_checked_key (new_row w mint_nft address data gameId playerId) = Some k.
Proof.
  intros Hv Hk. destruct (checked_key_given _ _ _ _ Hk) as (_ & Hp & _).
  unfold row_checked_key, new_row. cbn.
  rewrite (or_null_truthy playerId Hp), Hv. exact Hk.
Qed.

(** one action of the task of index [n] *)
Lemma run_task_at (env : Env) (n : nat) (s s' : Server) (task task' : Prog unit)
    (started : list (Prog unit)) (w' : World) :
  tasks s !! n = Some task ->
  step task env (world s) = (task', started, w') ->
  s' = mkServer w' (<[n := task']> (tasks s) ++ started) ->
  run_task env n s = s'.
Proof. intros Hn Hstep ->. unfold run_task. rewrite Hn, Hstep. reflexivity. Qed.

(** Two MintBadge of the same actor, player and badge type, enqueued by
    two tasks: when each makes its duplicate check before the other has
    inserted its row, both rows are inserted. *)
Lemma addToQueue_race (env : Env) (w : World) (i i2 : string)
    (address : option string) (data : gmap string JS.json)
    (gameId playerId : option string) (badge : JS.json)
    (k : string * string * string) :
  i <> i2 ->
  no_faults 4 w ->
  data !! "badgeType" = Some badge ->
  checked_key address playerId (Some badge) = Some k ->
  transaction_queue (db w) !! i = None ->
  transaction_queue (db w) !! i2 = None ->
  (forall j r, transaction_queue (db w) !! j = Some r ->
               Database.duplicate_mint_cond address playerId (JS.text badge) j r
               = false) ->
  exists r1 r2,
    tasks (run_schedule env [0; 1; 0; 1]%nat
             (mkServer w [Tasks.addToQueue i mint_nft address data gameId playerId;
                          Tasks.addToQueue i2 mint_nft address data gameId playerId]))
    = [Ret tt; Ret tt]
    /\ transaction_queue
         (db (world (run_schedule env [0; 1; 0; 1]%nat
                       (mkServer w
                          [Tasks.addToQueue i mint_nft address data gameId playerId;
                           Tasks.addToQueue i2 mint_nft address data gameId playerId]))))
       = <[i2 := r2]> (<[i := r1]> (transaction_queue (db w)))
    /\ row_checked_key r1 = Some k
    /\ row_checked_key r2 = Some k.
Proof.
  intros Hne Hf Hv Hk Hi Hi2 Hno.
  set (w1 := with_db (db w) (with_faults (tail (faults w)) w)).
  set (w2 := with_db (db w1) (with_faults (tail (faults w1)) w1)).
  set (r1 := new_row w2 mint_nft address data gameId playerId).
  set (w3 := with_db (with_queue (<[i := r1]> (transaction_queue (db w2))) (db w2))
                     (with_faults (tail (faults w2)) w2)).
  set (r2 := new_row w3 mint_nft address data gameId playerId).
  assert (no_faults 3 w1) as Hf1 by (apply no_faults_tail, Hf).
  assert (no_faults 2 w2) as Hf2 by (apply no_faults_tail, Hf1).
  assert (no_faults 1 w3) as Hf3 by (apply no_faults_tail, Hf2).
  exists r1, r2.
  set (first := Tasks.addToQueue i mint_nft address data gameId playerId).
  set (second := Tasks.addToQueue i2 mint_nft address data gameId playerId).
  set (insert1 := Atomic (pool_query (fun w0 =>
         Database.insert_queue i
           (new_row w0 mint_nft address data gameId playerId) w0))).
  set (insert2 := Atomic (pool_query (fun w0 =>
         Database.insert_queue i2
           (new_row w0 mint_nft address data gameId playerId) w0))).
  assert (transaction_queue (db w3) !! i2 = None) as Hi2'.
  { cbn. rewrite lookup_insert_ne by exact Hne. exact Hi2. }
  unfold run_schedule. cbn [List.fold_left].
  rewrite (run_task_at env 0 (mkServer w [first; second])
             (mkServer w1 [insert1; second]) first insert1 [] w1 eq_refl
             (addToQueue_check_step env w i address data gameId playerId badge k
                (no_faults_next 3 w Hf) Hv Hk Hno) eq_refl).
  rewrite (run_task_at env 1 (mkServer w1 [insert1; second])
             (mkServer w2 [insert1; insert2]) second insert2 [] w2 eq_refl
             (addToQueue_check_step env w1 i2 address data gameId playerId badge k
                (no_faults_next 2 w1 Hf1) Hv Hk Hno) eq_refl).
  rewrite (run_task_at env 0 (mkServer w2 [insert1; insert2])
             (mkServer w3 [Ret tt; insert2]) insert1 (Ret tt) [] w3 eq_refl
             (insert_step env w2 i
                (fun w0 => new_row w0 mint_nft address data gameId playerId)
                (no_faults_next 1 w2 Hf2) Hi) eq_refl).
  rewrite (run_task_at env 1 (mkServer w3 [Ret tt; insert2])
             (mkServer
                (with_db (with_queue (<[i2 := r2]> (transaction_queue (db w3))) (db w3))
                         (with_faults (tail (faults w3)) w3))
                [Ret tt; Ret tt]) insert2 (Ret tt) [] _ eq_refl
             (insert_step env w3 i2
                (fun w0 => new_row w0 mint_nft address data gameId playerId)
                (no_faults_next 0 w3 Hf3) Hi2') eq_refl).
  split; [reflexivity|]. split; [reflexivity|].
  split; eapply key_of_new_row; eassumption.
Qed.

(** C4, as the source has it. A MintBadge whose actor, player and badge
    type are given and not empty is dropped, with no error and in one
    action, when the queue holds at its duplicate check a MintBadge row
    with the same three values that is pending, processing or completed.
    An enqueue between whose check and [INSERT] no other task acts makes
    no two such rows with the same three values, and neither does a
    handler, a worker or a clean-up that runs uninterrupted on a queue
    with no MintBadge waiting for a game. But the check and the [INSERT]
    are two queries: when two tasks enqueue the same three values and
    each makes its check before the [INSERT] of the other, both rows are
    inserted. *)
Theorem C4_mint_enqueue_idempotent (env : Env) (w : World) (i : string)
    (t : TransactionType) (address : option string) (data : gmap string JS.json)
    (gameId playerId : option string) :
  (forall k j r,
     t = mint_nft ->
     no_faults 1 w ->
     checked_key address playerId (data !! "badgeType") = Some k ->
     transaction_queue (db w) !! j = Some r ->
     row_checked_key r = Some k ->
     exists w',
       Database.addToQueue i t address data gameId playerId env w = (Ok tt, w')
       /\ db w' = db w
       /\ step (Tasks.addToQueue i t address data gameId playerId) env w
          = (Ret tt, [], w'))
  /\ (I3_checked (transaction_queue (db w)) ->
      I3_checked
        (transaction_queue
           (db (snd (Database.addToQueue i t address data gameId playerId env w)))))
  /\ (mint_queue_ok (transaction_queue (db w)) ->
      (forall request,
         mint_queue_ok
           (transaction_queue (db (snd (SocketServer.handle request env w)))))
      /\ (forall fuel playerAddress,
            mint_queue_ok
              (transaction_queue
                 (db (snd (QueueService.processPlayerQueue fuel playerAddress
                             env w)))))
      /\ mint_queue_ok
           (transaction_queue (db (snd (Database.cleanupOldTransactions env w)))))
  /\ (forall i2 badge k,
        t = mint_nft ->
        i <> i2 ->
        no_faults 4 w ->
        data !! "badgeType" = Some badge ->
        checked_key address playerId (Some badge) = Some k ->
        transaction_queue (db w) !! i = None ->
        transaction_queue (db w) !! i2 = None ->
        (forall j r, transaction_queue (db w) !! j = Some r ->
                     Database.duplicate_mint_cond address playerId (JS.text badge) j r
                     = false) ->
        exists r1 r2,
          tasks (run_schedule env [0; 1; 0; 1]%nat
                   (mkServer w
                      [Tasks.addToQueue i t address data gameId playerId;
                       Tasks.addToQueue i2 t address data gameId playerId]))
          = [Ret tt; Ret tt]
          /\ transaction_queue
               (db (world (run_schedule env [0; 1; 0; 1]%nat
                             (mkServer w
                                [Tasks.addToQueue i t address data gameId playerId;
                                 Tasks.addToQueue i2 t address data gameId playerId]))))
             = <[i2 := r2]> (<[i := r1]> (transaction_queue (db w)))
          /\ row_checked_key r1 = Some k
          /\ row_checked_key r2 = Some k).
Proof.
  split; [|split; [|split]].
  - intros k j r -> Hf Hk Hq Hr.
    destruct (addToQueue_drops_duplicate env w i address data gameId playerId k j r
                Hf Hk Hq Hr) as (w' & Hrun & Hdb).
    exists w'. split; [exact Hrun|]. split; [exact Hdb|].
    revert Hrun. unfold Database.addToQueue, Tasks.addToQueue. cbv zeta.
    destruct (data !! "badgeType") as [badge|] eqn:Hv;
      [|destruct address, playerId; discriminate].
    destruct (checked_key_given _ _ _ _ Hk) as (-> & -> & ->).
    cbn [Database.is_mint_nft andb step]. unfold bind.
    rewrite pool_query_run by (eapply no_faults_next; exact Hf).
    cbn [fst snd].
    pose proof (select_queue_nonempty _ _ j r Hq
                  (duplicate_mint_cond_key address playerId badge j r k Hk Hr)) as Hsel.
    destruct (Database.limit_1 _); [contradiction|].
    cbn. intros [= <-]. reflexivity.
  - apply addToQueue_keeps_I3.
  - intros Hok. split; [|split].
    + intros request. exact (Inv_handle env request w Hok).
    + intros fuel playerAddress.
      exact (Inv_processPlayerQueue env playerAddress fuel w Hok).
    + exact (Inv_cleanup env w Hok).
  - intros i2 badge k ->. apply addToQueue_race.
Qed.

(** C4 on a second MintBadge of the player [p1] for the badge of the
    first game: it is dropped when the row of the first is in the queue;
    and two of them whose checks are both made on the empty queue are
    both inserted. *)
Lemma C4_witness :
  (exists w',
     Database.addToQueue "t2" mint_nft (Some "0xA") Sample.first_game_data None
       (Some "p1") Sample.env
       (Sample.world_of (Sample.one_mint_db (Some "0xA") (Some "p1")))
     = (Ok tt, w')
     /\ db w' = Sample.one_mint_db (Some "0xA") (Some "p1")
     /\ step (Tasks.addToQueue "t2" mint_nft (Some "0xA") Sample.first_game_data None
                (Some "p1")) Sample.env
             (Sample.world_of (Sample.one_mint_db (Some "0xA") (Some "p1")))
        = (Ret tt, [], w'))
  /\ exists r1 r2,
       tasks (run_schedule Sample.env [0; 1; 0; 1]%nat
                (mkServer Sample.empty_world
                   [Tasks.addToQueue "t1" mint_nft (Some "0xA") Sample.first_game_data
                      None (Some "p1");
                    Tasks.addToQueue "t2" mint_nft (Some "0xA") Sample.first_game_data
                      None (Some "p1")]))
       = [Ret tt; Ret tt]
       /\ transaction_queue
            (db (world (run_schedule Sample.env [0; 1; 0; 1]%nat
                          (mkServer Sample.empty_world
                             [Tasks.addToQueue "t1" mint_nft (Some "0xA")
                                Sample.first_game_data None (Some "p1");
                              Tasks.addToQueue "t2" mint_nft (Some "0xA")
                                Sample.first_game_data None (Some "p1")]))))
          = <["t2" := r2]> (<["t1" := r1]> (transaction_queue (db Sample.empty_world)))
       /\ row_checked_key r1 = Some ("0xA", "p1", "first_game")
       /\ row_checked_key r2 = Some ("0xA", "p1", "first_game").
Proof.
  split.
  - destruct (C4_mint_enqueue_idempotent Sample.env
                (Sample.world_of (Sample.one_mint_db (Some "0xA") (Some "p1")))
                "t2" mint_nft (Some "0xA") Sample.first_game_data None (Some "p1"))
      as (H & _).
    apply (H ("0xA", "p1", "first_game") "t1"
             (Sample.mint_row (Some "0xA") (Some "p1") pending)).
    + reflexivity.
    + constructor.
    + reflexivity.
    + reflexivity.
    + reflexivity.
  - destruct (C4_mint_enqueue_idempotent Sample.env Sample.empty_world
                "t1" mint_nft (Some "0xA") Sample.first_game_data None (Some "p1"))
      as (_ & _ & _ & H).
    apply (H "t2" (JS.JStr "first_game") ("0xA", "p1", "first_game")).
    + reflexivity.
    + discriminate.
    + constructor.
    + reflexivity.
    + reflexivity.
    + reflexivity.
    + reflexivity.
    + intros j r Hq. cbn in Hq. rewrite lookup_empty in Hq. discriminate.
Defined.

(** C4 does not hold as it is stated: two [transaction:mint_nft] requests
    that the schema accepts, of the same actor, player and badge type,
    arrive on an empty queue; each handler validates its request and makes
    its duplicate check before the other inserts its row. Both rows are
    inserted and both requests are answered as queued. *)
Lemma C4_counterexample :
  reachable Sample.env (idle Sample.empty_world)
    (run_schedule Sample.env [0; 1; 0; 1; 0; 1; 0; 1]%nat two_mint_requests)
  /\ Spec.I3 (transaction_queue (db Sample.empty_world))
  /\ ~ Spec.I3
       (transaction_queue
          (db (world (run_schedule Sample.env [0; 1; 0; 1; 0; 1; 0; 1]%nat
                        two_mint_requests))))
  /\ trace (world (run_schedule Sample.env [0; 1; 0; 1; 0; 1; 0; 1]%nat
                     two_mint_requests))
     = [queued_event "t1" "queued"; queued_event "t2" "queued"]
  /\ tasks (run_schedule Sample.env [0; 1; 0; 1; 0; 1; 0; 1]%nat two_mint_requests)
     = [Ret tt; Ret tt].
Proof.
  split; [|split; [|split; [|split]]].
  - eapply TaskFacts.reachable_trans; [|apply TaskFacts.reachable_schedule].
    eapply reach_step; [eapply reach_step; [apply reach_here|]|].
    + exact (step_request Sample.env (first_game_request "t1")
               (idle Sample.empty_world)).
    + exact (step_request Sample.env (first_game_request "t2")
               (mkServer Sample.empty_world [Tasks.handle (first_game_request "t1")])).
  - intros i j r1 r2 k Hi. cbn in Hi. rewrite lookup_empty in Hi. discriminate.
  - intros H.
    specialize (H "t1" "t2"
      (mkRow mint_nft (Some "0xA") None (Some "p1") pending
             (Validation.mint_nft_data
                (Validation.mkMintNft "t1" "0xA" "p1" "0xA" "first_game" "First game"
                   "The first game" "https://example.org/badge.png" None))
             None 0 0 None 0)
      (mkRow mint_nft (Some "0xA") None (Some "p1") pending
             (Validation.mint_nft_data
                (Validation.mkMintNft "t2" "0xA" "p1" "0xA" "first_game" "First game"
                   "The first game" "https://example.org/badge.png" None))
             None 0 0 None 0)
      (Some "0xA", Some "p1", Some (JS.JStr "first_game"))).
    discriminate H; vm_compute; reflexivity.
  - vm_compute. reflexivity.
  - vm_compute. reflexivity.
Qed.

End MintQueueFacts.


(** * Further properties of the code *)

(** ** Running a computation step by step *)

Module RunFacts.
Import MFacts.

Lemma bind_ok {A B} (m : M A) (f : A -> M B) (env : Env) (w w1 : World) (a : A) :
  m env w = (Ok a, w1) -> bind m f env w = f a env w1.
Proof. intros H. unfold bind. rewrite H. reflexivity. Qed.

Lemma bind_throw {A B} (m : M A) (f : A -> M B) (env : Env) (w w1 : World)
    (msg : string) :
  m env w = (Throw msg, w1) -> bind m f env w = (Throw msg, w1).
Proof. intros H. unfold bind. rewrite H. reflexivity. Qed.

Lemma try_ok {A} (m : M A) (h : string -> M A) (env : Env) (w w1 : World) (a : A) :
  m env w = (Ok a, w1) -> try_catch m h env w = (Ok a, w1).
Proof. intros H. unfold try_catch. rewrite H. reflexivity. Qed.

Lemma try_throw {A} (m : M A) (h : string -> M A) (env : Env) (w w1 : World)
    (msg : string) :
  m env w = (Throw msg, w1) -> try_catch m h env w = h msg env w1.
Proof. intros H. unfold try_catch. rewrite H. reflexivity. Qed.

(** a [catch] that throws what it caught changes nothing *)
Lemma try_rethrow {A} (m : M A) (env : Env) (w : World) :
  try_catch m (fun error => throw error) env w = m env w.
Proof.
  unfold try_catch, throw. destruct (m env w) as [[a|msg] w1]; reflexivity.
Qed.

Lemma calm_next (w : World) : calm w -> next_fault w = None.
Proof.
  unfold calm, next_fault. intros H. destruct (faults w) as [|[m|] l]; try reflexivity.
  inversion H; discriminate.
Qed.

Lemma calm_tail (w : World) (d : Database) :
  calm w -> calm (with_db d (with_faults (tail (faults w)) w)).
Proof.
  unfold calm. cbn. intros H. destruct (faults w) as [|f l]; [exact H|].
  inversion H; assumption.
Qed.

Lemma calm_no_faults (n : nat) (w : World) : calm w -> no_faults n w.
Proof. unfold calm, no_faults. intros H. apply Forall_take, H. Qed.

(** a query on a store that does not fail *)
Lemma query_calm {A} (q : World -> outcome A * Database) (env : Env) (w : World) :
  calm w ->
  pool_query q env w
  = (fst (q w), with_db (snd (q w)) (with_faults (tail (faults w)) w)).
Proof. intros H. apply pool_query_run, calm_next, H. Qed.

End RunFacts.

(** ** What the code leaves alone

    A property of the world that does not depend on what a piece of code
    writes is kept by it. The hypotheses of the section name the parts of
    the world; each lemma depends on those that its code writes. *)

Module FrameFacts.
Import MFacts RunFacts.

Section Frame.
Context (env : Env) (I : World -> Prop).

Hypothesis I_faults : forall w, I w -> I (with_faults (tail (faults w)) w).
Hypothesis I_trace : forall w t, I w -> I (with_trace t w).
Hypothesis I_clock : forall w t, I w -> I (with_clock t w).
Hypothesis I_polls : forall w p, I w -> I (with_polls p w).
Hypothesis I_submits : forall w s, I w -> I (with_submits s w).
Hypothesis I_key : forall w k, I w -> I (with_sponsorKeypair k w).
Hypothesis I_busy : forall w s, I w -> I (with_processingPlayers s w).
Hypothesis I_queue : forall w q, I w -> I (with_db (with_queue q (db w)) w).
Hypothesis I_games : forall w g, I w -> I (with_db (with_games g (db w)) w).
Hypothesis I_rewards : forall w r, I w -> I (with_db (with_rewards r (db w)) w).

Ltac frame_step :=
  match goal with
  | |- keeps _ _ (ret _) => apply keeps_ret
  | |- keeps _ _ (throw _) => apply keeps_throw
  | |- keeps _ _ (lift_outcome _) => apply keeps_lift
  | |- keeps _ _ ask => apply keeps_ask
  | |- keeps _ _ get => apply keeps_get
  | |- keeps _ _ (bind _ _) => apply keeps_bind; [|intros ?]
  | |- keeps _ _ (try_catch _ _) => apply keeps_try_catch; [|intros ?]
  | |- keeps _ _ (if ?b then _ else _) => destruct b
  | |- keeps _ _ (match ?x with _ => _ end) => destruct x
  end.

Lemma frame_effect (x : Effect) : keeps env I (effect x).
Proof. apply keeps_modify. intros w H. apply I_trace, H. Qed.

Lemma frame_emit (t : Target) (event : string) (payload : list (string * JS.json)) :
  keeps env I (emit t event payload).
Proof. apply frame_effect. Qed.

Lemma frame_sleep (ms : Z) : keeps env I (sleep ms).
Proof.
  unfold sleep. apply keeps_bind; [apply frame_effect|intros _].
  apply keeps_modify. intros w H. apply I_clock, H.
Qed.

(** a query that only reads *)
Lemma frame_read {A} (q : World -> outcome A * Database) :
  (forall w, snd (q w) = db w) -> keeps env I (pool_query q).
Proof.
  intros Hq. apply keeps_query; [exact I_faults|].
  intros w H. rewrite Hq. apply (I_faults w H).
Qed.

(** a query that writes the queue *)
Lemma frame_write_queue {A} (q : World -> outcome A * Database) :
  (forall w, exists q', snd (q w) = with_queue q' (db w)) ->
  keeps env I (pool_query q).
Proof.
  intros Hq. apply keeps_query; [exact I_faults|].
  intros w H. destruct (Hq w) as [q' ->].
  apply (I_queue _ q' (I_faults w H)).
Qed.

Lemma frame_addToQueue (i : string) (t : TransactionType) (address : option string)
    (data : gmap string JS.json) (gameId playerId : option string) :
  keeps env I (Database.addToQueue i t address data gameId playerId).
Proof.
  assert (forall row : World -> QueueRow,
            keeps env I (pool_query (fun w => Database.insert_queue i (row w) w)))
    as Hinsert.
  { intros row. apply keeps_query; [exact I_faults|].
    intros w H. unfold Database.insert_queue.
    destruct (transaction_queue (db w) !! i); cbn [snd].
    - apply (I_faults w H).
    - apply (I_queue _ _ (I_faults w H)). }
  unfold Database.addToQueue. cbv zeta.
  repeat first [ apply Hinsert | apply frame_read; reflexivity | frame_step ].
Qed.

Lemma frame_getNext (actor : option string) :
  keeps env I (Database.getNextPendingTransaction actor).
Proof.
  unfold Database.getNextPendingTransaction.
  repeat first [ apply frame_read; reflexivity | frame_step ].
Qed.

Lemma frame_update (i : string) (s : TransactionStatus) (e : option string) :
  keeps env I (Database.updateTransactionStatus i s e).
Proof. apply frame_write_queue. intros w. eexists. reflexivity. Qed.

Lemma frame_incrementRetries (i : string) :
  keeps env I (Database.incrementRetries i).
Proof. apply frame_write_queue. intros w. eexists. reflexivity. Qed.

Lemma frame_deleteTransaction (i : string) :
  keeps env I (Database.deleteTransaction i).
Proof.
  unfold Database.deleteTransaction.
  apply keeps_try_catch; [|intros ?; apply keeps_throw].
  apply frame_write_queue. intros w. eexists. reflexivity.
Qed.

Lemma frame_cleanup : keeps env I Database.cleanupOldTransactions.
Proof.
  unfold Database.cleanupOldTransactions.
  apply keeps_try_catch; [|intros ?; apply keeps_ret].
  apply frame_write_queue. intros w. eexists. reflexivity.
Qed.

Lemma frame_updateGameObjectId (g o : string) :
  keeps env I (Database.updateGameObjectId g o).
Proof.
  unfold Database.updateGameObjectId.
  apply keeps_try_catch; [|intros ?; apply keeps_throw].
  apply keeps_query; [exact I_faults|].
  intros w H. apply (I_games _ _ (I_faults w H)).
Qed.

Lemma frame_createOrUpdateReward (p : string) (t : option string) (o : string) :
  keeps env I (Database.createOrUpdateReward p t o).
Proof.
  unfold Database.createOrUpdateReward.
  apply keeps_try_catch; [|intros ?; apply keeps_throw].
  apply keeps_bind; [apply frame_read; reflexivity|intros existing].
  destruct existing; (apply keeps_query; [exact I_faults|]);
    intros w H; apply (I_rewards _ _ (I_faults w H)).
Qed.

Lemma frame_processWaitingMovesForGame (g o : string) :
  keeps env I (TransactionProcessor.processWaitingMovesForGame g o).
Proof.
  unfold TransactionProcessor.processWaitingMovesForGame,
    Database.getWaitingTransactionsForGame.
  apply keeps_try_catch; [|intros ?; apply keeps_ret].
  apply keeps_bind; [apply frame_read; reflexivity|intros l].
  destruct l as [|x l]; [apply keeps_ret|].
  apply keeps_for_each. intros y _.
  apply keeps_try_catch; [|intros ?; apply keeps_ret].
  apply frame_write_queue. intros w. eexists. reflexivity.
Qed.

Lemma frame_getSponsorKeypair : keeps env I SuiClient.getSponsorKeypair.
Proof.
  assert (forall kp, keeps env I (SuiClient.remember kp)) as Hremember.
  { intros kp. unfold SuiClient.remember.
    apply keeps_bind; [|intros _; apply keeps_ret].
    apply keeps_modify. intros w H. apply I_key, H. }
  unfold SuiClient.getSponsorKeypair.
  repeat first [ apply Hremember | frame_step ].
Qed.

Lemma frame_getPackageId : keeps env I SuiClient.getPackageId.
Proof. unfold SuiClient.getPackageId. repeat frame_step. Qed.

Lemma frame_getBadgeRegistryId : keeps env I SuiClient.getBadgeRegistryId.
Proof. unfold SuiClient.getBadgeRegistryId. repeat frame_step. Qed.

Lemma frame_executeTransactionWithKeypair (tx : SuiClient.Transaction)
    (keypair : Ed25519Keypair) :
  keeps env I (SuiClient.executeTransactionWithKeypair tx keypair).
Proof.
  unfold SuiClient.executeTransactionWithKeypair. cbv zeta.
  repeat first [ apply frame_effect
               | apply keeps_modify; intros w H; apply I_submits, H
               | frame_step ].
Qed.

Lemma frame_executeTransaction (tx : SuiClient.Transaction) :
  keeps env I (SuiClient.executeTransaction tx).
Proof.
  unfold SuiClient.executeTransaction.
  apply keeps_bind; [apply frame_getSponsorKeypair|intros kp].
  apply frame_executeTransactionWithKeypair.
Qed.

Lemma frame_poll_from (digest objectType : string) (todo : nat) :
  forall i, keeps env I (SuiClient.poll_from todo i digest objectType).
Proof.
  induction todo as [|todo IH]; intros i; simpl; [apply keeps_ret|].
  apply keeps_bind.
  - unfold SuiClient.poll_once, SuiClient.getTransactionBlock.
    repeat first [ apply frame_effect | apply frame_sleep
                 | apply keeps_modify; intros w H; apply I_polls, H
                 | frame_step ].
  - intros found. destruct found; [apply keeps_ret|apply IH].
Qed.

Lemma frame_build (transaction : TransactionQueueItem) :
  keeps env I (TransactionProcessor.build transaction).
Proof.
  unfold TransactionProcessor.build,
    SuiClient.buildCreateGameTransaction, SuiClient.buildMakeMoveTransaction,
    SuiClient.buildEndGameTransaction, SuiClient.buildMintNftTransaction,
    SuiClient.input, SuiClient.moveCall.
  cbv zeta.
  repeat first [ apply frame_getPackageId | apply frame_getBadgeRegistryId
               | apply frame_getSponsorKeypair | frame_step ].
Qed.

Lemma frame_execute (tx : SuiClient.Transaction) :
  keeps env I (TransactionProcessor.execute tx).
Proof.
  unfold TransactionProcessor.execute.
  repeat first [ apply frame_executeTransaction | frame_step ].
Qed.

Lemma frame_build_and_execute (transaction : TransactionQueueItem) :
  keeps env I (TransactionProcessor.build_and_execute transaction).
Proof.
  unfold TransactionProcessor.build_and_execute.
  apply keeps_bind; [apply frame_build|intros tx; apply frame_execute].
Qed.

Lemma frame_reconcile_and_notify (transaction : TransactionQueueItem)
    (digest : string) :
  keeps env I (TransactionProcessor.reconcile_and_notify transaction digest).
Proof.
  unfold TransactionProcessor.reconcile_and_notify,
    SuiClient.waitForTransactionAndExtractObjectId.
  cbv zeta.
  repeat first [ apply frame_poll_from | apply frame_updateGameObjectId
               | apply frame_processWaitingMovesForGame
               | apply frame_createOrUpdateReward
               | apply frame_emit
               | frame_step ].
Qed.

Lemma frame_processTransaction (transaction : TransactionQueueItem) :
  keeps env I (TransactionProcessor.processTransaction transaction).
Proof.
  unfold TransactionProcessor.processTransaction.
  apply keeps_bind; [apply frame_build_and_execute|intros digest].
  apply frame_reconcile_and_notify.
Qed.

Lemma frame_try (playerAddress : string) (transaction : TransactionQueueItem) :
  keeps env I (QueueService.processPlayerQueue_try playerAddress transaction).
Proof.
  unfold QueueService.processPlayerQueue_try.
  repeat first [ apply frame_update | apply frame_emit
               | apply frame_processTransaction | apply frame_deleteTransaction
               | frame_step ].
Qed.

Lemma frame_catch (playerAddress : string) (transaction : TransactionQueueItem)
    (msg : string) :
  keeps env I (QueueService.processPlayerQueue_catch playerAddress transaction msg).
Proof.
  unfold QueueService.processPlayerQueue_catch. cbv zeta.
  repeat first [ apply frame_update | apply frame_emit | apply frame_sleep
               | apply frame_incrementRetries | apply frame_deleteTransaction
               | frame_step ].
Qed.

Lemma frame_processPlayerQueue (playerAddress : string) (fuel : nat) :
  keeps env I (QueueService.processPlayerQueue fuel playerAddress).
Proof.
  induction fuel as [|fuel IH]; simpl; [apply keeps_ret|].
  apply keeps_bind; [apply frame_getNext|intros transaction].
  destruct transaction as [transaction|]; [|apply keeps_ret].
  apply keeps_bind; [|intros _; exact IH].
  apply keeps_try_catch; [apply frame_try|intros msg; apply frame_catch].
Qed.

Lemma frame_mark_all (allPlayers : list string) :
  keeps env I (QueueService.mark_all allPlayers).
Proof.
  induction allPlayers as [|playerAddress rest IH]; simpl; [apply keeps_ret|].
  apply keeps_bind.
  - unfold QueueService.mark.
    repeat first [ apply keeps_modify; intros w H; apply I_busy, H | frame_step ].
  - intros started. apply keeps_bind; [exact IH|intros others; apply keeps_ret].
Qed.

Lemma frame_unmark (playerAddress : string) :
  keeps env I (QueueService.unmark playerAddress).
Proof.
  unfold QueueService.unmark. apply keeps_modify. intros w H. apply I_busy, H.
Qed.

Lemma frame_processQueue : keeps env I QueueService.processQueue.
Proof.
  unfold QueueService.processQueue, QueueService.getAllPlayersWithPendingTransactions.
  apply keeps_bind; [apply frame_read; reflexivity|intros allPlayers].
  apply frame_mark_all.
Qed.

Lemma frame_shouldEarnReward (address rewardType : string) :
  keeps env I (RewardService.shouldEarnReward address rewardType).
Proof.
  unfold RewardService.shouldEarnReward. cbv zeta.
  repeat first [ apply frame_read; reflexivity | frame_step ].
Qed.

Lemma frame_enqueue_reward (playerId address suffix : string)
    (reward : RewardService.RewardConfig) :
  keeps env I (SocketServer.enqueue_reward playerId address suffix reward).
Proof.
  unfold SocketServer.enqueue_reward, RewardService.isRewardInQueue,
    SocketServer.error_only.
  cbv zeta.
  repeat first [ apply frame_read; reflexivity | apply frame_addToQueue
               | apply frame_emit | frame_step ].
Qed.

Lemma frame_handle (request : SocketServer.Request) :
  keeps env I (SocketServer.handle request).
Proof.
  destruct request as [data|data|data|data|data suffix]; simpl.
  - unfold SocketServer.on_create_game, SocketServer.queued, SocketServer.report.
    repeat first [ apply frame_addToQueue | apply frame_emit | frame_step ].
  - unfold SocketServer.on_make_move, SocketServer.queued, SocketServer.report.
    cbv zeta.
    repeat first [ apply frame_addToQueue | apply frame_emit | apply frame_update
                 | frame_step ].
  - unfold SocketServer.on_end_game, SocketServer.queued, SocketServer.report.
    repeat first [ apply frame_addToQueue | apply frame_emit | frame_step ].
  - unfold SocketServer.on_mint_nft, SocketServer.queued, SocketServer.report.
    repeat first [ apply frame_addToQueue | apply frame_emit | frame_step ].
  - unfold SocketServer.on_nftMint, SocketServer.error_only.
    cbv zeta.
    repeat first [ apply frame_read; reflexivity
                 | apply frame_shouldEarnReward
                 | apply frame_enqueue_reward
                 | apply frame_emit
                 | frame_step ].
Qed.

End Frame.

End FrameFacts.

(** ** A task that nothing interrupts

    [run] of each task of [Tasks] is the computation of the same name: the
    tasks are the code of the services with its [await]s marked, and what is
    proved of a computation is proved of the task that runs with no action
    of another task between its own. *)

Module UninterruptedFacts.

Lemma same_refl {A} (m : M A) : same_runs m m.
Proof. intros env w. reflexivity. Qed.

Lemma same_bind {A B} (m m' : M A) (f g : A -> M B) :
  same_runs m m' -> (forall x, same_runs (f x) (g x)) ->
  same_runs (bind m f) (bind m' g).
Proof.
  intros Hm Hf env w. unfold bind. rewrite (Hm env w).
  destruct (m' env w) as [[a|msg] w1]; [apply Hf|reflexivity].
Qed.

Lemma same_try {A} (m m' : M A) (h h' : string -> M A) :
  same_runs m m' -> (forall error, same_runs (h error) (h' error)) ->
  same_runs (try_catch m h) (try_catch m' h').
Proof.
  intros Hm Hh env w. unfold try_catch. rewrite (Hm env w).
  destruct (m' env w) as [[a|msg] w1]; [reflexivity|apply Hh].
Qed.

Ltac same_step :=
  cbn [run];
  match goal with
  | |- same_runs ?m ?m => apply same_refl
  | |- same_runs (bind _ _) (bind _ _) => apply same_bind; [|intros ?]
  | |- same_runs (try_catch _ _) (try_catch _ _) => apply same_try; [|intros ?]
  | |- same_runs (run (if ?b then _ else _)) _ => destruct b
  | |- same_runs (run (match ?x with _ => _ end)) _ => destruct x
  end.

Lemma run_for_each {A} (xs : list A) (body : A -> Prog unit) (body' : A -> M unit) :
  (forall x, same_runs (run (body x)) (body' x)) ->
  same_runs (run (Tasks.for_each xs body)) (for_each xs body').
Proof.
  intros Hbody. induction xs as [|x xs IH]; simpl; [apply same_refl|].
  apply same_bind; [apply Hbody|intros _; exact IH].
Qed.

Lemma run_addToQueue (i : string) (t : TransactionType) (address : option string)
    (data : gmap string JS.json) (gameId playerId : option string) :
  same_runs (run (Tasks.addToQueue i t address data gameId playerId))
            (Database.addToQueue i t address data gameId playerId).
Proof.
  unfold Tasks.addToQueue, Database.addToQueue. cbv zeta.
  repeat same_step.
Qed.

Lemma run_createOrUpdateReward (playerId : string) (rewardType : option string)
    (objectId : string) :
  same_runs (run (Tasks.createOrUpdateReward playerId rewardType objectId))
            (Database.createOrUpdateReward playerId rewardType objectId).
Proof.
  unfold Tasks.createOrUpdateReward, Database.createOrUpdateReward.
  repeat same_step.
Qed.

Lemma run_shouldEarnReward (address rewardType : string) :
  same_runs (run (Tasks.shouldEarnReward address rewardType))
            (RewardService.shouldEarnReward address rewardType).
Proof.
  unfold Tasks.shouldEarnReward, RewardService.shouldEarnReward. cbv zeta.
  repeat same_step.
Qed.

Lemma run_poll_once (digest objectType : string) (i : nat) :
  same_runs (run (Tasks.poll_once digest objectType i))
            (SuiClient.poll_once digest objectType i).
Proof.
  unfold Tasks.poll_once, SuiClient.poll_once.
  repeat same_step.
Qed.

Lemma run_poll_from (digest objectType : string) (todo : nat) :
  forall i, same_runs (run (Tasks.poll_from todo i digest objectType))
                      (SuiClient.poll_from todo i digest objectType).
Proof.
  induction todo as [|todo IH]; intros i; simpl; [apply same_refl|].
  apply same_bind; [apply run_poll_once|].
  intros [objectId|]; [apply same_refl|apply IH].
Qed.

Lemma run_waitForTransactionAndExtractObjectId (digest objectType : string) :
  same_runs (run (Tasks.waitForTransactionAndExtractObjectId digest objectType))
            (SuiClient.waitForTransactionAndExtractObjectId digest objectType).
Proof. apply run_poll_from. Qed.

Lemma run_processWaitingMovesForGame (gameId objectId : string) :
  same_runs (run (Tasks.processWaitingMovesForGame gameId objectId))
            (TransactionProcessor.processWaitingMovesForGame gameId objectId).
Proof.
  unfold Tasks.processWaitingMovesForGame,
    TransactionProcessor.processWaitingMovesForGame.
  cbn [run]. apply same_try; [|intros _; apply same_refl].
  apply same_bind; [apply same_refl|].
  intros [|x l]; [apply same_refl|].
  apply run_for_each. intros y. repeat same_step.
Qed.

Lemma run_reconcile_and_notify (transaction : TransactionQueueItem)
    (digest : string) :
  same_runs (run (Tasks.reconcile_and_notify transaction digest))
            (TransactionProcessor.reconcile_and_notify transaction digest).
Proof.
  unfold Tasks.reconcile_and_notify, TransactionProcessor.reconcile_and_notify.
  cbv zeta.
  repeat first [ apply run_waitForTransactionAndExtractObjectId
               | apply run_processWaitingMovesForGame
               | apply run_createOrUpdateReward
               | same_step ].
Qed.

Lemma run_processTransaction (transaction : TransactionQueueItem) :
  same_runs (run (Tasks.processTransaction transaction))
            (TransactionProcessor.processTransaction transaction).
Proof.
  unfold Tasks.processTransaction, TransactionProcessor.processTransaction,
    TransactionProcessor.build_and_execute.
  cbn [run]. apply same_bind; [apply same_refl|].
  intros digest. apply run_reconcile_and_notify.
Qed.

Lemma run_catch (playerAddress : string) (transaction : TransactionQueueItem)
    (errorMessage : string) :
  same_runs (run (Tasks.processPlayerQueue_catch playerAddress transaction errorMessage))
            (QueueService.processPlayerQueue_catch playerAddress transaction
               errorMessage).
Proof.
  unfold Tasks.processPlayerQueue_catch, QueueService.processPlayerQueue_catch.
  cbv zeta. repeat same_step.
Qed.

Lemma run_try (playerAddress : string) (transaction : TransactionQueueItem) :
  same_runs (run (Tasks.processPlayerQueue_try playerAddress transaction))
            (QueueService.processPlayerQueue_try playerAddress transaction).
Proof.
  unfold Tasks.processPlayerQueue_try, QueueService.processPlayerQueue_try.
  repeat first [ apply run_processTransaction | same_step ].
Qed.

Lemma run_processPlayerQueue (playerAddress : string) (fuel : nat) :
  same_runs (run (Tasks.processPlayerQueue fuel playerAddress))
            (QueueService.processPlayerQueue fuel playerAddress).
Proof.
  induction fuel as [|fuel IH]; simpl; [apply same_refl|].
  apply same_bind; [apply same_refl|].
  intros [transaction|]; [|apply same_refl].
  cbn [run]. apply same_bind; [|intros _; exact IH].
  apply same_try; [apply run_try|intros error; apply run_catch].
Qed.

Lemma run_enqueue_reward (playerId address suffix : string)
    (reward : RewardService.RewardConfig) :
  same_runs (run (Tasks.enqueue_reward playerId address suffix reward))
            (SocketServer.enqueue_reward playerId address suffix reward).
Proof.
  unfold Tasks.enqueue_reward, SocketServer.enqueue_reward. cbv zeta.
  repeat first [ apply run_addToQueue | same_step ].
Qed.

Lemma run_handle (request : SocketServer.Request) :
  same_runs (run (Tasks.handle request)) (SocketServer.handle request).
Proof.
  destruct request as [data|data|data|data|data suffix];
    cbn [Tasks.handle SocketServer.handle].
  - unfold Tasks.on_create_game, SocketServer.on_create_game.
    repeat first [ apply run_addToQueue | same_step ].
  - unfold Tasks.on_make_move, SocketServer.on_make_move. cbv zeta.
    repeat first [ apply run_addToQueue | same_step ].
  - unfold Tasks.on_end_game, SocketServer.on_end_game.
    repeat first [ apply run_addToQueue | same_step ].
  - unfold Tasks.on_mint_nft, SocketServer.on_mint_nft.
    repeat first [ apply run_addToQueue | same_step ].
  - unfold Tasks.on_nftMint, SocketServer.on_nftMint. cbv zeta.
    repeat first [ apply run_shouldEarnReward | apply run_enqueue_reward
                 | same_step ].
Qed.

Lemma run_cleanup : same_runs (run Tasks.cleanup) Database.cleanupOldTransactions.
Proof. apply same_refl. Qed.

(** the tick of the queue processor, the workers apart: [run] does not run
    the tasks that a task starts *)
Lemma run_start_all (players : list string) (task : string -> Prog unit) :
  same_runs (run (Tasks.start_all players task)) (ret tt).
Proof.
  induction players as [|p l IH]; simpl; [apply same_refl|exact IH].
Qed.

Lemma run_processQueue (fuel : nat) :
  same_runs (run (Tasks.processQueue fuel))
            (QueueService.processQueue ;;; ret tt).
Proof.
  unfold Tasks.processQueue, QueueService.processQueue. cbn [run].
  intros env w. unfold bind.
  destruct (QueueService.getAllPlayersWithPendingTransactions env w)
    as [[allPlayers|m] w1]; [|reflexivity].
  destruct (QueueService.mark_all allPlayers env w1) as [[started|m] w2];
    [|reflexivity].
  apply run_start_all.
Qed.

Lemma run_tick (fuel : nat) :
  same_runs (run (Tasks.tick fuel))
            (try_catch (QueueService.processQueue ;;; ret tt) (fun _ => ret tt)).
Proof.
  unfold Tasks.tick. cbn [run].
  apply same_try; [apply run_processQueue|intros _; apply same_refl].
Qed.

Lemma run_hourly :
  same_runs (run Tasks.hourly)
            (try_catch Database.cleanupOldTransactions (fun _ => ret tt)).
Proof. apply same_refl. Qed.

End UninterruptedFacts.


(** ** The store: [services/database.ts] *)

Module StoreFacts.
Import MFacts RunFacts RewardFacts DatabaseFacts IntakeFacts QueueInvariantFacts.

(** [addToQueue] adds at most the row of its [id]: it never changes and
    never removes a row that the queue holds, and writes no other table,
    whatever it is given and whether or not its queries fail. When the id
    is taken, an intent that is not a MintBadge is refused with an error
    and the row that holds the id stays as it is. *)
Theorem addToQueue_only_adds (env : Env) (w : World) (i : string)
    (t : TransactionType) (address : option string) (data : gmap string JS.json)
    (gameId playerId : option string) :
  (forall j r,
     transaction_queue (db w) !! j = Some r ->
     transaction_queue
       (db (snd (Database.addToQueue i t address data gameId playerId env w))) !! j
     = Some r)
  /\ (forall j,
        j <> i ->
        transaction_queue
          (db (snd (Database.addToQueue i t address data gameId playerId env w))) !! j
        = transaction_queue (db w) !! j)
  /\ other_tables (db (snd (Database.addToQueue i t address data gameId playerId env w)))
     = other_tables (db w)
  /\ (forall r,
        transaction_queue (db w) !! i = Some r ->
        Database.is_mint_nft t = false ->
        no_faults 1 w ->
        (exists m,
           fst (Database.addToQueue i t address data gameId playerId env w) = Throw m)
        /\ db (snd (Database.addToQueue i t address data gameId playerId env w)) = db w).
Proof.
  destruct (addToQueue_cases env w i t address data gameId playerId)
    as (res & w' & Hrun & Hcases).
  split; [|split; [|split]].
  - intros j r Hj. rewrite Hrun. cbn [snd].
    destruct Hcases as [->|(Hfree & _ & -> & _)]; [exact Hj|].
    cbn. rewrite lookup_insert_ne; [exact Hj|]. congruence.
  - intros j Hne. rewrite Hrun. cbn [snd].
    destruct Hcases as [->|(Hfree & _ & -> & _)]; [reflexivity|].
    cbn. apply lookup_insert_ne. congruence.
  - rewrite Hrun. cbn [snd].
    destruct Hcases as [->|(Hfree & _ & -> & _)]; reflexivity.
  - intros r Hi Ht Hcalm. clear res w' Hrun Hcases.
    unfold Database.addToQueue. cbv zeta. rewrite Ht. cbn [andb].
    rewrite pool_query_run by (apply (no_faults_next 0), Hcalm).
    unfold Database.insert_queue. rewrite Hi. cbn.
    split; [eexists; reflexivity|].
    destruct (db w); reflexivity.
Qed.

Lemma addToQueue_only_adds_witness :
  (exists m,
     fst (Database.addToQueue "t1" create_game (Some "0xB") ∅ None None Sample.env
            (Sample.world_of Sample.one_pending_db)) = Throw m)
  /\ db (snd (Database.addToQueue "t1" create_game (Some "0xB") ∅ None None Sample.env
                (Sample.world_of Sample.one_pending_db)))
     = Sample.one_pending_db.
Proof.
  apply (addToQueue_only_adds Sample.env (Sample.world_of Sample.one_pending_db)
           "t1" create_game (Some "0xB") ∅ None None)
    with (r := Sample.row create_game (Some "0xA") pending 0).
  - reflexivity.
  - reflexivity.
  - constructor.
Defined.

(** the row that an accepted [addToQueue] inserts *)
Lemma addToQueue_inserts (env : Env) (w : World) (i : string)
    (t : TransactionType) (address : option string) (data : gmap string JS.json)
    (gameId playerId : option string) :
  no_faults 1 w ->
  transaction_queue (db w) !! i = None ->
  Database.is_mint_nft t = false ->
  Database.addToQueue i t address data gameId playerId env w
  = (Ok tt,
     with_db (with_queue (<[i := new_row w t address data gameId playerId]>
                            (transaction_queue (db w))) (db w))
             (with_faults (tail (faults w)) w)).
Proof.
  intros Hcalm Hfree Ht.
  unfold Database.addToQueue. cbv zeta. rewrite Ht. cbn [andb].
  rewrite pool_query_run by (apply (no_faults_next 0), Hcalm).
  unfold Database.insert_queue. rewrite Hfree. reflexivity.
Qed.

Lemma head_of_singleton_members {A} (l : list A) (x : A) :
  In x l -> (forall y, In y l -> y = x) -> head l = Some x.
Proof.
  destruct l as [|y l]; [intros []|].
  intros _ H. simpl. f_equal. apply H. left. reflexivity.
Qed.

(** Enqueue, then claim. An intent that is not a MintBadge, enqueued
    under a fresh id for an actor, is what [getNextPendingTransaction]
    returns for that actor when the actor had no row to claim: the row has
    the type, the actor and the payload given, is pending and has no
    retry. When the actor had a row to claim that is older than the new
    one, the row returned is one of the rows that were there, not younger
    than any of them. *)
Theorem enqueue_then_claim (env : Env) (w : World) (i : string)
    (t : TransactionType) (a : string) (data : gmap string JS.json)
    (gameId playerId : option string) :
  no_faults 2 w ->
  transaction_queue (db w) !! i = None ->
  Database.is_mint_nft t = false ->
  i ∉ locked w ->
  ((forall j r, ~ claimable w (Some a) j r) ->
   fst ((Database.addToQueue i t (Some a) data gameId playerId ;;;
         Database.getNextPendingTransaction (Some a)) env w)
   = Ok (Some (mkItem i (new_row w t (Some a) data gameId playerId))))
  /\ (forall j r,
        claimable w (Some a) j r -> created_at r < clock w ->
        exists item,
          fst ((Database.addToQueue i t (Some a) data gameId playerId ;;;
                Database.getNextPendingTransaction (Some a)) env w)
          = Ok (Some item)
          /\ claimable w (Some a) (id item) (columns item)
          /\ forall j' r', claimable w (Some a) j' r' ->
                           created_at (columns item) <= created_at r').
Proof.
  intros Hcalm Hfree Ht Hlock.
  pose proof (addToQueue_inserts env w i t (Some a) data gameId playerId
                (no_faults_le 2 1 w ltac:(lia) Hcalm) Hfree Ht) as Hadd.
  set (new := new_row w t (Some a) data gameId playerId) in *.
  set (w1 := with_db _ _) in Hadd.
  assert (no_faults 1 w1) as Hcalm1 by (apply no_faults_tail, Hcalm).
  rewrite (bind_ok _ _ env w w1 tt Hadd).
  rewrite (getNextPendingTransaction_run env w1 (Some a) Hcalm1). cbn [fst].
  set (l := Database.order_by_created_at _).
  assert (forall y, In y l <->
            (y = mkItem i new
             \/ (id y <> i /\ claimable w (Some a) (id y) (columns y)))) as Hl.
  { intros y. unfold l. rewrite in_order_by_created_at, in_select_queue.
    change (transaction_queue (db w1))
      with (<[i := new]> (transaction_queue (db w))).
    change (locked w1) with (locked w).
    destruct (decide (id y = i)) as [Hy|Hy].
    - rewrite Hy, lookup_insert_eq. split.
      + intros [Heq _]. left. destruct y as [yi yc]. simpl in *. congruence.
      + intros [->|[Hne _]]; [|contradiction]. split; [reflexivity|].
        unfold Database.next_pending_cond. cbn.
        rewrite String.eqb_refl, bool_decide_eq_true_2 by exact Hlock.
        reflexivity.
    - rewrite lookup_insert_ne by congruence. split.
      + intros [Hq Hc]. right. split; [exact Hy|].
        apply (next_pending_cond_true w (Some a) _ _ Hq), Hc.
      + intros [->|[_ Hc]]; [contradiction Hy; reflexivity|].
        split; [apply Hc|].
        apply (next_pending_cond_true w (Some a) _ _ (proj1 Hc)), Hc. }
  split.
  - intros Hnone. f_equal. apply head_of_singleton_members.
    + apply Hl. left. reflexivity.
    + intros y Hy. apply Hl in Hy as [->|[_ Hc]]; [reflexivity|].
      exfalso. apply (Hnone _ _ Hc).
  - intros j r Hj Hold.
    pose proof (head_is_oldest_order_by
                  (Database.select_queue
                     (Database.next_pending_cond (Some a) (locked w1))
                     (transaction_queue (db w1)))) as Hhead.
    fold l in Hhead.
    assert (In (mkItem j r) l) as Hin.
    { apply Hl. right. simpl. split; [|exact Hj].
      intros ->. destruct Hj as [Hq _]. rewrite Hfree in Hq. discriminate. }
    destruct l as [|item l'] eqn:El; [destruct Hin|].
    exists item. split; [reflexivity|].
    simpl in Hhead.
    assert (created_at (columns item) <= created_at r) as Hle
      by (apply (Hhead (mkItem j r) Hin)).
    assert (In item (item :: l')) as Hitem by (left; reflexivity).
    apply Hl in Hitem as [->|[_ Hc]].
    + exfalso. simpl in Hle. unfold new, new_row in Hle. simpl in Hle. lia.
    + split; [exact Hc|]. intros j' r' Hj'.
      apply (Hhead (mkItem j' r')). apply Hl. right. simpl. split; [|exact Hj'].
      intros ->. destruct Hj' as [Hq _]. rewrite Hfree in Hq. discriminate.
Qed.

Lemma enqueue_then_claim_witness :
  fst ((Database.addToQueue "t9" make_move (Some "0xB") ∅ None None ;;;
        Database.getNextPendingTransaction (Some "0xB")) Sample.env
         (Sample.world_of Sample.one_pending_db))
  = Ok (Some (mkItem "t9"
                (new_row (Sample.world_of Sample.one_pending_db) make_move
                   (Some "0xB") ∅ None None))).
Proof.
  apply (enqueue_then_claim Sample.env (Sample.world_of Sample.one_pending_db)
           "t9" make_move "0xB" ∅ None None).
  - constructor.
  - reflexivity.
  - reflexivity.
  - apply not_elem_of_empty.
  - intros j r (Hq & _ & (a & Ha & Hr) & _).
    injection Ha as <-.
    change (transaction_queue (db (Sample.world_of Sample.one_pending_db)))
      with (<["t1" := Sample.row create_game (Some "0xA") pending 0]>
              (∅ : gmap string QueueRow)) in Hq.
    apply lookup_insert_Some in Hq as [[_ <-]|[_ Hq]].
    + discriminate Hr.
    + rewrite lookup_empty in Hq. discriminate.
Defined.

(** [cleanupOldTransactions] never throws, even when its query fails. It
    writes no other table and adds no row. It keeps every row that is
    pending, processing or waiting, and every completed or failed row that
    was processed less than 24 hours ago or has no processing time. When
    its query does not fail it deletes every completed or failed row
    processed more than 24 hours ago. *)
Theorem cleanup_deletes_only_old_rows (env : Env) (w : World) :
  fst (Database.cleanupOldTransactions env w) = Ok tt
  /\ other_tables (db (snd (Database.cleanupOldTransactions env w)))
     = other_tables (db w)
  /\ (forall i r,
        transaction_queue (db (snd (Database.cleanupOldTransactions env w))) !! i
        = Some r ->
        transaction_queue (db w) !! i = Some r)
  /\ (forall i r,
        transaction_queue (db w) !! i = Some r ->
        (status r <> completed /\ status r <> failed)
        \/ processed_at r = None
        \/ (exists t, processed_at r = Some t /\ clock w - 86400000 <= t) ->
        transaction_queue (db (snd (Database.cleanupOldTransactions env w))) !! i
        = Some r)
  /\ (forall i r t,
        next_fault w = None ->
        transaction_queue (db w) !! i = Some r ->
        status r = completed \/ status r = failed ->
        processed_at r = Some t ->
        t < clock w - 86400000 ->
        transaction_queue (db (snd (Database.cleanupOldTransactions env w))) !! i
        = None).
Proof.
  unfold Database.cleanupOldTransactions, try_catch, pool_query, ret.
  destruct (next_fault w) as [msg|] eqn:Hfault; cbn [fst snd].
  - split; [reflexivity|]. split; [reflexivity|]. split; [auto|]. split; [auto|].
    intros i r t Hf. discriminate Hf.
  - split; [reflexivity|]. split; [reflexivity|].
    change (transaction_queue (db (with_db ?d _))) with (transaction_queue d).
    cbn [transaction_queue with_queue].
    split; [|split].
    + intros i r H. apply map_lookup_filter_Some in H as [H _]. exact H.
    + intros i r Hq Hkeep. apply map_lookup_filter_Some. split; [exact Hq|].
      cbn [snd]. unfold Database.is_old.
      destruct Hkeep as [[Hc Hf]|[Hn|(t & Ht & Hle)]].
      * unfold Database.status_eqb.
        rewrite !bool_decide_eq_false_2 by assumption. reflexivity.
      * rewrite Hn. apply andb_false_r.
      * rewrite Ht. unfold Database.hours_24.
        replace (t <? clock w - 24 * 60 * 60 * 1000) with false
          by (symmetry; apply Z.ltb_ge; lia).
        apply andb_false_r.
    + intros i r t _ Hq Hs Ht Hlt.
      apply map_lookup_filter_None. right. intros r' Hq'. cbn [snd].
      rewrite Hq in Hq'. injection Hq' as <-.
      unfold Database.is_old. rewrite Ht. unfold Database.hours_24.
      replace (t <? clock w - 24 * 60 * 60 * 1000) with true
        by (symmetry; apply Z.ltb_lt; lia).
      unfold Database.status_eqb.
      destruct Hs as [-> | ->]; cbn; discriminate.
Qed.

Lemma cleanup_deletes_only_old_rows_witness :
  transaction_queue
    (db (snd (Database.cleanupOldTransactions Sample.env
                (Sample.world_of Sample.one_pending_db)))) !! "t1"
  = Some (Sample.row create_game (Some "0xA") pending 0).
Proof.
  apply (cleanup_deletes_only_old_rows Sample.env
           (Sample.world_of Sample.one_pending_db)).
  - reflexivity.
  - left. split; discriminate.
Defined.

Lemma update_first_reward_spec (p : string) (t : option string) (o : string)
    (now : Z) (rs : list RewardRow) :
  List.find (Database.reward_matches p t) rs <> None ->
  List.length (List.filter (Database.reward_matches p t)
                 (Database.update_first_reward p t o now rs))
  = List.length (List.filter (Database.reward_matches p t) rs)
  /\ List.filter (fun r => negb (Database.reward_matches p t r))
       (Database.update_first_reward p t o now rs)
     = List.filter (fun r => negb (Database.reward_matches p t r)) rs
  /\ exists r, In r (Database.update_first_reward p t o now rs)
               /\ Database.reward_matches p t r = true
               /\ reward_object_id r = Some o
               /\ reward_created_at r = now.
Proof.
  induction rs as [|r rs IH]; simpl; [intros H; contradiction H; reflexivity|].
  destruct (Database.reward_matches p t r) eqn:Hr; intros Hfind.
  - assert (Database.reward_matches p t
              (mkReward (reward_type r) (reward_player_id r) (Some o) now) = true)
      as Hr' by exact Hr.
    simpl. rewrite Hr'. simpl. split; [reflexivity|]. split; [reflexivity|].
    eexists. split; [left; reflexivity|]. split; [exact Hr'|]. split; reflexivity.
  - destruct (IH Hfind) as (Hlen & Hrest & r' & Hin & Hm & Ho & Hc).
    simpl. rewrite Hr. simpl. split; [exact Hlen|]. split; [f_equal; exact Hrest|].
    exists r'. split; [right; exact Hin|]. split; [exact Hm|]. split; assumption.
Qed.

Lemma find_none_of {A} (f : A -> bool) (l : list A) :
  (forall x, In x l -> f x = false) -> List.find f l = None.
Proof.
  induction l as [|x l IH]; simpl; [reflexivity|]. intros H.
  rewrite (H x) by (left; reflexivity). apply IH. intros y Hy. apply H. right. exact Hy.
Qed.

Lemma filter_nil_find {A} (f : A -> bool) (l : list A) :
  List.find f l = None -> List.filter f l = [].
Proof.
  induction l as [|x l IH]; simpl; [reflexivity|].
  destruct (f x); [discriminate|exact IH].
Qed.

(** what [createOrUpdateReward] does when its two queries do not fail *)
Lemma createOrUpdateReward_run (env : Env) (w : World) (p : string)
    (t : option string) (o : string) :
  no_faults 2 w ->
  exists w',
    Database.createOrUpdateReward p t o env w = (Ok tt, w')
    /\ transaction_queue (db w') = transaction_queue (db w)
    /\ games (db w') = games (db w)
    /\ clock w' = clock w
    /\ trace w' = trace w
    /\ faults w' = tail (tail (faults w))
    /\ rewards (db w')
       = match List.find (Database.reward_matches p t) (rewards (db w)) with
         | Some _ => Database.update_first_reward p t o (clock w) (rewards (db w))
         | None => (rewards (db w) ++ [mkReward t p (Some o) (clock w)])%list
         end.
Proof.
  intros Hcalm.
  unfold Database.createOrUpdateReward. rewrite try_rethrow.
  unfold bind at 1.
  rewrite pool_query_run by (apply (no_faults_next 1), Hcalm).
  cbn [fst snd].
  set (w1 := with_db (db w) (with_faults (tail (faults w)) w)).
  assert (next_fault w1 = None) as Hf1
    by (apply (no_faults_next 0), no_faults_tail, Hcalm).
  rewrite limit_1_filter.
  destruct (List.find _ _) as [r|] eqn:Hfind;
    rewrite (pool_query_run _ env w1 Hf1);
    eexists; (split; [reflexivity|]); repeat split; reflexivity.
Qed.

(** [createOrUpdateReward] is an upsert. When its two queries do not
    fail, the rewards table afterwards holds a row of the player and the
    reward type with the object id given and the time of the call; the
    number of rows of that player and type is what it was, or one when
    there was none; the other rows are as they were; the queue and the
    games are not written. With no reward type (an SQL NULL, which equals
    nothing) a row is added on every call. When it throws, nothing was
    written. *)
Theorem createOrUpdateReward_upserts (env : Env) (w : World) (p t o : string) :
  (no_faults 2 w ->
   fst (Database.createOrUpdateReward p (Some t) o env w) = Ok tt
   /\ (exists r,
         In r (rewards (db (snd (Database.createOrUpdateReward p (Some t) o env w))))
         /\ reward_player_id r = p
         /\ reward_type r = Some t
         /\ reward_object_id r = Some o
         /\ reward_created_at r = clock w)
   /\ List.length
        (List.filter (Database.reward_matches p (Some t))
           (rewards (db (snd (Database.createOrUpdateReward p (Some t) o env w)))))
      = Nat.max 1 (List.length
                     (List.filter (Database.reward_matches p (Some t))
                        (rewards (db w))))
   /\ List.filter (fun r => negb (Database.reward_matches p (Some t) r))
        (rewards (db (snd (Database.createOrUpdateReward p (Some t) o env w))))
      = List.filter (fun r => negb (Database.reward_matches p (Some t) r))
          (rewards (db w))
   /\ transaction_queue (db (snd (Database.createOrUpdateReward p (Some t) o env w)))
      = transaction_queue (db w)
   /\ games (db (snd (Database.createOrUpdateReward p (Some t) o env w)))
      = games (db w))
  /\ (no_faults 2 w ->
      rewards (db (snd (Database.createOrUpdateReward p None o env w)))
      = (rewards (db w) ++ [mkReward None p (Some o) (clock w)])%list)
  /\ (forall rewardType m,
        fst (Database.createOrUpdateReward p rewardType o env w) = Throw m ->
        db (snd (Database.createOrUpdateReward p rewardType o env w)) = db w).
Proof.
  split; [|split].
  - intros Hcalm.
    destruct (createOrUpdateReward_run env w p (Some t) o Hcalm)
      as (w' & Hrun & Hq & Hg & _ & _ & _ & Hr).
    rewrite Hrun. cbn [fst snd]. rewrite Hr.
    split; [reflexivity|].
    assert (forall r, Database.reward_matches p (Some t) r = true ->
                      reward_player_id r = p /\ reward_type r = Some t) as Hm.
    { intros r H. unfold Database.reward_matches in H.
      apply andb_true_iff in H as [H1 H2].
      apply String.eqb_eq in H1. apply sql_eq_true in H2 as (x & Hx & H2).
      injection Hx as <-. split; assumption. }
    destruct (List.find _ _) as [r0|] eqn:Hfind.
    + destruct (update_first_reward_spec p (Some t) o (clock w) (rewards (db w)))
        as (Hlen & Hrest & r & Hin & Hr' & Ho & Hc);
        [rewrite Hfind; discriminate|].
      split; [|split; [|split; [exact Hrest|split; assumption]]].
      * exists r. destruct (Hm r Hr') as [? ?]. repeat split; assumption.
      * rewrite Hlen.
        apply find_some in Hfind as [Hin0 Hr0].
        assert (In r0 (List.filter (Database.reward_matches p (Some t))
                         (rewards (db w)))) as Hin'
          by (apply filter_In; split; assumption).
        destruct (List.filter _ (rewards (db w))); [destruct Hin'|simpl; lia].
    + assert (Database.reward_matches p (Some t)
                (mkReward (Some t) p (Some o) (clock w)) = true) as Hnew.
      { unfold Database.reward_matches. cbn. rewrite !String.eqb_refl. reflexivity. }
      split; [|split; [|split; [|split; assumption]]].
      * eexists. split; [apply in_or_app; right; left; reflexivity|].
        repeat split; reflexivity.
      * rewrite List.filter_app, List.length_app, (filter_nil_find _ _ Hfind).
        simpl. rewrite Hnew. reflexivity.
      * rewrite List.filter_app. simpl. rewrite Hnew. simpl.
        apply app_nil_r.
  - intros Hcalm.
    destruct (createOrUpdateReward_run env w p None o Hcalm)
      as (w' & Hrun & _ & _ & _ & _ & _ & Hr).
    rewrite Hrun. cbn [snd]. rewrite Hr.
    replace (List.find (Database.reward_matches p None) (rewards (db w)))
      with (@None RewardRow); [reflexivity|].
    symmetry. apply find_none_of. intros r _.
    unfold Database.reward_matches.
    destruct (reward_type r); apply andb_false_r.
  - intros rewardType m.
    unfold Database.createOrUpdateReward. rewrite try_rethrow.
    unfold bind, pool_query.
    destruct (next_fault w); cbn [fst snd]; [reflexivity|].
    destruct (Database.limit_1 _); cbn [fst snd];
      (destruct (next_fault _); cbn [fst snd]; [reflexivity|discriminate]).
Qed.

Lemma createOrUpdateReward_upserts_witness :
  fst (Database.createOrUpdateReward "p1" (Some "first_game_won") "0xnew" Sample.env
         (Sample.world_of Sample.winner_db)) = Ok tt
  /\ rewards (db (snd (Database.createOrUpdateReward "p1" (Some "first_game_won")
                         "0xnew" Sample.env (Sample.world_of Sample.winner_db))))
     = [mkReward (Some "first_game_won") "p1" (Some "0xnew") 0].
Proof.
  destruct (createOrUpdateReward_upserts Sample.env (Sample.world_of Sample.winner_db)
              "p1" "first_game_won" "0xnew") as (H & _ & _).
  destruct H as (Hok & _); [constructor|].
  split; [exact Hok|reflexivity].
Defined.

Lemma released_twice (now : Z) (o : string) (r : QueueRow) :
  released now o (released now o r) = released now o r.
Proof.
  destruct r. unfold released, with_updated_at, with_status, with_transaction_data. cbn.
  f_equal. apply insert_insert_eq.
Qed.

(** one turn of the loop of [processWaitingMovesForGame] *)
Lemma release_one (env : Env) (w : World) (x o : string) :
  exists w1,
    try_catch (Database.updateWaitingTransactionWithObjectId x o)
              (fun _ => ret tt) env w = (Ok tt, w1)
    /\ clock w1 = clock w
    /\ trace w1 = trace w
    /\ other_tables (db w1) = other_tables (db w)
    /\ faults w1 = tail (faults w)
    /\ (transaction_queue (db w1) = transaction_queue (db w)
        \/ transaction_queue (db w1)
           = alter (released (clock w) o) x (transaction_queue (db w)))
    /\ (next_fault w = None ->
        transaction_queue (db w1)
        = alter (released (clock w) o) x (transaction_queue (db w))).
Proof.
  unfold try_catch, Database.updateWaitingTransactionWithObjectId, pool_query, ret.
  destruct (next_fault w) as [m|]; cbn [fst snd]; eexists; (split; [reflexivity|]);
    cbn; repeat split; auto.
  discriminate.
Qed.

Lemma release_all (env : Env) (o : string) (l : list TransactionQueueItem) :
  forall w,
  exists w',
    for_each l (fun transaction =>
      try_catch
        (Database.updateWaitingTransactionWithObjectId (id transaction) o)
        (fun _ => ret tt)) env w = (Ok tt, w')
    /\ clock w' = clock w
    /\ trace w' = trace w
    /\ other_tables (db w') = other_tables (db w)
    /\ (forall i, ~ In i (List.map id l) ->
                  transaction_queue (db w') !! i = transaction_queue (db w) !! i)
    /\ (forall i, transaction_queue (db w) !! i = None ->
                  transaction_queue (db w') !! i = None)
    /\ (calm w ->
        forall i, In i (List.map id l) ->
                  transaction_queue (db w') !! i
                  = released (clock w) o <$> transaction_queue (db w) !! i).
Proof.
  induction l as [|x l IH]; intros w.
  - exists w. simpl. repeat split; auto. intros _ i [].
  - destruct (release_one env w (id x) o)
      as (w1 & Hrun & Hc & Ht & Ho & Hf & Hq & Hq').
    destruct (IH w1) as (w' & Hrun' & Hc' & Ht' & Ho' & Hout & Hnone & Hin).
    exists w'. split.
    { change (for_each (x :: l) ?b) with (bind (b x) (fun _ => for_each l b)).
      rewrite (bind_ok _ _ env w w1 tt Hrun). exact Hrun'. }
    split; [congruence|]. split; [congruence|]. split; [congruence|].
    split; [|split].
    + intros i Hi. simpl in Hi. rewrite Hout by tauto.
      destruct Hq as [-> | ->]; [reflexivity|].
      apply lookup_alter_ne. tauto.
    + intros i Hi. apply Hnone.
      destruct Hq as [-> | ->]; [exact Hi|].
      destruct (decide (id x = i)) as [->|Hne].
      * rewrite lookup_alter_eq, Hi. reflexivity.
      * rewrite lookup_alter_ne by exact Hne. exact Hi.
    + intros Hcalm i Hi.
      assert (calm w1) as Hcalm1.
      { unfold calm in *. rewrite Hf. destruct (faults w); [exact Hcalm|].
        inversion Hcalm; assumption. }
      specialize (Hq' (calm_next w Hcalm)).
      destruct (in_dec string_dec i (List.map id l)) as [Hl|Hl].
      * rewrite (Hin Hcalm1 i Hl), Hc, Hq'.
        destruct (decide (id x = i)) as [->|Hne].
        -- rewrite lookup_alter_eq.
           destruct (transaction_queue (db w) !! i) as [r|]; [|reflexivity].
           simpl. f_equal. apply released_twice.
        -- rewrite lookup_alter_ne by exact Hne. reflexivity.
      * rewrite (Hout i Hl), Hq'.
        destruct Hi as [->|Hi]; [|contradiction].
        apply lookup_alter_eq.
Qed.

(** what [processWaitingMovesForGame] does to the world *)
Lemma processWaitingMovesForGame_run (env : Env) (w : World) (g o : string) :
  exists w',
    TransactionProcessor.processWaitingMovesForGame g o env w = (Ok tt, w')
    /\ clock w' = clock w
    /\ trace w' = trace w
    /\ other_tables (db w') = other_tables (db w)
    /\ (forall i r, transaction_queue (db w) !! i = Some r ->
                    Database.waiting_cond g i r = false ->
                    transaction_queue (db w') !! i = Some r)
    /\ (forall i, transaction_queue (db w) !! i = None ->
                  transaction_queue (db w') !! i = None)
    /\ (calm w ->
        calm w'
        /\ forall i r, transaction_queue (db w) !! i = Some r ->
                       Database.waiting_cond g i r = true ->
                       transaction_queue (db w') !! i
                       = Some (released (clock w) o r)).
Proof.
  unfold TransactionProcessor.processWaitingMovesForGame,
    Database.getWaitingTransactionsForGame.
  unfold try_catch at 1, bind, pool_query.
  destruct (next_fault w) as [m|] eqn:Hfault; cbn [fst snd].
  - eexists. split; [reflexivity|]. cbn.
    split; [reflexivity|]. split; [reflexivity|]. split; [reflexivity|].
    split; [auto|]. split; [auto|].
    intros Hcalm. rewrite (calm_next w Hcalm) in Hfault. discriminate.
  - set (w1 := with_db (db w) (with_faults (tail (faults w)) w)).
    set (l := Database.order_by_created_at _).
    assert (forall i, In i (List.map id l) <->
              exists r, transaction_queue (db w) !! i = Some r
                        /\ Database.waiting_cond g i r = true) as Hl.
    { intros i. rewrite in_map_iff. split.
      - intros (x & <- & Hx). unfold l in Hx.
        rewrite in_order_by_created_at, in_select_queue in Hx.
        exists (columns x). exact Hx.
      - intros (r & Hq & Hc). exists (mkItem i r). split; [reflexivity|].
        unfold l. rewrite in_order_by_created_at, in_select_queue.
        split; assumption. }
    destruct (release_all env o l w1)
      as (w' & Hrun & Hc & Ht & Ho & Hout & Hnone & Hin).
    assert ((match l with
             | [] => ret tt
             | _ :: _ =>
                 for_each l (fun transaction =>
                   try_catch
                     (Database.updateWaitingTransactionWithObjectId
                        (id transaction) o)
                     (fun _ => ret tt))
             end) env w1 = (Ok tt, w')) as Hrun'.
    { destruct l; [|exact Hrun]. simpl in Hrun. exact Hrun. }
    rewrite Hrun'. cbn [fst snd].
    exists w'. split; [reflexivity|].
    split; [exact Hc|]. split; [exact Ht|]. split; [exact Ho|].
    split; [|split].
    + intros i r Hq Hcond. rewrite Hout; [exact Hq|].
      intros Hi. apply Hl in Hi as (r' & Hq' & Hc').
      change (transaction_queue (db w1)) with (transaction_queue (db w)) in Hq.
      congruence.
    + exact Hnone.
    + intros Hcalm.
      assert (calm w1) as Hcalm1 by (apply calm_tail, Hcalm).
      split.
      * assert (FrameFacts_calm : forall xs w0,
                  calm w0 ->
                  calm (snd (for_each xs (fun transaction =>
                               try_catch
                                 (Database.updateWaitingTransactionWithObjectId
                                    (id transaction) o)
                                 (fun _ => ret tt)) env w0))).
        { induction xs as [|x xs IHxs]; intros w0 H0; [exact H0|].
          destruct (release_one env w0 (id x) o)
            as (w2 & Hrun2 & _ & _ & _ & Hf2 & _).
          change (for_each (x :: xs) ?b) with (bind (b x) (fun _ => for_each xs b)).
          rewrite (bind_ok _ _ env w0 w2 tt Hrun2). apply IHxs.
          unfold calm in *. rewrite Hf2. destruct (faults w0); [exact H0|].
          inversion H0; assumption. }
        specialize (FrameFacts_calm l w1 Hcalm1). rewrite Hrun in FrameFacts_calm.
        exact FrameFacts_calm.
      * intros i r Hq Hcond.
        rewrite (Hin Hcalm1 i) by (apply Hl; exists r; split; assumption).
        change (transaction_queue (db w1)) with (transaction_queue (db w)).
        rewrite Hq. reflexivity.
Qed.

(** [processWaitingMovesForGame] never throws. It writes the queue only:
    no other table, no event. It adds and removes no row, and leaves as
    they are the rows that do not wait for the game. When no query fails,
    every row that waits for the game becomes pending, with the object id
    of the game in its payload under [gameObjectId], the rest of the
    payload and the other columns being kept. *)
Theorem waiting_moves_are_released (env : Env) (w : World) (g o : string) :
  fst (TransactionProcessor.processWaitingMovesForGame g o env w) = Ok tt
  /\ other_tables (db (snd (TransactionProcessor.processWaitingMovesForGame g o env w)))
     = other_tables (db w)
  /\ trace (snd (TransactionProcessor.processWaitingMovesForGame g o env w)) = trace w
  /\ (forall i,
        transaction_queue (db w) !! i = None ->
        transaction_queue
          (db (snd (TransactionProcessor.processWaitingMovesForGame g o env w))) !! i
        = None)
  /\ (forall i r,
        transaction_queue (db w) !! i = Some r ->
        game_id r <> Some g \/ status r <> waiting_for_object_id ->
        transaction_queue
          (db (snd (TransactionProcessor.processWaitingMovesForGame g o env w))) !! i
        = Some r)
  /\ (forall i r,
        calm w ->
        transaction_queue (db w) !! i = Some r ->
        game_id r = Some g ->
        status r = waiting_for_object_id ->
        exists r',
          transaction_queue
            (db (snd (TransactionProcessor.processWaitingMovesForGame g o env w))) !! i
          = Some r'
          /\ status r' = pending
          /\ transaction_data r'
             = <["gameObjectId" := JS.JStr o]> (transaction_data r)
          /\ updated_at r' = clock w
          /\ transaction_type r' = transaction_type r
          /\ player_sui_address r' = player_sui_address r
          /\ game_id r' = game_id r
          /\ player_id r' = player_id r
          /\ retries r' = retries r
          /\ created_at r' = created_at r
          /\ error_message r' = error_message r
          /\ processed_at r' = processed_at r).
Proof.
  destruct (processWaitingMovesForGame_run env w g o)
    as (w' & Hrun & _ & Ht & Ho & Hout & Hnone & Hin).
  rewrite Hrun. cbn [fst snd].
  split; [reflexivity|]. split; [exact Ho|]. split; [exact Ht|].
  split; [exact Hnone|]. split.
  - intros i r Hq Hnot. apply (Hout i r Hq).
    unfold Database.waiting_cond.
    destruct Hnot as [Hg|Hs].
    + replace (JS.sql_eq (game_id r) (Some g)) with false; [reflexivity|].
      symmetry. apply not_true_is_false. intros H.
      apply sql_eq_true in H as (x & Hx & H). congruence.
    + unfold Database.status_eqb. rewrite bool_decide_eq_false_2 by exact Hs.
      apply andb_false_r.
  - intros i r Hcalm Hq Hg Hs.
    destruct (Hin Hcalm) as [_ Hrel].
    eexists. split.
    + apply (Hrel i r Hq). unfold Database.waiting_cond.
      rewrite Hg, Hs. cbn. rewrite String.eqb_refl. reflexivity.
    + repeat split; reflexivity.
Qed.

Lemma waiting_moves_are_released_witness :
  exists r',
    transaction_queue
      (db (snd (TransactionProcessor.processWaitingMovesForGame "g1" "0xgame"
                  Sample.env
                  (Sample.world_of
                     (Sample.db_of_queue
                        (<["m1" := mkRow make_move (Some "0xA") (Some "g1") None
                                     waiting_for_object_id ∅ None 0 0 None 0]> ∅))))))
      !! "m1" = Some r'
    /\ status r' = pending
    /\ transaction_data r' = <["gameObjectId" := JS.JStr "0xgame"]> ∅.
Proof.
  destruct (waiting_moves_are_released Sample.env
              (Sample.world_of
                 (Sample.db_of_queue
                    (<["m1" := mkRow make_move (Some "0xA") (Some "g1") None
                                 waiting_for_object_id ∅ None 0 0 None 0]> ∅)))
              "g1" "0xgame") as (_ & _ & _ & _ & _ & H).
  destruct (H "m1" (mkRow make_move (Some "0xA") (Some "g1") None
                      waiting_for_object_id ∅ None 0 0 None 0))
    as (r' & Hq & Hs & Hd & _).
  - constructor.
  - reflexivity.
  - reflexivity.
  - reflexivity.
  - exists r'. split; [exact Hq|]. split; [exact Hs|exact Hd].
Defined.

End StoreFacts.


(** ** The workers: [services/queue-service.ts] *)

Module AttemptFacts.
Import MFacts RunFacts DatabaseFacts IntakeFacts QueueInvariantFacts FrameFacts.

(** the [catch] block on a store whose next three queries do not fail *)
Lemma catch_run (env : Env) (w : World) (playerAddress : string)
    (transaction : TransactionQueueItem) (msg : string) :
  no_faults 3 w ->
  exists w',
    QueueService.processPlayerQueue_catch playerAddress transaction msg env w
    = (Ok tt, w')
    /\ other_tables (db w') = other_tables (db w)
    /\ (calm w -> calm w')
    /\ transaction_queue (db w')
       = (let q1 := alter (fun r => with_updated_at (clock w)
                                      (with_retries (retries r + 1) r))
                          (id transaction) (transaction_queue (db w)) in
          if maxRetries (config env) <=? retries (columns transaction) + 1
          then
            let q2 := alter (Database.update_status_row failed (Some msg) (clock w))
                            (id transaction) q1 in
            if Database.is_mint_nft (transaction_type (columns transaction))
            then q2 else delete (id transaction) q2
          else alter (Database.update_status_row pending (Some msg) (clock w))
                     (id transaction) q1)
    /\ clock w'
       = (if maxRetries (config env) <=? retries (columns transaction) + 1
          then clock w
          else clock w
               + Z.max 0 ((if QueueService.isVersionMismatch_retry msg
                              && Database.is_mint_nft
                                   (transaction_type (columns transaction))
                           then 2000 else retryDelayMs (config env))
                          * (retries (columns transaction) + 1))).
Proof.
  intros Hf.
  unfold QueueService.processPlayerQueue_catch. cbv zeta.
  unfold bind at 1. unfold Database.incrementRetries.
  rewrite pool_query_run by (apply (no_faults_next 2), Hf).
  cbn [fst snd].
  set (w1 := with_db _ _).
  assert (no_faults 2 w1) as Hf1 by (apply no_faults_tail, Hf).
  assert (calm w -> calm w1) as Hc1 by (intros H; apply calm_tail, H).
  unfold bind at 1. unfold ask at 1. cbn [fst snd].
  destruct (maxRetries (config env) <=? retries (columns transaction) + 1).
  - unfold bind at 1. unfold Database.updateTransactionStatus.
    rewrite pool_query_run by (apply (no_faults_next 1), Hf1).
    cbn [fst snd].
    set (w2 := with_db _ _).
    assert (no_faults 1 w2) as Hf2 by (apply no_faults_tail, Hf1).
    assert (calm w -> calm w2) as Hc2 by (intros H; apply calm_tail, Hc1, H).
    assert (exists w3,
              (if negb (QueueService.isNftAlreadyExists
                          (transaction_type (columns transaction)) msg)
                  && negb (QueueService.isVersionMismatch_failed msg)
               then emit (room playerAddress) "transaction:result"
                      [("transactionId", JS.JStr (id transaction));
                       ("status", JS.JStr "error");
                       ("error", JS.JStr msg)]
               else ret tt) env w2 = (Ok tt, w3)
              /\ db w3 = db w2 /\ faults w3 = faults w2 /\ clock w3 = clock w2)
      as (w3 & Hemit & Hdb3 & Hf3 & Hcl3).
    { destruct (_ && _); eexists; (split; [reflexivity|]); repeat split. }
    rewrite (bind_ok _ _ env w2 w3 tt Hemit).
    destruct (Database.is_mint_nft (transaction_type (columns transaction)));
      cbn [negb].
    + exists w3. split; [reflexivity|]. rewrite Hdb3, Hcl3.
      split; [reflexivity|]. split; [|split; reflexivity].
      intros H. unfold calm. rewrite Hf3. apply Hc2, H.
    + unfold Database.deleteTransaction. rewrite try_rethrow.
      rewrite pool_query_run.
      2:{ unfold next_fault. rewrite Hf3. apply (no_faults_next 0 w2 Hf2). }
      cbn [fst snd]. eexists. split; [reflexivity|]. cbn. rewrite Hdb3, Hcl3.
      split; [reflexivity|]. split; [|split; reflexivity].
      intros H. rewrite Hf3. specialize (Hc2 H). unfold calm in Hc2.
      destruct (faults w2); [exact Hc2|]. inversion Hc2; assumption.
  - unfold bind at 1. unfold Database.updateTransactionStatus.
    rewrite pool_query_run by (apply (no_faults_next 1), Hf1).
    cbn [fst snd]. eexists. split; [reflexivity|]. cbn.
    split; [reflexivity|]. split; [|split; reflexivity].
    intros H. apply (calm_tail _ (db w)) in H. apply (calm_tail _ (db w)) in H.
    exact H.
Qed.

(** the columns of a row after a failure was recorded *)
Lemma recorded_failure (s : TransactionStatus) (msg : string) (now : Z) (r : QueueRow) :
  let r' := Database.update_status_row s (Some msg) now
              (with_updated_at now (with_retries (retries r + 1) r)) in
  status r' = s
  /\ retries r' = retries r + 1
  /\ error_message r' = (if String.eqb msg "" then error_message r else Some msg)
  /\ processed_at r'
     = (if Database.status_eqb s completed || Database.status_eqb s failed
        then Some now else processed_at r)
  /\ updated_at r' = now
  /\ transaction_type r' = transaction_type r
  /\ player_sui_address r' = player_sui_address r
  /\ player_id r' = player_id r
  /\ game_id r' = game_id r
  /\ transaction_data r' = transaction_data r
  /\ created_at r' = created_at r.
Proof.
  unfold Database.update_status_row, JS.truthy_opt, JS.truthy_string.
  destruct (String.eqb msg ""); cbn [negb];
    destruct (_ || _); repeat split; reflexivity.
Qed.



(** a store that does not fail stays so, whatever runs *)
Lemma calm_faults (w : World) : calm w -> calm (with_faults (tail (faults w)) w).
Proof.
  unfold calm. cbn. intros H. destruct (faults w); [exact H|].
  inversion H; assumption.
Qed.

Ltac calm_frame lemma :=
  apply lemma;
  first [ exact calm_faults | intros ? ? H; exact H ].

Lemma calm_processTransaction (env : Env) (transaction : TransactionQueueItem) :
  keeps env calm (TransactionProcessor.processTransaction transaction).
Proof. calm_frame frame_processTransaction. Qed.

Lemma calm_reconcile_and_notify (env : Env) (transaction : TransactionQueueItem)
    (digest : string) :
  keeps env calm (TransactionProcessor.reconcile_and_notify transaction digest).
Proof. calm_frame frame_reconcile_and_notify. Qed.

Lemma calm_processPlayerQueue (env : Env) (playerAddress : string) (fuel : nat) :
  keeps env calm (QueueService.processPlayerQueue fuel playerAddress).
Proof. calm_frame frame_processPlayerQueue. Qed.

Lemma calm_processQueue (env : Env) :
  keeps env calm QueueService.processQueue.
Proof. calm_frame frame_processQueue. Qed.

Lemma calm_handle (env : Env) (request : SocketServer.Request) :
  keeps env calm (SocketServer.handle request).
Proof. calm_frame frame_handle. Qed.

(** [build_and_execute] writes neither the store nor the clock *)
Lemma build_and_execute_reads (env : Env) (transaction : TransactionQueueItem)
    (w : World) :
  db (snd (TransactionProcessor.build_and_execute transaction env w)) = db w
  /\ clock (snd (TransactionProcessor.build_and_execute transaction env w)) = clock w
  /\ faults (snd (TransactionProcessor.build_and_execute transaction env w)) = faults w
  /\ polls (snd (TransactionProcessor.build_and_execute transaction env w)) = polls w.
Proof.
  apply (frame_build_and_execute env
           (fun w' => db w' = db w /\ clock w' = clock w /\ faults w' = faults w
                      /\ polls w' = polls w)).
  - intros w' t H. exact H.
  - intros w' t H. exact H.
  - intros w' t H. exact H.
  - repeat split.
Qed.

(** [processTransaction] throws only while it builds and executes: by
    then it has written nothing in the store *)
Lemma processTransaction_cases (env : Env) (w : World)
    (transaction : TransactionQueueItem) :
  calm w ->
  (exists w',
     TransactionProcessor.processTransaction transaction env w = (Ok tt, w')
     /\ calm w')
  \/ (exists m w',
        TransactionProcessor.processTransaction transaction env w = (Throw m, w')
        /\ calm w' /\ db w' = db w /\ clock w' = clock w).
Proof.
  intros Hcalm.
  pose proof (build_and_execute_reads env transaction w) as (Hdb & Hcl & Hfl & _).
  unfold TransactionProcessor.processTransaction, bind.
  destruct (TransactionProcessor.build_and_execute transaction env w)
    as [[digest|m] w1] eqn:Hb; cbn [fst snd] in *.
  - left.
    destruct (ReconcileFacts.reconcile_and_notify_run env w1 transaction digest)
      as (objectId & w' & l & Hrun & _).
    exists w'. split; [exact Hrun|].
    assert (calm w1) as Hcalm1 by (unfold calm; rewrite Hfl; exact Hcalm).
    pose proof (calm_reconcile_and_notify env transaction digest w1 Hcalm1) as H.
    rewrite Hrun in H. exact H.
  - right. exists m, w1. split; [reflexivity|].
    split; [unfold calm; rewrite Hfl; exact Hcalm|]. split; assumption.
Qed.

Lemma attempt_run (env : Env) (w : World) (playerAddress : string)
    (transaction : TransactionQueueItem) (r : QueueRow) :
  calm w ->
  transaction_queue (db w) !! id transaction = Some r ->
  exists w',
    try_catch
      (QueueService.processPlayerQueue_try playerAddress transaction)
      (QueueService.processPlayerQueue_catch playerAddress transaction) env w
    = (Ok tt, w')
    /\ (transaction_queue (db w') !! id transaction = None
        \/ (exists r',
              transaction_queue (db w') !! id transaction = Some r'
              /\ status r' = failed
              /\ retries r' = retries r + 1
              /\ transaction_type (columns transaction) = mint_nft
              /\ maxRetries (config env) <= retries (columns transaction) + 1)
        \/ (exists r',
              transaction_queue (db w') !! id transaction = Some r'
              /\ status r' = pending
              /\ retries r' = retries r + 1
              /\ retries (columns transaction) + 1 < maxRetries (config env))).
Proof.
  intros Hcalm Hq.
  unfold QueueService.processPlayerQueue_try.
  unfold try_catch. unfold bind at 1. unfold Database.updateTransactionStatus at 1.
  rewrite (query_calm _ env w Hcalm). cbn [fst snd].
  set (w1 := with_db _ _).
  assert (calm w1) as Hcalm1 by (apply calm_tail, Hcalm).
  unfold bind at 1. unfold emit at 1, effect, modify. cbn [fst snd].
  set (w2 := with_trace _ w1).
  assert (calm w2) as Hcalm2 by exact Hcalm1.
  unfold bind at 1.
  destruct (processTransaction_cases env w2 transaction Hcalm2)
    as [(w3 & Hrun & Hcalm3)|(m & w3 & Hrun & Hcalm3 & Hdb3 & Hcl3)];
    rewrite Hrun.
  - unfold bind at 1. unfold Database.updateTransactionStatus.
    rewrite (query_calm _ env w3 Hcalm3). cbn [fst snd].
    unfold Database.deleteTransaction. rewrite try_rethrow.
    rewrite query_calm by (apply calm_tail, Hcalm3).
    cbn [fst snd]. eexists. split; [reflexivity|]. left.
    apply lookup_delete_eq.
  - set (r1 := Database.update_status_row processing None (clock w) r).
    assert (transaction_queue (db w3) !! id transaction = Some r1) as Hq3.
    { rewrite Hdb3. cbn. rewrite lookup_alter_eq, Hq. reflexivity. }
    destruct (catch_run env w3 playerAddress transaction m
                (calm_no_faults 3 w3 Hcalm3))
      as (w4 & Hrun4 & _ & _ & Hq4 & _).
    rewrite Hrun4. exists w4. split; [reflexivity|].
    cbv zeta in Hq4. rewrite Hq4.
    destruct (recorded_failure failed m (clock w3) r1) as (Hs1 & Hn1 & _).
    destruct (recorded_failure pending m (clock w3) r1) as (Hs2 & Hn2 & _).
    destruct (maxRetries (config env) <=? retries (columns transaction) + 1)
      eqn:Hmax.
    + apply Z.leb_le in Hmax.
      destruct (transaction_type (columns transaction)) eqn:Ht;
        cbn [Database.is_mint_nft];
        try (left; apply lookup_delete_eq).
      right. left. rewrite !lookup_alter_eq, Hq3.
      eexists. split; [reflexivity|]. repeat split; assumption.
    + apply Z.leb_gt in Hmax. right. right.
      rewrite !lookup_alter_eq, Hq3.
      eexists. split; [reflexivity|]. repeat split; assumption.
Qed.

(** One attempt settles the row. On a store that does not fail, whatever
    the chain answers, one turn of the loop of [processPlayerQueue] on a
    row of the queue ends without an error and leaves the row in one of
    three states: deleted (the intent was executed, or it failed for the
    last time and is not a MintBadge); failed, with one more retry (a
    MintBadge at its last retry); or pending, with one more retry. The row
    is never left in processing. *)
Theorem attempt_settles_row (env : Env) (w : World) (playerAddress : string)
    (transaction : TransactionQueueItem) (r : QueueRow) :
  calm w ->
  transaction_queue (db w) !! id transaction = Some r ->
  fst (try_catch
         (QueueService.processPlayerQueue_try playerAddress transaction)
         (QueueService.processPlayerQueue_catch playerAddress transaction) env w)
  = Ok tt
  /\ (transaction_queue
        (db (snd (try_catch
                    (QueueService.processPlayerQueue_try playerAddress transaction)
                    (QueueService.processPlayerQueue_catch playerAddress transaction)
                    env w))) !! id transaction = None
      \/ (exists r',
            transaction_queue
              (db (snd (try_catch
                          (QueueService.processPlayerQueue_try playerAddress transaction)
                          (QueueService.processPlayerQueue_catch
                             playerAddress transaction)
                          env w))) !! id transaction = Some r'
            /\ status r' = failed
            /\ retries r' = retries r + 1
            /\ transaction_type (columns transaction) = mint_nft
            /\ maxRetries (config env) <= retries (columns transaction) + 1)
      \/ (exists r',
            transaction_queue
              (db (snd (try_catch
                          (QueueService.processPlayerQueue_try playerAddress transaction)
                          (QueueService.processPlayerQueue_catch
                             playerAddress transaction)
                          env w))) !! id transaction = Some r'
            /\ status r' = pending
            /\ retries r' = retries r + 1
            /\ retries (columns transaction) + 1 < maxRetries (config env))).
Proof.
  intros Hcalm Hq.
  destruct (attempt_run env w playerAddress transaction r Hcalm Hq)
    as (w' & Hrun & H).
  rewrite Hrun. cbn [fst snd]. split; [reflexivity|exact H].
Qed.

Lemma attempt_settles_row_witness :
  fst (try_catch
         (QueueService.processPlayerQueue_try "0xA"
            (mkItem "t1" (Sample.row create_game (Some "0xA") pending 0)))
         (QueueService.processPlayerQueue_catch "0xA"
            (mkItem "t1" (Sample.row create_game (Some "0xA") pending 0)))
         Sample.env (Sample.world_of Sample.one_pending_db))
  = Ok tt.
Proof.
  apply (attempt_settles_row Sample.env (Sample.world_of Sample.one_pending_db)
           "0xA" (mkItem "t1" (Sample.row create_game (Some "0xA") pending 0))
           (Sample.row create_game (Some "0xA") pending 0)).
  - constructor.
  - reflexivity.
Defined.

End AttemptFacts.


(** ** The dispatcher: [processQueue] and the loop of a worker *)

Module DispatchFacts.
Import MFacts RunFacts DatabaseFacts IntakeFacts QueueInvariantFacts FrameFacts.

Lemma nodup_distinct (l : list string) : List.NoDup (QueueService.distinct l).
Proof.
  induction l as [|x l IH]; simpl; [constructor|].
  constructor.
  - intros H. apply filter_In in H as [_ H]. rewrite String.eqb_refl in H.
    discriminate.
  - apply List.NoDup_filter, IH.
Qed.

Lemma nodup_firstn {A} (n : nat) (l : list A) :
  List.NoDup l -> List.NoDup (firstn n l).
Proof.
  revert l. induction n as [|n IH]; intros [|x l] H; simpl; try constructor.
  - inversion H as [|? ? Hx Hl]; subst. intros Hin. apply Hx.
    apply (in_firstn _ _ _ Hin).
  - inversion H; subst. apply IH. assumption.
Qed.

Lemma distinct_in (x : string) (l : list string) :
  In x l -> In x (QueueService.distinct l).
Proof.
  induction l as [|y l IH]; simpl; [tauto|].
  intros [->|H]; [left; reflexivity|].
  destruct (String.eqb y x) eqn:Hyx.
  - left. apply String.eqb_eq, Hyx.
  - right. apply filter_In. split; [apply IH, H|]. rewrite Hyx. reflexivity.
Qed.

(** the scan only reads, and lists addresses of pending rows *)
Lemma scan_run_reads (env : Env) (w : World) (players : list string) (w1 : World) :
  QueueService.getAllPlayersWithPendingTransactions env w = (Ok players, w1) ->
  db w1 = db w /\ trace w1 = trace w /\ processingPlayers w1 = processingPlayers w
  /\ forall a, In a players ->
       exists i r,
         transaction_queue (db w) !! i = Some r
         /\ status r = pending
         /\ player_sui_address r <> None
         /\ QueueService.address_of (mkItem i r) = a.
Proof.
  unfold QueueService.getAllPlayersWithPendingTransactions, pool_query.
  destruct (next_fault w); cbn [fst snd]; [discriminate|].
  intros [= <- <-]. split; [destruct (db w); reflexivity|].
  split; [reflexivity|]. split; [reflexivity|].
  intros a Ha.
  apply scanned_player_has_row in Ha as (x & Hx & Ha).
  apply in_select_queue in Hx as [Hq Hc].
  exists (id x), (columns x). split; [exact Hq|].
  unfold QueueService.scan_cond in Hc. apply andb_true_iff in Hc as [Hs Hp].
  apply status_eqb_true in Hs. split; [exact Hs|].
  split; [destruct (player_sui_address (columns x)); [discriminate|discriminate Hp]|].
  destruct x; exact Ha.
Qed.

(** The scan of the dispatcher. The addresses that
    [getAllPlayersWithPendingTransactions] returns are distinct and at
    most 100; each one is the address of a pending row with an address;
    the first one is the address of a row that is not younger than any
    other such row; and when fewer than 100 are returned, the address of
    every pending row with an address is among them. The store is only
    read. *)
Theorem scan_lists_pending_actors (env : Env) (w : World) (players : list string) :
  fst (QueueService.getAllPlayersWithPendingTransactions env w) = Ok players ->
  List.NoDup players
  /\ (List.length players <= 100)%nat
  /\ db (snd (QueueService.getAllPlayersWithPendingTransactions env w)) = db w
  /\ (forall a, In a players ->
        exists i r,
          transaction_queue (db w) !! i = Some r
          /\ status r = pending
          /\ player_sui_address r <> None
          /\ QueueService.address_of (mkItem i r) = a)
  /\ (match players with
      | [] => True
      | a :: _ =>
          exists i r,
            transaction_queue (db w) !! i = Some r
            /\ QueueService.scan_cond i r = true
            /\ QueueService.address_of (mkItem i r) = a
            /\ forall j r',
                 transaction_queue (db w) !! j = Some r' ->
                 QueueService.scan_cond j r' = true ->
                 created_at r <= created_at r'
      end)
  /\ ((List.length players < 100)%nat ->
      forall i r,
        transaction_queue (db w) !! i = Some r ->
        status r = pending ->
        player_sui_address r <> None ->
        In (QueueService.address_of (mkItem i r)) players).
Proof.
  unfold QueueService.getAllPlayersWithPendingTransactions, pool_query.
  destruct (next_fault w); cbn [fst snd]; [discriminate|].
  intros [= <-].
  set (rows := Database.select_queue QueueService.scan_cond (transaction_queue (db w))).
  set (sorted := Database.order_by_created_at rows).
  assert (forall i r, transaction_queue (db w) !! i = Some r ->
                      (QueueService.scan_cond i r = true
                       <-> status r = pending /\ player_sui_address r <> None))
    as Hcond.
  { intros i r _. unfold QueueService.scan_cond. rewrite andb_true_iff.
    rewrite status_eqb_true. destruct (player_sui_address r); split.
    - intros [H _]. split; [exact H|discriminate].
    - intros [H _]. split; [exact H|reflexivity].
    - intros [_ H]. discriminate.
    - intros [_ H]. contradiction H; reflexivity. }
  split; [apply nodup_firstn, nodup_distinct|].
  split; [apply firstn_le_length|].
  split; [destruct (db w); reflexivity|].
  split; [|split].
  - intros a Ha.
    apply scanned_player_has_row in Ha as (x & Hx & Ha).
    apply in_select_queue in Hx as [Hq Hc].
    exists (id x), (columns x). split; [exact Hq|].
    apply (Hcond _ _ Hq) in Hc as [Hs Hp].
    split; [exact Hs|]. split; [exact Hp|].
    destruct x; exact Ha.
  - pose proof (head_is_oldest_order_by rows) as Hhead. fold sorted in Hhead.
    assert (forall y, In y sorted <-> In y rows) as Hin
      by (intros y; apply in_order_by_created_at).
    destruct sorted as [|x sorted']; [exact I|].
    simpl. exists (id x), (columns x).
    assert (In x rows) as Hx by (apply Hin; left; reflexivity).
    apply in_select_queue in Hx as [Hq Hc].
    split; [exact Hq|]. split; [exact Hc|]. split; [destruct x; reflexivity|].
    intros j r' Hj Hcj.
    apply (Hhead (mkItem j r')). apply Hin, in_select_queue. split; assumption.
  - intros Hlen i r Hq Hs Hp.
    rewrite firstn_all2.
    + apply distinct_in, in_map_iff. exists (mkItem i r). split; [reflexivity|].
      apply in_order_by_created_at, in_select_queue. split; [exact Hq|].
      apply (Hcond _ _ Hq). split; assumption.
    + rewrite List.length_firstn in Hlen. lia.
Qed.

Lemma scan_lists_pending_actors_witness :
  fst (QueueService.getAllPlayersWithPendingTransactions Sample.env
         (Sample.world_of Sample.one_pending_db)) = Ok ["0xA"]
  /\ In (QueueService.address_of
           (mkItem "t1" (Sample.row create_game (Some "0xA") pending 0)))
        ["0xA"].
Proof.
  assert (fst (QueueService.getAllPlayersWithPendingTransactions Sample.env
                 (Sample.world_of Sample.one_pending_db)) = Ok ["0xA"]) as Hrun
    by (vm_compute; reflexivity).
  split; [exact Hrun|].
  destruct (scan_lists_pending_actors Sample.env
              (Sample.world_of Sample.one_pending_db) ["0xA"] Hrun)
    as (_ & _ & _ & _ & _ & H).
  apply (H ltac:(simpl; lia) "t1" (Sample.row create_game (Some "0xA") pending 0)).
  - reflexivity.
  - reflexivity.
  - discriminate.
Defined.

Lemma firstn_1_nil {A} (l : list A) : Database.limit_1 l = [] -> l = [].
Proof. destruct l; [reflexivity|discriminate]. Qed.

Lemma order_by_nil (l : list TransactionQueueItem) :
  Database.order_by_created_at l = [] -> l = [].
Proof.
  destruct l as [|x l]; [reflexivity|]. intros H.
  assert (In x (Database.order_by_created_at (x :: l))) as Hin
    by (apply in_order_by_created_at; left; reflexivity).
  rewrite H in Hin. destruct Hin.
Qed.

(** when [getNextPendingTransaction] finds no row, there is none to claim *)
Lemma getNext_none (env : Env) (w w1 : World) (actor : option string) :
  Database.getNextPendingTransaction actor env w = (Ok None, w1) ->
  db w1 = db w /\ locked w1 = locked w /\ trace w1 = trace w
  /\ forall j r, ~ claimable w actor j r.
Proof.
  unfold Database.getNextPendingTransaction, bind, pool_query.
  destruct (next_fault w); cbn [fst snd]; [discriminate|].
  destruct (Database.limit_1 _) as [|x l] eqn:Hsel; cbn; [|discriminate].
  intros [= <-]. split; [destruct (db w); reflexivity|].
  split; [reflexivity|]. split; [reflexivity|].
  intros j r Hc.
  apply firstn_1_nil, order_by_nil in Hsel.
  assert (In (mkItem j r)
            (Database.select_queue (Database.next_pending_cond actor (locked w))
               (transaction_queue (db w)))) as Hin.
  { apply in_select_queue. split; [apply Hc|].
    apply (next_pending_cond_true w actor j r (proj1 Hc)), Hc. }
  rewrite Hsel in Hin. destruct Hin.
Qed.

Lemma select_queue_none (cond : string -> QueueRow -> bool)
    (q : gmap string QueueRow) :
  (forall i r, cond i r = false) -> Database.select_queue cond q = [].
Proof.
  intros H. unfold Database.select_queue.
  induction (map_to_list q) as [|kr l IH]; simpl; [reflexivity|].
  rewrite H. exact IH.
Qed.

(** the query of [getNextPendingTransaction] for no address finds no row *)
Lemma getNext_null (env : Env) (w : World) :
  Database.getNextPendingTransaction None env w
  = match next_fault w with
    | Some m => (Throw m, with_faults (tail (faults w)) w)
    | None => (Ok None, with_db (db w) (with_faults (tail (faults w)) w))
    end.
Proof.
  unfold Database.getNextPendingTransaction, bind, pool_query.
  destruct (next_fault w); [reflexivity|]. cbn [fst snd].
  rewrite select_queue_none; [reflexivity|].
  intros i r. unfold Database.next_pending_cond.
  destruct (player_sui_address r); cbn; rewrite andb_false_r; reflexivity.
Qed.

Lemma drained_run (env : Env) (playerAddress : string) (fuel : nat) :
  forall w w',
    QueueService.processPlayerQueue fuel playerAddress env w = (Ok QueueService.Drained, w') ->
    forall j r, ~ claimable w' (JS.or_null (Some playerAddress)) j r.
Proof.
  induction fuel as [|fuel IH]; intros w w' Hrun; [discriminate|].
  simpl in Hrun. unfold bind at 1 in Hrun.
  destruct (Database.getNextPendingTransaction _ env w) as [[[item|]|m] w1] eqn:Hn;
    [| |discriminate].
  - unfold bind at 1 in Hrun.
    destruct (try_catch _ _ env w1) as [[[]|m] w2]; [|discriminate].
    apply (IH w2 w' Hrun).
  - injection Hrun as <-.
    destruct (getNext_none env w w1 _ Hn) as (Hdb & Hl & _ & Hnone).
    intros j r (Hq & Hs & Ha & Hlock). apply (Hnone j r).
    rewrite Hdb in Hq. rewrite Hl in Hlock. repeat split; assumption.
Qed.

(** A worker that returns has drained the queue of its player: when the
    loop of [processPlayerQueue] ends because no row was found, no row of
    the queue is then pending, unlocked and of that player. A worker for
    the empty address finds no row at all: it writes nothing and emits
    nothing, since its query compares the address with NULL. *)
Theorem worker_drains_its_queue (env : Env) (w : World) (playerAddress : string)
    (fuel : nat) :
  (fst (QueueService.processPlayerQueue fuel playerAddress env w)
   = Ok QueueService.Drained ->
   forall j r,
     transaction_queue
       (db (snd (QueueService.processPlayerQueue fuel playerAddress env w))) !! j
     = Some r ->
     status r = pending ->
     player_sui_address r = Some playerAddress ->
     playerAddress = ""
     \/ j ∈ locked (snd (QueueService.processPlayerQueue fuel playerAddress env w)))
  /\ db (snd (QueueService.processPlayerQueue fuel "" env w)) = db w
  /\ trace (snd (QueueService.processPlayerQueue fuel "" env w)) = trace w
  /\ (next_fault w = None ->
      fst (QueueService.processPlayerQueue (S fuel) "" env w)
      = Ok QueueService.Drained).
Proof.
  split; [|split; [|split]].
  - intros Hrun j r Hq Hs Ha.
    destruct (QueueService.processPlayerQueue fuel playerAddress env w)
      as [res w'] eqn:Hw.
    cbn [fst snd] in *. subst res.
    pose proof (drained_run env playerAddress fuel w w' Hw j r) as Hnone.
    destruct (String.eqb playerAddress "") eqn:He.
    + left. apply String.eqb_eq, He.
    + right. destruct (decide (j ∈ locked w')) as [Hl|Hl]; [exact Hl|].
      exfalso. apply Hnone. split; [exact Hq|]. split; [exact Hs|].
      split; [|exact Hl].
      exists playerAddress. split; [|exact Ha].
      unfold JS.or_null, JS.truthy_opt, JS.truthy_string.
      change EmptyString with "". rewrite He. reflexivity.
  - destruct fuel as [|fuel]; [reflexivity|]. simpl.
    change (JS.or_null (Some "")) with (@None string).
    unfold bind at 1. rewrite getNext_null.
    destruct (next_fault w); [reflexivity|]. destruct (db w); reflexivity.
  - destruct fuel as [|fuel]; [reflexivity|]. simpl.
    change (JS.or_null (Some "")) with (@None string).
    unfold bind at 1. rewrite getNext_null.
    destruct (next_fault w); reflexivity.
  - intros Hf. simpl.
    change (JS.or_null (Some "")) with (@None string).
    unfold bind at 1. rewrite getNext_null, Hf. reflexivity.
Qed.

Lemma worker_drains_its_queue_witness :
  fst (QueueService.processPlayerQueue 1 "" Sample.env
         (Sample.world_of Sample.one_pending_db))
  = Ok QueueService.Drained.
Proof.
  apply (worker_drains_its_queue Sample.env (Sample.world_of Sample.one_pending_db)
           "" 0).
  reflexivity.
Defined.

(** the loop of [processQueue]: every player of the list is marked when it
    ends, and the players whose worker is started are those that were not
    marked, once each *)
Lemma mark_all_run (env : Env) (allPlayers : list string) :
  forall w,
    exists started w',
      QueueService.mark_all allPlayers env w = (Ok started, w')
      /\ List.NoDup started
      /\ (forall p, In p started <-> In p allPlayers /\ p ∉ processingPlayers w)
      /\ processingPlayers w' = list_to_set allPlayers ∪ processingPlayers w
      /\ db w' = db w
      /\ trace w' = trace w.
Proof.
  induction allPlayers as [|playerAddress rest IH]; intros w.
  - exists [], w. split; [reflexivity|]. split; [constructor|].
    split; [intros p; split; [intros []|intros [[] _]]|].
    split; [|split; reflexivity].
    apply leibniz_equiv. cbn. set_solver.
  - cbn [QueueService.mark_all]. unfold bind at 1.
    unfold QueueService.mark at 1. unfold bind at 1. unfold get at 1. cbn [fst snd].
    destruct (bool_decide (playerAddress ∈ processingPlayers w)) eqn:Hin.
    + apply bool_decide_eq_true in Hin. cbn [ret fst snd].
      destruct (IH w) as (started & w' & Hrun & Hnd & Hst & Hpp & Hdb & Htr).
      exists started, w'. unfold bind. rewrite Hrun. cbn [ret].
      split; [reflexivity|]. split; [exact Hnd|].
      split; [|split; [|split; assumption]].
      * intros p. rewrite Hst. split.
        -- intros [H1 H2]. split; [right; exact H1|exact H2].
        -- intros [[<-|H1] H2]; [contradiction|split; assumption].
      * rewrite Hpp. apply leibniz_equiv. rewrite list_to_set_cons. set_solver.
    + apply bool_decide_eq_false in Hin.
      unfold bind at 1. unfold modify at 1. cbn [ret fst snd].
      set (w1 := with_processingPlayers ({[playerAddress]} ∪ processingPlayers w) w).
      destruct (IH w1) as (started & w' & Hrun & Hnd & Hst & Hpp & Hdb & Htr).
      exists (playerAddress :: started), w'. unfold bind. rewrite Hrun. cbn [ret].
      split; [reflexivity|].
      assert (forall p, p ∉ processingPlayers w1
                        <-> p <> playerAddress /\ p ∉ processingPlayers w) as Hw1.
      { intros p. subst w1. cbn. set_solver. }
      split; [|split; [|split; [|split; assumption]]].
      * constructor; [|exact Hnd]. intros H. apply Hst in H as [_ H].
        apply Hw1 in H as [H _]. contradiction.
      * intros p. split.
        -- intros [<-|H]; [split; [left; reflexivity|exact Hin]|].
           apply Hst in H as [H1 H2]. apply Hw1 in H2 as [_ H2].
           split; [right; exact H1|exact H2].
        -- intros [[<-|H1] H2]; [left; reflexivity|].
           destruct (decide (p = playerAddress)) as [->|Hne]; [left; reflexivity|].
           right. apply Hst. split; [exact H1|]. apply Hw1. split; assumption.
      * rewrite Hpp. subst w1. cbn [processingPlayers with_processingPlayers].
        apply leibniz_equiv. rewrite list_to_set_cons. set_solver.
Qed.

(** the workers are started one by one: one action for each *)
Lemma start_all_schedule (env : Env) (task : string -> Prog unit)
    (h : string -> Prog unit) (players : list string) :
  forall (others : list (Prog unit)) (w : World),
    run_schedule env (repeat 0%nat (List.length players))
      (mkServer w (continue_in_try (Tasks.start_all players task) h :: others))
    = mkServer w
        (Ret tt :: others ++ List.map task players)%list.
Proof.
  induction players as [|p rest IH]; intros others w.
  - cbn. rewrite app_nil_r. reflexivity.
  - cbn [List.length repeat run_schedule List.fold_left].
    change (run_task env 0
              (mkServer w
                 (continue_in_try (Tasks.start_all (p :: rest) task) h :: others)))
      with (mkServer w
              (continue_in_try (Tasks.start_all rest task) h
               :: others ++ [task p])%list).
    change (List.fold_left (fun s n => run_task env n s)
              (repeat 0%nat (List.length rest))
              (mkServer w
                 (continue_in_try (Tasks.start_all rest task) h
                  :: others ++ [task p])%list))
      with (run_schedule env (repeat 0%nat (List.length rest))
              (mkServer w
                 (continue_in_try (Tasks.start_all rest task) h
                  :: others ++ [task p])%list)).
    rewrite IH, <- app_assoc. reflexivity.
Qed.

(** the worker of a player, run with no action of another task between
    its own *)
Lemma worker_run (env : Env) (w : World) (fuel : nat) (playerAddress : string) :
  run (Tasks.worker fuel playerAddress) env w
  = match QueueService.processPlayerQueue fuel playerAddress env w with
    | (Ok QueueService.Drained, w') =>
        (Ok tt, with_processingPlayers (processingPlayers w' ∖ {[playerAddress]}) w')
    | (Ok QueueService.OutOfFuel, w') => (Ok tt, w')
    | (Throw error, w') =>
        (Throw error,
         with_processingPlayers (processingPlayers w' ∖ {[playerAddress]}) w')
    end.
Proof.
  unfold Tasks.worker. cbn [run]. unfold try_catch, bind.
  rewrite (UninterruptedFacts.run_processPlayerQueue playerAddress fuel env w).
  destruct (QueueService.processPlayerQueue fuel playerAddress env w)
    as [[[]|error] w']; reflexivity.
Qed.

(** Busy players. [processQueue] writes neither the store nor the trace.
    When its scan returns, it starts a worker for each player of the scan
    that is not marked as being processed, once, and for no other; all the
    players of the scan are marked when it returns, and it returns while
    the workers run: the tick of the queue processor is the scan, the
    loop that marks and one action for each worker that it starts. The
    worker of a player unmarks the player when its loop has found no more
    row and when its loop throws, and what it throws is thrown on. *)
Theorem processQueue_busy_players (env : Env) (w : World) (fuel : nat) :
  db (snd (QueueService.processQueue env w)) = db w
  /\ trace (snd (QueueService.processQueue env w)) = trace w
  /\ (forall allPlayers,
        fst (QueueService.getAllPlayersWithPendingTransactions env w) = Ok allPlayers ->
        exists started,
          fst (QueueService.processQueue env w) = Ok started
          /\ List.NoDup started
          /\ (forall p, In p started
                        <-> In p allPlayers /\ p ∉ processingPlayers w)
          /\ processingPlayers (snd (QueueService.processQueue env w))
             = list_to_set allPlayers ∪ processingPlayers w
          /\ run_schedule env (repeat 0%nat (2 + List.length started))
               (mkServer w [Tasks.tick fuel])
             = mkServer (snd (QueueService.processQueue env w))
                 (Ret tt :: List.map (Tasks.worker fuel) started))
  /\ (forall playerAddress w0,
        run (Tasks.worker fuel playerAddress) env w0
        = match QueueService.processPlayerQueue fuel playerAddress env w0 with
          | (Ok QueueService.Drained, w') =>
              (Ok tt,
               with_processingPlayers (processingPlayers w' ∖ {[playerAddress]}) w')
          | (Ok QueueService.OutOfFuel, w') => (Ok tt, w')
          | (Throw error, w') =>
              (Throw error,
               with_processingPlayers (processingPlayers w' ∖ {[playerAddress]}) w')
          end).
Proof.
  assert (db (snd (QueueService.processQueue env w)) = db w
          /\ trace (snd (QueueService.processQueue env w)) = trace w) as [Hdb Htr].
  { unfold QueueService.processQueue, bind.
    destruct (QueueService.getAllPlayersWithPendingTransactions env w)
      as [[allPlayers|m] w1] eqn:Hscan.
    - destruct (scan_run_reads env w allPlayers w1 Hscan) as (Hdb & Htr & _).
      destruct (mark_all_run env allPlayers w1)
        as (started & w' & Hrun & _ & _ & _ & Hdb' & Htr').
      rewrite Hrun. cbn [snd]. split; congruence.
    - unfold QueueService.getAllPlayersWithPendingTransactions, pool_query in Hscan.
      destruct (next_fault w); [|discriminate].
      injection Hscan as _ <-. split; reflexivity. }
  split; [exact Hdb|]. split; [exact Htr|]. split; [|intros p w0; apply worker_run].
  intros allPlayers Hscan.
  destruct (QueueService.getAllPlayersWithPendingTransactions env w)
    as [res w1] eqn:Hscan'.
  cbn [fst] in Hscan. subst res.
  destruct (scan_run_reads env w allPlayers w1 Hscan') as (_ & _ & Hpp & _).
  destruct (mark_all_run env allPlayers w1)
    as (started & w' & Hrun & Hnd & Hst & Hpp' & _ & _).
  assert (QueueService.processQueue env w = (Ok started, w')) as Hq.
  { unfold QueueService.processQueue, bind. rewrite Hscan', Hrun. reflexivity. }
  exists started. rewrite Hq. cbn [fst snd].
  split; [reflexivity|]. split; [exact Hnd|].
  split; [intros p; rewrite (Hst p), Hpp; reflexivity|].
  split; [rewrite Hpp', Hpp; reflexivity|].
  cbn [Nat.add repeat run_schedule List.fold_left].
  assert (run_task env 0 (mkServer w [Tasks.tick fuel])
          = mkServer w1
              [TryCatch
                 (Bind (Atomic (QueueService.mark_all allPlayers))
                       (fun started => Tasks.start_all started (Tasks.worker fuel)))
                 (fun _ => Ret tt)])
    as ->.
  { unfold run_task.
    cbn [tasks world lookup list_lookup Tasks.tick Tasks.processQueue step].
    rewrite Hscan'. reflexivity. }
  assert (run_task env 0
            (mkServer w1
               [TryCatch
                  (Bind (Atomic (QueueService.mark_all allPlayers))
                        (fun started => Tasks.start_all started (Tasks.worker fuel)))
                  (fun _ => Ret tt)])
          = mkServer w'
              [continue_in_try (Tasks.start_all started (Tasks.worker fuel))
                 (fun _ => Ret tt)]) as ->.
  { unfold run_task. cbn [tasks world lookup list_lookup step].
    rewrite Hrun. reflexivity. }
  exact (start_all_schedule env (Tasks.worker fuel) (fun _ => Ret tt) started [] w').
Qed.

Lemma processQueue_busy_players_witness :
  exists started,
    fst (QueueService.processQueue Sample.env
           (with_processingPlayers {["0xB"]} (Sample.world_of Sample.one_pending_db)))
    = Ok started
    /\ (forall p, In p started <-> In p ["0xA"] /\ p ∉ ({["0xB"]} : gset string))
    /\ run_schedule Sample.env (repeat 0%nat (2 + List.length started))
         (mkServer
            (with_processingPlayers {["0xB"]} (Sample.world_of Sample.one_pending_db))
            [Tasks.tick 3])
       = mkServer
           (snd (QueueService.processQueue Sample.env
                   (with_processingPlayers {["0xB"]}
                      (Sample.world_of Sample.one_pending_db))))
           (Ret tt :: List.map (Tasks.worker 3) started).
Proof.
  destruct (processQueue_busy_players Sample.env
              (with_processingPlayers {["0xB"]} (Sample.world_of Sample.one_pending_db))
              3) as (_ & _ & H & _).
  destruct (H ["0xA"]) as (started & Hrun & _ & Hst & _ & Hsched).
  - vm_compute. reflexivity.
  - exists started. split; [exact Hrun|]. split; [exact Hst|exact Hsched].
Defined.

End DispatchFacts.


(** ** The gateway to the chain: [services/sui-client.ts] *)

Module GatewayFacts.
Import MFacts RunFacts JSFacts PollingFacts SponsorKeyFacts.

Lemma prefix_trans (a b c : string) :
  String.prefix a b = true -> String.prefix b c = true -> String.prefix a c = true.
Proof.
  revert b c. induction a as [|x a IH]; intros b c Hab Hbc; [destruct c; reflexivity|].
  destruct b as [|y b]; [discriminate|]. destruct c as [|z c]; [discriminate|].
  simpl in *.
  destruct (ascii_dec x y) as [->|]; [|discriminate].
  destruct (ascii_dec y z) as [->|]; [|discriminate].
  apply (IH b c Hab Hbc).
Qed.

Lemma prefix_refl (a : string) : String.prefix a a = true.
Proof.
  induction a as [|x a IH]; [reflexivity|]. simpl.
  destruct (ascii_dec x x); [exact IH|contradiction].
Qed.

(** [s.includes(sub)] when [s] starts or goes on with it *)
Lemma includes_cases (sub : string) (s : string) :
  JS.includes sub s = true ->
  String.prefix sub s = true
  \/ exists x s', s = String x s' /\ JS.includes sub s' = true.
Proof.
  destruct s as [|x s]; simpl; intros H; apply orb_true_iff in H as [H|H]; auto.
  - discriminate.
  - right. eauto.
Qed.

Lemma includes_here (sub s : string) :
  String.prefix sub s = true -> JS.includes sub s = true.
Proof. apply includes_prefix. Qed.

Lemma includes_later (sub : string) (x : ascii) (s : string) :
  JS.includes sub s = true -> JS.includes sub (String x s) = true.
Proof. intros H. simpl. rewrite H. apply orb_true_r. Qed.

Lemma includes_in_prefix (a b : string) :
  forall c, JS.includes a b = true -> String.prefix b c = true ->
            JS.includes a c = true.
Proof.
  induction b as [|y b IH]; intros c Hab Hbc.
  - apply includes_cases in Hab as [Hab|(x & s' & Heq & _)]; [|discriminate].
    apply includes_here, (prefix_trans a "" c Hab Hbc).
  - apply includes_cases in Hab as [Hab|(x & s' & Heq & Hab)].
    + apply includes_here, (prefix_trans _ _ _ Hab Hbc).
    + injection Heq as <- <-.
      destruct c as [|z c]; [discriminate|]. simpl in Hbc.
      destruct (ascii_dec y z) as [->|]; [|discriminate].
      apply includes_later, (IH c Hab Hbc).
Qed.

Lemma includes_trans (a b c : string) :
  JS.includes a b = true -> JS.includes b c = true -> JS.includes a c = true.
Proof.
  intros Hab. induction c as [|z c IH]; intros Hbc.
  - apply includes_cases in Hbc as [Hbc|(x & s' & Heq & _)]; [|discriminate].
    apply (includes_in_prefix a b "" Hab Hbc).
  - apply includes_cases in Hbc as [Hbc|(x & s' & Heq & Hbc)].
    + apply (includes_in_prefix a b _ Hab Hbc).
    + injection Heq as <- <-. apply includes_later, IH, Hbc.
Qed.

Lemma endsWith_includes (suf s : string) :
  JS.endsWith suf s = true -> JS.includes suf s = true.
Proof.
  induction s as [|x s IH]; intros H.
  - destruct suf; [reflexivity|discriminate].
  - change (JS.endsWith suf (String x s))
      with (String.eqb (String x s) suf || JS.endsWith suf s) in H.
    apply orb_true_iff in H as [H|H].
    + apply String.eqb_eq in H as <-. apply includes_here, prefix_refl.
    + apply includes_later, IH, H.
Qed.

Lemma loose_match (key searchType objectTypeStr : string) :
  JS.includes key searchType = true ->
  JS.includes searchType objectTypeStr
  || JS.endsWith searchType objectTypeStr
  || (JS.includes key searchType && JS.includes key objectTypeStr)
  = JS.includes key objectTypeStr.
Proof.
  intros Hkey. rewrite Hkey. cbn [andb].
  destruct (JS.includes key objectTypeStr) eqn:Hk; [apply orb_true_r|].
  rewrite orb_false_r.
  destruct (JS.includes searchType objectTypeStr) eqn:Hi.
  - rewrite (includes_trans _ _ _ Hkey Hi) in Hk. discriminate.
  - destruct (JS.endsWith searchType objectTypeStr) eqn:He; [|reflexivity].
    apply endsWith_includes in He. congruence.
Qed.

(** The test of [waitForTransactionAndExtractObjectId] on an object change
    is loose. When the lower-cased type asked for contains "game" and not
    "badge", a change is taken if and only if it has the type [created]
    and an object type that contains "game", whatever the case of the
    letters: the rest of the type asked for does not count. The same holds
    with "badge" for "game". The two types that [processTransaction] asks
    for are of these kinds. *)
Theorem created_change_match_is_loose (objectType : string) (change : ObjectChange) :
  (JS.includes "game" (JS.toLowerCase objectType) = true ->
   JS.includes "badge" (JS.toLowerCase objectType) = false ->
   SuiClient.created_matches objectType change
   = String.eqb (change_type change) "created"
     && JS.truthy_opt (change_objectType change)
     && JS.includes "game" (JS.toLowerCase (default "" (change_objectType change))))
  /\ (JS.includes "badge" (JS.toLowerCase objectType) = true ->
      JS.includes "game" (JS.toLowerCase objectType) = false ->
      SuiClient.created_matches objectType change
      = String.eqb (change_type change) "created"
        && JS.truthy_opt (change_objectType change)
        && JS.includes "badge"
             (JS.toLowerCase (default "" (change_objectType change))))
  /\ SuiClient.created_matches "::game::Game" change
     = String.eqb (change_type change) "created"
       && JS.truthy_opt (change_objectType change)
       && JS.includes "game" (JS.toLowerCase (default "" (change_objectType change)))
  /\ SuiClient.created_matches "badge::Badge" change
     = String.eqb (change_type change) "created"
       && JS.truthy_opt (change_objectType change)
       && JS.includes "badge" (JS.toLowerCase (default "" (change_objectType change))).
Proof.
  assert (forall key other,
            JS.includes key (JS.toLowerCase objectType) = true ->
            JS.includes other (JS.toLowerCase objectType) = false ->
            JS.includes (JS.toLowerCase objectType)
              (JS.toLowerCase (default "" (change_objectType change)))
            || JS.endsWith (JS.toLowerCase objectType)
                 (JS.toLowerCase (default "" (change_objectType change)))
            || (JS.includes key (JS.toLowerCase objectType)
                && JS.includes key
                     (JS.toLowerCase (default "" (change_objectType change))))
            || (JS.includes other (JS.toLowerCase objectType)
                && JS.includes other
                     (JS.toLowerCase (default "" (change_objectType change))))
            = JS.includes key
                (JS.toLowerCase (default "" (change_objectType change)))) as Hloose.
  { intros key other Hkey Hother.
    rewrite (loose_match key _ _ Hkey), Hother. apply orb_false_r. }
  assert (forall objectType',
            (JS.includes "game" (JS.toLowerCase objectType') = true ->
             JS.includes "badge" (JS.toLowerCase objectType') = false ->
             SuiClient.created_matches objectType' change
             = String.eqb (change_type change) "created"
               && JS.truthy_opt (change_objectType change)
               && JS.includes "game"
                    (JS.toLowerCase (default "" (change_objectType change))))
            /\ (JS.includes "badge" (JS.toLowerCase objectType') = true ->
                JS.includes "game" (JS.toLowerCase objectType') = false ->
                SuiClient.created_matches objectType' change
                = String.eqb (change_type change) "created"
                  && JS.truthy_opt (change_objectType change)
                  && JS.includes "badge"
                       (JS.toLowerCase (default "" (change_objectType change)))))
    as Hall.
  { clear Hloose. intros objectType'. split; intros Hkey Hother.
    - unfold SuiClient.created_matches.
      destruct (String.eqb (change_type change) "created"); [|reflexivity].
      destruct (JS.truthy_opt (change_objectType change)); [|reflexivity].
      cbn [negb orb andb].
      rewrite <- (loose_match "game" _
                    (JS.toLowerCase (default "" (change_objectType change))) Hkey)
        at 2.
      rewrite Hother. cbn [andb]. rewrite orb_false_r. rewrite Hkey.
      reflexivity.
    - unfold SuiClient.created_matches.
      destruct (String.eqb (change_type change) "created"); [|reflexivity].
      destruct (JS.truthy_opt (change_objectType change)); [|reflexivity].
      cbn [negb orb andb].
      rewrite <- (loose_match "badge" _
                    (JS.toLowerCase (default "" (change_objectType change))) Hkey)
        at 2.
      rewrite Hother. cbn [andb]. rewrite orb_false_r. rewrite Hkey.
      reflexivity. }
  split; [apply Hall|]. split; [apply Hall|]. split.
  - apply (Hall "::game::Game"); reflexivity.
  - apply (Hall "badge::Badge"); reflexivity.
Qed.

Lemma created_change_match_is_loose_witness :
  SuiClient.created_matches "::game::Game"
    (mkChange "created" (Some "0x2::coin::Coin<0xabc::gamecoin::GAMECOIN>") (Some "0x7"))
  = true.
Proof.
  destruct (created_change_match_is_loose "::game::Game"
              (mkChange "created" (Some "0x2::coin::Coin<0xabc::gamecoin::GAMECOIN>")
                 (Some "0x7"))) as (H & _).
  rewrite H; reflexivity.
Defined.

(** an answer in which no criterion holds makes the loop go on *)
Lemma poll_once_unmatched (env : Env) (w : World) (digest objectType : string)
    (i : nat) :
  Nat.eqb i 14 = false ->
  Spec.no_criterion objectType (SuiClient.nth_poll w 0) ->
  fst (SuiClient.poll_once digest objectType i env w) = Ok None
  /\ trace (snd (SuiClient.poll_once digest objectType i env w))
     = (trace w ++ Poll digest
        :: (if SuiClient.throws (SuiClient.nth_poll w 0)
            then [Sleep SuiClient.delay] else []))%list.
Proof.
  intros Hi Ha.
  destruct (poll_once_cases env w digest objectType i) as [_ H].
  rewrite Hi in H.
  unfold Spec.no_criterion in Ha. unfold SuiClient.throws.
  destruct (SuiClient.poll_error (SuiClient.nth_poll w 0)) as [m|] eqn:Herr.
  - exact H.
  - destruct H as [-> ->]. split; [|reflexivity]. f_equal.
    unfold SuiClient.poll_error in Herr.
    destruct (SuiClient.nth_poll w 0) as [m|r]; [reflexivity|].
    destruct (effects_status r) as [s|]; [|exact Ha].
    destruct (String.eqb s "success") eqn:Hs; [|discriminate].
    apply String.eqb_eq in Hs. destruct Ha as [Ha|Ha]; [contradiction|exact Ha].
Qed.

(** the loop when the answer of rank [k] is the first with an object *)
Lemma poll_from_found (env : Env) (digest objectType : string) (r : TxResponse)
    (o : string) (k : nat) :
  forall (todo i : nat) (w : World),
  (i + todo = 15)%nat ->
  (k < todo)%nat ->
  Forall (Spec.no_criterion objectType) (next_polls w k) ->
  SuiClient.nth_poll w k = PollResponds r ->
  SuiClient.poll_error (PollResponds r) = None ->
  SuiClient.extract objectType r = Some o ->
  trace (snd (SuiClient.poll_from todo i digest objectType env w))
  = (trace w ++ polling_of digest (next_polls w (S k)))%list
  /\ fst (SuiClient.poll_from todo i digest objectType env w) = Ok (Some o).
Proof.
  induction k as [|k IH]; intros todo i w Hi Hk Hno Hnth Herr Hex.
  - destruct todo as [|todo]; [lia|].
    simpl SuiClient.poll_from. unfold bind.
    destruct (poll_once_cases env w digest objectType i) as [_ H].
    rewrite Hnth, Herr, Hex in H. destruct H as [Hr Ht].
    destruct (SuiClient.poll_once digest objectType i env w) as [res w1].
    cbn [fst snd] in *. subst res. cbn [fst snd ret].
    split; [exact Ht|reflexivity].
  - destruct todo as [|todo]; [lia|].
    assert (Nat.eqb i 14 = false) as Hi14 by (apply Nat.eqb_neq; lia).
    simpl SuiClient.poll_from. unfold bind.
    destruct (poll_once_cases env w digest objectType i) as [Hp _].
    rewrite (next_polls_S w _ k Hp) in Hno.
    inversion Hno as [|a l Ha Hrest Heq]; subst a l.
    destruct (poll_once_unmatched env w digest objectType i Hi14 Ha)
      as [Hnone Ht1].
    destruct (SuiClient.poll_once digest objectType i env w) as [res w1].
    cbn [fst snd] in Hnone, Hp, Ht1. subst res.
    rewrite <- (nth_poll_tail w w1 k Hp) in Hnth.
    destruct (IH todo (S i) w1 ltac:(lia) ltac:(lia) Hrest Hnth Herr Hex)
      as (Ht2 & Hr2).
    rewrite Ht2, Hr2, Ht1.
    rewrite (next_polls_S w w1 (S k) Hp).
    destruct (next_polls_cons w1 k) as (b & rest & Hb).
    rewrite Hb, polling_of_cons, <- Hb.
    split; [|reflexivity].
    rewrite <- app_assoc. reflexivity.
Qed.

(** The loop of [waitForTransactionAndExtractObjectId] returns the object
    id of the first answer in which a criterion holds. When the first [k]
    answers of the node reject, report a failure or hold no object of the
    type, and the next one holds an object, with [k] below 15, the
    function returns that object's id after [k + 1] calls of
    [getTransactionBlock], with a sleep of one second after each answer
    that was rejected or reported a failure and no other effect. *)
Theorem wait_returns_the_first_match (env : Env) (w : World)
    (digest objectType : string) (k : nat) (r : TxResponse) (o : string) :
  (k < 15)%nat ->
  Forall (Spec.no_criterion objectType) (next_polls w k) ->
  SuiClient.nth_poll w k = PollResponds r ->
  SuiClient.poll_error (PollResponds r) = None ->
  SuiClient.extract objectType r = Some o ->
  fst (SuiClient.waitForTransactionAndExtractObjectId digest objectType env w)
  = Ok (Some o)
  /\ trace (snd (SuiClient.waitForTransactionAndExtractObjectId
                   digest objectType env w))
     = (trace w ++ polling_of digest (next_polls w (S k)))%list
  /\ count_of is_poll (polling_of digest (next_polls w (S k))) = S k
  /\ count_of is_sleep (polling_of digest (next_polls w (S k)))
     = List.length (List.filter SuiClient.throws (next_polls w k)).
Proof.
  intros Hk Hno Hnth Herr Hex.
  unfold SuiClient.waitForTransactionAndExtractObjectId, SuiClient.maxRetries.
  destruct (poll_from_found env digest objectType r o k 15 0 w
              eq_refl Hk Hno Hnth Herr Hex) as (Ht & Hr).
  split; [exact Hr|]. split; [exact Ht|]. split.
  - rewrite count_polls_polling_of. unfold next_polls.
    rewrite List.length_map, List.length_seq. reflexivity.
  - assert (forall l a,
              SuiClient.throws a = false ->
              count_of is_sleep (polling_of digest (l ++ [a]))
              = List.length (List.filter SuiClient.throws l)) as Hsleep.
    { induction l as [|b l IHl]; intros a Ha; [reflexivity|].
      destruct l as [|c l].
      - simpl. destruct (SuiClient.throws b); reflexivity.
      - change ((b :: c :: l) ++ [a])%list with (b :: c :: (l ++ [a]))%list.
        rewrite polling_of_cons.
        change (c :: (l ++ [a]))%list with ((c :: l) ++ [a])%list.
        change (count_of is_sleep (Poll digest :: ?x)) with (count_of is_sleep x).
        rewrite count_of_app, (IHl a Ha).
        change (List.filter SuiClient.throws (b :: c :: l))
          with (if SuiClient.throws b
                then b :: List.filter SuiClient.throws (c :: l)
                else List.filter SuiClient.throws (c :: l)).
        destruct (SuiClient.throws b); reflexivity. }
    assert (next_polls w (S k) = (next_polls w k ++ [PollResponds r])%list) as ->.
    { unfold next_polls. rewrite seq_S, List.map_app. simpl. rewrite Hnth.
      reflexivity. }
    apply Hsleep. unfold SuiClient.throws. rewrite Herr. reflexivity.
Qed.

Lemma wait_returns_the_first_match_witness :
  fst (SuiClient.waitForTransactionAndExtractObjectId "d1" "::game::Game" Sample.env
         (Sample.world_with_polls
            [PollRejects "not found";
             PollResponds
               (mkResponse (Some "success")
                  (Some [mkChange "created" (Some "0xpkg::game::Game") (Some "0x7")])
                  None)]))
  = Ok (Some "0x7").
Proof.
  apply (wait_returns_the_first_match Sample.env
           (Sample.world_with_polls
              [PollRejects "not found";
               PollResponds
                 (mkResponse (Some "success")
                    (Some [mkChange "created" (Some "0xpkg::game::Game") (Some "0x7")])
                    None)])
           "d1" "::game::Game" 1
           (mkResponse (Some "success")
              (Some [mkChange "created" (Some "0xpkg::game::Game") (Some "0x7")])
              None) "0x7").
  - lia.
  - repeat constructor.
  - reflexivity.
  - reflexivity.
  - reflexivity.
Defined.

(** what a call of [getSponsorKeypair] makes of the world *)
Lemma getSponsorKeypair_cases (env : Env) (w w' : World)
    (res : outcome Ed25519Keypair) :
  SuiClient.getSponsorKeypair env w = (res, w') ->
  match res with
  | Ok kp => w' = with_sponsorKeypair (Some kp) w
  | Throw _ => w' = w /\ sponsorKeypair w = None
  end.
Proof.
  unfold SuiClient.getSponsorKeypair.
  unfold bind at 1. unfold get at 1. cbn [fst snd].
  destruct (sponsorKeypair w) as [kp|] eqn:Hkp.
  - intros [= <- <-]. destruct w. cbn in Hkp. subst. reflexivity.
  - unfold bind at 1. unfold ask at 1. cbn [fst snd].
    destruct (negb _); [intros [= <- <-]; split; reflexivity|].
    unfold try_catch, bind, lift_outcome, SuiClient.remember, modify, ret, throw.
    destruct (Nat.eqb _ 12 || Nat.eqb _ 24).
    + destruct (deriveKeypair _ _) as [kp|m]; cbn [fst snd];
        intros [= <- <-]; [reflexivity|split; reflexivity].
    + destruct (JS.startsWith "suiprivkey" _).
      * destruct (decodeSuiPrivateKey _ _) as [secretKey|m]; cbn [fst snd].
        -- destruct (fromSecretKey _ _) as [kp|m]; cbn [fst snd];
             intros [= <- <-]; [reflexivity|split; reflexivity].
        -- intros [= <- <-]. split; reflexivity.
      * destruct (negb _); cbn [fst snd].
        -- intros [= <- <-]. split; reflexivity.
        -- destruct (fromSecretKey _ _) as [kp|m]; cbn [fst snd];
             intros [= <- <-]; [reflexivity|split; reflexivity].
Qed.

(** The sponsor's key pair is decoded once. When [getSponsorKeypair]
    returns a key pair it has stored it, and every later call returns the
    same key pair without reading the configuration or calling the SDK,
    whatever they are by then. When it throws it has stored nothing, so
    that the next call decodes the secret again. It changes nothing else
    in the world. *)
Theorem sponsor_keypair_is_decoded_once (env : Env) (w : World) :
  (forall kp,
     fst (SuiClient.getSponsorKeypair env w) = Ok kp ->
     snd (SuiClient.getSponsorKeypair env w) = with_sponsorKeypair (Some kp) w
     /\ forall env',
          SuiClient.getSponsorKeypair env' (snd (SuiClient.getSponsorKeypair env w))
          = (Ok kp, snd (SuiClient.getSponsorKeypair env w)))
  /\ (forall m,
        fst (SuiClient.getSponsorKeypair env w) = Throw m ->
        snd (SuiClient.getSponsorKeypair env w) = w
        /\ sponsorKeypair w = None).
Proof.
  destruct (SuiClient.getSponsorKeypair env w) as [res w'] eqn:Hrun.
  apply getSponsorKeypair_cases in Hrun. cbn [fst snd].
  split.
  - intros kp ->. split; [exact Hrun|].
    intros env'. apply getSponsorKeypair_cached. rewrite Hrun. reflexivity.
  - intros m ->. exact Hrun.
Qed.

Lemma sponsor_keypair_is_decoded_once_witness :
  snd (SuiClient.getSponsorKeypair (Sample.env_with_key "not a key")
         Sample.empty_world)
  = Sample.empty_world
  /\ sponsorKeypair Sample.empty_world = None.
Proof.
  destruct (sponsor_keypair_is_decoded_once (Sample.env_with_key "not a key")
              Sample.empty_world) as [_ H].
  apply (H ("Invalid SUI_SPONSOR_PRIVATE_KEY format: "
            ++ SuiClient.invalid_format_message 9)).
  vm_compute. reflexivity.
Defined.

End GatewayFacts.

(** ** The deployer's key: [scripts/update-authorized-minter.ts] *)

Module ScriptFacts.
Import MFacts RunFacts JSFacts SponsorKeyFacts GatewayFacts.

Lemma prefix_app (a b : string) : String.prefix a (a ++ b) = true.
Proof.
  induction a as [|x a IH]; [destruct b; reflexivity|].
  simpl. destruct (ascii_dec x x); [exact IH|contradiction].
Qed.

Lemma truthy_string_iff (s : string) : JS.truthy_string s = true <-> s <> "".
Proof.
  unfold JS.truthy_string. rewrite negb_true_iff. split.
  - intros H ->. discriminate H.
  - intros H. apply String.eqb_neq, H.
Qed.

(** [getDeployerKeypair] decodes a secret as [getSponsorKeypair] does.
    Given the same secret and the same SDK, and no key pair stored yet,
    one returns a key pair exactly when the other does, and it is the same
    key pair. A variable that is not set or is empty is refused with the
    message that the variable is required, and every other failure is
    reported with a message that starts with "Invalid
    SUI_DEPLOYER_PRIVATE_KEY format: ". *)
Theorem deployer_key_is_decoded_like_the_sponsor_key (env : Env) (w : World) :
  sponsorKeypair w = None ->
  (forall kp,
     UpdateAuthorizedMinter.getDeployerKeypair (sdk env)
       (Some (sponsor_privateKey (config env))) = Ok kp
     <-> fst (SuiClient.getSponsorKeypair env w) = Ok kp)
  /\ UpdateAuthorizedMinter.getDeployerKeypair (sdk env) None
     = Throw ("SUI_DEPLOYER_PRIVATE_KEY environment variable is required. " ++
              "This should be the private key of the current authorized_minter (deployer).")
  /\ UpdateAuthorizedMinter.getDeployerKeypair (sdk env) (Some "")
     = UpdateAuthorizedMinter.getDeployerKeypair (sdk env) None
  /\ (forall key m,
        key <> "" ->
        UpdateAuthorizedMinter.getDeployerKeypair (sdk env) (Some key) = Throw m ->
        String.prefix "Invalid SUI_DEPLOYER_PRIVATE_KEY format: " m = true).
Proof.
  intros Hnone. split; [|split; [reflexivity|split; [reflexivity|]]].
  - intros kp.
    destruct (String.eqb (sponsor_privateKey (config env)) "") eqn:Hkey.
    + apply String.eqb_eq in Hkey.
      assert (fst (SuiClient.getSponsorKeypair env w)
              = Throw "SUI_SPONSOR_PRIVATE_KEY environment variable is required")
        as Hs.
      { unfold SuiClient.getSponsorKeypair, bind, get, ask. cbn [fst snd].
        rewrite Hnone. cbn [fst snd]. rewrite Hkey. reflexivity. }
      rewrite Hs, Hkey. split; intros H; discriminate H.
    + apply String.eqb_neq in Hkey.
      rewrite (getSponsorKeypair_first env w Hnone Hkey).
      unfold UpdateAuthorizedMinter.getDeployerKeypair.
      cbn [JS.truthy_opt default]. unfold Datatypes.id.
      rewrite (proj2 (truthy_string_iff _) Hkey). cbn [negb].
      unfold SuiClient.key_form, decode_key, wrap_key_error, SuiClient.strip_0x.
      set (k := JS.trim (sponsor_privateKey (config env))).
      destruct (Nat.eqb _ 12 || Nat.eqb _ 24).
      * destruct (deriveKeypair _ _); split; intros H; congruence.
      * destruct (JS.startsWith "suiprivkey" k).
        -- destruct (decodeSuiPrivateKey _ _);
             [destruct (fromSecretKey _ _)|]; split; intros H; congruence.
        -- destruct (JS.is_hex64 _); cbn [negb].
           ++ destruct (fromSecretKey _ _); split; intros H; congruence.
           ++ split; intros H; discriminate H.
  - intros key m Hkey H.
    unfold UpdateAuthorizedMinter.getDeployerKeypair in H.
    cbn [JS.truthy_opt] in H.
    rewrite (proj2 (truthy_string_iff _) Hkey) in H. cbn [negb] in H.
    match type of H with
    | match ?x with _ => _ end = _ => destruct x as [kp|error]
    end; [discriminate|].
    injection H as <-. apply prefix_app.
Qed.

Lemma deployer_key_is_decoded_like_the_sponsor_key_witness :
  exists m,
    UpdateAuthorizedMinter.getDeployerKeypair Sample.rejecting_sdk (Some "not a key")
    = Throw m
    /\ String.prefix "Invalid SUI_DEPLOYER_PRIVATE_KEY format: " m = true.
Proof.
  assert (UpdateAuthorizedMinter.getDeployerKeypair Sample.rejecting_sdk
            (Some "not a key")
          = Throw ("Invalid SUI_DEPLOYER_PRIVATE_KEY format: "
                   ++ "Invalid SUI_DEPLOYER_PRIVATE_KEY format")) as Hrun
    by (vm_compute; reflexivity).
  eexists. split; [exact Hrun|].
  destruct (deployer_key_is_decoded_like_the_sponsor_key Sample.env Sample.empty_world
              eq_refl) as (_ & _ & _ & H).
  apply (H "not a key").
  - discriminate.
  - exact Hrun.
Defined.

End ScriptFacts.


(** ** The processor: [services/transaction-processor.ts] *)

Module ProcessorFacts.
Import MFacts RunFacts DatabaseFacts SponsorKeyFacts PollingFacts GatewayFacts
  ScriptFacts StoreFacts AttemptFacts FrameFacts.

Lemma getPackageId_ok (env : Env) (w : World) :
  packageId (config env) <> "" ->
  SuiClient.getPackageId env w = (Ok (packageId (config env)), w).
Proof.
  intros H. unfold SuiClient.getPackageId, bind, ask. cbn [fst snd].
  rewrite (proj2 (truthy_string_iff _) H). reflexivity.
Qed.

Lemma getBadgeRegistryId_ok (env : Env) (w : World) :
  badgeRegistryId (config env) <> "" ->
  SuiClient.getBadgeRegistryId env w = (Ok (badgeRegistryId (config env)), w).
Proof.
  intros H. unfold SuiClient.getBadgeRegistryId, bind, ask. cbn [fst snd].
  rewrite (proj2 (truthy_string_iff _) H). reflexivity.
Qed.

(** [getPackageId], the inputs and [moveCall] read the configuration and
    ask the SDK: they return or throw, and write nothing *)
Lemma bind_run {A B} (m : M A) (f : A -> M B) (env : Env) (w w1 : World)
    (res : outcome A) :
  m env w = (res, w1) ->
  bind m f env w
  = match res with
    | Ok a => f a env w1
    | Throw error => (Throw error, w1)
    end.
Proof. intros H. unfold bind. rewrite H. destruct res; reflexivity. Qed.

Lemma getPackageId_run (env : Env) (w : World) :
  SuiClient.getPackageId env w
  = (if JS.truthy_string (packageId (config env))
     then Ok (packageId (config env))
     else Throw ("Package ID not set for network: " ++ network (config env)), w).
Proof.
  unfold SuiClient.getPackageId, bind, ask. cbn [fst snd].
  destruct (JS.truthy_string _); reflexivity.
Qed.

Lemma getBadgeRegistryId_run (env : Env) (w : World) :
  SuiClient.getBadgeRegistryId env w
  = (if JS.truthy_string (badgeRegistryId (config env))
     then Ok (badgeRegistryId (config env))
     else Throw ("Badge Registry ID not set for network: " ++ network (config env)),
     w).
Proof.
  unfold SuiClient.getBadgeRegistryId, bind, ask. cbn [fst snd].
  destruct (JS.truthy_string _); reflexivity.
Qed.

Lemma input_run (env : Env) (w : World) (i : TxInput) :
  SuiClient.input i env w
  = (match tx_input_error (sdk env) i with
     | Some error => Throw error
     | None => Ok i
     end, w).
Proof.
  unfold SuiClient.input, bind, ask. cbn [fst snd].
  destruct (tx_input_error _ _); reflexivity.
Qed.

Lemma moveCall_run (env : Env) (w : World) (target : string)
    (arguments : list TxInput) :
  SuiClient.moveCall target arguments env w
  = (match moveCall_error (sdk env) target arguments with
     | Some error => Throw error
     | None => Ok (SuiClient.mkTransaction target arguments)
     end, w).
Proof.
  unfold SuiClient.moveCall, bind, ask. cbn [fst snd].
  destruct (moveCall_error _ _ _); reflexivity.
Qed.

Ltac build_step :=
  first
    [ erewrite bind_run by apply input_run;
      match goal with
      | |- context [tx_input_error ?s ?i] => destruct (tx_input_error s i) eqn:?
      end
    | erewrite bind_run by apply getPackageId_run;
      match goal with
      | |- context [JS.truthy_string ?s] => destruct (JS.truthy_string s) eqn:?
      end
    | rewrite moveCall_run;
      match goal with
      | |- context [moveCall_error ?s ?t ?a] => destruct (moveCall_error s t a) eqn:?
      end ];
  cbn [fst snd].

(** the transaction that [processTransaction] builds for an intent, when
    it builds one: its target is the Move function of the intent, in the
    package of the configuration, and nothing is written *)
Lemma build_result (env : Env) (w : World) (kp : Ed25519Keypair)
    (transaction : TransactionQueueItem) :
  sponsorKeypair w = Some kp ->
  snd (TransactionProcessor.build transaction env w) = w
  /\ forall tx,
       fst (TransactionProcessor.build transaction env w) = Ok tx ->
       packageId (config env) <> ""
       /\ SuiClient.target tx
          = packageId (config env)
            ++ move_function (transaction_type (columns transaction)).
Proof.
  intros Hkp. unfold TransactionProcessor.build. cbv zeta.
  assert (JS.truthy_string (packageId (config env)) = true ->
          packageId (config env) <> "") as Hpkg
    by (intros H; apply truthy_string_iff, H).
  destruct (transaction_type (columns transaction)); cbn [move_function].
  - unfold SuiClient.buildCreateGameTransaction.
    repeat build_step;
      (split; [reflexivity|]); intros tx [= <-]; (split; [auto|reflexivity]).
  - unfold SuiClient.buildMakeMoveTransaction.
    repeat build_step;
      (split; [reflexivity|]); intros tx [= <-]; (split; [auto|reflexivity]).
  - unfold SuiClient.buildEndGameTransaction.
    repeat build_step;
      (split; [reflexivity|]); intros tx [= <-]; (split; [auto|reflexivity]).
  - rewrite try_rethrow.
    rewrite (bind_ok _ _ env w w _ (getSponsorKeypair_cached env w kp Hkp)).
    unfold SuiClient.buildMintNftTransaction.
    build_step; [|split; [reflexivity|intros tx [=]]].
    assert (exists res,
              (match transaction_data (columns transaction) !! "registryObjectId" with
               | Some v =>
                   if JS.truthy v then ret v
                   else (r <- SuiClient.getBadgeRegistryId ;; ret (JS.JStr r))
               | None => r <- SuiClient.getBadgeRegistryId ;; ret (JS.JStr r)
               end) env w = (res, w)) as [res Hreg].
    { destruct (transaction_data (columns transaction) !! "registryObjectId")
        as [v|]; [destruct (JS.truthy v); [eexists; reflexivity|]|];
        erewrite bind_run by apply getBadgeRegistryId_run;
        destruct (JS.truthy_string (badgeRegistryId (config env)));
        eexists; reflexivity. }
    rewrite (bind_run _ _ env w w res Hreg).
    destruct res as [registryId|error]; [|split; [reflexivity|intros tx [=]]].
    destruct (negb (JS.truthy registryId)); [split; [reflexivity|intros tx [=]]|].
    repeat build_step;
      (split; [reflexivity|]); intros tx [= <-]; (split; [auto|reflexivity]).
Qed.

(** [executeTransaction] on the next answer of the node *)
Lemma execute_run (env : Env) (w : World) (kp : Ed25519Keypair)
    (tx : SuiClient.Transaction) (answer : SubmitAnswer) (rest : list SubmitAnswer) :
  sponsorKeypair w = Some kp ->
  submits w = answer :: rest ->
  SuiClient.executeTransaction tx env w
  = (match execution_error (toSuiAddress kp) answer with
     | Some m => Throw m
     | None => Ok (match answer with Executed digest _ _ => digest | _ => "" end)
     end,
     if was_executed answer
     then with_trace (trace w ++ [SubmitTx (SuiClient.target tx)])
                     (with_submits rest w)
     else with_submits rest w).
Proof.
  intros Hkp Hs. unfold SuiClient.executeTransaction.
  rewrite (bind_ok _ _ env w w _ (getSponsorKeypair_cached env w kp Hkp)).
  unfold SuiClient.executeTransactionWithKeypair. rewrite try_rethrow.
  unfold bind at 1. unfold get at 1. cbn [fst snd]. rewrite Hs.
  unfold bind at 1. unfold modify at 1. cbn [fst snd].
  destruct answer as [m| |c|d st er]; try reflexivity.
  unfold bind, effect, modify, execution_error. cbn [fst snd was_executed].
  destruct (bool_decide (st = Some "success")); reflexivity.
Qed.

(** [build_and_execute] on the next answer of the node, for an intent of
    which a transaction is built *)
Lemma build_and_execute_run (env : Env) (w : World) (kp : Ed25519Keypair)
    (transaction : TransactionQueueItem) (tx : SuiClient.Transaction)
    (answer : SubmitAnswer) (rest : list SubmitAnswer) :
  sponsorKeypair w = Some kp ->
  fst (TransactionProcessor.build transaction env w) = Ok tx ->
  submits w = answer :: rest ->
  TransactionProcessor.build_and_execute transaction env w
  = (match execution_error (toSuiAddress kp) answer with
     | Some m => Throw ("Transaction execution failed: " ++ m)
     | None => Ok (match answer with Executed digest _ _ => digest | _ => "" end)
     end,
     if was_executed answer
     then with_trace
            (trace w ++ [SubmitTx (packageId (config env)
                                   ++ move_function
                                        (transaction_type (columns transaction)))])
            (with_submits rest w)
     else with_submits rest w).
Proof.
  intros Hkp Hbuild Hs.
  destruct (build_result env w kp transaction Hkp) as [Hw Htx].
  destruct (Htx tx Hbuild) as [_ Htarget].
  assert (TransactionProcessor.build transaction env w = (Ok tx, w)) as Hrun.
  { destruct (TransactionProcessor.build transaction env w) as [res w1].
    cbn [fst snd] in *. congruence. }
  unfold TransactionProcessor.build_and_execute.
  rewrite (bind_ok _ _ env w w tx Hrun).
  unfold TransactionProcessor.execute, try_catch.
  rewrite (execute_run env w kp tx answer rest Hkp Hs), Htarget.
  destruct (execution_error (toSuiAddress kp) answer); reflexivity.
Qed.

(** an intent of which no transaction is built: the error is thrown as it
    is, and the node is not asked *)
Lemma build_throws_run (env : Env) (w : World) (transaction : TransactionQueueItem)
    (error : string) :
  fst (TransactionProcessor.build transaction env w) = Throw error ->
  TransactionProcessor.build_and_execute transaction env w
  = (Throw error, snd (TransactionProcessor.build transaction env w))
  /\ TransactionProcessor.processTransaction transaction env w
     = (Throw error, snd (TransactionProcessor.build transaction env w))
  /\ db (snd (TransactionProcessor.build transaction env w)) = db w
  /\ trace (snd (TransactionProcessor.build transaction env w)) = trace w
  /\ submits (snd (TransactionProcessor.build transaction env w)) = submits w.
Proof.
  intros Hbuild.
  assert (TransactionProcessor.build_and_execute transaction env w
          = (Throw error, snd (TransactionProcessor.build transaction env w))) as Hrun.
  { unfold TransactionProcessor.build_and_execute, bind.
    destruct (TransactionProcessor.build transaction env w) as [res w1].
    cbn [fst snd] in *. subst res. reflexivity. }
  split; [exact Hrun|]. split.
  - unfold TransactionProcessor.processTransaction, bind. rewrite Hrun. reflexivity.
  - apply (frame_build env
             (fun w' => db w' = db w /\ trace w' = trace w /\ submits w' = submits w)).
    + intros w' k H. exact H.
    + repeat split.
Qed.

(** What the worker learns from the chain. The transaction of an intent
    is built before anything is sent. When it cannot be built (no package
    is configured, no registry for a MintBadge, or the SDK refuses an
    input or the call), [processTransaction] throws the error as it is:
    nothing is submitted, no answer of the node is consumed and nothing
    is written in the store. When it is built, with the sponsor's key
    decoded, [build_and_execute] consumes one answer of the node and
    writes nothing in the store. A rejection by the SDK or a missing gas
    coin is thrown with the prefix "Transaction execution failed: " and
    nothing is submitted; a transaction that the chain executed without
    success is submitted and is thrown with that prefix twice; a
    transaction executed with success gives its digest. *)
Theorem chain_answer_reaches_the_worker (env : Env) (w : World)
    (transaction : TransactionQueueItem) :
  (forall kp tx answer rest,
     sponsorKeypair w = Some kp ->
     fst (TransactionProcessor.build transaction env w) = Ok tx ->
     submits w = answer :: rest ->
     packageId (config env) <> ""
     /\ db (snd (TransactionProcessor.build_and_execute transaction env w)) = db w
     /\ submits (snd (TransactionProcessor.build_and_execute transaction env w)) = rest
     /\ match answer with
        | Executed digest status error =>
            trace (snd (TransactionProcessor.build_and_execute transaction env w))
            = (trace w
               ++ [SubmitTx (packageId (config env)
                             ++ move_function
                                  (transaction_type (columns transaction)))])%list
            /\ fst (TransactionProcessor.build_and_execute transaction env w)
               = (if bool_decide (status = Some "success")
                  then Ok digest
                  else Throw ("Transaction execution failed: "
                              ++ "Transaction execution failed: "
                              ++ (if JS.truthy_opt error then default "" error
                                  else "Transaction failed")))
        | SdkRejects message =>
            trace (snd (TransactionProcessor.build_and_execute transaction env w))
            = trace w
            /\ fst (TransactionProcessor.build_and_execute transaction env w)
               = Throw ("Transaction execution failed: " ++ message)
        | NoGasCoins =>
            trace (snd (TransactionProcessor.build_and_execute transaction env w))
            = trace w
            /\ fst (TransactionProcessor.build_and_execute transaction env w)
               = Throw ("Transaction execution failed: "
                        ++ "No SUI coins found for address " ++ toSuiAddress kp
                        ++ ". "
                        ++ "Please fund the account with SUI tokens to pay for gas fees.")
        | CoinObjectMissing coinObjectId =>
            trace (snd (TransactionProcessor.build_and_execute transaction env w))
            = trace w
            /\ fst (TransactionProcessor.build_and_execute transaction env w)
               = Throw ("Transaction execution failed: "
                        ++ "Failed to fetch coin object " ++ coinObjectId)
        end)
  /\ (forall error,
        fst (TransactionProcessor.build transaction env w) = Throw error ->
        fst (TransactionProcessor.processTransaction transaction env w) = Throw error
        /\ fst (TransactionProcessor.build_and_execute transaction env w) = Throw error
        /\ db (snd (TransactionProcessor.processTransaction transaction env w)) = db w
        /\ trace (snd (TransactionProcessor.processTransaction transaction env w))
           = trace w
        /\ submits (snd (TransactionProcessor.processTransaction transaction env w))
           = submits w)
  /\ (packageId (config env) = "" ->
      transaction_type (columns transaction) <> mint_nft ->
      TransactionProcessor.build_and_execute transaction env w
      = (Throw ("Package ID not set for network: " ++ network (config env)), w))
  /\ (forall error,
        packageId (config env) <> "" ->
        transaction_type (columns transaction) = make_move ->
        tx_input_error (sdk env)
          (tx_object (transaction_data (columns transaction) !! "gameObjectId"))
        = Some error ->
        TransactionProcessor.processTransaction transaction env w = (Throw error, w)).
Proof.
  split; [|split; [|split]].
  - intros kp tx answer rest Hkp Hbuild Hs.
    split; [apply (proj2 (build_result env w kp transaction Hkp) tx Hbuild)|].
    rewrite (build_and_execute_run env w kp transaction tx answer rest Hkp Hbuild Hs).
    cbn [fst snd].
    destruct answer as [m| |c|d st er]; cbn [was_executed execution_error];
      try (split; [reflexivity|]; split; [reflexivity|]; split; reflexivity).
    split; [reflexivity|]. split; [reflexivity|]. split; [reflexivity|].
    destruct (bool_decide (st = Some "success")); reflexivity.
  - intros error Hbuild.
    destruct (build_throws_run env w transaction error Hbuild)
      as (Hrun & Hproc & Hdb & Htr & Hs).
    rewrite Hproc, Hrun. cbn [fst snd]. repeat split; assumption.
  - intros Hpkg Ht.
    assert (SuiClient.getPackageId env w
            = (Throw ("Package ID not set for network: " ++ network (config env)), w))
      as Hmissing.
    { unfold SuiClient.getPackageId, bind, ask. cbn [fst snd]. rewrite Hpkg.
      reflexivity. }
    unfold TransactionProcessor.build_and_execute, TransactionProcessor.build.
    cbv zeta.
    unfold SuiClient.buildCreateGameTransaction, SuiClient.buildMakeMoveTransaction,
      SuiClient.buildEndGameTransaction.
    destruct (transaction_type (columns transaction));
      try (contradiction Ht; reflexivity);
      apply bind_throw; apply bind_throw; exact Hmissing.
  - intros error Hpkg Ht Hinput.
    unfold TransactionProcessor.processTransaction,
      TransactionProcessor.build_and_execute, TransactionProcessor.build.
    cbv zeta. rewrite Ht. unfold SuiClient.buildMakeMoveTransaction.
    apply bind_throw. apply bind_throw.
    rewrite (bind_ok _ _ env w w _ (getPackageId_ok env w Hpkg)).
    apply bind_throw. unfold SuiClient.input, bind, ask. cbn [fst snd].
    rewrite Hinput. reflexivity.
Qed.

Lemma chain_answer_reaches_the_worker_witness :
  fst (TransactionProcessor.build_and_execute (move_item "0x7")
         (Sample.env_with_key "")
         (world_with_answers [Executed "d1" (Some "success") None]))
  = Ok "d1"
  /\ fst (TransactionProcessor.build_and_execute (move_item "0x7")
            (Sample.env_with_key "")
            (world_with_answers [SdkRejects "fetch failed"]))
     = Throw "Transaction execution failed: fetch failed"
  /\ TransactionProcessor.processTransaction
       (mkItem "t2" (Sample.row make_move (Some "0xA") processing 0))
       (Sample.env_with_key "")
       (world_with_answers [Executed "d1" (Some "success") None])
     = (Throw "Cannot read properties of undefined",
        world_with_answers [Executed "d1" (Some "success") None]).
Proof.
  split; [|split].
  - destruct (chain_answer_reaches_the_worker (Sample.env_with_key "")
                (world_with_answers [Executed "d1" (Some "success") None])
                (move_item "0x7")) as (H & _).
    destruct (H (mkKeypair "0xsponsor")
                (SuiClient.mkTransaction "0xpkg::game::make_move"
                   [tx_object (Some (JS.JStr "0x7"));
                    tx_pure "bool" (Some (JS.JBool false));
                    tx_pure "string" (Some (JS.JStr "e4"));
                    tx_pure "string"
                      (Some (JS.JStr
                               "rnbqkbnr/pppppppp/8/8/4P3/8/PPPP1PPP/RNBQKBNR b KQkq - 0 1"));
                    tx_pure "string" (Some (JS.JStr "h1"));
                    tx_object SuiClient.clock_object])
                (Executed "d1" (Some "success") None) [])
      as (_ & _ & _ & _ & Hres).
    + reflexivity.
    + vm_compute. reflexivity.
    + reflexivity.
    + exact Hres.
  - destruct (chain_answer_reaches_the_worker (Sample.env_with_key "")
                (world_with_answers [SdkRejects "fetch failed"])
                (move_item "0x7")) as (H & _).
    destruct (H (mkKeypair "0xsponsor")
                (SuiClient.mkTransaction "0xpkg::game::make_move"
                   [tx_object (Some (JS.JStr "0x7"));
                    tx_pure "bool" (Some (JS.JBool false));
                    tx_pure "string" (Some (JS.JStr "e4"));
                    tx_pure "string"
                      (Some (JS.JStr
                               "rnbqkbnr/pppppppp/8/8/4P3/8/PPPP1PPP/RNBQKBNR b KQkq - 0 1"));
                    tx_pure "string" (Some (JS.JStr "h1"));
                    tx_object SuiClient.clock_object])
                (SdkRejects "fetch failed") [])
      as (_ & _ & _ & _ & Hres).
    + reflexivity.
    + vm_compute. reflexivity.
    + reflexivity.
    + exact Hres.
  - apply (chain_answer_reaches_the_worker (Sample.env_with_key "")
             (world_with_answers [Executed "d1" (Some "success") None])
             (mkItem "t2" (Sample.row make_move (Some "0xA") processing 0))).
    + discriminate.
    + reflexivity.
    + reflexivity.
Defined.

(** the wait, when the answer of rank [k] is the first with an object: the
    store, the fault plan and the answers to the submissions are not
    touched *)
Lemma wait_run (env : Env) (w : World) (digest objectType : string) (k : nat)
    (r : TxResponse) (o : string) :
  (k < 15)%nat ->
  Forall (Spec.no_criterion objectType) (next_polls w k) ->
  SuiClient.nth_poll w k = PollResponds r ->
  SuiClient.poll_error (PollResponds r) = None ->
  SuiClient.extract objectType r = Some o ->
  exists w1,
    SuiClient.waitForTransactionAndExtractObjectId digest objectType env w
    = (Ok (Some o), w1)
    /\ trace w1 = (trace w ++ polling_of digest (next_polls w (S k)))%list
    /\ db w1 = db w
    /\ faults w1 = faults w.
Proof.
  intros Hk Hno Hnth Herr Hex.
  destruct (poll_from_found env digest objectType r o k 15 0 w
              eq_refl Hk Hno Hnth Herr Hex) as (Ht & Hr).
  pose proof (frame_poll_from env
                (fun w' => db w' = db w /\ faults w' = faults w)
                ltac:(intros ? ? H; exact H) ltac:(intros ? ? H; exact H)
                ltac:(intros ? ? H; exact H)
                digest objectType 15 0 w (conj eq_refl eq_refl)) as [Hdb Hfl].
  unfold SuiClient.waitForTransactionAndExtractObjectId, SuiClient.maxRetries.
  destruct (SuiClient.poll_from 15 0 digest objectType env w) as [res w1].
  cbn [fst snd] in *. subst res.
  exists w1. repeat split; assumption.
Qed.

(** The object id of a game is recorded. When the chain has executed a
    CreateGame intent that has a game id, an answer of the node holds an
    object for the type [::game::Game] within 15 polls, and the store does
    not fail, [reconcile_and_notify] writes the object id in the row of
    the game, releases the moves that wait for the game, and tells the
    player of the success with that object id. It polls the node until
    that answer, writes no reward and returns without an error. *)
Theorem game_object_id_is_recorded (env : Env) (w : World)
    (transaction : TransactionQueueItem) (digest g o : string) (k : nat)
    (r : TxResponse) :
  transaction_type (columns transaction) = create_game ->
  game_id (columns transaction) = Some g ->
  g <> "" ->
  o <> "" ->
  calm w ->
  (k < 15)%nat ->
  Forall (Spec.no_criterion "::game::Game") (next_polls w k) ->
  SuiClient.nth_poll w k = PollResponds r ->
  SuiClient.poll_error (PollResponds r) = None ->
  SuiClient.extract "::game::Game" r = Some o ->
  fst (TransactionProcessor.reconcile_and_notify transaction digest env w) = Ok tt
  /\ games (db (snd (TransactionProcessor.reconcile_and_notify
                       transaction digest env w)))
     = alter (fun _ => Some o) g (games (db w))
  /\ rewards (db (snd (TransactionProcessor.reconcile_and_notify
                         transaction digest env w)))
     = rewards (db w)
  /\ trace (snd (TransactionProcessor.reconcile_and_notify transaction digest env w))
     = (trace w ++ polling_of digest (next_polls w (S k))
        ++ notification transaction digest (Some (Some o)))%list
  /\ (forall i row,
        transaction_queue (db w) !! i = Some row ->
        game_id row = Some g ->
        status row = waiting_for_object_id ->
        exists row',
          transaction_queue
            (db (snd (TransactionProcessor.reconcile_and_notify
                        transaction digest env w))) !! i = Some row'
          /\ status row' = pending
          /\ transaction_data row'
             = <["gameObjectId" := JS.JStr o]> (transaction_data row))
  /\ (forall i row,
        transaction_queue (db w) !! i = Some row ->
        game_id row <> Some g \/ status row <> waiting_for_object_id ->
        transaction_queue
          (db (snd (TransactionProcessor.reconcile_and_notify
                      transaction digest env w))) !! i = Some row).
Proof.
  intros Ht Hg Hgne Hone Hcalm Hk Hno Hnth Herr Hex.
  destruct (wait_run env w digest "::game::Game" k r o Hk Hno Hnth Herr Hex)
    as (w1 & Hwait & Htr1 & Hdb1 & Hfl1).
  assert (calm w1) as Hcalm1 by (unfold calm; rewrite Hfl1; exact Hcalm).
  set (w2 := with_db (with_games (alter (fun _ => Some o) g (games (db w1))) (db w1))
               (with_faults (tail (faults w1)) w1)).
  assert (Database.updateGameObjectId g o env w1 = (Ok tt, w2)) as Hupd.
  { unfold Database.updateGameObjectId. rewrite try_rethrow.
    rewrite (query_calm _ env w1 Hcalm1). reflexivity. }
  assert (calm w2) as Hcalm2 by (apply calm_tail, Hcalm1).
  destruct (processWaitingMovesForGame_run env w2 g o)
    as (w3 & Hrel & _ & Htr3 & Ho3 & Hout & _ & Hin).
  destruct (Hin Hcalm2) as [_ Hin'].
  assert (TransactionProcessor.reconcile_and_notify transaction digest env w
          = (Ok tt, with_trace
                      (trace w3 ++ notification transaction digest (Some (Some o)))
                      w3)
          \/ (notification transaction digest (Some (Some o)) = []
              /\ TransactionProcessor.reconcile_and_notify transaction digest env w
                 = (Ok tt, w3))) as Hrun.
  { unfold TransactionProcessor.reconcile_and_notify. cbv zeta.
    rewrite Ht, Hg.
    rewrite (bind_ok _ _ env w w3 (Some (Some o))).
    - unfold notification, success_event. rewrite Ht.
      destruct (player_sui_address (columns transaction)) as [a|];
        [destruct (JS.truthy_string a)|].
      + left. reflexivity.
      + right. split; reflexivity.
      + right. split; reflexivity.
    - apply try_ok. rewrite (bind_ok _ _ env w w1 _ Hwait).
      apply try_ok.
      rewrite (proj2 (truthy_string_iff o) Hone), (proj2 (truthy_string_iff g) Hgne).
      cbn [andb].
      rewrite (bind_ok _ _ env w1 w3 tt); [reflexivity|].
      rewrite (bind_ok _ _ env w1 w2 tt Hupd). exact Hrel. }
  assert (exists w4,
            TransactionProcessor.reconcile_and_notify transaction digest env w
            = (Ok tt, w4)
            /\ db w4 = db w3
            /\ trace w4
               = (trace w3 ++ notification transaction digest (Some (Some o)))%list)
    as (w4 & Hrun4 & Hdb4 & Htr4).
  { destruct Hrun as [Hrun|[Hnil Hrun]]; rewrite Hrun; eexists;
      (split; [reflexivity|]); split; try reflexivity.
    rewrite Hnil. symmetry. apply app_nil_r. }
  rewrite Hrun4. cbn [fst snd]. rewrite Hdb4.
  injection Ho3 as Hgames _ Hrewards _ _ _.
  split; [reflexivity|].
  split; [rewrite Hgames; cbn; rewrite Hdb1; reflexivity|].
  split; [rewrite Hrewards; cbn; rewrite Hdb1; reflexivity|].
  split; [rewrite Htr4, Htr3; cbn; rewrite Htr1, <- app_assoc; reflexivity|].
  assert (transaction_queue (db w2) = transaction_queue (db w)) as Hq2
    by (cbn; rewrite Hdb1; reflexivity).
  split.
  - intros i row Hq Hgi Hs. rewrite <- Hq2 in Hq.
    eexists. split.
    + apply (Hin' i row Hq). unfold Database.waiting_cond.
      rewrite Hgi, Hs. cbn. rewrite String.eqb_refl. reflexivity.
    + split; reflexivity.
  - intros i row Hq Hnot. rewrite <- Hq2 in Hq.
    apply (Hout i row Hq). unfold Database.waiting_cond.
    destruct Hnot as [Hgi|Hs].
    + replace (JS.sql_eq (game_id row) (Some g)) with false; [reflexivity|].
      symmetry. apply not_true_is_false. intros H.
      apply sql_eq_true in H as (x & Hx & H). congruence.
    + unfold Database.status_eqb. rewrite bool_decide_eq_false_2 by exact Hs.
      apply andb_false_r.
Qed.

Lemma game_object_id_is_recorded_witness :
  games (db (snd (TransactionProcessor.reconcile_and_notify
                    (Sample.executed_game (Some "0xA")) "d1" Sample.env
                    (Sample.world_with_polls
                       [PollResponds
                          (mkResponse (Some "success")
                             (Some [mkChange "created" (Some "0xpkg::game::Game")
                                      (Some "0x7")])
                             None)]))))
  = alter (fun _ => Some "0x7") "g1" ∅.
Proof.
  apply (game_object_id_is_recorded Sample.env
           (Sample.world_with_polls
              [PollResponds
                 (mkResponse (Some "success")
                    (Some [mkChange "created" (Some "0xpkg::game::Game") (Some "0x7")])
                    None)])
           (Sample.executed_game (Some "0xA")) "d1" "g1" "0x7" 0
           (mkResponse (Some "success")
              (Some [mkChange "created" (Some "0xpkg::game::Game") (Some "0x7")])
              None)).
  - reflexivity.
  - reflexivity.
  - discriminate.
  - discriminate.
  - constructor.
  - lia.
  - constructor.
  - reflexivity.
  - reflexivity.
  - reflexivity.
Defined.

(** the reward that [createOrUpdateReward] leaves in the table *)
Lemma upsert_holds_reward (env : Env) (w : World) (p t o : string) :
  no_faults 2 w ->
  exists w',
    Database.createOrUpdateReward p (Some t) o env w = (Ok tt, w')
    /\ transaction_queue (db w') = transaction_queue (db w)
    /\ games (db w') = games (db w)
    /\ trace w' = trace w
    /\ exists row,
         In row (rewards (db w'))
         /\ reward_player_id row = p
         /\ reward_type row = Some t
         /\ reward_object_id row = Some o.
Proof.
  intros Hf.
  destruct (createOrUpdateReward_run env w p (Some t) o Hf)
    as (w' & Hrun & Hq & Hg & _ & Htr & _ & Hr).
  exists w'. split; [exact Hrun|]. split; [exact Hq|]. split; [exact Hg|].
  split; [exact Htr|]. rewrite Hr.
  destruct (List.find _ _) as [r0|] eqn:Hfind.
  - destruct (update_first_reward_spec p (Some t) o (clock w) (rewards (db w)))
      as (_ & _ & row & Hin & Hm & Ho & _); [rewrite Hfind; discriminate|].
    exists row. split; [exact Hin|].
    unfold Database.reward_matches in Hm. apply andb_true_iff in Hm as [H1 H2].
    apply String.eqb_eq in H1. apply sql_eq_true in H2 as (x & Hx & H2).
    injection Hx as <-. repeat split; assumption.
  - eexists. split; [apply in_or_app; right; left; reflexivity|].
    repeat split; reflexivity.
Qed.

(** A minted badge is recorded. When the chain has executed a MintBadge
    intent, an answer of the node holds an object for the type
    [badge::Badge] within 15 polls and the store does not fail,
    [reconcile_and_notify] tells the player of the success with the object
    id, the name of the reward and the type of the badge. When the intent
    has a player and a badge type, the rewards table then holds a reward
    of that player and type with the object id; when the intent has no
    player, no reward is written. The queue and the games are not
    written. *)
Theorem minted_badge_is_recorded (env : Env) (w : World)
    (transaction : TransactionQueueItem) (digest o : string) (k : nat)
    (r : TxResponse) :
  transaction_type (columns transaction) = mint_nft ->
  o <> "" ->
  calm w ->
  (k < 15)%nat ->
  Forall (Spec.no_criterion "badge::Badge") (next_polls w k) ->
  SuiClient.nth_poll w k = PollResponds r ->
  SuiClient.poll_error (PollResponds r) = None ->
  SuiClient.extract "badge::Badge" r = Some o ->
  fst (TransactionProcessor.reconcile_and_notify transaction digest env w) = Ok tt
  /\ trace (snd (TransactionProcessor.reconcile_and_notify transaction digest env w))
     = (trace w ++ polling_of digest (next_polls w (S k))
        ++ notification transaction digest (Some (Some o)))%list
  /\ transaction_queue
       (db (snd (TransactionProcessor.reconcile_and_notify transaction digest env w)))
     = transaction_queue (db w)
  /\ games (db (snd (TransactionProcessor.reconcile_and_notify
                       transaction digest env w)))
     = games (db w)
  /\ (forall p t,
        player_id (columns transaction) = Some p ->
        p <> "" ->
        transaction_data (columns transaction) !! "badgeType" ≫= JS.text = Some t ->
        exists row,
          In row (rewards (db (snd (TransactionProcessor.reconcile_and_notify
                                      transaction digest env w))))
          /\ reward_player_id row = p
          /\ reward_type row = Some t
          /\ reward_object_id row = Some o)
  /\ (JS.truthy_opt (player_id (columns transaction)) = false ->
      rewards (db (snd (TransactionProcessor.reconcile_and_notify
                          transaction digest env w)))
      = rewards (db w)).
Proof.
  intros Ht Hone Hcalm Hk Hno Hnth Herr Hex.
  destruct (wait_run env w digest "badge::Badge" k r o Hk Hno Hnth Herr Hex)
    as (w1 & Hwait & Htr1 & Hdb1 & Hfl1).
  assert (calm w1) as Hcalm1 by (unfold calm; rewrite Hfl1; exact Hcalm).
  assert (forall w3,
            trace w3 = trace w1 ->
            exists w4,
              (match player_sui_address (columns transaction) with
               | Some playerAddress =>
                   if JS.truthy_string playerAddress
                   then
                     emit (room playerAddress) "transaction:result"
                       ([("transactionId", JS.JStr (id transaction));
                         ("status", JS.JStr "success");
                         ("digest", JS.JStr digest)]
                        ++ TransactionProcessor.objectId_field (Some (Some o))
                        ++ (if Database.is_mint_nft mint_nft
                            then TransactionProcessor.data_field "rewardName"
                                   (transaction_data (columns transaction) !! "name")
                                 ++ TransactionProcessor.data_field "badgeType"
                                      (transaction_data (columns transaction)
                                         !! "badgeType")
                            else []))
                   else ret tt
               | None => ret tt
               end) env w3 = (Ok tt, w4)
              /\ db w4 = db w3
              /\ trace w4
                 = (trace w ++ polling_of digest (next_polls w (S k))
                    ++ notification transaction digest (Some (Some o)))%list)
    as Hnotify.
  { intros w3 Htr3. unfold notification, success_event. rewrite Ht.
    destruct (player_sui_address (columns transaction)) as [a|];
      [destruct (JS.truthy_string a)|];
      eexists; (split; [reflexivity|]); (split; [reflexivity|]); cbn;
      rewrite Htr3, Htr1, <- ?app_assoc, ?app_nil_r; reflexivity. }
  unfold TransactionProcessor.reconcile_and_notify. cbv zeta. rewrite Ht.
  assert (JS.truthy_opt (Some o) = true) as Ho
    by (apply (proj2 (truthy_string_iff o) Hone)).
  destruct (JS.truthy_opt (player_id (columns transaction))) eqn:Hp.
  - destruct (player_id (columns transaction)) as [p|] eqn:Hpid; [|discriminate].
    assert (exists w3,
              Database.createOrUpdateReward p
                (transaction_data (columns transaction) !! "badgeType" ≫= JS.text)
                o env w1 = (Ok tt, w3)
              /\ transaction_queue (db w3) = transaction_queue (db w1)
              /\ games (db w3) = games (db w1)
              /\ trace w3 = trace w1
              /\ forall t,
                   transaction_data (columns transaction) !! "badgeType" ≫= JS.text
                   = Some t ->
                   exists row,
                     In row (rewards (db w3))
                     /\ reward_player_id row = p
                     /\ reward_type row = Some t
                     /\ reward_object_id row = Some o)
      as (w3 & Hup & Hq3 & Hg3 & Htr3 & Hrow).
    { destruct (transaction_data (columns transaction) !! "badgeType" ≫= JS.text)
        as [t|].
      - destruct (upsert_holds_reward env w1 p t o (calm_no_faults 2 w1 Hcalm1))
          as (w3 & Hup & Hq3 & Hg3 & Htr3 & Hrow).
        exists w3. repeat split; try assumption. intros t' [= <-]. exact Hrow.
      - destruct (createOrUpdateReward_run env w1 p None o
                    (calm_no_faults 2 w1 Hcalm1))
          as (w3 & Hup & Hq3 & Hg3 & _ & Htr3 & _).
        exists w3. repeat split; try assumption. intros t' H. discriminate H. }
    destruct (Hnotify w3 Htr3) as (w4 & Hemit & Hdb4 & Htr4).
    rewrite (bind_ok _ _ env w w3 (Some (Some o))).
    + rewrite Hemit. cbn [fst snd]. rewrite Hdb4.
      split; [reflexivity|]. split; [exact Htr4|].
      split; [rewrite Hq3, Hdb1; reflexivity|].
      split; [rewrite Hg3, Hdb1; reflexivity|].
      split; [|intros H; discriminate H].
      intros p' t [= <-] _ Hbadge. apply (Hrow t Hbadge).
    + apply try_ok. rewrite (bind_ok _ _ env w w1 _ Hwait).
      apply try_ok. rewrite Ho. cbn [negb].
      rewrite (bind_ok _ _ env w1 w3 tt); [reflexivity|].
      rewrite try_rethrow. cbn [default]. exact Hup.
  - destruct (Hnotify w1 eq_refl) as (w4 & Hemit & Hdb4 & Htr4).
    rewrite (bind_ok _ _ env w w1 (Some (Some o))).
    + rewrite Hemit. cbn [fst snd]. rewrite Hdb4, Hdb1.
      split; [reflexivity|]. split; [exact Htr4|].
      split; [reflexivity|]. split; [reflexivity|].
      split; [|reflexivity].
      intros p t Hpid Hpne. rewrite Hpid in Hp. cbn in Hp.
      rewrite (proj2 (truthy_string_iff p) Hpne) in Hp. discriminate Hp.
    + apply try_ok. rewrite (bind_ok _ _ env w w1 _ Hwait).
      apply try_ok. rewrite Ho. cbn [negb]. reflexivity.
Qed.

Lemma minted_badge_is_recorded_witness :
  exists row,
    In row (rewards
              (db (snd (TransactionProcessor.reconcile_and_notify
                          (mkItem "t1" (Sample.mint_row (Some "0xA") (Some "p1") processing))
                          "d1" Sample.env
                          (Sample.world_with_polls
                             [PollResponds
                                (mkResponse (Some "success")
                                   (Some [mkChange "created" (Some "0xpkg::badge::Badge")
                                            (Some "0x9")])
                                   None)])))))
    /\ reward_player_id row = "p1"
    /\ reward_type row = Some "first_game"
    /\ reward_object_id row = Some "0x9".
Proof.
  destruct (minted_badge_is_recorded Sample.env
              (Sample.world_with_polls
                 [PollResponds
                    (mkResponse (Some "success")
                       (Some [mkChange "created" (Some "0xpkg::badge::Badge")
                                (Some "0x9")])
                       None)])
              (mkItem "t1" (Sample.mint_row (Some "0xA") (Some "p1") processing))
              "d1" "0x9" 0
              (mkResponse (Some "success")
                 (Some [mkChange "created" (Some "0xpkg::badge::Badge") (Some "0x9")])
                 None))
    as (_ & _ & _ & _ & H & _).
  - reflexivity.
  - discriminate.
  - constructor.
  - lia.
  - constructor.
  - reflexivity.
  - reflexivity.
  - reflexivity.
  - apply (H "p1" "first_game").
    + reflexivity.
    + discriminate.
    + reflexivity.
Defined.

(** A move, or the end of a game, that the chain executes with success is
    submitted once and reported once. When the transaction of the intent
    is built, [processTransaction] sends it, asks the node for nothing
    more, reads and writes nothing in the store, and tells the player of
    the success with the digest and no object id. When it is not built,
    as for a payload without the object of the game, [processTransaction]
    throws and nothing is submitted (the theorem on the answers of the
    chain). *)
Theorem move_is_submitted_and_reported (env : Env) (w : World)
    (transaction : TransactionQueueItem) (kp : Ed25519Keypair)
    (tx : SuiClient.Transaction) (digest : string)
    (error : option string) (rest : list SubmitAnswer) :
  transaction_type (columns transaction) = make_move
  \/ transaction_type (columns transaction) = end_game ->
  sponsorKeypair w = Some kp ->
  fst (TransactionProcessor.build transaction env w) = Ok tx ->
  submits w = Executed digest (Some "success") error :: rest ->
  fst (TransactionProcessor.processTransaction transaction env w) = Ok tt
  /\ db (snd (TransactionProcessor.processTransaction transaction env w)) = db w
  /\ polls (snd (TransactionProcessor.processTransaction transaction env w)) = polls w
  /\ faults (snd (TransactionProcessor.processTransaction transaction env w))
     = faults w
  /\ submits (snd (TransactionProcessor.processTransaction transaction env w)) = rest
  /\ trace (snd (TransactionProcessor.processTransaction transaction env w))
     = (trace w
        ++ SubmitTx (packageId (config env)
                     ++ move_function (transaction_type (columns transaction)))
        :: notification transaction digest None)%list.
Proof.
  intros Ht Hkp Hbuild Hs.
  pose proof (build_and_execute_run env w kp transaction tx _ rest Hkp Hbuild Hs)
    as Hrun.
  cbn [execution_error was_executed] in Hrun.
  rewrite bool_decide_eq_true_2 in Hrun by reflexivity.
  unfold TransactionProcessor.processTransaction.
  rewrite (bind_ok _ _ env w _ digest Hrun).
  unfold TransactionProcessor.reconcile_and_notify, notification, success_event.
  cbv zeta.
  destruct Ht as [Ht|Ht]; rewrite Ht; cbn [Database.is_mint_nft];
    unfold bind at 1; unfold ret at 1; cbn [fst snd];
    (destruct (player_sui_address (columns transaction)) as [a|];
     [destruct (JS.truthy_string a)|]);
    cbn; rewrite ?app_nil_r, <- ?app_assoc; repeat split; reflexivity.
Qed.

Lemma move_is_submitted_and_reported_witness :
  trace (snd (TransactionProcessor.processTransaction (move_item "0x7")
                (Sample.env_with_key "")
                (world_with_answers [Executed "d1" (Some "success") None])))
  = [SubmitTx "0xpkg::game::make_move";
     success_event "0xA" (move_item "0x7") "d1" None].
Proof.
  apply (move_is_submitted_and_reported (Sample.env_with_key "")
           (world_with_answers [Executed "d1" (Some "success") None])
           (move_item "0x7") (mkKeypair "0xsponsor")
           (SuiClient.mkTransaction "0xpkg::game::make_move"
              [tx_object (Some (JS.JStr "0x7"));
               tx_pure "bool" (Some (JS.JBool false));
               tx_pure "string" (Some (JS.JStr "e4"));
               tx_pure "string"
                 (Some (JS.JStr
                          "rnbqkbnr/pppppppp/8/8/4P3/8/PPPP1PPP/RNBQKBNR b KQkq - 0 1"));
               tx_pure "string" (Some (JS.JStr "h1"));
               tx_object SuiClient.clock_object])
           "d1" None []).
  - left. reflexivity.
  - reflexivity.
  - vm_compute. reflexivity.
  - reflexivity.
Defined.

End ProcessorFacts.


(** ** Rewards: [services/reward-service.ts] *)

Module EligibilityFacts.
Import MFacts RunFacts RewardFacts DatabaseFacts StoreFacts.

Lemma find_existsb {A} (f : A -> bool) (l : list A) :
  existsb f l = match List.find f l with Some _ => true | None => false end.
Proof.
  induction l as [|x l IH]; simpl; [reflexivity|].
  destruct (f x); [reflexivity|exact IH].
Qed.

(** the eligibility for a badge that has a view of its own *)
Lemma shouldEarnReward_view_run (env : Env) (w : World) (address rewardType : string)
    (view : Database -> list string) :
  no_faults 3 w ->
  (rewardType = "first_game" /\ view = vw_users_no_first_game)
  \/ (rewardType = "first_game_created" /\ view = vw_users_no_first_game_created) ->
  exists w',
    RewardService.shouldEarnReward address rewardType env w
    = (Ok (match Spec.player_of (db w) address with
           | None => None
           | Some player =>
               if existsb (Database.reward_matches player (Some rewardType))
                          (rewards (db w))
               then None
               else if existsb (fun s => String.eqb s address) (view (db w))
                    then Some rewardType
                    else None
           end), w')
    /\ db w' = db w /\ trace w' = trace w.
Proof.
  intros Hf Hkind.
  assert (exists table,
            (if String.eqb rewardType "first_game"
             then Some ("vw_users_no_first_game", "first_game")
             else if String.eqb rewardType "first_game_created"
             then Some ("vw_users_no_first_game_created", "first_game_created")
             else if String.eqb rewardType "wins"
             then Some ("vw_users_victories", "")
             else None) = Some (table, rewardType)
            /\ JS.truthy_string rewardType = true
            /\ negb (String.eqb rewardType "wins") = true
            /\ forall d,
                 RewardService.select_view table address d
                 = Database.limit_1
                     (List.map total
                        (List.filter (fun v => String.eqb (suid v) address)
                           (List.map (fun s => mkVictory s None) (view d)))))
    as (table & Hknown & Htruthy & Hwins & Hview).
  { destruct Hkind as [[-> ->]|[-> ->]]; eexists; repeat split; reflexivity. }
  unfold RewardService.shouldEarnReward. cbv zeta. rewrite Hknown.
  unfold bind at 1.
  rewrite pool_query_run by (apply (no_faults_next 2), Hf). cbn [fst snd].
  set (w1 := with_db (db w) (with_faults (tail (faults w)) w)).
  assert (no_faults 2 w1) as Hf1 by (apply no_faults_tail, Hf).
  rewrite limit_1_filter. unfold Spec.player_of.
  destruct (List.find _ (players (db w))) as [player|];
    [|eexists; split; [reflexivity|split; reflexivity]].
  cbn [fmap option_fmap option_map].
  rewrite Htruthy.
  unfold bind at 1. unfold bind at 1.
  rewrite pool_query_run by (apply (no_faults_next 1), Hf1). cbn [fst snd].
  set (w2 := with_db (db w1) (with_faults (tail (faults w1)) w1)).
  assert (no_faults 1 w2) as Hf2 by (apply no_faults_tail, Hf1).
  rewrite limit_1_filter, find_existsb.
  change (rewards (db w1)) with (rewards (db w)).
  destruct (List.find _ (rewards (db w)));
    [eexists; split; [reflexivity|split; reflexivity]|].
  cbn [ret fst snd]. rewrite Hwins.
  unfold bind at 1.
  rewrite pool_query_run by (apply (no_faults_next 0), Hf2). cbn [fst snd].
  rewrite Hview. change (db w2) with (db w).
  assert (forall l,
            Database.limit_1
              (List.map total
                 (List.filter (fun v => String.eqb (suid v) address)
                    (List.map (fun s => mkVictory s None) l)))
            = if existsb (fun s => String.eqb s address) l then [None] else [])
    as Hl.
  { induction l as [|s l IH]; [reflexivity|]. simpl.
    destruct (String.eqb s address); [reflexivity|exact IH]. }
  rewrite Hl.
  destruct (existsb _ (view (db w)));
    eexists; (split; [reflexivity|split; reflexivity]).
Qed.

(** a reward type that [shouldEarnReward] does not know *)
Lemma shouldEarnReward_unknown (env : Env) (w : World) (address rewardType : string) :
  rewardType <> "first_game" ->
  rewardType <> "first_game_created" ->
  rewardType <> "wins" ->
  RewardService.shouldEarnReward address rewardType env w = (Ok None, w).
Proof.
  intros H1 H2 H3.
  unfold RewardService.shouldEarnReward. cbv zeta.
  rewrite (proj2 (String.eqb_neq _ _) H1), (proj2 (String.eqb_neq _ _) H2),
    (proj2 (String.eqb_neq _ _) H3).
  reflexivity.
Qed.

(** Who earns the badge of a first game. When its three queries do not
    fail, [shouldEarnReward] with the type [first_game] returns
    [first_game] exactly when a player has the address, that player has no
    reward of that type yet, and the address is in the view
    [vw_users_no_first_game]; it returns null otherwise. The same holds
    for [first_game_created] and its view. Any other type than these two
    and [wins] is answered by null without a single query. The store is
    only read. *)
Theorem first_game_eligibility (env : Env) (w : World) (address : string) :
  (no_faults 3 w ->
   fst (RewardService.shouldEarnReward address "first_game" env w)
   = Ok (match Spec.player_of (db w) address with
         | None => None
         | Some player =>
             if existsb (Database.reward_matches player (Some "first_game"))
                        (rewards (db w))
             then None
             else if existsb (fun s => String.eqb s address)
                             (vw_users_no_first_game (db w))
                  then Some "first_game"
                  else None
         end)
   /\ db (snd (RewardService.shouldEarnReward address "first_game" env w)) = db w)
  /\ (no_faults 3 w ->
      fst (RewardService.shouldEarnReward address "first_game_created" env w)
      = Ok (match Spec.player_of (db w) address with
            | None => None
            | Some player =>
                if existsb (Database.reward_matches player (Some "first_game_created"))
                           (rewards (db w))
                then None
                else if existsb (fun s => String.eqb s address)
                                (vw_users_no_first_game_created (db w))
                     then Some "first_game_created"
                     else None
            end)
      /\ db (snd (RewardService.shouldEarnReward address "first_game_created" env w))
         = db w)
  /\ (forall rewardType,
        rewardType <> "first_game" ->
        rewardType <> "first_game_created" ->
        rewardType <> "wins" ->
        RewardService.shouldEarnReward address rewardType env w = (Ok None, w)).
Proof.
  split; [|split].
  - intros Hf.
    destruct (shouldEarnReward_view_run env w address "first_game"
                vw_users_no_first_game Hf (or_introl (conj eq_refl eq_refl)))
      as (w' & Hrun & Hdb & _).
    rewrite Hrun. split; [reflexivity|exact Hdb].
  - intros Hf.
    destruct (shouldEarnReward_view_run env w address "first_game_created"
                vw_users_no_first_game_created Hf (or_intror (conj eq_refl eq_refl)))
      as (w' & Hrun & Hdb & _).
    rewrite Hrun. split; [reflexivity|exact Hdb].
  - intros rewardType H1 H2 H3.
    apply shouldEarnReward_unknown; assumption.
Qed.

Lemma first_game_eligibility_witness :
  fst (RewardService.shouldEarnReward "0xA" "first_game" Sample.env
         (Sample.world_of newcomer_db))
  = Ok (Some "first_game")
  /\ RewardService.shouldEarnReward "0xA" "first_game_won" Sample.env
       (Sample.world_of newcomer_db)
     = (Ok None, Sample.world_of newcomer_db).
Proof.
  destruct (first_game_eligibility Sample.env (Sample.world_of newcomer_db) "0xA")
    as (Hfirst & _ & Hother).
  split.
  - apply (proj1 (Hfirst ltac:(constructor))).
  - apply Hother; discriminate.
Defined.

End EligibilityFacts.


(** ** Intake: [services/socket-server.ts] *)

Module SocketFacts.
Import MFacts RunFacts RewardFacts DatabaseFacts IntakeFacts QueueInvariantFacts
  FrameFacts StoreFacts ScriptFacts EligibilityFacts.

(** Handling a request only adds to the queue. Whatever the request and
    whether or not the store fails, a handler changes and removes no row
    that the queue holds, writes no other table, sends nothing to the
    chain, does not wait, and leaves the sponsor's key and the set of the
    players being processed as they are. *)
Theorem handlers_only_add_rows (env : Env) (w : World)
    (request : SocketServer.Request) :
  (forall j r,
     transaction_queue (db w) !! j = Some r ->
     transaction_queue (db (snd (SocketServer.handle request env w))) !! j = Some r)
  /\ other_tables (db (snd (SocketServer.handle request env w))) = other_tables (db w)
  /\ clock (snd (SocketServer.handle request env w)) = clock w
  /\ submits (snd (SocketServer.handle request env w)) = submits w
  /\ polls (snd (SocketServer.handle request env w)) = polls w
  /\ sponsorKeypair (snd (SocketServer.handle request env w)) = sponsorKeypair w
  /\ processingPlayers (snd (SocketServer.handle request env w))
     = processingPlayers w.
Proof.
  split.
  - intros j r Hq.
    apply (handle_keeps env (fun q => q !! j = Some r)
             (KeptRowFacts.addToQueue_keeps env j r) request
             (KeptRowFacts.on_make_move_keeps env j r) w Hq).
  - apply (frame_handle env
             (fun w' => other_tables (db w') = other_tables (db w)
                        /\ clock w' = clock w
                        /\ submits w' = submits w
                        /\ polls w' = polls w
                        /\ sponsorKeypair w' = sponsorKeypair w
                        /\ processingPlayers w' = processingPlayers w)).
    + intros w' H. exact H.
    + intros w' t H. exact H.
    + intros w' q H. exact H.
    + repeat split.
Qed.

Lemma catalogue_reward_of_wins (rewardType : string) :
  In rewardType
     (List.map RewardService.badge_type
        (List.filter (fun r => String.eqb (RewardService.check r) "wins")
           RewardService.rewardsList)) ->
  (exists reward, RewardService.getRewardByBadgeType rewardType = Some reward)
  /\ rewardType <> "first_game" /\ rewardType <> "first_game_created"
  /\ rewardType <> "wins".
Proof.
  intros H. simpl in H.
  destruct H as [<-|[<-|[<-|[<-|[]]]]];
    (split; [eexists; reflexivity|]); repeat split; discriminate.
Qed.

Lemma nftMint_by_wins_name_run (env : Env) (w : World)
    (playerId playerSuiAddress rewardType suffix : string) :
  In rewardType
     (List.map RewardService.badge_type
        (List.filter (fun r => String.eqb (RewardService.check r) "wins")
           RewardService.rewardsList)) ->
  exists w' l,
    SocketServer.on_nftMint
      (SocketServer.mkNftMint playerId playerSuiAddress rewardType) suffix env w
    = (Ok tt, w')
    /\ db w' = db w
    /\ trace w' = (trace w ++ l)%list
    /\ Forall (fun x => exists payload, x = Emit ToSocket "error" payload) l.
Proof.
  intros Hin.
  destruct (catalogue_reward_of_wins rewardType Hin)
    as ((reward & Hreward) & H1 & H2 & H3).
  unfold SocketServer.on_nftMint. cbv zeta.
  cbn [SocketServer.nm_playerId SocketServer.nm_playerSuiAddress
       SocketServer.nm_rewardType].
  destruct (negb (JS.truthy_string playerId) || negb (JS.truthy_string playerSuiAddress)
            || negb (JS.truthy_string rewardType)).
  { erewrite try_ok by reflexivity.
    eexists. eexists. split; [reflexivity|]. split; [reflexivity|].
    split; [reflexivity|]. constructor; [eexists; reflexivity|constructor]. }
  destruct (next_fault w) as [m|] eqn:Hf.
  { erewrite try_throw
      by (apply bind_throw; unfold pool_query; rewrite Hf; reflexivity).
    eexists. eexists. split; [reflexivity|]. split; [reflexivity|].
    split; [reflexivity|]. constructor; [eexists; reflexivity|constructor]. }
  unfold try_catch. unfold bind at 1. rewrite pool_query_run by exact Hf.
  cbn [fst snd].
  destruct (Database.limit_1 _) as [|player rest].
  { eexists. eexists. split; [reflexivity|].
    split; [destruct (db w); reflexivity|].
    split; [reflexivity|]. constructor; [eexists; reflexivity|constructor]. }
  rewrite Hreward. unfold bind at 1.
  rewrite (shouldEarnReward_unknown env _ playerSuiAddress rewardType H1 H2 H3).
  cbn [fst snd ret].
  eexists. exists []. split; [reflexivity|].
  split; [destruct (db w); reflexivity|].
  split; [symmetry; apply app_nil_r|constructor].
Qed.

(** A badge of the kind [wins] cannot be asked for by its name. When the
    reward type of an [nftMint] request is the badge type of a catalogue
    entry whose check is [wins] ([first_game_won], [10_games_won], ...),
    the handler finds the entry, then asks [shouldEarnReward] with that
    name, which knows the types [first_game], [first_game_created] and
    [wins] only: nothing is written in the store, and the only events that
    can be emitted are errors to the socket. *)
Theorem wins_badge_is_not_minted_by_name (env : Env) (w : World)
    (playerId playerSuiAddress rewardType suffix : string) :
  In rewardType
     (List.map RewardService.badge_type
        (List.filter (fun r => String.eqb (RewardService.check r) "wins")
           RewardService.rewardsList)) ->
  db (snd (SocketServer.on_nftMint
             (SocketServer.mkNftMint playerId playerSuiAddress rewardType)
             suffix env w)) = db w
  /\ exists l,
       trace (snd (SocketServer.on_nftMint
                     (SocketServer.mkNftMint playerId playerSuiAddress rewardType)
                     suffix env w))
       = (trace w ++ l)%list
       /\ Forall (fun x => exists payload, x = Emit ToSocket "error" payload) l.
Proof.
  intros Hin.
  destruct (nftMint_by_wins_name_run env w playerId playerSuiAddress rewardType
              suffix Hin) as (w' & l & Hrun & Hdb & Htr & Hl).
  rewrite Hrun. cbn [snd]. split; [exact Hdb|].
  exists l. split; assumption.
Qed.

Lemma wins_badge_is_not_minted_by_name_witness :
  db (snd (SocketServer.on_nftMint
             (SocketServer.mkNftMint "p1" "0xA" "10_games_won") "s" Sample.env
             (Sample.world_of Sample.winner_db)))
  = Sample.winner_db.
Proof.
  apply (wins_badge_is_not_minted_by_name Sample.env
           (Sample.world_of Sample.winner_db) "p1" "0xA" "10_games_won" "s").
  simpl. tauto.
Defined.

(** what [addToQueue] returns and leaves *)
Lemma addToQueue_answer (env : Env) (w : World) (i : string) (t : TransactionType)
    (address : option string) (data : gmap string JS.json)
    (gameId playerId : option string) :
  exists res w1,
    Database.addToQueue i t address data gameId playerId env w = (res, w1)
    /\ trace w1 = trace w
    /\ (forall msg, res = Throw msg -> db w1 = db w)
    /\ (Database.is_mint_nft t = false -> res = Ok tt ->
        transaction_queue (db w1) !! i
        = Some (new_row w t address data gameId playerId)).
Proof.
  destruct (addToQueue_cases env w i t address data gameId playerId)
    as (res & w1 & Hrun & Hcases).
  exists res, w1. split; [exact Hrun|]. split; [|split].
  - pose proof (frame_addToQueue env (fun w' => trace w' = trace w)
                  (fun w' H => H) (fun w' q H => H)
                  i t address data gameId playerId w eq_refl) as H.
    rewrite Hrun in H. exact H.
  - intros msg ->. destruct Hcases as [H|(_ & H & _)]; [exact H|discriminate].
  - intros Ht ->. revert Hrun.
    unfold Database.addToQueue. cbv zeta. rewrite Ht. cbn [andb].
    unfold pool_query, Database.insert_queue.
    destruct (next_fault w); [discriminate|].
    destruct (transaction_queue (db w) !! i); [discriminate|].
    cbn [fst snd]. intros [= <-]. cbn. apply lookup_insert_eq.
Qed.

(** the answer of a handler whose work is [m] *)
Lemma intake_answer (env : Env) (w w1 : World) (m : M unit) (tid status : string)
    (res : outcome unit) :
  m env w = (res, w1) ->
  try_catch (m ;;; SocketServer.queued tid status) (SocketServer.report tid) env w
  = (Ok tt,
     with_trace (trace w1 ++ [match res with
                              | Ok _ => queued_event tid status
                              | Throw msg => error_event tid msg
                              end]) w1).
Proof.
  intros H. unfold try_catch, bind. rewrite H. destruct res; reflexivity.
Qed.

(** the run of a handler of a validated request *)
Lemma handle_run (env : Env) (w : World) (request : SocketServer.Request)
    (tid : string) :
  transaction_id_of request = Some tid ->
  exists w1 x,
    SocketServer.handle request env w = (Ok tt, with_trace (trace w ++ [x]) w1)
    /\ ((exists status,
           x = queued_event tid status
           /\ ((forall data, request <> SocketServer.MintNft data) ->
               is_Some (transaction_queue (db w1) !! tid)))
        \/ (exists msg,
              x = error_event tid msg
              /\ ((forall data, request <> SocketServer.MakeMove data) ->
                  db w1 = db w))).
Proof.
  destruct request as [data|data|data|data|data suffix]; cbn [transaction_id_of];
    intros [= <-]; cbn [SocketServer.handle].
  - unfold SocketServer.on_create_game, Validation.validateCreateGame,
      Validation.parse.
    destruct (_ && _ : bool).
    + destruct (addToQueue_answer env w (Validation.cg_transactionId data) create_game
                  (Some (Validation.cg_playerAddress data))
                  (Validation.create_game_data data)
                  (Some (Validation.cg_gameId data)) None)
        as (res & w1 & Hrun & Htrace & Hthrow & Hok).
      exists w1. eexists. split.
      * etransitivity; [apply (intake_answer env w w1 _ _ _ res); exact Hrun|].
        rewrite Htrace. reflexivity.
      * destruct res as [[]|msg].
        -- left. eexists. split; [reflexivity|]. intros _.
           rewrite (Hok eq_refl eq_refl). eexists. reflexivity.
        -- right. eexists. split; [reflexivity|]. intros _. eapply Hthrow. reflexivity.
    + exists w. eexists. split; [reflexivity|].
      right. eexists. split; [reflexivity|reflexivity].
  - unfold SocketServer.on_make_move, Validation.validateMakeMove,
      Validation.parse. cbv zeta.
    destruct (_ && _ : bool).
    2:{ exists w. eexists. split; [reflexivity|].
        right. eexists. split; [reflexivity|]. intros H.
        exfalso. apply (H data). reflexivity. }
    destruct (addToQueue_answer env w (Validation.mm_transactionId data) make_move
                (Some (Validation.mm_playerAddress data))
                (Validation.make_move_data data)
                (JS.or_null (Validation.mm_gameId data)) None)
      as (res & w1 & Hrun & Htrace & Hthrow & Hok).
    unfold try_catch. unfold bind at 1. unfold lift_outcome at 1.
    unfold bind at 1. rewrite Hrun.
    destruct res as [[]|msg].
    2:{ exists w1. eexists. split.
        - rewrite <- Htrace. reflexivity.
        - right. eexists. split; [reflexivity|]. intros H.
          exfalso. apply (H data). reflexivity. }
    specialize (Hok eq_refl eq_refl).
    destruct (Database.status_eqb _ waiting_for_object_id).
    2:{ exists w1. eexists. split.
        - rewrite <- Htrace. reflexivity.
        - left. eexists. split; [reflexivity|]. intros _.
          rewrite Hok. eexists. reflexivity. }
    unfold bind at 1. unfold Database.updateTransactionStatus, pool_query.
    destruct (next_fault w1).
    + eexists. eexists. split.
      * rewrite <- Htrace. reflexivity.
      * right. eexists. split; [reflexivity|]. intros H.
        exfalso. apply (H data). reflexivity.
    + eexists. eexists. split.
      * rewrite <- Htrace. reflexivity.
      * left. eexists. split; [reflexivity|]. intros _.
        cbn. rewrite lookup_alter_eq, Hok. eexists. reflexivity.
  - unfold SocketServer.on_end_game, Validation.validateEndGame, Validation.parse.
    destruct (_ && _ : bool).
    + destruct (addToQueue_answer env w (Validation.eg_transactionId data) end_game
                  (Some (Validation.eg_playerAddress data))
                  (Validation.end_game_data data) None None)
        as (res & w1 & Hrun & Htrace & Hthrow & Hok).
      exists w1. eexists. split.
      * etransitivity; [apply (intake_answer env w w1 _ _ _ res); exact Hrun|].
        rewrite Htrace. reflexivity.
      * destruct res as [[]|msg].
        -- left. eexists. split; [reflexivity|]. intros _.
           rewrite (Hok eq_refl eq_refl). eexists. reflexivity.
        -- right. eexists. split; [reflexivity|]. intros _. eapply Hthrow. reflexivity.
    + exists w. eexists. split; [reflexivity|].
      right. eexists. split; [reflexivity|reflexivity].
  - unfold SocketServer.on_mint_nft, Validation.validateMintNft, Validation.parse.
    destruct (_ && _ : bool).
    + destruct (addToQueue_answer env w (Validation.mn_transactionId data) mint_nft
                  (Some (Validation.mn_playerAddress data))
                  (Validation.mint_nft_data data) None
                  (Some (Validation.mn_playerId data)))
        as (res & w1 & Hrun & Htrace & Hthrow & Hok).
      exists w1. eexists. split.
      * etransitivity; [apply (intake_answer env w w1 _ _ _ res); exact Hrun|].
        rewrite Htrace. reflexivity.
      * destruct res as [[]|msg].
        -- left. eexists. split; [reflexivity|]. intros H.
           exfalso. apply (H data). reflexivity.
        -- right. eexists. split; [reflexivity|]. intros _. eapply Hthrow. reflexivity.
    + exists w. eexists. split; [reflexivity|].
      right. eexists. split; [reflexivity|reflexivity].
Qed.

(** One answer to one request. A handler of a [transaction:create_game],
    [transaction:make_move], [transaction:end_game] or
    [transaction:mint_nft] request never throws and emits exactly one
    event, to the socket of the request and with the transaction id of the
    request: [transaction:queued] or [error]. After [transaction:queued]
    the queue holds a row under that id, unless the request is a
    [transaction:mint_nft]; after [error] the store is as it was, unless
    the request is a [transaction:make_move]. *)
Theorem request_is_answered_once (env : Env) (w : World)
    (request : SocketServer.Request) (tid : string) :
  transaction_id_of request = Some tid ->
  fst (SocketServer.handle request env w) = Ok tt
  /\ exists x,
       trace (snd (SocketServer.handle request env w)) = (trace w ++ [x])%list
       /\ ((exists status, x = queued_event tid status)
           \/ (exists msg, x = error_event tid msg))
       /\ (forall status,
             x = queued_event tid status ->
             (forall data, request <> SocketServer.MintNft data) ->
             is_Some (transaction_queue
                        (db (snd (SocketServer.handle request env w))) !! tid))
       /\ (forall msg,
             x = error_event tid msg ->
             (forall data, request <> SocketServer.MakeMove data) ->
             db (snd (SocketServer.handle request env w)) = db w).
Proof.
  intros Htid.
  destruct (handle_run env w request tid Htid) as (w1 & x & Hrun & Hcases).
  rewrite Hrun. cbn [fst snd]. split; [reflexivity|].
  exists x. split; [reflexivity|]. split; [|split].
  - destruct Hcases as [(status & -> & _)|(msg & -> & _)]; [left|right]; eauto.
  - intros status -> Hkind.
    destruct Hcases as [(status' & _ & H)|(msg & [=] & _)].
    destruct w1. apply H, Hkind.
  - intros msg -> Hkind.
    destruct Hcases as [(status & [=] & _)|(msg' & _ & H)].
    destruct w1. apply H, Hkind.
Qed.

Lemma request_is_answered_once_witness :
  fst (SocketServer.handle
         (SocketServer.CreateGame (Validation.mkCreateGame "t1" "g1" "0xA" 0 1))
         Sample.env Sample.empty_world) = Ok tt.
Proof.
  apply (request_is_answered_once Sample.env Sample.empty_world
           (SocketServer.CreateGame (Validation.mkCreateGame "t1" "g1" "0xA" 0 1))
           "t1").
  reflexivity.
Defined.

Lemma failed_waiting_move_run (env : Env) (w : World)
    (data : Validation.MakeMoveRequest) (msg : string) (rest : list (option string)) :
  Validation.validateMakeMove data = Ok data ->
  Validation.mm_status data = Some "waiting_for_object_id" ->
  transaction_queue (db w) !! Validation.mm_transactionId data = None ->
  faults w = None :: Some msg :: rest ->
  SocketServer.on_make_move data env w
  = (Ok tt,
     with_trace (trace w ++ [error_event (Validation.mm_transactionId data) msg])
       (with_faults rest
          (with_db
             (with_queue
                (<[Validation.mm_transactionId data :=
                     new_row w make_move (Some (Validation.mm_playerAddress data))
                       (Validation.make_move_data data)
                       (JS.or_null (Validation.mm_gameId data)) None]>
                   (transaction_queue (db w))) (db w)) w))).
Proof.
  intros Hvalid Hstatus Hfree Hfaults.
  unfold SocketServer.on_make_move. cbv zeta. rewrite Hvalid, Hstatus.
  unfold try_catch. unfold bind at 1. unfold lift_outcome at 1.
  unfold bind at 1.
  rewrite addToQueue_inserts;
    [|unfold no_faults; rewrite Hfaults; repeat constructor|exact Hfree|reflexivity].
  cbn [bool_decide decide_rel]. unfold Database.status_eqb.
  rewrite !bool_decide_eq_true_2 by reflexivity.
  unfold bind at 1. unfold Database.updateTransactionStatus, pool_query, next_fault.
  cbn [faults with_db with_faults]. rewrite Hfaults. cbn [tail].
  destruct w. cbn in *. subst. reflexivity.
Qed.

(** A move that waits for its game can stay pending. When a valid
    [transaction:make_move] request with the status
    [waiting_for_object_id] is inserted and the update that would set the
    row to that status fails, the handler answers with the error of the
    update, and the row stays in the queue as it was inserted: pending,
    ready for the worker of the player. *)
Theorem failed_waiting_move_stays_pending (env : Env) (w : World)
    (data : Validation.MakeMoveRequest) (msg : string) (rest : list (option string)) :
  Validation.validateMakeMove data = Ok data ->
  Validation.mm_status data = Some "waiting_for_object_id" ->
  transaction_queue (db w) !! Validation.mm_transactionId data = None ->
  faults w = None :: Some msg :: rest ->
  transaction_queue (db (snd (SocketServer.on_make_move data env w)))
  = <[Validation.mm_transactionId data :=
        new_row w make_move (Some (Validation.mm_playerAddress data))
          (Validation.make_move_data data)
          (JS.or_null (Validation.mm_gameId data)) None]>
      (transaction_queue (db w))
  /\ status_of (snd (SocketServer.on_make_move data env w))
       (Validation.mm_transactionId data) = Some pending
  /\ trace (snd (SocketServer.on_make_move data env w))
     = (trace w ++ [error_event (Validation.mm_transactionId data) msg])%list.
Proof.
  intros Hvalid Hstatus Hfree Hfaults.
  rewrite (failed_waiting_move_run env w data msg rest Hvalid Hstatus Hfree Hfaults).
  cbn [snd]. split; [destruct (db w); reflexivity|]. split; [|reflexivity].
  unfold status_of. cbn. rewrite lookup_insert_eq. reflexivity.
Qed.

Lemma failed_waiting_move_stays_pending_witness :
  status_of
    (snd (SocketServer.on_make_move (Sample.waiting_move (Some "g1") "")
            Sample.env
            (with_faults [None; Some "connection terminated"] Sample.empty_world)))
    "t2" = Some pending.
Proof.
  apply (failed_waiting_move_stays_pending Sample.env
           (with_faults [None; Some "connection terminated"] Sample.empty_world)
           (Sample.waiting_move (Some "g1") "") "connection terminated" []);
    reflexivity.
Defined.

End SocketFacts.


(** ** The [nftMint] handler of [services/socket-server.ts] *)

Module NftMintFacts.
Import MFacts RunFacts RewardFacts DatabaseFacts IntakeFacts QueueInvariantFacts
  FrameFacts StoreFacts AttemptFacts EligibilityFacts.

Lemma limit_1_nil_iff {A} (l : list A) : Database.limit_1 l = [] <-> l = [].
Proof. destruct l; split; intros H; try reflexivity; discriminate. Qed.

Lemma reward_data_badge (address : string) (reward : RewardService.RewardConfig) :
  SocketServer.reward_data address reward !! "badgeType"
  = Some (JS.JStr (RewardService.badge_type reward)).
Proof.
  unfold SocketServer.reward_data.
  rewrite lookup_insert_ne by discriminate. apply lookup_insert_eq.
Qed.

(** steps 3 to 6 of the handler, when the four queries do not fail and the
    id of the task is free *)
Lemma enqueue_reward_run (env : Env) (w : World)
    (playerId address suffix : string) (reward : RewardService.RewardConfig) :
  no_faults 4 w ->
  JS.truthy_string playerId = true ->
  JS.truthy_string address = true ->
  JS.truthy_string (RewardService.badge_type reward) = true ->
  transaction_queue (db w)
    !! mint_task_id playerId (RewardService.badge_type reward) suffix = None ->
  exists w',
    SocketServer.enqueue_reward playerId address suffix reward env w = (Ok tt, w')
    /\ match List.filter (Database.reward_matches playerId
                            (Some (RewardService.badge_type reward)))
                         (rewards (db w)) with
       | _ :: _ => db w' = db w /\ trace w' = trace w
       | [] =>
           match Database.select_queue
                   (RewardService.in_queue_cond playerId address
                      (RewardService.badge_type reward))
                   (transaction_queue (db w)) with
           | _ :: _ =>
               db w' = db w
               /\ trace w'
                  = (trace w
                     ++ [Emit ToSocket "error"
                           [("error",
                             JS.JStr ("Reward already in queue: playerId=" ++ playerId
                                      ++ ", badgeType="
                                      ++ RewardService.badge_type reward))]])%list
           | [] =>
               trace w'
               = (trace w
                  ++ [mint_task_queued playerId address
                        (RewardService.badge_type reward)
                        (mint_task_id playerId (RewardService.badge_type reward)
                           suffix)])%list
               /\ match Database.select_queue
                          (Database.duplicate_mint_cond (Some address) (Some playerId)
                             (Some (RewardService.badge_type reward)))
                          (transaction_queue (db w)) with
                  | _ :: _ => db w' = db w
                  | [] =>
                      db w'
                      = with_queue
                          (<[mint_task_id playerId (RewardService.badge_type reward)
                               suffix :=
                               new_row w mint_nft (Some address)
                                 (SocketServer.reward_data address reward) None
                                 (Some playerId)]>
                             (transaction_queue (db w))) (db w)
                  end
           end
       end.
Proof.
  intros Hf Hp Ha Hb Hfree.
  unfold SocketServer.enqueue_reward. cbv zeta.
  unfold bind at 1.
  rewrite pool_query_run by (apply (no_faults_next 3), Hf). cbn [fst snd].
  set (w1 := with_db (db w) (with_faults (tail (faults w)) w)).
  assert (no_faults 3 w1) as Hf1 by (apply no_faults_tail, Hf).
  assert (db w1 = db w) as Hdb1 by (destruct (db w); reflexivity).
  destruct (List.filter _ (rewards (db w))) as [|x l].
  2:{ exists w1. split; [reflexivity|]. split; [exact Hdb1|reflexivity]. }
  cbn [Database.limit_1 firstn].
  unfold bind at 1. unfold RewardService.isRewardInQueue. unfold bind at 1.
  rewrite pool_query_run by (apply (no_faults_next 2), Hf1). cbn [fst snd].
  set (w2 := with_db (db w1) (with_faults (tail (faults w1)) w1)).
  assert (no_faults 2 w2) as Hf2 by (apply no_faults_tail, Hf1).
  assert (db w2 = db w) as Hdb2 by (destruct (db w); reflexivity).
  rewrite Hdb1.
  destruct (Database.select_queue (RewardService.in_queue_cond _ _ _) _) as [|y l'].
  2:{ eexists. split; [reflexivity|]. split; [exact Hdb2|reflexivity]. }
  cbn [Database.limit_1 firstn ret fst snd].
  unfold bind at 1. unfold Database.addToQueue. cbv zeta.
  cbn [Database.is_mint_nft JS.truthy_opt andb].
  rewrite Ha, Hp, reward_data_badge. cbn [andb JS.truthy JS.text]. rewrite Hb.
  unfold bind at 1.
  rewrite pool_query_run by (apply (no_faults_next 1), Hf2). cbn [fst snd].
  set (w3 := with_db (db w2) (with_faults (tail (faults w2)) w2)).
  assert (no_faults 1 w3) as Hf3 by (apply no_faults_tail, Hf2).
  assert (db w3 = db w) as Hdb3 by (destruct (db w); reflexivity).
  rewrite Hdb2.
  destruct (Database.select_queue (Database.duplicate_mint_cond _ _ _) _) as [|z l''].
  2:{ eexists. split; [reflexivity|]. split; [reflexivity|exact Hdb3]. }
  cbn [Database.limit_1 firstn].
  rewrite pool_query_run by (apply (no_faults_next 0), Hf3).
  unfold Database.insert_queue. rewrite Hdb3.
  fold (mint_task_id playerId (RewardService.badge_type reward) suffix).
  rewrite Hfree. cbn [fst snd].
  eexists. split; [reflexivity|]. split; [reflexivity|].
  destruct (db w); reflexivity.
Qed.

(** Steps 3 to 6 of the [nftMint] handler: a badge is queued once. When
    the queries do not fail and the id of the task is free, a badge that
    the table of rewards records for the player is skipped in silence; a
    badge with a pending or processing mint of the player in the queue is
    refused with an error to the socket; otherwise [mint-task-queued] is
    sent to the room of the player, and the row of the task is inserted,
    unless the queue holds a completed mint of the badge for the player:
    then [addToQueue] drops the row, and the task that is announced is
    not in the queue. *)
Theorem nft_task_is_queued_once (env : Env) (w : World)
    (playerId address suffix : string) (reward : RewardService.RewardConfig) :
  no_faults 4 w ->
  JS.truthy_string playerId = true ->
  JS.truthy_string address = true ->
  JS.truthy_string (RewardService.badge_type reward) = true ->
  transaction_queue (db w)
    !! mint_task_id playerId (RewardService.badge_type reward) suffix = None ->
  (List.filter (Database.reward_matches playerId
                  (Some (RewardService.badge_type reward)))
               (rewards (db w)) <> [] ->
   db (snd (SocketServer.enqueue_reward playerId address suffix reward env w)) = db w
   /\ trace (snd (SocketServer.enqueue_reward playerId address suffix reward env w))
      = trace w)
  /\ (List.filter (Database.reward_matches playerId
                     (Some (RewardService.badge_type reward)))
                  (rewards (db w)) = [] ->
      Database.select_queue
        (RewardService.in_queue_cond playerId address
           (RewardService.badge_type reward))
        (transaction_queue (db w)) <> [] ->
      db (snd (SocketServer.enqueue_reward playerId address suffix reward env w))
      = db w
      /\ trace (snd (SocketServer.enqueue_reward playerId address suffix reward env w))
         = (trace w
            ++ [Emit ToSocket "error"
                  [("error",
                    JS.JStr ("Reward already in queue: playerId=" ++ playerId
                             ++ ", badgeType="
                             ++ RewardService.badge_type reward))]])%list)
  /\ (List.filter (Database.reward_matches playerId
                     (Some (RewardService.badge_type reward)))
                  (rewards (db w)) = [] ->
      Database.select_queue
        (RewardService.in_queue_cond playerId address
           (RewardService.badge_type reward))
        (transaction_queue (db w)) = [] ->
      Database.select_queue
        (Database.duplicate_mint_cond (Some address) (Some playerId)
           (Some (RewardService.badge_type reward)))
        (transaction_queue (db w)) <> [] ->
      db (snd (SocketServer.enqueue_reward playerId address suffix reward env w))
      = db w
      /\ trace (snd (SocketServer.enqueue_reward playerId address suffix reward env w))
         = (trace w
            ++ [mint_task_queued playerId address (RewardService.badge_type reward)
                  (mint_task_id playerId (RewardService.badge_type reward)
                     suffix)])%list)
  /\ (List.filter (Database.reward_matches playerId
                     (Some (RewardService.badge_type reward)))
                  (rewards (db w)) = [] ->
      Database.select_queue
        (Database.duplicate_mint_cond (Some address) (Some playerId)
           (Some (RewardService.badge_type reward)))
        (transaction_queue (db w)) = [] ->
      Database.select_queue
        (RewardService.in_queue_cond playerId address
           (RewardService.badge_type reward))
        (transaction_queue (db w)) = [] ->
      db (snd (SocketServer.enqueue_reward playerId address suffix reward env w))
      = with_queue
          (<[mint_task_id playerId (RewardService.badge_type reward) suffix :=
               new_row w mint_nft (Some address)
                 (SocketServer.reward_data address reward) None (Some playerId)]>
             (transaction_queue (db w))) (db w)
      /\ trace (snd (SocketServer.enqueue_reward playerId address suffix reward env w))
         = (trace w
            ++ [mint_task_queued playerId address (RewardService.badge_type reward)
                  (mint_task_id playerId (RewardService.badge_type reward)
                     suffix)])%list).
Proof.
  intros Hf Hp Ha Hb Hfree.
  destruct (enqueue_reward_run env w playerId address suffix reward Hf Hp Ha Hb Hfree)
    as (w' & Hrun & Hcases).
  rewrite Hrun. cbn [snd].
  split; [|split; [|split]].
  - intros Hminted. destruct (List.filter _ (rewards (db w))); [congruence|].
    exact Hcases.
  - intros Hminted Hwaiting. rewrite Hminted in Hcases.
    destruct (Database.select_queue (RewardService.in_queue_cond _ _ _) _);
      [congruence|].
    exact Hcases.
  - intros Hminted Hwaiting Hkept. rewrite Hminted, Hwaiting in Hcases.
    destruct Hcases as [Htrace Hcases].
    destruct (Database.select_queue (Database.duplicate_mint_cond _ _ _) _);
      [congruence|].
    split; [exact Hcases|exact Htrace].
  - intros Hminted Hkept Hwaiting. rewrite Hminted, Hwaiting, Hkept in Hcases.
    destruct Hcases as [Htrace Hcases]. split; [exact Hcases|exact Htrace].
Qed.

Lemma nft_task_is_queued_once_witness :
  db (snd (SocketServer.enqueue_reward "p1" "0xA" "s"
             (RewardService.mkRewardConfig "wins" 1 "first_game_won" "First game won"
                "d" "u")
             Sample.env (Sample.world_of unrecorded_badge_db)))
  = db (Sample.world_of unrecorded_badge_db)
  /\ trace (snd (SocketServer.enqueue_reward "p1" "0xA" "s"
                   (RewardService.mkRewardConfig "wins" 1 "first_game_won"
                      "First game won" "d" "u")
                   Sample.env (Sample.world_of unrecorded_badge_db)))
     = [mint_task_queued "p1" "0xA" "first_game_won" "mint_nft-p1-first_game_won-s"].
Proof.
  apply (nft_task_is_queued_once Sample.env (Sample.world_of unrecorded_badge_db)
           "p1" "0xA" "s"
           (RewardService.mkRewardConfig "wins" 1 "first_game_won" "First game won"
              "d" "u")).
  - constructor.
  - reflexivity.
  - reflexivity.
  - reflexivity.
  - vm_compute. reflexivity.
  - reflexivity.
  - vm_compute. reflexivity.
  - vm_compute. discriminate.
Defined.

(** the badge that [next_wins_reward] chooses is in the catalogue and is
    not earned *)
Lemma next_wins_reward_catalogue (wins : Z) (reward_set : list (option string))
    (badge : string) :
  RewardService.next_wins_reward wins reward_set = Some badge ->
  RewardService.earned reward_set badge = false
  /\ JS.truthy_string badge = true
  /\ RewardService.getRewardByBadgeType "wins" = None
  /\ exists reward,
       RewardService.getRewardByBadgeType badge = Some reward
       /\ RewardService.badge_type reward = badge.
Proof.
  unfold RewardService.next_wins_reward.
  cbn [RewardService.rewardsList List.filter RewardService.check String.eqb
       Ascii.eqb Bool.eqb].
  destruct (List.find _ _) as [next|] eqn:Hfind; [|discriminate].
  apply find_some in Hfind as [Hin Hearned].
  destruct (RewardService.value next <=? wins); [|discriminate].
  intros [= <-].
  split; [destruct (RewardService.earned _ _); [discriminate|reflexivity]|].
  simpl in Hin.
  destruct Hin as [<-|[<-|[<-|[<-|[]]]]];
    (split; [reflexivity|]); (split; [reflexivity|]);
    eexists; split; reflexivity.
Qed.

Lemma not_earned_no_row (d : Database) (playerId badge : string) :
  RewardService.earned (Spec.reward_set d playerId) badge = false ->
  List.filter (Database.reward_matches playerId (Some badge)) (rewards d) = [].
Proof.
  unfold RewardService.earned, Spec.reward_set, Database.reward_matches.
  induction (rewards d) as [|r l IH]; [reflexivity|].
  cbn [List.filter].
  destruct (String.eqb (reward_player_id r) playerId); cbn [andb List.map existsb].
  - intros H. apply orb_false_iff in H as [Hr Hl].
    assert (JS.sql_eq (reward_type r) (Some badge) = false) as ->.
    { unfold JS.sql_eq. destruct (reward_type r) as [t|]; [|reflexivity].
      apply String.eqb_neq. intros ->.
      rewrite bool_decide_eq_true_2 in Hr by reflexivity. discriminate. }
    apply IH, Hl.
  - exact IH.
Qed.

Lemma player_found (d : Database) (address playerId : string) :
  Spec.player_of d address = Some playerId ->
  Database.limit_1
    (List.filter (fun p => String.eqb (player_row_id p) playerId
                           && String.eqb (sui_address p) address) (players d))
  <> [].
Proof.
  unfold Spec.player_of. intros H.
  destruct (List.find _ (players d)) as [p|] eqn:Hfind; [|discriminate].
  injection H as H. apply find_some in Hfind as [Hin Haddr].
  rewrite limit_1_filter.
  destruct (List.find (fun p0 => _ && _) (players d)) eqn:Hnone; [discriminate|].
  exfalso. apply (find_none _ _ Hnone) in Hin.
  rewrite H, String.eqb_refl, Haddr in Hin. discriminate.
Qed.

Lemma in_queue_is_kept (playerId address badge : string)
    (q : gmap string QueueRow) :
  Database.select_queue
    (Database.duplicate_mint_cond (Some address) (Some playerId) (Some badge)) q = [] ->
  Database.select_queue (RewardService.in_queue_cond playerId address badge) q = [].
Proof.
  unfold Database.select_queue.
  induction (map_to_list q) as [|[i r] l IH]; [reflexivity|].
  cbn [List.filter fst snd].
  destruct (Database.duplicate_mint_cond _ _ _ i r) eqn:Hd; [discriminate|].
  intros H.
  assert (RewardService.in_queue_cond playerId address badge i r = false) as ->.
  { revert Hd. unfold Database.duplicate_mint_cond, RewardService.in_queue_cond,
      Database.status_eqb.
    destruct (Database.is_mint_nft _); [|reflexivity].
    destruct (JS.sql_eq (player_sui_address r) _);
      destruct (JS.sql_eq (player_id r) _);
      destruct (JS.sql_eq _ (Some badge));
      destruct (status r); cbn; try congruence; intros _; rewrite !bool_decide_eq_false_2 by discriminate; reflexivity. }
  apply IH, H.
Qed.

(** the run of the handler for the type [wins] *)
Lemma nftMint_wins_run (env : Env) (w : World)
    (playerId address suffix badge : string) (v : VictoryRow) :
  calm w ->
  JS.truthy_string playerId = true ->
  JS.truthy_string address = true ->
  Spec.player_of (db w) address = Some playerId ->
  Spec.victories_row (db w) address = Some v ->
  RewardService.next_wins_reward (default 0 (total v))
    (Spec.reward_set (db w) playerId) = Some badge ->
  Database.select_queue
    (Database.duplicate_mint_cond (Some address) (Some playerId) (Some badge))
    (transaction_queue (db w)) = [] ->
  transaction_queue (db w) !! mint_task_id playerId badge suffix = None ->
  exists reward w',
    RewardService.getRewardByBadgeType badge = Some reward
    /\ SocketServer.on_nftMint (SocketServer.mkNftMint playerId address "wins")
         suffix env w = (Ok tt, w')
    /\ db w'
       = with_queue
           (<[mint_task_id playerId badge suffix :=
                new_row w mint_nft (Some address)
                  (SocketServer.reward_data address reward) None (Some playerId)]>
              (transaction_queue (db w))) (db w)
    /\ trace w'
       = (trace w
          ++ [mint_task_queued playerId address badge
                (mint_task_id playerId badge suffix)])%list.
Proof.
  intros Hcalm Hp Ha Hplayer Hvictories Hnext Hkept Hfree.
  destruct (next_wins_reward_catalogue _ _ _ Hnext)
    as (Hearned & Hb & Hwins & reward & Hreward & Hbadge).
  exists reward.
  unfold SocketServer.on_nftMint. cbv zeta.
  cbn [SocketServer.nm_playerId SocketServer.nm_playerSuiAddress
       SocketServer.nm_rewardType].
  rewrite Hp, Ha, Hwins.
  change (negb true || negb true || negb (JS.truthy_string "wins")) with false.
  cbv iota.
  set (w1 := with_db (db w) (with_faults (tail (faults w)) w)).
  assert (calm w1) as Hcalm1 by (apply calm_tail, Hcalm).
  pose proof (player_found (db w) address playerId Hplayer) as Hfound.
  destruct (shouldEarnReward_wins_run env w1 address (calm_no_faults 3 w1 Hcalm1))
    as (w2 & Hrun2 & Hdb2).
  pose proof (frame_shouldEarnReward env
                (fun w0 => calm w0 /\ trace w0 = trace w /\ clock w0 = clock w)
                (fun w0 H => conj (calm_faults w0 (proj1 H)) (proj2 H))
                address "wins" w1 (conj Hcalm1 (conj eq_refl eq_refl))) as Hkeeps.
  rewrite Hrun2 in Hkeeps. cbn [snd] in Hkeeps.
  destruct Hkeeps as (Hcalm2 & Htrace2 & Hclock2).
  assert (db w1 = db w) as Hdb1 by (destruct (db w); reflexivity).
  rewrite Hdb1 in Hrun2, Hdb2. rewrite Hplayer, Hvictories, Hnext in Hrun2.
  assert (transaction_queue (db w2)
            !! mint_task_id playerId (RewardService.badge_type reward) suffix = None)
    as Hfree2 by (rewrite Hdb2, Hbadge; exact Hfree).
  assert (JS.truthy_string (RewardService.badge_type reward) = true) as Hb2
    by (rewrite Hbadge; exact Hb).
  destruct (enqueue_reward_run env w2 playerId address suffix reward
              (calm_no_faults 4 w2 Hcalm2) Hp Ha Hb2 Hfree2)
    as (w3 & Hrun3 & Hcases).
  rewrite Hdb2, Hbadge in Hcases.
  rewrite (not_earned_no_row (db w) playerId badge Hearned) in Hcases.
  rewrite (in_queue_is_kept playerId address badge _ Hkept), Hkept in Hcases.
  destruct Hcases as [Htrace3 Hdb3].
  exists w3. split; [exact Hreward|]. split; [|split].
  - apply try_ok.
    unfold bind at 1. rewrite (query_calm _ env w Hcalm).
    cbn [fst snd]. fold w1.
    destruct (Database.limit_1 _) as [|player rest]; [contradiction|].
    unfold bind at 1. rewrite Hrun2.
    rewrite Hb. cbn [negb]. rewrite Hreward. exact Hrun3.
  - rewrite Hdb3. unfold new_row. rewrite Hclock2. reflexivity.
  - rewrite Htrace3, Htrace2. reflexivity.
Qed.

(** Asking for [wins] queues the next badge. When the store does not
    fail, a [nftMint] request of the type [wins] from a player who exists,
    whose victories reach the threshold of the first badge of the kind
    that the player has not earned, and who has no pending, processing or
    completed mint of that badge in the queue, inserts one pending
    [mint_nft] row for the player with the catalogue entry of that badge
    as its payload, and announces the task to the room of the player. *)
Theorem wins_request_queues_the_next_badge (env : Env) (w : World)
    (playerId address suffix badge : string) (v : VictoryRow) :
  calm w ->
  JS.truthy_string playerId = true ->
  JS.truthy_string address = true ->
  Spec.player_of (db w) address = Some playerId ->
  Spec.victories_row (db w) address = Some v ->
  RewardService.next_wins_reward (default 0 (total v))
    (Spec.reward_set (db w) playerId) = Some badge ->
  Database.select_queue
    (Database.duplicate_mint_cond (Some address) (Some playerId) (Some badge))
    (transaction_queue (db w)) = [] ->
  transaction_queue (db w) !! mint_task_id playerId badge suffix = None ->
  exists reward,
    RewardService.getRewardByBadgeType badge = Some reward
    /\ transaction_queue
         (db (snd (SocketServer.on_nftMint
                     (SocketServer.mkNftMint playerId address "wins") suffix env w)))
       = <[mint_task_id playerId badge suffix :=
             mkRow mint_nft (Some address) None (Some playerId) pending
               (SocketServer.reward_data address reward) None (clock w) (clock w)
               None 0]>
           (transaction_queue (db w))
    /\ other_tables
         (db (snd (SocketServer.on_nftMint
                     (SocketServer.mkNftMint playerId address "wins") suffix env w)))
       = other_tables (db w)
    /\ trace (snd (SocketServer.on_nftMint
                     (SocketServer.mkNftMint playerId address "wins") suffix env w))
       = (trace w
          ++ [mint_task_queued playerId address badge
                (mint_task_id playerId badge suffix)])%list.
Proof.
  intros Hcalm Hp Ha Hplayer Hvictories Hnext Hkept Hfree.
  destruct (nftMint_wins_run env w playerId address suffix badge v
              Hcalm Hp Ha Hplayer Hvictories Hnext Hkept Hfree)
    as (reward & w' & Hreward & Hrun & Hdb & Htrace).
  exists reward. rewrite Hrun. cbn [snd]. rewrite Hdb.
  split; [exact Hreward|]. split; [|split; [|exact Htrace]].
  - unfold new_row, JS.or_null, JS.truthy_opt. rewrite Hp. reflexivity.
  - reflexivity.
Qed.

Lemma wins_request_queues_the_next_badge_witness :
  exists reward,
    RewardService.getRewardByBadgeType "10_games_won" = Some reward
    /\ transaction_queue
         (db (snd (SocketServer.on_nftMint
                     (SocketServer.mkNftMint "p1" "0xA" "wins") "s" Sample.env
                     (Sample.world_of Sample.winner_db))))
       = <["mint_nft-p1-10_games_won-s" :=
             mkRow mint_nft (Some "0xA") None (Some "p1") pending
               (SocketServer.reward_data "0xA" reward) None 0 0 None 0]> ∅.
Proof.
  destruct (wins_request_queues_the_next_badge Sample.env
              (Sample.world_of Sample.winner_db) "p1" "0xA" "s" "10_games_won"
              (mkVictory "0xA" (Some 12)))
    as (reward & Hreward & Hqueue & _).
  - constructor.
  - reflexivity.
  - reflexivity.
  - reflexivity.
  - reflexivity.
  - reflexivity.
  - reflexivity.
  - reflexivity.
  - exists reward. split; [exact Hreward|exact Hqueue].
Defined.

End NftMintFacts.
